(* ===== verification/_CoqProject ===== *)
-Q . S2P
Prelude.v
Common.v
Frame.v
Ledger.v
Testing.v
StakingTypes.v
Staking.v
StakingCalls.v
StakingEras.v
StakingBooks.v
StakingSteps.v
StakingReach.v
StakingMock.v
StakingTests.v
StakingBenchmarks.v
Supply.v
StakingScenarios.v
StakingHistory.v
StakingClock.v
StakingSpec.v
StakingSolvency.v
StakingSettlement.v
StakingPot.v
StakingLaws.v
StakingLiveness.v
Registration.v
Dapi.v
DapiTests.v
DapiLaws.v
ValidatorSet.v
ValidatorSetTests.v
ValidatorSetBenchmarks.v
ValidatorSetLaws.v
ValidatorSetReserves.v
BlockReward.v
BlockRewardTests.v
Weights.v
Runtime.v
RuntimeLaws.v
RuntimeReach.v
RuntimeRefines.v
PalletGenesis.v
ChainSpec.v
RuntimeFlows.v
RuntimeTx.v
LocalRuntime.v
NodeCli.v
RuntimeConfig.v
RuntimeApi.v
RuntimeAuthorities.v
RuntimeBlocks.v
NodeService.v
NodeMain.v
RuntimeScenarios.v
RuntimeChains.v
RuntimeLayout.v
MockConfig.v
