(* ===== verification/Prelude.v ===== *)
(** * MassBit Chain: a verification library

    The repository is a Substrate chain: four pallets, two runtimes that wire
    them together, and a node.  Consumers pay for dAPI projects, providers bond
    tokens and are staked on by delegators, validators author blocks; payments
    and block rewards flow to the validators' pot and, era by era, to providers
    and delegators.  This development models the pallets, their mocks, tests and
    benchmarks, the runtimes' wiring and the node's choice and start-up of a
    runtime in the kernel and proves what they keep.

    ** The program and the files

    - pallets/dapi-staking/src/types.rs: [StakingTypes].  The stake history
      [Delegation] ([stake], [unstake], [claim]), the unbonding queue
      ([Module Unbonding]) and the era clock ([Module EraInfo]).
    - pallets/dapi-staking/src/lib.rs and traits.rs: [Staking] (storage as the
      record [State], one definition per dispatchable, hook and helper),
      [StakingCalls] (what a successful call did, failing calls are atomic),
      [StakingEras] (era changes as map updates), [StakingBooks] (the
      invariant), [StakingSteps] (every operation keeps it), [StakingReach]
      (step relation, reachable states), [StakingHistory] (facts about sequences
      of steps), [StakingClock] (the era as a function of the block number),
      [StakingSpec] (an abstract specification of the pallet and the refinement),
      [StakingSolvency] (what is paid and what can still be claimed of an era),
      [StakingSettlement] (what is due to each claimant stays due until paid),
      [StakingPot] (the pallet's account can pay every reward), [StakingLaws]
      (functional behaviour), [StakingLiveness] (unstaked funds can be withdrawn,
      whatever others do), [Supply] and [StakingScenarios] (execution on concrete
      inputs).
    - the trait between the dAPI and the staking pallet: [Registration], a class
      with its contract [RegistrationLaws] and the staking pallet's instance.
    - pallets/dapi/src: [Dapi] and [DapiLaws], proved against the contract only.
    - pallets/validator-set/src: [ValidatorSet], [ValidatorSetLaws] and
      [ValidatorSetReserves] (its part of the reserves it shares with staking).
    - pallets/block-reward/src: [BlockReward].
    - the genesis configs of the pallets with their defaults, and the data of the
      signed extension: [PalletGenesis].
    - the four weights.rs files: [Weights].
    - mock.rs, tests.rs and benchmarks.rs of the pallets, as programs over the
      models that are evaluated: [Testing] (the vocabulary: [assert_ok!],
      [assert_noop!], loops), [StakingMock], [StakingTests], [StakingBenchmarks],
      [ValidatorSetTests], [ValidatorSetBenchmarks], [BlockRewardTests],
      [DapiTests]; the rest of the mocks' runtimes is [MockConfig].
    - common/src/lib.rs: [Common] ([MassbitId] and bytes).
    - runtime/keiko/src/lib.rs and runtime/local/src/lib.rs: [Runtime] (constants
      in [Module Keiko] and [Module Local], the common wiring in
      [Module Runtime]), [RuntimeLaws] (the joint invariant), [RuntimeReach] (the
      chain's step relation), [RuntimeRefines], [RuntimeFlows] (where money goes),
      [RuntimeTx] (block weights, signed transactions), [LocalRuntime] (the local
      runtime's instance), [RuntimeConfig] (the configurations of Substrate's
      pallets), [RuntimeApi] ([impl_runtime_apis!] and the benchmark dispatcher),
      [RuntimeAuthorities] (the validators fit into Aura and GRANDPA),
      [RuntimeBlocks] (whole blocks), [RuntimeLayout] ([construct_runtime!] and the
      type aliases, next to node/src/primitives.rs), [RuntimeScenarios] and
      [RuntimeChains] (concrete chains).
    - node/src/chain_spec: [ChainSpec]; node/src/command.rs and cli.rs: [NodeCli];
      node/src/service.rs and rpc.rs: [NodeService] (programs over the calls to
      Substrate, run against arbitrary answers); [run] of command.rs and
      node/bin/main.rs: [NodeMain], a program over the calls to the command line
      library and the services, which it knows through the class [NodeServices].
    - [Prelude] (this file), [Frame] (origins, errors, and Substrate's interfaces
      as classes with laws) and [Ledger] (a concrete currency and concrete
      percentages that satisfy the laws, for evaluation).

    ** How code becomes definitions

    A dispatchable is a function in the state-and-result monad [M]: it takes the
    pallet's state and returns [Ok] or [Err] with the state it leaves.  Substrate
    of this version does not roll back a failing call, so [Err] carries a state,
    and atomicity ([atomic]) is proved, not built in.  Storage maps are [gmap]s,
    [ValueQuery] reads supply the default, [ensure!] is [ensure], [?] is the
    monad's bind.  Machine integers are [Z] with the width written out:
    [u32_add] wraps, [sat_add] saturates, [checked_add] returns an option.  A
    pallet's environment (the ledger, the other pallets, the block number) is
    part of its state; in the runtime the environments are nested, so that all
    pallets act on one ledger.  The currency, [Perbill], database weights, key
    derivation and session keys belong to Substrate: they are parameters
    ([Currency], [PerbillOps], [DbWeightOps], ...) and the proofs use the laws
    next to them, which [Ledger] shows to be consistent.

    ** What the theorems show

    - Data: [stake], [unstake] and [claim] refine the update of a function from
      eras to amounts; repeated claims enumerate exactly the eras with a stake;
      the queue stays sorted and loses nothing.
    - Specification: the staking pallet refines a book of positions (bonds, stakes,
      unlocking amounts); each call makes exactly the move it asks for, locked
      funds stay locked and no stake evaporates.
    - Books: cached totals equal the sums of the stakes; reserves cover every
      bond, stake and queued amount, in the pallet and for all pallets together
      in the runtime.
    - Rewards: an era is split without loss, paid once per provider and per
      delegator; what was paid for an era and what can still be claimed never
      exceed what was collected; project payments and block rewards arrive in full;
      the pallet's account always holds what it owes plus the rounding, so no claim
      fails for lack of funds; what is due to a claimant for a closed era stays to
      the unit until it is paid out to them, and no step loses any of it (with a
      stake in era 0, which no chain has, it would:
      [StakingSettlement.era_zero_due_lost]).
    - Clock: with consecutive blocks the era is a function of the block number,
      and every era collects the rewards of all of its blocks, neither the first
      nor the last excepted.
    - Errors: failing calls of the pallets write nothing; free calls are let
      into the pool exactly for regulators.
    - Lifecycle: providers move forward only, and the dAPI and the staking pallet
      agree about them; an active provider can always leave.
    - Validators: session changes remove exactly the stale candidates, as far as
      the minimum allows; slashing burns its part of the deposit and frees the
      rest; register and leave is a round trip; on Keiko only root's registrations
      past the call filter make candidates, on the local runtime a new candidate
      stays a validator for a session period unless root withdraws it; while root
      respects the declared maxima every session's validators fit into the
      consensus pallets.
    - Composition: the runtime refines each pallet's own transition system, so
      each pallet's theorems hold in it.
    - Node: chain specifications start a valid chain; for which chains the
      reported version is the one that runs; the start-up calls what the
      configuration asks for and starts the network last or not at all; the command
      line executes the runtime its table chooses, in every call, nothing when it
      does not parse or the runner cannot be created, and passes every failure on.
    - Tests: every test and benchmark that is modelled passes on the models
      ([StakingTests.staking_tests_pass], [ValidatorSetTests.vs_tests_pass] and the
      like), a check of the models against the repository's expectations.
    - Divergences, each proved on a concrete or general state:
      [StakingLaws.leading_zero_blocks_claims], [StakingLaws.claims_can_get_stuck],
      [StakingLaws.bond_less_overflow], [StakingLaws.delegators_exceed_maximum],
      [StakingLaws.blocks_per_era_applies_at_once],
      [Weights.session_weight_swapped], [NodeCli.custom_chain_mismatch].

    ** Assumptions and bounds

    - A step of the staking pallet or of the runtime asks that the total supply
      fits [u128] ([supply_ok]), that the pallet's own account signs nothing, that
      eras are below [u32::MAX], and that [provider_bond_less] is called with an
      amount whose sum with the minimum bond fits [u128] ([call_ok]);
      [StakingLaws.bond_less_overflow] shows why the last one is needed.
    - A candidacy bond, in the genesis config or set by root, leaves at least the
      existential deposit after a slash ([ValidatorSetReserves.survives], asked by
      [RuntimeReach.rt_call_ok] and [RuntimeReach.genesis_ok]); the pallet accepts
      any bond, and the bonds of the chain specifications satisfy it
      ([ChainSpec.chain_specs_start_valid]).
    - Substrate's own pallets are any move of the ledger that lowers no reserve
      ([RuntimeReach.frame_move]).  Calls of the repository's pallets that they
      dispatch are steps of their own: behind the call filter those of
      [pallet_utility]'s batches, past it those that root makes in the name of any
      origin with [pallet_sudo::sudo_as] and [pallet_utility::dispatch_as]
      ([past_filter], an arbitrary predicate in every theorem; the theorems about
      candidates say what they ask of it).  Root does not act for the staking
      pallet's own account, and what it can do outside the pallets' logic is not a
      step: rewriting storage or code ([set_storage], [set_code]) and lowering
      reserves by hand ([set_balance], [force_unreserve]).
    - Loops over collections are structural folds.  Fuel appears three times:
      [binary_search_by] gets the length of the list, which its specification
      shows to be enough; [claims] gets the number of claims to make, which
      [claims_enumerate] bounds by the era; the loops of the tests
      ([Testing.while]) fail when their fuel runs out, so a passing test had
      enough.
    - [StakingPot] starts from an account that holds the minimum balance and the
      rounding of the payouts, and assumes that every reward fits the account and
      that nobody else spends from it ([pot_step]); that nothing
      locks the account's funds is [LiquidPot].
    - [RuntimeBlocks] takes the order of a block from [construct_runtime!] and the
      configurations: author, session change, staking hook, reward, extrinsics
      ([RuntimeLayout.initialize_block_order] compares it with the declaration);
      which account authors a block and when a session ends is arbitrary.
    - [NodeService] assumes nothing of Substrate: its answers are arbitrary and
      may depend on the calls made before.

    ** Not modelled

    Substrate (balances, session, authorship, fees, executive), SCALE encoding
    and storage hashing.  The functions behind the runtime APIs are parameters of
    [RuntimeApi]; of the [Config] implementations of Substrate's own pallets
    [RuntimeConfig] and [MockConfig] have the members that are values or handlers,
    [RuntimeLayout] those that name the types of blocks and accounts; what is left
    names generated types ([Origin], [Call], [Event], [PalletInfo]) or weights of
    Substrate's calls.  [RewardInfo] of pallets/dapi-staking/src/types.rs is
    declared and used nowhere.  Imports, attributes of the macros and the build
    script hold no behaviour.  In [ValidatorSetTests] pallet_session and
    pallet_authorship appear as far as the tests drive them.  The pallets are
    parametric in the identifier type (any countable type); the step relations of
    the pallets and of the runtime allow hooks and extrinsics in any order,
    [RuntimeBlocks] fixes the order inside a block. *)

From Stdlib Require Export ZArith Lia Permutation Sorted.
From stdpp Require Export base strings countable gmap sets list fin_maps.

#[global] Open Scope Z_scope.

(** ** Machine integers

    [u32], [u64] and [u128] values are [Z]; the operations below are the ones
    the pallets use, with the width written out.  Plain [+] is the release
    profile's wrapping addition (Cargo.toml sets no [overflow-checks]). *)

Definition u32_max : Z := 2 ^ 32 - 1.
Definition u64_max : Z := 2 ^ 64 - 1.
Definition u128_max : Z := 2 ^ 128 - 1.

Definition wrap (bits z : Z) : Z := z mod 2 ^ bits.

Definition u32_add (a b : Z) : Z := wrap 32 (a + b).
Definition u32_sub (a b : Z) : Z := wrap 32 (a - b).
Definition u64_add (a b : Z) : Z := wrap 64 (a + b).
Definition u128_add (a b : Z) : Z := wrap 128 (a + b).
Definition u128_sub (a b : Z) : Z := wrap 128 (a - b).

(** [saturating_add] and [saturating_sub] at a width given by its maximum. *)
Definition sat_add (max a b : Z) : Z := Z.min (a + b) max.
Definition sat_sub (a b : Z) : Z := Z.max (a - b) 0.
Definition sat_mul (max a b : Z) : Z := Z.min (a * b) max.

(** [checked_add] at a width given by its maximum. *)
Definition checked_add (max a b : Z) : option Z :=
  if a + b <=? max then Some (a + b) else None.

(** [checked_sub] of unsigned integers. *)
Definition checked_sub (a b : Z) : option Z :=
  if b <=? a then Some (a - b) else None.

(** [v.len() as u32] *)
Definition len_u32 {A} (l : list A) : Z := wrap 32 (Z.of_nat (length l)).

Definition is_u32 (z : Z) : Prop := 0 <= z <= u32_max.
Definition is_u128 (z : Z) : Prop := 0 <= z <= u128_max.

Lemma wrap_small bits z : 0 <= z < 2 ^ bits → wrap bits z = z.
Proof. apply Z.mod_small. Qed.

Lemma wrap_range bits z : 0 <= bits → 0 <= wrap bits z < 2 ^ bits.
Proof. intros. apply Z.mod_pos_bound, Z.pow_pos_nonneg; lia. Qed.

Lemma u32_add_small a b : 0 <= a + b <= u32_max → u32_add a b = a + b.
Proof. intros. apply wrap_small. unfold u32_max in *. lia. Qed.

Lemma u128_add_small a b : 0 <= a + b <= u128_max → u128_add a b = a + b.
Proof. intros. apply wrap_small. unfold u128_max in *. lia. Qed.

Lemma u32_sub_small a b : 0 <= a - b <= u32_max → u32_sub a b = a - b.
Proof. intros. unfold u32_sub, wrap, u32_max in *. apply Z.mod_small. lia. Qed.
Lemma u32_add_range a b : is_u32 (u32_add a b).
Proof.
  unfold is_u32, u32_max. pose proof (wrap_range 32 (a + b)). unfold u32_add. lia.
Qed.

Lemma checked_add_Some max a b c :
  checked_add max a b = Some c ↔ c = a + b ∧ a + b <= max.
Proof.
  unfold checked_add. destruct (Z.leb_spec (a + b) max); naive_solver lia.
Qed.

Lemma checked_sub_Some a b c : checked_sub a b = Some c ↔ c = a - b ∧ b <= a.
Proof. unfold checked_sub. destruct (Z.leb_spec b a); naive_solver lia. Qed.

Lemma sat_add_small max a b : a + b <= max → sat_add max a b = a + b.
Proof. unfold sat_add. lia. Qed.

Lemma sat_mul_small max a b : a * b <= max → sat_mul max a b = a * b.
Proof. unfold sat_mul. lia. Qed.

Lemma sat_sub_small a b : b <= a → sat_sub a b = a - b.
Proof. unfold sat_sub. lia. Qed.

(** ** Results *)

Inductive result (E A : Type) : Type :=
| Ok (a : A)
| Err (e : E).
Arguments Ok {E A} a.
Arguments Err {E A} e.

Definition is_ok {E A} (r : result E A) : bool :=
  match r with Ok _ => true | Err _ => false end.

(** ** A state monad with errors

    A handler maps the storage to a result and the storage after it.  An error
    does not roll the storage back: that a failing handler has written nothing
    is a theorem about each handler (see [atomic] below), not a feature of the
    monad. *)

Definition M (E W A : Type) : Type := W → result E A * W.

#[global] Instance M_ret E W : MRet (M E W) := λ A a w, (Ok a, w).
#[global] Instance M_bind E W : MBind (M E W) := λ A B f m w,
  match m w with
  | (Ok a, w') => f a w'
  | (Err e, w') => (Err e, w')
  end.

Section monad.
Context {E W : Type}.

Definition throw {A} (e : E) : M E W A := λ w, (Err e, w).
(** Reading the storage. *)
Definition gets {A} (f : W → A) : M E W A := λ w, (Ok (f w), w).
(** Writing the storage. *)
Definition modify (f : W → W) : M E W unit := λ w, (Ok tt, f w).
(** [ensure!(b, e)] *)
Definition ensure (b : bool) (e : E) : M E W unit :=
  if b then mret tt else throw e.
(** [o.ok_or(e)?] *)
Definition ok_or {A} (o : option A) (e : E) : M E W A :=
  match o with Some a => mret a | None => throw e end.
(** [r.map_err(f)?] *)
Definition map_err {E' A} (r : result E' A) (f : E' → E) : M E W A :=
  match r with Ok a => mret a | Err e => throw (f e) end.
(** A primitive of the environment that either changes the state and returns
    a value or fails without an effect. *)
Definition try_update {A} (f : W → result E (A * W)) : M E W A := λ w,
  match f w with
  | Ok (a, w') => (Ok a, w')
  | Err e => (Err e, w)
  end.
(** A primitive of the environment that always succeeds. *)
Definition update {A} (f : W → A * W) : M E W A := λ w, (Ok (f w).1, (f w).2).
(** [for x in l { f(x)?; }] *)
Fixpoint mapM_ {A} (f : A → M E W unit) (l : list A) : M E W unit :=
  match l with
  | [] => mret tt
  | x :: l' => _ ← f x; mapM_ f l'
  end.

(** A loop that threads an accumulator. *)
Fixpoint foldM {A B} (f : B → A → M E W B) (b : B) (l : list A) : M E W B :=
  match l with
  | [] => mret b
  | x :: l' => b' ← f b x; foldM f b' l'
  end.

(** *** Inversion of a run *)

Lemma bind_Ok {A B} (m : M E W A) (f : A → M E W B) w b w' :
  (m ≫= f) w = (Ok b, w') ↔ ∃ a w1, m w = (Ok a, w1) ∧ f a w1 = (Ok b, w').
Proof.
  unfold mbind, M_bind. destruct (m w) as [[a|e] w1]; naive_solver.
Qed.

Lemma bind_Err {A B} (m : M E W A) (f : A → M E W B) w e w' :
  (m ≫= f) w = (Err e, w') ↔
  m w = (Err e, w') ∨ ∃ a w1, m w = (Ok a, w1) ∧ f a w1 = (Err e, w').
Proof.
  unfold mbind, M_bind. destruct (m w) as [[a|e'] w1]; naive_solver.
Qed.

Lemma bind_run_Ok {A B} (m : M E W A) (f : A → M E W B) w a w1 :
  m w = (Ok a, w1) → (m ≫= f) w = f a w1.
Proof. unfold mbind, M_bind. by intros ->. Qed.

Lemma bind_run_Err {A B} (m : M E W A) (f : A → M E W B) w e w1 :
  m w = (Err e, w1) → (m ≫= f) w = (Err e, w1).
Proof. unfold mbind, M_bind. by intros ->. Qed.

Lemma mret_Ok {A} (a b : A) (w w' : W) :
  (mret a : M E W A) w = (Ok b, w') ↔ b = a ∧ w' = w.
Proof. unfold mret, M_ret. naive_solver. Qed.

Lemma ensure_Ok b e (w w' : W) u :
  ensure b e w = (Ok u, w') ↔ b = true ∧ w' = w.
Proof. destruct u, b; unfold ensure, throw, mret, M_ret; naive_solver. Qed.

Lemma ok_or_Ok {A} (o : option A) e (w w' : W) a :
  ok_or o e w = (Ok a, w') ↔ o = Some a ∧ w' = w.
Proof. destruct o; unfold ok_or, throw, mret, M_ret; naive_solver. Qed.

Lemma map_err_Ok {E' A} (r : result E' A) f (w w' : W) a :
  map_err r f w = (Ok a, w') ↔ r = Ok a ∧ w' = w.
Proof. destruct r; unfold map_err, throw, mret, M_ret; naive_solver. Qed.

Lemma gets_Ok {A} (f : W → A) (w w' : W) a :
  gets f w = (Ok a, w') ↔ a = f w ∧ w' = w.
Proof. unfold gets. naive_solver. Qed.

Lemma modify_Ok f (w w' : W) u : modify f w = (Ok u, w') ↔ w' = f w.
Proof. destruct u. unfold modify. naive_solver. Qed.

Lemma try_update_Ok {A} (f : W → result E (A * W)) (w w' : W) a :
  try_update f w = (Ok a, w') ↔ f w = Ok (a, w').
Proof. unfold try_update. destruct (f w) as [[??]|]; naive_solver. Qed.

Lemma update_Ok {A} (f : W → A * W) (w w' : W) a :
  update f w = (Ok a, w') ↔ f w = (a, w').
Proof. unfold update. destruct (f w); naive_solver. Qed.

(** *** Verify first, write last

    [readonly m]: [m] never writes.  [infallible m]: [m] never fails.
    [atomic m]: when [m] fails, the storage is as it was. *)

Definition readonly {A} (m : M E W A) : Prop := ∀ w, (m w).2 = w.
Definition infallible {A} (m : M E W A) : Prop := ∀ w, ∃ a, (m w).1 = Ok a.
Definition atomic {A} (m : M E W A) : Prop :=
  ∀ w e w', m w = (Err e, w') → w' = w.

Lemma readonly_atomic {A} (m : M E W A) : readonly m → atomic m.
Proof. intros Hr w e w' Hm. specialize (Hr w). by rewrite Hm in Hr. Qed.

Lemma infallible_atomic {A} (m : M E W A) : infallible m → atomic m.
Proof.
  intros Hi w e w' Hm. destruct (Hi w) as [a Ha]. by rewrite Hm in Ha.
Qed.

Lemma readonly_bind {A B} (m : M E W A) (f : A → M E W B) :
  readonly m → (∀ a, readonly (f a)) → readonly (m ≫= f).
Proof.
  intros Hm Hf w. unfold mbind, M_bind. specialize (Hm w).
  destruct (m w) as [[a|e] w1]; simpl in *; subst; [apply Hf|done].
Qed.

Lemma infallible_bind {A B} (m : M E W A) (f : A → M E W B) :
  infallible m → (∀ a, infallible (f a)) → infallible (m ≫= f).
Proof.
  intros Hm Hf w. unfold mbind, M_bind. destruct (Hm w) as [a Ha].
  destruct (m w) as [r w1]; simpl in *; subst. apply Hf.
Qed.

Lemma atomic_bind_readonly {A B} (m : M E W A) (f : A → M E W B) :
  readonly m → (∀ a, atomic (f a)) → atomic (m ≫= f).
Proof.
  intros Hm Hf w e w' [Hm'|(a & w1 & Hm' & Hf')]%bind_Err;
    pose proof (Hm w) as Hw; rewrite Hm' in Hw; simpl in Hw; subst; [done|].
  by eapply Hf.
Qed.

Lemma atomic_bind_infallible {A B} (m : M E W A) (f : A → M E W B) :
  atomic m → (∀ a, infallible (f a)) → atomic (m ≫= f).
Proof.
  intros Hm Hf w e w' [Hm'|(a & w1 & _ & Hf')]%bind_Err; [by eapply Hm|].
  destruct (Hf a w1) as [b Hb]. by rewrite Hf' in Hb.
Qed.

Lemma readonly_throw {A} e : readonly (throw e : M E W A).
Proof. done. Qed.
Lemma readonly_mret {A} (a : A) : readonly (mret a : M E W A).
Proof. done. Qed.
Lemma readonly_gets {A} (f : W → A) : readonly (gets f).
Proof. done. Qed.
Lemma readonly_ensure b e : readonly (ensure b e : M E W unit).
Proof. by destruct b. Qed.
Lemma readonly_ok_or {A} (o : option A) e : readonly (ok_or o e : M E W A).
Proof. by destruct o. Qed.
Lemma readonly_map_err {E' A} (r : result E' A) f :
  readonly (map_err r f : M E W A).
Proof. by destruct r. Qed.
Lemma infallible_mret {A} (a : A) : infallible (mret a : M E W A).
Proof. intros w. by exists a. Qed.
Lemma infallible_gets {A} (f : W → A) : infallible (gets f : M E W A).
Proof. intros w. by eexists. Qed.
Lemma infallible_modify f : infallible (modify f : M E W unit).
Proof. intros w. by eexists. Qed.
Lemma infallible_update {A} (f : W → A * W) : infallible (update f : M E W A).
Proof. intros w. by eexists. Qed.
Lemma atomic_try_update {A} (f : W → result E (A * W)) :
  atomic (try_update f : M E W A).
Proof.
  intros w e w'. unfold try_update. destruct (f w) as [[??]|]; naive_solver.
Qed.

Lemma infallible_foldM {A B} (f : B → A → M E W B) b l :
  (∀ b x, infallible (f b x)) → infallible (foldM f b l).
Proof.
  intros Hf. revert b. induction l as [|x l IH]; intros b; [apply infallible_mret|].
  apply infallible_bind; [apply Hf|done].
Qed.

Lemma readonly_mapM_ {A} (f : A → M E W unit) l :
  (∀ x, readonly (f x)) → readonly (mapM_ f l).
Proof.
  intros Hf. induction l as [|x l IH]; [done|].
  apply readonly_bind; [apply Hf|done].
Qed.
End monad.

#[global] Typeclasses Opaque M.
Arguments throw : simpl never.
Arguments gets : simpl never.
Arguments modify : simpl never.
Arguments ensure : simpl never.
Arguments ok_or : simpl never.
Arguments map_err : simpl never.
Arguments try_update : simpl never.
Arguments update : simpl never.

(** [frame] decides the syntactic verify-first-write-last discipline. *)
Create HintDb frame discriminated.
#[export] Hint Resolve readonly_bind readonly_throw readonly_mret readonly_gets
  readonly_ensure readonly_ok_or readonly_map_err readonly_mapM_ : frame.
#[export] Hint Resolve infallible_bind infallible_mret infallible_gets
  infallible_modify infallible_update infallible_foldM : frame.
#[export] Hint Resolve atomic_try_update : frame.

(** Solve the goals [readonly m], [infallible m] and [atomic m] by the structure
    of [m]; the primitives of a component are solved by the database [frame]. *)
Ltac solve_readonly :=
  repeat first
    [ progress intros
    | solve [auto with frame nocore]
    | apply readonly_bind
    | case_match ].

Ltac solve_infallible :=
  repeat first
    [ progress intros
    | solve [auto with frame nocore]
    | apply infallible_bind
    | apply infallible_foldM
    | case_match ].

Ltac solve_atomic :=
  repeat first
    [ progress intros
    | solve [auto with frame nocore]
    | apply atomic_bind_readonly; [solve [solve_readonly]|]
    | apply atomic_bind_infallible; [solve [auto with frame nocore]|solve [solve_infallible]]
    | solve [apply readonly_atomic; solve_readonly]
    | solve [apply infallible_atomic; solve_infallible]
    | case_match ].

(** Inverts a successful run into the facts of its steps. *)
Ltac run_step H :=
  lazymatch type of H with
  | (mbind _ _) _ = (Ok _, _) =>
      let a := fresh "v" in let w := fresh "w" in let H1 := fresh "Hr" in
      apply bind_Ok in H as (a & w & H1 & H); run_step H1; run_step H
  | mret _ _ = (Ok _, _) =>
      apply mret_Ok in H; destruct H; subst
  | ensure _ _ _ = (Ok _, _) =>
      apply ensure_Ok in H; destruct H as [H ?]; subst
  | ok_or _ _ _ = (Ok _, _) =>
      apply ok_or_Ok in H; destruct H as [H ?]; subst
  | map_err _ _ _ = (Ok _, _) =>
      apply map_err_Ok in H; destruct H as [H ?]; subst
  | gets _ _ = (Ok _, _) =>
      apply gets_Ok in H; destruct H; subst
  | modify _ _ = (Ok _, _) => apply modify_Ok in H; subst
  | try_update _ _ = (Ok _, _) => apply try_update_Ok in H
  | update _ _ = (Ok _, _) => apply update_Ok in H
  | _ => idtac
  end.

(** Turns boolean tests of the code into propositions. *)
Ltac propify :=
  repeat match goal with
  | H : (_ && _) = true |- _ => apply andb_true_iff in H; destruct H
  | H : (_ || _) = true |- _ => apply orb_true_iff in H
  | H : (_ || _) = false |- _ => apply orb_false_iff in H; destruct H
  | H : negb _ = true |- _ => apply negb_true_iff in H
  | H : negb _ = false |- _ => apply negb_false_iff in H
  | H : bool_decide _ = true |- _ => apply bool_decide_eq_true in H
  | H : bool_decide _ = false |- _ => apply bool_decide_eq_false in H
  | H : (_ <? _) = true |- _ => apply Z.ltb_lt in H
  | H : (_ <? _) = false |- _ => apply Z.ltb_ge in H
  | H : (_ <=? _) = true |- _ => apply Z.leb_le in H
  | H : (_ <=? _) = false |- _ => apply Z.leb_gt in H
  | H : (_ =? _) = true |- _ => apply Z.eqb_eq in H
  | H : (_ =? _) = false |- _ => apply Z.eqb_neq in H
  | H : checked_add _ _ _ = Some _ |- _ => apply checked_add_Some in H; destruct H
  | H : checked_sub _ _ = Some _ |- _ => apply checked_sub_Some in H; destruct H
  end.

(** ** Sums over finite maps *)

Section msum.
Context `{Countable K} {V : Type}.
Implicit Types (m : gmap K V) (f g : K → V → Z).

(** The sum of [f k v] over the entries of [m]. *)
Definition msum f m : Z := map_fold (λ k v acc, f k v + acc) 0 m.

Lemma msum_empty f : msum f ∅ = 0.
Proof. apply map_fold_empty. Qed.

Lemma msum_insert_None f m k v :
  m !! k = None → msum f (<[k:=v]> m) = f k v + msum f m.
Proof. intros Hk. unfold msum. rewrite map_fold_insert_L; [done|lia|done]. Qed.

Lemma msum_delete f m k :
  msum f (delete k m) = msum f m - from_option (f k) 0 (m !! k).
Proof.
  destruct (m !! k) as [v|] eqn:Hk; simpl.
  - rewrite <-(insert_delete_id m k v) at 2 by done.
    rewrite msum_insert_None by apply lookup_delete_eq. lia.
  - rewrite delete_id by done. lia.
Qed.

Lemma msum_insert f m k v :
  msum f (<[k:=v]> m) = msum f m - from_option (f k) 0 (m !! k) + f k v.
Proof.
  rewrite <-insert_delete_eq, msum_insert_None by apply lookup_delete_eq.
  rewrite msum_delete. lia.
Qed.

Lemma msum_ext f g m :
  (∀ k v, m !! k = Some v → f k v = g k v) → msum f m = msum g m.
Proof.
  induction m as [|k v m Hk IH] using map_ind; intros Hfg.
  - by rewrite !msum_empty.
  - rewrite !msum_insert_None by done. rewrite IH.
    + f_equal. apply Hfg, lookup_insert_eq.
    + intros k' v' Hk'. apply Hfg. rewrite lookup_insert_ne; [done|congruence].
Qed.

Lemma msum_nonneg f m :
  (∀ k v, m !! k = Some v → 0 <= f k v) → 0 <= msum f m.
Proof.
  induction m as [|k v m Hk IH] using map_ind; intros Hf.
  - by rewrite msum_empty.
  - rewrite msum_insert_None by done.
    pose proof (Hf k v (lookup_insert_eq _ _ _)).
    assert (0 <= msum f m); [|lia]. apply IH.
    intros k' v' Hk'. apply Hf. rewrite lookup_insert_ne; [done|congruence].
Qed.

Lemma msum_zero f m :
  (∀ k v, m !! k = Some v → f k v = 0) → msum f m = 0.
Proof.
  intros Hf. rewrite (msum_ext _ (λ _ _, 0)) by done. clear Hf.
  induction m as [|k v m Hk IH] using map_ind; [apply msum_empty|].
  by rewrite msum_insert_None.
Qed.

(** An entry is at most the sum of non-negative entries. *)
Lemma msum_elem_le f m k v :
  m !! k = Some v → (∀ k v, m !! k = Some v → 0 <= f k v) →
  f k v <= msum f m.
Proof.
  intros Hk Hf. rewrite <-(insert_delete_id m k v) by done.
  rewrite msum_insert_None by apply lookup_delete_eq.
  assert (0 <= msum f (delete k m)); [|lia]. apply msum_nonneg.
  intros k' v' [_ Hk']%lookup_delete_Some. by apply Hf.
Qed.

(** The sum when the summand changes at one key only. *)
Lemma msum_change f g m k v :
  m !! k = Some v →
  (∀ k' v', k' ≠ k → m !! k' = Some v' → g k' v' = f k' v') →
  msum g m = msum f m - f k v + g k v.
Proof.
  intros Hk Hfg. rewrite <-(insert_delete_id m k v) by done.
  rewrite !msum_insert_None by apply lookup_delete_eq.
  rewrite (msum_ext g f (delete k m)); [lia|].
  intros k' v' [Hne Hk']%lookup_delete_Some. by apply Hfg.
Qed.
End msum.

(** ** Lists *)

(** [*l.last_mut().unwrap() = x] *)
Definition set_last {A} (l : list A) (x : A) : list A :=
  <[Nat.pred (length l):=x]> l.

Lemma set_last_snoc {A} (l : list A) (x y : A) : set_last (l ++ [y]) x = l ++ [x].
Proof.
  unfold set_last. rewrite length_app. simpl.
  replace (Nat.pred (length l + 1)) with (length l + 0)%nat by lia.
  by rewrite insert_app_r.
Qed.

Lemma last_Some_snoc {A} (l : list A) x : last l = Some x → ∃ l', l = l' ++ [x].
Proof. intros [l' ->]%last_Some. eauto. Qed.

(** The sum of a list of integers. *)
Definition lsum (l : list Z) : Z := foldr Z.add 0 l.

Lemma lsum_app l k : lsum (l ++ k) = lsum l + lsum k.
Proof. induction l as [|x l IH]; simpl; [done|]. unfold lsum in *. simpl. lia. Qed.

Lemma lsum_nonneg l : Forall (λ z, 0 <= z) l → 0 <= lsum l.
Proof. unfold lsum. induction 1; simpl; lia. Qed.

Lemma lsum_permutation l k : l ≡ₚ k → lsum l = lsum k.
Proof. unfold lsum. induction 1; simpl; lia. Qed.

Lemma lsum_cons z l : lsum (z :: l) = z + lsum l.
Proof. done. Qed.
Arguments lsum : simpl never.

Lemma lsum_plus {A} (f g : A → Z) l :
  lsum ((λ a, f a + g a) <$> l) = lsum (f <$> l) + lsum (g <$> l).
Proof. induction l as [|a l IH]; [done|]. rewrite !fmap_cons, !lsum_cons. lia. Qed.

Lemma lsum_mono {A} (f g : A → Z) l :
  (∀ a, a ∈ l → f a <= g a) → lsum (f <$> l) <= lsum (g <$> l).
Proof.
  induction l as [|a l IH]; intros Hfg; [done|]. rewrite !fmap_cons, !lsum_cons.
  pose proof (Hfg a (list_elem_of_here _ _)).
  assert (lsum (f <$> l) <= lsum (g <$> l)); [|lia].
  apply IH. intros b Hb. apply Hfg. by right.
Qed.

(** An amount at one element of a list without duplicates. *)
Lemma lsum_single `{EqDecision A} (a : A) (x : Z) l :
  NoDup l →
  lsum ((λ b, if decide (a = b) then x else 0) <$> l) =
  if decide (a ∈ l) then x else 0.
Proof.
  induction 1 as [|b l Hb _ IH]; [done|]. rewrite fmap_cons, lsum_cons, IH.
  destruct (decide (a = b)) as [->|Hne].
  - rewrite decide_False by done. rewrite decide_True by left. lia.
  - destruct (decide (a ∈ l)) as [Ha|Ha].
    + rewrite decide_True by (by right). done.
    + rewrite decide_False; [done|]. by intros [?|?]%elem_of_cons.
Qed.

(** ** More on sums over finite maps *)

Section msum_more.
Context `{Countable K} {V : Type}.
Implicit Types (m : gmap K V) (f g : K → V → Z).

Lemma msum_plus f g m : msum (λ k v, f k v + g k v) m = msum f m + msum g m.
Proof.
  induction m as [|k v m Hk IH] using map_ind; [by rewrite !msum_empty|].
  rewrite !msum_insert_None, IH by done. lia.
Qed.

Lemma msum_mono f g m :
  (∀ k v, m !! k = Some v → f k v <= g k v) → msum f m <= msum g m.
Proof.
  intros Hfg.
  assert (0 <= msum (λ k v, g k v + - f k v) m) as Hd.
  { apply msum_nonneg. intros k v Hk. specialize (Hfg k v Hk). lia. }
  rewrite (msum_ext g (λ k v, f k v + (g k v + - f k v))) by (intros; lia).
  rewrite msum_plus. lia.
Qed.

Lemma msum_lsum {A} (g : A → K → V → Z) (l : list A) m :
  lsum ((λ a, msum (g a) m) <$> l) =
  msum (λ k v, lsum ((λ a, g a k v) <$> l)) m.
Proof.
  induction l as [|a l IH].
  - rewrite msum_zero; done.
  - rewrite fmap_cons, lsum_cons, IH, <-msum_plus. by apply msum_ext.
Qed.

(** Grouping the entries by a key: the groups listed in [l] add up to the sum
    over the entries whose key is in [l]. *)
Lemma msum_group `{EqDecision A} (key : K → V → A) f (l : list A) m :
  NoDup l →
  lsum ((λ a, msum (λ k v, if decide (key k v = a) then f k v else 0) m) <$> l) =
  msum (λ k v, if decide (key k v ∈ l) then f k v else 0) m.
Proof.
  intros Hl. rewrite (msum_lsum (λ a k v, if decide (key k v = a) then f k v else 0)).
  apply msum_ext. intros k v _. by apply lsum_single.
Qed.

Lemma msum_group_all `{EqDecision A} (key : K → V → A) f (l : list A) m :
  NoDup l → (∀ k v, m !! k = Some v → key k v ∈ l) →
  lsum ((λ a, msum (λ k v, if decide (key k v = a) then f k v else 0) m) <$> l) =
  msum f m.
Proof.
  intros Hl Hin. rewrite msum_group by done. apply msum_ext.
  intros k v Hk. by rewrite decide_True by eauto.
Qed.

Lemma msum_group_le `{EqDecision A} (key : K → V → A) f (l : list A) m :
  NoDup l → (∀ k v, m !! k = Some v → 0 <= f k v) →
  lsum ((λ a, msum (λ k v, if decide (key k v = a) then f k v else 0) m) <$> l) <=
  msum f m.
Proof.
  intros Hl Hf. rewrite msum_group by done. apply msum_mono.
  intros k v Hk. specialize (Hf k v Hk). case_decide; lia.
Qed.

Lemma msum_map_to_list f m :
  msum f m = lsum ((λ kv, f kv.1 kv.2) <$> map_to_list m).
Proof.
  induction m as [|k v m Hk IH] using map_ind; [by rewrite msum_empty, map_to_list_empty|].
  rewrite msum_insert_None by done.
  rewrite (lsum_permutation _ ((λ kv, f kv.1 kv.2) <$> ((k, v) :: map_to_list m))).
  - by rewrite fmap_cons, lsum_cons, IH.
  - by rewrite map_to_list_insert.
Qed.

(** A sum over the entries that depends on the key only. *)
Lemma msum_keys (h : K → Z) m :
  msum (λ k _, h k) m = lsum (h <$> (map_to_list m).*1).
Proof. rewrite msum_map_to_list, <-list_fmap_compose. done. Qed.
End msum_more.

(** The sum with a single key selected. *)
Lemma msum_single `{Countable K} {V} (f : K → V → Z) (m : gmap K V) k :
  msum (λ k' v, if decide (k' = k) then f k' v else 0) m = from_option (f k) 0 (m !! k).
Proof.
  destruct (m !! k) as [v|] eqn:Hk; simpl.
  - rewrite <-(insert_delete_id m k v), msum_insert_None by
      (done || apply lookup_delete_eq).
    rewrite decide_True, msum_zero by done || (intros k' v' [? _]%lookup_delete_Some;
      by rewrite decide_False by congruence). lia.
  - apply msum_zero. intros k' v' Hk'. rewrite decide_False; [done|congruence].
Qed.
