(* ===== verification/Common.v ===== *)
(** * Common types

    common/src/lib.rs: the identifier of projects and providers. *)

From S2P Require Export Prelude.
From Stdlib Require Export Strings.Byte.
From stdpp Require Export countable.

#[global] Instance byte_eq_dec : EqDecision Byte.byte := Byte.byte_eq_dec.
#[global] Instance byte_countable : Countable Byte.byte.
Proof.
  refine (inj_countable Byte.to_N Byte.of_N _). intros b. apply Byte.of_to_N.
Defined.

(** [struct MassbitId([u8; 36])] *)
Definition MassbitId : Type := dsig (λ bytes : list Byte.byte, length bytes = 36%nat).

#[global] Instance MassbitId_eq_dec : EqDecision MassbitId.
Proof. apply _. Defined.
#[global] Instance MassbitId_countable : Countable MassbitId.
Proof. apply _. Defined.

(** [impl Default for MassbitId] *)
Definition MassbitId_default : MassbitId := dexist (replicate 36 Byte.x01) eq_refl.
