(* ===== verification/Frame.v ===== *)
(** * The runtime's shared vocabulary

    The origins and errors of dispatchables (the [Error] enums of the four
    pallets), and the interfaces of the Substrate code the pallets call: the
    currency ([Currency]), fixed-point percentages ([PerbillOps]) and the
    database weights ([DbWeightOps]).  Substrate is not part of the
    repository, so these are parameters; what the proofs rely on is stated as
    the laws [CurrencyLaws] and [PerbillLaws], each documented behaviour of the
    traits. *)

From S2P Require Export Prelude.

(** ** Origins *)

Inductive Origin (AccountId : Type) : Type :=
| Root
| Signed (who : AccountId)
| Unsigned.
Arguments Root {AccountId}.
Arguments Signed {AccountId} who.
Arguments Unsigned {AccountId}.

(** ** Errors *)

(** [pallet_dapi_staking::Error] *)
Module DapiStakingError.
Inductive Error : Type :=
| ProviderDNE
| InsufficientBond
| StakingWithNoValue
| MaxNumberOfStakersExceeded
| NotOperatedProvider
| NotStakedProvider
| UnknownEra
| UnexpectedDelegationInfoEra
| TooManyEraStakeValues
| UnclaimedRewardsRemaining
| UnstakingWithNoValue
| TooManyUnlockingChunks
| NothingToWithdraw
| EraOutOfBounds
| NotOwnedProvider
| AlreadyClaimedInThisEra
| NotUnregisteredProvider
| ProviderExists
| NoWritingSameValue
| CannotSetBelowMin.
End DapiStakingError.

(** [pallet_dapi::Error] *)
Module DapiError.
Inductive Error : Type :=
| ProjectExists
| ProjectDNE
| AlreadyExist
| InactiveProvider
| ProviderDNE
| NotOwner
| PermissionDenied
| InvalidProviderStatus
| InvalidChainId.
End DapiError.

(** [pallet_validator_set::Error] *)
Module ValidatorSetError.
Inductive Error : Type :=
| TooManyCandidates
| TooFewCandidates
| Unknown
| Permission
| AlreadyCandidate
| NotCandidate
| AlreadyInvulnerable
| NoAssociatedValidatorId
| ValidatorNotRegistered.
End ValidatorSetError.

(** [pallet_block_reward::Error] *)
Module BlockRewardError.
Inductive Error : Type :=
| InvalidDistributionConfig.
End BlockRewardError.

Inductive ArithmeticError : Type := Underflow | Overflow | DivisionByZero.

(** [sp_runtime::DispatchError], with the pallets' errors and an opaque error
    of the code outside the repository ([External]). *)
Inductive DispatchError : Type :=
| BadOrigin
| CallFiltered
| Arithmetic (e : ArithmeticError)
| DapiStakingErr (e : DapiStakingError.Error)
| DapiErr (e : DapiError.Error)
| ValidatorSetErr (e : ValidatorSetError.Error)
| BlockRewardErr (e : BlockRewardError.Error)
| External (code : Z).

#[global] Instance DapiStakingError_eq_dec : EqDecision DapiStakingError.Error.
Proof. solve_decision. Defined.
#[global] Instance DapiError_eq_dec : EqDecision DapiError.Error.
Proof. solve_decision. Defined.
#[global] Instance ValidatorSetError_eq_dec : EqDecision ValidatorSetError.Error.
Proof. solve_decision. Defined.
#[global] Instance BlockRewardError_eq_dec : EqDecision BlockRewardError.Error.
Proof. solve_decision. Defined.
#[global] Instance ArithmeticError_eq_dec : EqDecision ArithmeticError.
Proof. solve_decision. Defined.
#[global] Instance DispatchError_eq_dec : EqDecision DispatchError.
Proof. solve_decision. Defined.

Section origin.
Context {AccountId W : Type}.

(** [frame_system::ensure_signed] *)
Definition ensure_signed (o : Origin AccountId) : M DispatchError W AccountId :=
  match o with
  | Signed who => mret who
  | _ => throw BadOrigin
  end.

(** [frame_system::ensure_root] *)
Definition ensure_root (o : Origin AccountId) : M DispatchError W unit :=
  match o with
  | Root => mret tt
  | _ => throw BadOrigin
  end.

Lemma ensure_signed_Ok o (w w' : W) who :
  ensure_signed o w = (Ok who, w') ↔ o = Signed who ∧ w' = w.
Proof. destruct o; unfold ensure_signed, throw, mret, M_ret; naive_solver. Qed.

Lemma ensure_root_Ok o (w w' : W) u :
  ensure_root o w = (Ok u, w') ↔ o = Root ∧ w' = w.
Proof.
  destruct u, o; unfold ensure_root, throw, mret, M_ret; naive_solver.
Qed.

Lemma readonly_ensure_signed o : readonly (ensure_signed o : M _ W _).
Proof. by destruct o. Qed.

Lemma readonly_ensure_root o : readonly (ensure_root o : M _ W _).
Proof. by destruct o. Qed.
End origin.

#[export] Hint Resolve readonly_ensure_signed readonly_ensure_root : frame.
Arguments ensure_signed : simpl never.
Arguments ensure_root : simpl never.

(** ** The currency *)

Inductive ExistenceRequirement : Type := KeepAlive | AllowDeath.

(** [frame_support::traits::{Currency, ReservableCurrency}] over a ledger [L],
    with [Imb] its [NegativeImbalance].  Balances are [u128].  An operation that
    returns [Err] has moved nothing, so the error carries no ledger.
    [drop_imbalance] is the destructor of an imbalance that goes out of scope.
    [withdraw] is the call with [WithdrawReasons::TRANSFER], the only reason
    the pallets use. *)
Class Currency (AccountId Imb L : Type) := {
  minimum_balance : Z;
  free_balance : L → AccountId → Z;
  reserved_balance : L → AccountId → Z;
  total_issuance : L → Z;
  reserve : AccountId → Z → L → result DispatchError (unit * L);
  unreserve : AccountId → Z → L → Z * L;
  slash_reserved : AccountId → Z → L → (Imb * Z) * L;
  withdraw :
    AccountId → Z → ExistenceRequirement → L → result DispatchError (Imb * L);
  transfer :
    AccountId → AccountId → Z → ExistenceRequirement → L →
    result DispatchError (unit * L);
  resolve_creating : AccountId → Imb → L → L;
  issue : Z → L → Imb * L;
  drop_imbalance : Imb → L → L;
  imbalance_zero : Imb;
  peek : Imb → Z;
  split : Imb → Z → Imb * Imb;
  merge : Imb → Imb → Imb
}.

(** The ledger after an operation agrees with the ledger before on every
    account but [who]. *)
Definition only_changes `{Currency AccountId Imb L} (who : AccountId) (l l' : L) :
    Prop :=
  ∀ o, o ≠ who →
    free_balance l' o = free_balance l o ∧
    reserved_balance l' o = reserved_balance l o.

(** Documented behaviour of the currency traits.  An account whose total falls
    below the existential deposit may be reaped, so the exact balances after a
    removal of funds are promised only when the account survives it. *)
Class CurrencyLaws (AccountId Imb L : Type) `{!Currency AccountId Imb L} : Prop := {
  minimum_balance_nonneg : 0 <= minimum_balance;
  free_nonneg : ∀ (l : L) (who : AccountId), 0 <= free_balance l who;
  reserved_nonneg : ∀ (l : L) (who : AccountId), 0 <= reserved_balance l who;
  account_range : ∀ (l : L) (who : AccountId),
    free_balance l who + reserved_balance l who <= u128_max;
  peek_range : ∀ i : Imb, is_u128 (peek i);
  (** "Moves [value] from free to reserved. If the free balance is lower than
      [value], then no funds will be moved and an [Err] returned." *)
  reserve_Ok : ∀ (who : AccountId) v (l l' : L) u,
    0 <= v → reserve who v l = Ok (u, l') →
    free_balance l' who = free_balance l who - v ∧
    reserved_balance l' who = reserved_balance l who + v ∧
    only_changes who l l';
  (** "Moves up to [value] from reserved to free balance. This function cannot
      fail. As much funds up to [value] will be moved; the rest is returned." *)
  unreserve_spec : ∀ (who : AccountId) v (l l' : L) rest,
    0 <= v → unreserve who v l = (rest, l') →
    let moved := Z.min v (reserved_balance l who) in
    rest = v - moved ∧
    free_balance l' who = free_balance l who + moved ∧
    reserved_balance l' who = reserved_balance l who - moved ∧
    only_changes who l l';
  (** "Deducts up to [value] from reserved balance of [who]; returns what could
      not be deducted." *)
  slash_reserved_spec : ∀ (who : AccountId) v (l l' : L) i rest,
    0 <= v → slash_reserved who v l = ((i, rest), l') →
    let moved := Z.min v (reserved_balance l who) in
    peek i = moved ∧ rest = v - moved ∧ only_changes who l l' ∧
    (minimum_balance <= free_balance l who + reserved_balance l who - moved →
     free_balance l' who = free_balance l who ∧
     reserved_balance l' who = reserved_balance l who - moved);
  (** Neither changes the issuance, as long as no account is reaped: the funds move
      inside the account or into the imbalance. *)
  unreserve_issuance : ∀ (who : AccountId) v (l l' : L) rest,
    0 <= v → unreserve who v l = (rest, l') → total_issuance l' = total_issuance l;
  slash_reserved_issuance : ∀ (who : AccountId) v (l l' : L) i rest,
    0 <= v → slash_reserved who v l = ((i, rest), l') →
    minimum_balance <=
      free_balance l who + reserved_balance l who - Z.min v (reserved_balance l who) →
    total_issuance l' = total_issuance l;
  (** "Removes some free balance from [who] account.  If the remaining balance
      would be below the minimum balance, [KeepAlive] fails." *)
  withdraw_Ok : ∀ (who : AccountId) v req (l l' : L) i,
    0 <= v → withdraw who v req l = Ok (i, l') →
    peek i = v ∧ only_changes who l l' ∧
    (req = KeepAlive ∨
     minimum_balance <= free_balance l who + reserved_balance l who - v →
     free_balance l' who = free_balance l who - v ∧
     reserved_balance l' who = reserved_balance l who);
  (** "Transfer some liquid free balance to another staker." *)
  transfer_Ok : ∀ (from to : AccountId) v (l l' : L) u,
    0 <= v → from ≠ to → transfer from to v KeepAlive l = Ok (u, l') →
    free_balance l' from = free_balance l from - v ∧
    free_balance l' to = free_balance l to + v ∧
    (∀ o, reserved_balance l' o = reserved_balance l o) ∧
    (∀ o, o ≠ from → o ≠ to → free_balance l' o = free_balance l o);
  (** "Adds up to [value] to the free balance of [who]": in full unless the
      account would not exist afterwards or overflow. *)
  resolve_creating_spec : ∀ (who : AccountId) i (l : L),
    let l' := resolve_creating who i l in
    reserved_balance l' who = reserved_balance l who ∧
    only_changes who l l' ∧
    (minimum_balance <= free_balance l who + peek i →
     free_balance l who + reserved_balance l who + peek i <= u128_max →
     free_balance l' who = free_balance l who + peek i);
  (** "Increase the total issuance by [amount] and return the according
      imbalance." *)
  issue_spec : ∀ v (l l' : L) i,
    is_u128 v → issue v l = (i, l') →
    (total_issuance l + v <= u128_max →
     peek i = v ∧ total_issuance l' = total_issuance l + v) ∧
    (∀ o, free_balance l' o = free_balance l o ∧
          reserved_balance l' o = reserved_balance l o);
  (** Dropping a negative imbalance reduces the issuance, and nothing else: "will
      just square up the total issuance". *)
  drop_imbalance_spec : ∀ i (l : L) (o : AccountId),
    free_balance (drop_imbalance i l) o = free_balance l o ∧
    reserved_balance (drop_imbalance i l) o = reserved_balance l o;
  drop_imbalance_issuance : ∀ i (l : L),
    total_issuance (drop_imbalance i l) = sat_sub (total_issuance l) (peek i);
  imbalance_zero_peek : peek imbalance_zero = 0;
  (** "Consume [self] and return two independent instances; the first is
      guaranteed to be at most [amount] and the second will be the remainder." *)
  split_spec : ∀ i v j k, 0 <= v → split i v = (j, k) →
    peek j = Z.min v (peek i) ∧ peek k = peek i - peek j;
  (** "Consume [self] and an [other] to return a new instance that combines
      both." *)
  merge_spec : ∀ i j, peek (merge i j) = sat_add u128_max (peek i) (peek j)
}.

(** ** Fixed-point percentages *)

(** [sp_arithmetic::Perbill], parts per billion. *)
Class PerbillOps := {
  Perbill : Type;
  pb_deconstruct : Perbill → Z;
  pb_zero : Perbill;
  pb_one : Perbill;
  pb_from_percent : Z → Perbill;
  pb_from_rational : Z → Z → Perbill;
  pb_mul : Perbill → Z → Z;
  pb_checked_add : Perbill → Perbill → option Perbill;
  pb_eqb : Perbill → Perbill → bool
}.

Definition BILLION : Z := 1000000000.

(** Documented behaviour of [Perbill]: it is a number of parts out of one
    billion, [from_rational] rounds down, and [p * x] rounds the exact product to
    an integer next to it. *)
Class PerbillLaws `{!PerbillOps} : Prop := {
  pb_range : ∀ p, 0 <= pb_deconstruct p <= BILLION;
  pb_zero_parts : pb_deconstruct pb_zero = 0;
  pb_one_parts : pb_deconstruct pb_one = BILLION;
  pb_from_percent_parts : ∀ x, 0 <= x <= 100 →
    pb_deconstruct (pb_from_percent x) = x * 10000000;
  pb_mul_rounds : ∀ p x, 0 <= x →
    Z.abs (pb_mul p x * BILLION - pb_deconstruct p * x) < BILLION;
  (** "Note that this always rounds down." *)
  pb_from_rational_floor : ∀ p q, 0 <= p → 0 < q →
    pb_deconstruct (pb_from_rational p q) * q <= p * BILLION;
  pb_checked_add_spec : ∀ p q,
    match pb_checked_add p q with
    | Some r => pb_deconstruct r = pb_deconstruct p + pb_deconstruct q
    | None => BILLION < pb_deconstruct p + pb_deconstruct q
    end;
  pb_eqb_spec : ∀ p q, pb_eqb p q = true ↔ pb_deconstruct p = pb_deconstruct q
}.

Section perbill.
Context `{PerbillLaws}.

(** A part of an amount is at most the amount. *)
Lemma pb_mul_le p x : 0 <= x → 0 <= pb_mul p x <= x.
Proof.
  intros Hx. pose proof (pb_mul_rounds p x Hx) as Hr. pose proof (pb_range p).
  unfold BILLION in *. nia.
Qed.

Lemma pb_mul_one p x : 0 <= x → pb_deconstruct p = BILLION → pb_mul p x = x.
Proof.
  intros Hx Hp. pose proof (pb_mul_rounds p x Hx) as Hr. rewrite Hp in Hr.
  unfold BILLION in *. lia.
Qed.

Lemma pb_mul_zero p x : 0 <= x → pb_deconstruct p = 0 → pb_mul p x = 0.
Proof.
  intros Hx Hp. pose proof (pb_mul_rounds p x Hx) as Hr. rewrite Hp in Hr.
  unfold BILLION in *. lia.
Qed.
End perbill.

(** ** Database weights *)

(** [T::DbWeight::get()]: the weight of [n] reads and of [n] writes. *)
Class DbWeightOps := {
  db_reads : Z → Z;
  db_writes : Z → Z;
  db_reads_writes : Z → Z → Z
}.
