(* ===== verification/Ledger.v ===== *)
(** * A concrete currency and concrete percentages

    The smallest ledger and the plain parts-per-billion arithmetic that satisfy
    the laws of [Frame].  They stand for no code of the repository: they are
    the instances at which the theorems about the pallets are evaluated on
    concrete inputs, and they show that the laws are consistent. *)

From S2P Require Export Frame.

(** ** The ledger *)

Definition clamp (z : Z) : Z := Z.max 0 (Z.min z u128_max).

(** Accounts are numbers; an account holds a free and a reserved balance. *)
Record Ledger : Type := mkLedger {
  accounts : gmap Z (Z * Z);
  issued : Z
}.

(** The existential deposit differs between the runtimes and the mocks. *)
Class ExistentialDeposit := { ED : Z; ED_nonneg : 0 <= ED }.

Definition account (l : Ledger) (who : Z) : Z * Z :=
  default (0, 0) (accounts l !! who).
Definition free (l : Ledger) (who : Z) : Z := clamp (account l who).1.
Definition reserved (l : Ledger) (who : Z) : Z :=
  Z.min (clamp (account l who).2) (u128_max - free l who).
Definition set_account (who f r : Z) (l : Ledger) : Ledger :=
  mkLedger (<[who:=(f, r)]> (accounts l)) (issued l).
Definition set_issued (v : Z) (l : Ledger) : Ledger := mkLedger (accounts l) v.

Definition InsufficientBalance : DispatchError := External 2.

#[global] Instance ledger_currency `{ExistentialDeposit} : Currency Z Z Ledger := {|
  minimum_balance := ED;
  free_balance := free;
  reserved_balance := reserved;
  total_issuance := issued;
  reserve who v l :=
    if v <=? free l who
    then Ok (tt, set_account who (free l who - v) (reserved l who + v) l)
    else Err InsufficientBalance;
  unreserve who v l :=
    let moved := Z.min v (reserved l who) in
    (v - moved,
     set_account who (free l who + moved) (reserved l who - moved) l);
  slash_reserved who v l :=
    let moved := Z.min v (reserved l who) in
    ((moved, v - moved), set_account who (free l who) (reserved l who - moved) l);
  withdraw who v req l :=
    if (v <=? free l who) &&
       (match req with KeepAlive => (v =? 0) || (ED <=? free l who - v)
                     | AllowDeath => true end)
    then Ok (v, set_account who (free l who - v) (reserved l who) l)
    else Err InsufficientBalance;
  transfer from to v req l :=
    if (v <=? free l from) &&
       (match req with KeepAlive => (v =? 0) || (ED <=? free l from - v)
                     | AllowDeath => true end) &&
       (free l to + reserved l to + v <=? u128_max)
    then let l1 := set_account from (free l from - v) (reserved l from) l in
         Ok (tt, set_account to (free l1 to + v) (reserved l1 to) l1)
    else Err InsufficientBalance;
  resolve_creating who i l :=
    let v := clamp i in
    if ((v <? ED) && (free l who + reserved l who =? 0)) ||
       (u128_max <? free l who + reserved l who + v)
    then set_issued (sat_sub (issued l) v) l
    else set_account who (free l who + v) (reserved l who) l;
  issue v l :=
    let v := Z.min v (sat_sub u128_max (issued l)) in
    (v, set_issued (issued l + v) l);
  drop_imbalance i l := set_issued (sat_sub (issued l) (clamp i)) l;
  imbalance_zero := 0;
  peek i := clamp i;
  split i v := (Z.min v (clamp i), clamp i - Z.min v (clamp i));
  merge i j := sat_add u128_max (clamp i) (clamp j)
|}.

(** The ledger after the genesis of [pallet_balances] with these balances. *)
Definition endowed (balances : list (Z * Z)) : Ledger :=
  mkLedger (list_to_map ((λ b, (b.1, (b.2, 0))) <$> balances)) (lsum balances.*2).

#[global] Instance Ledger_eq_dec : EqDecision Ledger.
Proof. solve_decision. Defined.

Lemma clamp_range z : 0 <= clamp z <= u128_max.
Proof. unfold clamp, u128_max. lia. Qed.

Lemma clamp_id z : 0 <= z <= u128_max → clamp z = z.
Proof. unfold clamp. lia. Qed.

Lemma free_bounds l who : 0 <= free l who <= u128_max.
Proof. apply clamp_range. Qed.

Lemma reserved_bounds l who :
  0 <= reserved l who ∧ free l who + reserved l who <= u128_max.
Proof.
  unfold reserved. pose proof (free_bounds l who).
  pose proof (clamp_range (account l who).2). lia.
Qed.

Lemma set_account_same who f r l :
  0 <= f → 0 <= r → f + r <= u128_max →
  free (set_account who f r l) who = f ∧ reserved (set_account who f r l) who = r.
Proof.
  intros. unfold reserved, free, account, set_account. simpl.
  rewrite lookup_insert_eq. simpl. rewrite !clamp_id by lia. lia.
Qed.

Lemma set_account_other who o f r l :
  o ≠ who →
  free (set_account who f r l) o = free l o ∧
  reserved (set_account who f r l) o = reserved l o.
Proof.
  intros. unfold reserved, free, account, set_account. simpl.
  by rewrite lookup_insert_ne.
Qed.

Lemma set_account_only_changes `{ExistentialDeposit} who f r l :
  only_changes (Imb:=Z) who l (set_account who f r l).
Proof. intros o Ho. by apply set_account_other. Qed.

Ltac ledger_bounds l who :=
  pose proof (free_bounds l who); pose proof (reserved_bounds l who).

Lemma ledger_transfer_Ok `{ExistentialDeposit} from to v l l' u :
  0 <= v → from ≠ to → transfer (Imb:=Z) from to v KeepAlive l = Ok (u, l') →
  free l' from = free l from - v ∧ free l' to = free l to + v ∧
  (∀ o, reserved l' o = reserved l o) ∧
  (∀ o, o ≠ from → o ≠ to → free l' o = free l o).
Proof.
  intros Hv Hne Ht. simpl in Ht. ledger_bounds l from. ledger_bounds l to.
  destruct ((v <=? free l from) && _ && _) eqn:Hc; [|done].
  propify. simplify_eq.
  destruct (set_account_same from (free l from - v) (reserved l from) l);
    [lia..|].
  destruct (set_account_other from to (free l from - v) (reserved l from) l)
    as [Hf Hr]; [done|].
  set (l1 := set_account from (free l from - v) (reserved l from) l) in *.
  destruct (set_account_same to (free l1 to + v) (reserved l1 to) l1); [lia..|].
  split_and!.
  - destruct (set_account_other to from (free l1 to + v) (reserved l1 to) l1);
      [done|]. lia.
  - lia.
  - intros o. destruct (decide (o = to)) as [->|Hot]; [lia|].
    destruct (set_account_other to o (free l1 to + v) (reserved l1 to) l1)
      as [_ ->]; [done|].
    destruct (decide (o = from)) as [->|Hof]; [lia|].
    by destruct (set_account_other from o (free l from - v) (reserved l from) l).
  - intros o Hof Hot.
    destruct (set_account_other to o (free l1 to + v) (reserved l1 to) l1)
      as [-> _]; [done|].
    by destruct (set_account_other from o (free l from - v) (reserved l from) l).
Qed.

#[global] Instance ledger_laws `{ExistentialDeposit} : CurrencyLaws Z Z Ledger.
Proof.
  split; simpl.
  - apply ED_nonneg.
  - intros. apply free_bounds.
  - intros. apply reserved_bounds.
  - intros. apply reserved_bounds.
  - intros. apply clamp_range.
  - intros who v l l' u Hv. ledger_bounds l who.
    destruct (Z.leb_spec v (free l who)); intros; simplify_eq.
    destruct (set_account_same who (free l who - v) (reserved l who + v) l);
      [lia..|]. split_and!; [done..|apply set_account_only_changes].
  - intros who v l l' rest Hv Hu. ledger_bounds l who. simplify_eq.
    set (m := Z.min v (reserved l who)).
    destruct (set_account_same who (free l who + m) (reserved l who - m) l);
      [lia..|]. split_and!; [done..|apply set_account_only_changes].
  - intros who v l l' i rest Hv Hu. ledger_bounds l who. simplify_eq.
    set (m := Z.min v (reserved l who)).
    destruct (set_account_same who (free l who) (reserved l who - m) l);
      [lia..|].
    split_and!; [apply clamp_id; lia|done|apply set_account_only_changes|done].
  - intros who v l l' rest _ Hu. by simplify_eq.
  - intros who v l l' i rest _ Hs _. by simplify_eq.
  - intros who v req l l' i Hv. ledger_bounds l who.
    destruct ((v <=? free l who) && _) eqn:Hc; intros; [|done].
    propify. simplify_eq.
    destruct (set_account_same who (free l who - i) (reserved l who) l);
      [lia..|].
    split_and!; [apply clamp_id; lia|apply set_account_only_changes|done].
  - apply ledger_transfer_Ok.
  - intros who i l. ledger_bounds l who. pose proof (clamp_range i).
    destruct (_ || _) eqn:Hc.
    + split_and!; [done|done|]. propify. intros.
      destruct Hc; propify; lia.
    + propify.
      destruct (set_account_same who (free l who + clamp i) (reserved l who) l);
        [lia..|].
      split_and!; [done|apply set_account_only_changes|done].
  - intros v l l' i Hv Hi. simplify_eq. split; [|done].
    intros. unfold sat_sub, is_u128 in *. simpl.
    rewrite Z.min_l by lia. split; [apply clamp_id; lia|done].
  - done.
  - done.
  - done.
  - intros i v j k Hv Hs. simplify_eq. pose proof (clamp_range i).
    rewrite (clamp_id (Z.min v (clamp i))), (clamp_id (clamp i - _)) by lia. lia.
  - intros i j. pose proof (clamp_range i). pose proof (clamp_range j).
    apply clamp_id. unfold sat_add, u128_max in *. lia.
Qed.

(** ** Percentages *)

#[global] Instance ppb_perbill : PerbillOps := {|
  Perbill := Z;
  pb_deconstruct p := Z.max 0 (Z.min p BILLION);
  pb_zero := 0;
  pb_one := BILLION;
  pb_from_percent x := Z.min x 100 * 10000000;
  pb_from_rational p q := Z.min p (Z.max q 1) * BILLION / Z.max q 1;
  pb_mul p x := Z.max 0 (Z.min p BILLION) * x / BILLION;
  pb_checked_add p q :=
    let s := Z.max 0 (Z.min p BILLION) + Z.max 0 (Z.min q BILLION) in
    if s <=? BILLION then Some s else None;
  pb_eqb p q := Z.max 0 (Z.min p BILLION) =? Z.max 0 (Z.min q BILLION)
|}.

#[global] Instance ppb_laws : PerbillLaws.
Proof.
  split; simpl; unfold BILLION.
  - lia.
  - done.
  - done.
  - lia.
  - intros p x Hx. set (y := Z.max 0 (Z.min p 1000000000) * x).
    pose proof (Z.div_mod y 1000000000). pose proof (Z.mod_pos_bound y 1000000000).
    lia.
  - intros p q Hp Hq. rewrite (Z.max_l q 1) by lia. set (m := Z.min p q).
    pose proof (Z.mul_div_le (m * 1000000000) q Hq).
    assert (0 <= m * 1000000000 / q) by (apply Z.div_pos; lia). nia.
  - intros p q. destruct (Z.leb_spec (Z.max 0 (Z.min p 1000000000) +
      Z.max 0 (Z.min q 1000000000)) 1000000000); lia.
  - intros p q. apply Z.eqb_eq.
Qed.

(** ** Weights *)

#[global] Instance unit_db_weight : DbWeightOps := {|
  db_reads n := n;
  db_writes n := n;
  db_reads_writes r w := r + w
|}.
