(* ===== verification/Testing.v ===== *)
(** * The vocabulary of the pallets' tests

    [assert_ok!], [assert_noop!], [assert!] and [unwrap] as operations of the
    error monad, over test externalities [X] that hold the storage [T] of a
    pallet.  A test of the repository passes when its run returns [Ok]. *)

From S2P Require Export Ledger.

(** Why a test fails. *)
Inductive Failure : Type :=
| NotOk (e : DispatchError)
| NotNoop
| AssertionFailed
| UnwrappedNone
| OutOfFuel.

(** The externalities [X] of a mock, and the storage of its pallet. *)
Class Externalities (X T : Type) := {
  storage : X → T;
  with_storage : T → X → X
}.

Section testing.
Context {X T : Type} `{!Externalities X T}.

Abbreviation Test := (M Failure X).

(** A handler of the pallet that must succeed: [assert_ok!] and [unwrap]. *)
Definition execute {A} (m : M DispatchError T A) : Test A := λ s,
  match m (storage s) with
  | (Ok a, t) => (Ok a, with_storage t s)
  | (Err e, _) => (Err (NotOk e), s)
  end.

Definition assert_ok {A} (m : M DispatchError T A) : Test unit := execute m;; mret tt.

(** [assert_noop!]: the handler fails with [e] and the storage is the same. *)
Definition assert_noop `{EqDecision T} {A} (m : M DispatchError T A) (e : DispatchError) :
    Test unit := λ s,
  match m (storage s) with
  | (Err e', t) =>
      if bool_decide (e' = e) && bool_decide (t = storage s) then (Ok tt, s)
      else (Err NotNoop, s)
  | (Ok _, _) => (Err NotNoop, s)
  end.

(** [assert!] and [assert_eq!] *)
Definition assert (b : X → bool) : Test unit := λ s,
  if b s then (Ok tt, s) else (Err AssertionFailed, s).
Definition assert_eq {A} `{EqDecision A} (f : X → A) (a : A) : Test unit :=
  assert (λ s, bool_decide (f s = a)).

Definition unwrap {A} (f : X → option A) : Test A := λ s,
  match f s with Some a => (Ok a, s) | None => (Err UnwrappedNone, s) end.

(** [while cond { body }], at most [fuel] times. *)
Fixpoint while (fuel : nat) (cond : X → bool) (body : Test unit) : Test unit := λ s,
  if cond s
  then match fuel with
       | O => (Err OutOfFuel, s)
       | S fuel => (body;; while fuel cond body) s
       end
  else (Ok tt, s).

Definition passes (t : Test unit) (s : X) : bool := is_ok (t s).1.

(** All tests pass, each in the externalities that [build] makes. *)
Definition all_pass (tests : list (Test unit)) (build : option X) : bool :=
  match build with Some s => forallb (λ t, passes t s) tests | None => false end.

End testing.
