(* ===== verification/StakingTypes.v ===== *)
(** * Staking data: stake history, unbonding queue, era clock

    The records of pallets/dapi-staking/src/types.rs with their methods.  A
    [Delegation] is a compressed history of a delegator's stake in a provider;
    [staked_at] is its meaning, a function from eras to amounts, and the
    methods [stake], [unstake] and [claim] are proved to implement the update
    of that function.  [UnbondingMetadata] is a queue sorted by unlock era that
    is updated by the standard library's binary search. *)

From S2P Require Export Prelude.

(** ** Records *)

Inductive ProviderStatus : Type :=
| Active
| Inactive (era : Z).

#[global] Instance ProviderStatus_eq_dec : EqDecision ProviderStatus.
Proof. solve_decision. Defined.

Record ProviderMetadata (AccountId : Type) : Type := mkProviderMetadata {
  owner : AccountId;
  status : ProviderStatus;
  bond_withdrawn : bool
}.
Arguments mkProviderMetadata {AccountId} _ _ _.
Arguments owner {AccountId} _.
Arguments status {AccountId} _.
Arguments bond_withdrawn {AccountId} _.

(** [ProviderMetadata::new] *)
Definition ProviderMetadata_new {AccountId} (who : AccountId) :=
  mkProviderMetadata who Active false.

(** Total rewards and total staked amount of an era. *)
Record EraMetadata : Type := mkEraMetadata {
  em_rewards : Z;
  em_staked : Z
}.
Definition EraMetadata_default : EraMetadata := mkEraMetadata 0 0.

Record ProviderEraMetadata : Type := mkProviderEraMetadata {
  bond : Z;
  total : Z;
  delegator_count : Z;
  provider_reward_claimed : bool
}.
Definition ProviderEraMetadata_default : ProviderEraMetadata :=
  mkProviderEraMetadata 0 0 0 false.

(** How much was staked from an era on. *)
Record EraStake : Type := mkEraStake {
  es_amount : Z;
  es_era : Z
}.

Record Delegation : Type := mkDelegation {
  stakes : list EraStake
}.
Definition Delegation_default : Delegation := mkDelegation [].

Record UnlockingChunk : Type := mkUnlockingChunk {
  uc_amount : Z;
  uc_unlock_era : Z
}.

Record UnbondingMetadata : Type := mkUnbondingMetadata {
  unlocking_chunks : list UnlockingChunk
}.
Definition UnbondingMetadata_default : UnbondingMetadata := mkUnbondingMetadata [].

(** The era clock; the block number type is [u32]. *)
Record EraInfo : Type := mkEraInfo {
  current : Z;
  first_block : Z;
  length_ : Z
}.

#[global] Instance ProviderMetadata_eq_dec `{EqDecision A} : EqDecision (ProviderMetadata A).
Proof. solve_decision. Defined.
#[global] Instance EraMetadata_eq_dec : EqDecision EraMetadata.
Proof. solve_decision. Defined.
#[global] Instance ProviderEraMetadata_eq_dec : EqDecision ProviderEraMetadata.
Proof. solve_decision. Defined.
#[global] Instance EraStake_eq_dec : EqDecision EraStake.
Proof. solve_decision. Defined.
#[global] Instance Delegation_eq_dec : EqDecision Delegation.
Proof. solve_decision. Defined.
#[global] Instance UnlockingChunk_eq_dec : EqDecision UnlockingChunk.
Proof. solve_decision. Defined.
#[global] Instance UnbondingMetadata_eq_dec : EqDecision UnbondingMetadata.
Proof. solve_decision. Defined.
#[global] Instance EraInfo_eq_dec : EqDecision EraInfo.
Proof. solve_decision. Defined.

(** ** [impl Delegation] *)
Module Delegation.

Definition is_empty (d : Delegation) : bool :=
  match stakes d with [] => true | _ => false end.

Definition len (d : Delegation) : Z := len_u32 (stakes d).

Definition stake (d : Delegation) (current_era amount : Z) :
    result string Delegation :=
  match last (stakes d) with
  | Some s =>
      if current_era <? es_era s then Err "Unexpected era"%string
      else
        let new_stake_amount := sat_add u128_max (es_amount s) amount in
        if current_era =? es_era s
        then Ok (mkDelegation
                   (set_last (stakes d) (mkEraStake new_stake_amount current_era)))
        else Ok (mkDelegation
                   (stakes d ++ [mkEraStake new_stake_amount current_era]))
  | None => Ok (mkDelegation (stakes d ++ [mkEraStake amount current_era]))
  end.

(** [if !self.stakes.is_empty() && self.stakes[0].amount.is_zero()
    { self.stakes.remove(0); }] *)
Definition drop_leading_zero (l : list EraStake) : list EraStake :=
  match l with
  | s :: l' => if es_amount s =? 0 then l' else l
  | [] => []
  end.

Definition unstake (d : Delegation) (current_era amount : Z) :
    result string Delegation :=
  match last (stakes d) with
  | Some s =>
      if current_era <? es_era s then Err "Unexpected era"%string
      else
        let new_stake_amount := sat_sub (es_amount s) amount in
        let l :=
          if current_era =? es_era s
          then set_last (stakes d) (mkEraStake new_stake_amount current_era)
          else stakes d ++ [mkEraStake new_stake_amount current_era] in
        Ok (mkDelegation (drop_leading_zero l))
  | None => Ok d
  end.

Definition claim (d : Delegation) : (Z * Z) * Delegation :=
  match stakes d with
  | s :: rest =>
      let next := mkEraStake (es_amount s) (sat_add u32_max (es_era s) 1) in
      let l :=
        match rest with
        | [] => [next]
        | s1 :: _ =>
            if u32_add (es_era s) 1 <? es_era s1 then next :: rest else rest
        end in
      ((es_era s, es_amount s), mkDelegation (drop_leading_zero l))
  | [] => ((0, 0), d)
  end.

Definition latest_staked_value (d : Delegation) : Z :=
  from_option es_amount 0 (last (stakes d)).

End Delegation.

(** ** [slice::binary_search_by] of the standard library *)

(** [bsearch fuel f l size left right] is the loop: [inl pos] is [Ok(pos)],
    [inr pos] is [Err(pos)]. *)
Fixpoint bsearch {A} (fuel : nat) (f : A → comparison) (l : list A)
    (size left right : nat) : option (nat + nat) :=
  match fuel with
  | O => None
  | S fuel' =>
      if Nat.ltb left right then
        let mid := (left + size / 2)%nat in
        match l !! mid with
        | None => None
        | Some x =>
            match f x with
            | Lt => bsearch fuel' f l (right - S mid) (S mid) right
            | Gt => bsearch fuel' f l (mid - left) left mid
            | Eq => Some (inl mid)
            end
        end
      else Some (inr left)
  end.

Definition binary_search_by {A} (f : A → comparison) (l : list A) :
    option (nat + nat) :=
  bsearch (S (length l)) f l (length l) 0 (length l).

(** [Vec::insert(pos, x)] *)
Definition vec_insert {A} (pos : nat) (x : A) (l : list A) : list A :=
  take pos l ++ x :: drop pos l.

(** ** [impl UnbondingMetadata] *)
Module Unbonding.

Definition len (u : UnbondingMetadata) : Z := len_u32 (unlocking_chunks u).

Definition is_empty (u : UnbondingMetadata) : bool :=
  match unlocking_chunks u with [] => true | _ => false end.

(** [iter().map(|c| c.amount).reduce(|a, b| a + b).unwrap_or_default()] *)
Definition sum (u : UnbondingMetadata) : Z :=
  match uc_amount <$> unlocking_chunks u with
  | [] => 0
  | a :: l => fold_left u128_add l a
  end.

(** [UnlockingChunk::add_amount] *)
Definition add_amount (c : UnlockingChunk) (amount : Z) : UnlockingChunk :=
  mkUnlockingChunk (u128_add (uc_amount c) amount) (uc_unlock_era c).

(** The [None] branches are unreachable: [binary_search_by_spec] shows that the
    fuel suffices and that a found position is in range. *)
Definition add (u : UnbondingMetadata) (chunk : UnlockingChunk) :
    UnbondingMetadata :=
  let l := unlocking_chunks u in
  match binary_search_by
          (λ x, Z.compare (uc_unlock_era x) (uc_unlock_era chunk)) l with
  | Some (inl pos) =>
      match l !! pos with
      | Some c => mkUnbondingMetadata (<[pos:=add_amount c (uc_amount chunk)]> l)
      | None => u
      end
  | Some (inr pos) => mkUnbondingMetadata (vec_insert pos chunk l)
  | None => u
  end.

(** The chunks unlocked at [era], and the rest. *)
Definition partition (u : UnbondingMetadata) (era : Z) :
    UnbondingMetadata * UnbondingMetadata :=
  (mkUnbondingMetadata
     (filter (λ c, uc_unlock_era c <= era) (unlocking_chunks u)),
   mkUnbondingMetadata
     (filter (λ c, ¬ uc_unlock_era c <= era) (unlocking_chunks u))).

End Unbonding.

(** ** [impl EraInfo] *)
Module EraInfo.

Definition should_update (e : EraInfo) (current_block : Z) : bool :=
  (length_ e <=? u32_sub current_block (first_block e)) || (current e =? 0).

Definition update (e : EraInfo) (current_block : Z) : EraInfo :=
  mkEraInfo (sat_add u32_max (current e) 1) current_block (length_ e).

End EraInfo.

(** ** The stake history *)

Abbreviation ascending := (StronglySorted Z.lt).

(** A well-formed history: strictly ascending eras, values in range. *)
Definition wf_stakes (l : list EraStake) : Prop :=
  ascending (es_era <$> l) ∧
  Forall (λ s, is_u128 (es_amount s) ∧ is_u32 (es_era s)) l.
Definition wf_delegation (d : Delegation) : Prop := wf_stakes (stakes d).

(** The meaning of a history: the amount staked in era [e] is the amount of the
    last entry that is not after [e] ([acc] before the first entry). *)
Definition staked_from (acc : Z) (l : list EraStake) (e : Z) : Z :=
  fold_left (λ acc s, if es_era s <=? e then es_amount s else acc) l acc.
Definition staked_at (d : Delegation) (e : Z) : Z := staked_from 0 (stakes d) e.
Arguments staked_from : simpl never.

Lemma staked_from_snoc acc l s e :
  staked_from acc (l ++ [s]) e =
  if es_era s <=? e then es_amount s else staked_from acc l e.
Proof. unfold staked_from. by rewrite fold_left_app. Qed.

Lemma staked_from_cons acc l s e :
  staked_from acc (s :: l) e =
  staked_from (if es_era s <=? e then es_amount s else acc) l e.
Proof. done. Qed.

(** Eras before every entry see the default. *)
Lemma staked_from_before acc l e :
  Forall (λ s, e < es_era s) l → staked_from acc l e = acc.
Proof.
  induction 1 as [|s l Hs _ IH]; [done|]. rewrite staked_from_cons.
  by destruct (Z.leb_spec (es_era s) e); [lia|].
Qed.

(** From the last entry on, the stake is the latest value. *)
Lemma staked_from_after acc l s e :
  last l = Some s → es_era s <= e → staked_from acc l e = es_amount s.
Proof.
  intros [l' ->]%last_Some_snoc He. rewrite staked_from_snoc.
  by destruct (Z.leb_spec (es_era s) e); [|lia].
Qed.

Lemma ascending_app (l k : list Z) :
  ascending (l ++ k) ↔
  ascending l ∧ ascending k ∧ (∀ x y, x ∈ l → y ∈ k → x < y).
Proof.
  induction l as [|a l IH]; simpl.
  - split; [intros; split_and!; [constructor|done|set_solver]|naive_solver].
  - split.
    + intros [Hl Ha]%StronglySorted_inv. apply IH in Hl as (Hl & Hk & Hlk).
      rewrite Forall_app in Ha. destruct Ha as [Ha Hak].
      split_and!; [by constructor|done|].
      intros x y [->|Hx]%elem_of_cons Hy; [|by apply Hlk].
      rewrite Forall_forall in Hak. by apply Hak.
    + intros ([Hl Ha]%StronglySorted_inv & Hk & Hlk). constructor.
      * apply IH. split_and!; [done..|]. intros x y Hx. apply Hlk. by right.
      * apply Forall_app. split; [done|]. apply Forall_forall. intros y.
        apply Hlk. by left.
Qed.

Lemma wf_stakes_snoc l s :
  wf_stakes (l ++ [s]) ↔
  wf_stakes l ∧ is_u128 (es_amount s) ∧ is_u32 (es_era s) ∧
  Forall (λ x, es_era x < es_era s) l.
Proof.
  unfold wf_stakes. rewrite fmap_app, ascending_app, !Forall_app, Forall_singleton.
  simpl. split.
  - intros [(Hl & _ & Hs) [HF ?]]. split_and!; try naive_solver.
    apply Forall_forall. intros x Hx. apply Hs; [|set_solver].
    by apply list_elem_of_fmap_2.
  - intros [[Hl HF] (? & ? & Hs)]. split_and!; try done.
    + repeat constructor.
    + intros x y (z & -> & Hz)%list_elem_of_fmap ->%list_elem_of_singleton.
      rewrite Forall_forall in Hs. by apply Hs.
Qed.

Lemma wf_stakes_cons s l :
  wf_stakes (s :: l) ↔
  is_u128 (es_amount s) ∧ is_u32 (es_era s) ∧
  Forall (λ x, es_era s < es_era x) l ∧ wf_stakes l.
Proof.
  unfold wf_stakes. rewrite fmap_cons, Forall_cons. split.
  - intros [[Hl Hs]%StronglySorted_inv [[??] ?]]. by rewrite Forall_fmap in Hs.
  - intros (? & ? & Hs & ? & ?). split; [|done]. constructor; [done|].
    by rewrite Forall_fmap.
Qed.

Lemma wf_delegation_default : wf_delegation Delegation_default.
Proof. split; constructor. Qed.

Lemma latest_snoc l s :
  Delegation.latest_staked_value (mkDelegation (l ++ [s])) = es_amount s.
Proof. unfold Delegation.latest_staked_value. simpl. by rewrite last_snoc. Qed.

Lemma latest_nil : Delegation.latest_staked_value Delegation_default = 0.
Proof. done. Qed.

Lemma latest_range d :
  wf_delegation d → is_u128 (Delegation.latest_staked_value d).
Proof.
  unfold Delegation.latest_staked_value. intros [_ HF].
  destruct (last (stakes d)) as [s|] eqn:Hl; simpl; [|by split].
  apply last_Some_elem_of in Hl. rewrite Forall_forall in HF. by apply HF.
Qed.

(** Writing the amount [v] from [era] on: what [stake] and [unstake] do to the
    entries, [push_stake] being the update both share. *)
Definition push_stake (l : list EraStake) (era v : Z) : list EraStake :=
  match last l with
  | Some s => if era =? es_era s then set_last l (mkEraStake v era)
              else l ++ [mkEraStake v era]
  | None => [mkEraStake v era]
  end.

Lemma push_stake_spec l era v :
  wf_stakes l → is_u32 era → is_u128 v →
  (∀ s, last l = Some s → es_era s <= era) →
  wf_stakes (push_stake l era v) ∧
  last (push_stake l era v) = Some (mkEraStake v era) ∧
  ∀ e, staked_from 0 (push_stake l era v) e =
       if era <=? e then v else staked_from 0 l e.
Proof.
  intros Hwf Hera Hv Hle. unfold push_stake.
  destruct (last l) as [s|] eqn:Hl.
  - specialize (Hle s eq_refl). apply last_Some_snoc in Hl as [l' ->].
    apply wf_stakes_snoc in Hwf as (Hwf & Hs & Hse & HF).
    destruct (Z.eqb_spec era (es_era s)) as [->|Hne].
    + rewrite set_last_snoc, last_snoc. split_and!; [|done|].
      * by apply wf_stakes_snoc.
      * intros e. rewrite !staked_from_snoc. simpl.
        by destruct (es_era s <=? e).
    + rewrite last_snoc. split_and!; [|done|].
      * apply wf_stakes_snoc. split_and!; try done.
        { by apply wf_stakes_snoc. }
        apply Forall_app. split; [|apply Forall_singleton; simpl; lia].
        eapply Forall_impl; [done|]. simpl. lia.
      * intros e. by rewrite (staked_from_snoc _ (l' ++ [s])).
  - apply last_None in Hl as ->. split_and!; [|done|done].
    apply (wf_stakes_snoc []). by split_and!.
Qed.

Lemma drop_leading_zero_spec l :
  wf_stakes l →
  wf_stakes (Delegation.drop_leading_zero l) ∧
  (∀ e, staked_from 0 (Delegation.drop_leading_zero l) e = staked_from 0 l e) ∧
  from_option es_amount 0 (last (Delegation.drop_leading_zero l)) =
    from_option es_amount 0 (last l) ∧
  ∀ s, s ∈ Delegation.drop_leading_zero l → s ∈ l.
Proof.
  intros Hwf. destruct l as [|s l]; [done|]. simpl.
  destruct (Z.eqb_spec (es_amount s) 0) as [H0|]; [|done].
  apply wf_stakes_cons in Hwf as (_ & _ & _ & Hwf). split_and!; [done| | |].
  - intros e. rewrite staked_from_cons. f_equal.
    by destruct (es_era s <=? e).
  - destruct l; [done|]. by rewrite last_cons_cons.
  - intros s' ?. by right.
Qed.

(** [stake] and [unstake] as [push_stake]. *)
Lemma stake_Ok d era amount d' :
  Delegation.stake d era amount = Ok d' →
  (∀ s, last (stakes d) = Some s → es_era s <= era) ∧
  ∃ v, d' = mkDelegation (push_stake (stakes d) era v) ∧
       (v = sat_add u128_max (Delegation.latest_staked_value d) amount ∨
        stakes d = [] ∧ v = amount).
Proof.
  unfold Delegation.stake, push_stake, Delegation.latest_staked_value.
  destruct (last (stakes d)) as [s|] eqn:Hl.
  - destruct (Z.ltb_spec era (es_era s)); [done|]. intros Hs. split.
    { intros ??. simplify_eq. lia. }
    destruct (era =? es_era s); simplify_eq; simpl; eauto.
  - intros. simplify_eq. split; [done|]. apply last_None in Hl.
    rewrite Hl. simpl. eauto.
Qed.

Lemma unstake_Ok d era amount d' :
  Delegation.unstake d era amount = Ok d' →
  (∀ s, last (stakes d) = Some s → es_era s <= era) ∧
  (stakes d = [] ∧ d' = d ∨
   stakes d ≠ [] ∧
   d' = mkDelegation (Delegation.drop_leading_zero
          (push_stake (stakes d) era
             (sat_sub (Delegation.latest_staked_value d) amount)))).
Proof.
  unfold Delegation.unstake, push_stake, Delegation.latest_staked_value.
  destruct (last (stakes d)) as [s|] eqn:Hl.
  - destruct (Z.ltb_spec era (es_era s)); [done|]. intros Hs. split.
    { intros ??. simplify_eq. lia. }
    right. split; [by intros Hn; rewrite Hn in Hl|].
    destruct (era =? es_era s); by simplify_eq.
  - intros. simplify_eq. split; [done|]. left. by apply last_None in Hl.
Qed.

Lemma sat_add_range max a b : 0 <= a → 0 <= b → 0 <= max → 0 <= sat_add max a b <= max.
Proof. unfold sat_add. lia. Qed.

Lemma sat_sub_range max a b : 0 <= a <= max → 0 <= b → 0 <= sat_sub a b <= max.
Proof. unfold sat_sub. lia. Qed.

(** The latest value is the stake in all eras from the last entry on. *)
Lemma stake_spec d era amount d' :
  wf_delegation d → is_u32 era → is_u128 amount →
  Delegation.stake d era amount = Ok d' →
  wf_delegation d' ∧
  Delegation.latest_staked_value d' =
    sat_add u128_max (Delegation.latest_staked_value d) amount ∧
  (∀ e, staked_at d' e =
        if era <=? e
        then sat_add u128_max (Delegation.latest_staked_value d) amount
        else staked_at d e) ∧
  ∀ s, s ∈ stakes d' → es_era s <= era.
Proof.
  intros Hwf Hera Ham (Hle & v & -> & Hv)%stake_Ok.
  pose proof (latest_range d Hwf) as Hlr.
  assert (v = sat_add u128_max (Delegation.latest_staked_value d) amount) as ->.
  { destruct Hv as [->|[Hn ->]]; [done|]. unfold Delegation.latest_staked_value.
    rewrite Hn. simpl. unfold sat_add, is_u128 in *. lia. }
  clear Hv. destruct (push_stake_spec (stakes d) era
    (sat_add u128_max (Delegation.latest_staked_value d) amount))
    as (Hwf' & Hlast & Hst); [done|done| |done|].
  { apply sat_add_range; unfold is_u128, u128_max in *; lia. }
  split_and!; [done| |done|].
  - unfold Delegation.latest_staked_value at 1. simpl. by rewrite Hlast.
  - simpl. intros s Hs. apply last_Some_snoc in Hlast as [l' Hl']. rewrite Hl' in *.
    apply wf_stakes_snoc in Hwf' as (_ & _ & _ & HF).
    apply elem_of_app in Hs as [Hs| ->%list_elem_of_singleton]; [|done].
    rewrite Forall_forall in HF. specialize (HF s Hs). simpl in HF. lia.
Qed.

Lemma unstake_spec d era amount d' :
  wf_delegation d → is_u32 era → 0 <= amount →
  Delegation.unstake d era amount = Ok d' →
  wf_delegation d' ∧
  Delegation.latest_staked_value d' =
    sat_sub (Delegation.latest_staked_value d) amount ∧
  (∀ e, staked_at d' e =
        if era <=? e then sat_sub (Delegation.latest_staked_value d) amount
        else staked_at d e) ∧
  ∀ s, s ∈ stakes d' → es_era s <= era.
Proof.
  intros Hwf Hera Ham (Hle & [[Hn ->]|[Hn ->]])%unstake_Ok;
    pose proof (latest_range d Hwf) as Hlr.
  - unfold Delegation.latest_staked_value, staked_at. rewrite Hn. simpl.
    unfold sat_sub. split_and!; [done|lia| |set_solver].
    intros e. unfold staked_from. simpl. destruct (era <=? e); lia.
  - destruct (push_stake_spec (stakes d) era
      (sat_sub (Delegation.latest_staked_value d) amount))
      as (Hwf' & Hlast & Hst); [done|done| |done|].
    { by apply sat_sub_range. }
    destruct (drop_leading_zero_spec _ Hwf') as (Hwf2 & Hst2 & Hlast2 & Hin).
    split_and!; [done| | |].
    + unfold Delegation.latest_staked_value at 1. simpl. rewrite Hlast2.
      by rewrite Hlast.
    + intros e. unfold staked_at. simpl. by rewrite Hst2, Hst.
    + simpl. intros s Hs%Hin. apply last_Some_snoc in Hlast as [l' Hl'].
      rewrite Hl' in *. apply wf_stakes_snoc in Hwf' as (_ & _ & _ & HF).
      apply elem_of_app in Hs as [Hs| ->%list_elem_of_singleton]; [|done].
      rewrite Forall_forall in HF. specialize (HF s Hs). simpl in HF. lia.
Qed.

(** The precondition of [stake] and [unstake]: eras do not go back. *)
Lemma stake_is_ok d era amount :
  is_ok (Delegation.stake d era amount) = true ↔
  ∀ s, last (stakes d) = Some s → es_era s <= era.
Proof.
  unfold Delegation.stake. destruct (last (stakes d)) as [s|].
  - destruct (Z.ltb_spec era (es_era s)); simpl.
    + split; [done|]. intros H'. specialize (H' s eq_refl). lia.
    + destruct (era =? es_era s); simpl; split; intros; simplify_eq; done || lia.
  - simpl. naive_solver.
Qed.

(** ** Claims *)

(** The condition under which the next claim finds a stake: the history is
    empty or starts with a positive amount. *)
Definition claimable (l : list EraStake) : Prop :=
  match l with [] => True | s :: _ => es_amount s ≠ 0 end.

(** No two consecutive entries are zero. *)
Fixpoint no_double_zero (l : list EraStake) : Prop :=
  match l with
  | s :: (s1 :: _) as l' =>
      ¬ (es_amount s = 0 ∧ es_amount s1 = 0) ∧ no_double_zero l'
  | _ => True
  end.

Definition compact (d : Delegation) : Prop :=
  claimable (stakes d) ∧ no_double_zero (stakes d).

Lemma no_double_zero_tail s l : no_double_zero (s :: l) → no_double_zero l.
Proof. destruct l; simpl; naive_solver. Qed.

Lemma drop_leading_zero_compact l :
  no_double_zero l →
  claimable (Delegation.drop_leading_zero l) ∧
  no_double_zero (Delegation.drop_leading_zero l).
Proof.
  destruct l as [|s l]; [done|]. intros Hn. simpl.
  destruct (Z.eqb_spec (es_amount s) 0); [|done].
  split; [|by eapply no_double_zero_tail].
  destruct l; simpl in *; naive_solver.
Qed.

(** The history a claim leaves before its leading zero is dropped: the claimed
    era moves on by one, unless the next entry starts there. *)
Definition advance (s : EraStake) (rest : list EraStake) : list EraStake :=
  let next := mkEraStake (es_amount s) (es_era s + 1) in
  match rest with
  | [] => [next]
  | s1 :: _ => if es_era s + 1 <? es_era s1 then next :: rest else rest
  end.

Lemma advance_spec s rest :
  wf_stakes (s :: rest) → es_era s < u32_max →
  let l := advance s rest in
  wf_stakes l ∧ (∀ x, x ∈ l → es_era s < es_era x) ∧
  (∀ e, es_era s < e → staked_from 0 l e = staked_from 0 (s :: rest) e) ∧
  from_option es_amount 0 (last l) = from_option es_amount 0 (last (s :: rest)) ∧
  (no_double_zero (s :: rest) → no_double_zero l).
Proof.
  intros (Ham & Hera & Hlt & Hrest)%wf_stakes_cons Hmax. unfold advance.
  assert (is_u32 (es_era s + 1)) by (unfold is_u32 in *; lia).
  destruct rest as [|s1 rest'].
  - split_and!; [| | |done|done].
    + apply wf_stakes_cons. simpl. split_and!; [done..|constructor|done].
    + intros x ->%list_elem_of_singleton. simpl. lia.
    + intros e He. rewrite !staked_from_cons. simpl.
      destruct (Z.leb_spec (es_era s) e), (Z.leb_spec (es_era s + 1) e); lia || done.
  - pose proof Hlt as [Hs1 Hlt']%Forall_cons.
    destruct (Z.ltb_spec (es_era s + 1) (es_era s1)).
    + split_and!; [| | |done|done].
      * apply wf_stakes_cons. simpl. split_and!; [done..| |done].
        pose proof Hrest as (_ & _ & Hlt1 & _)%wf_stakes_cons.
        constructor; [lia|]. eapply Forall_impl; [done|]. simpl. lia.
      * intros x [->|Hx]%elem_of_cons; simpl; [lia|].
        rewrite Forall_forall in Hlt. by apply Hlt.
      * intros e He. rewrite !(staked_from_cons 0). simpl.
        destruct (Z.leb_spec (es_era s) e), (Z.leb_spec (es_era s + 1) e); lia || done.
    + split_and!; [done| | |done|apply no_double_zero_tail].
      * intros x Hx. rewrite Forall_forall in Hlt. by apply Hlt.
      * intros e He. rewrite (staked_from_cons _ _ s).
        rewrite !(staked_from_cons _ _ s1).
        destruct (Z.leb_spec (es_era s1) e); [done|lia].
Qed.

(** One claim on a non-empty history whose first entry is [s]. *)
Lemma claim_spec d s rest :
  wf_delegation d → stakes d = s :: rest → es_era s < u32_max →
  let '(paid, d') := Delegation.claim d in
  paid = (es_era s, staked_at d (es_era s)) ∧
  staked_at d (es_era s) = es_amount s ∧
  wf_delegation d' ∧
  (∀ e, staked_at d' e = if es_era s <? e then staked_at d e else 0) ∧
  (∀ x, x ∈ stakes d' → es_era s < es_era x) ∧
  Delegation.latest_staked_value d' = Delegation.latest_staked_value d ∧
  (no_double_zero (stakes d) → compact d').
Proof.
  intros Hwf Hd Hmax. unfold wf_delegation in Hwf. rewrite Hd in Hwf.
  destruct (advance_spec s rest Hwf Hmax) as (Hl & Hgt & Hst & Hlat & Hnz).
  rewrite <-Hd in Hst, Hlat, Hnz. fold (staked_at d) in Hst.
  fold (Delegation.latest_staked_value d) in Hlat.
  pose proof Hwf as (Ham & Hera & Hlt & Hrest)%wf_stakes_cons.
  assert (staked_at d (es_era s) = es_amount s) as Hs.
  { unfold staked_at. rewrite Hd, staked_from_cons, Z.leb_refl.
    by apply staked_from_before. }
  unfold Delegation.claim. rewrite Hd.
  rewrite u32_add_small by (unfold is_u32 in *; lia).
  rewrite sat_add_small by lia.
  set (l := advance s rest) in *. unfold advance in l. simpl in l. fold l.
  destruct (drop_leading_zero_spec l Hl) as (Hl' & Hst' & Hlat' & Hin).
  split_and!; [by rewrite Hs|done|done| |by intros x ?%Hin; apply Hgt| |].
  - intros e. unfold staked_at at 1. simpl. rewrite Hst'.
    destruct (Z.ltb_spec (es_era s) e); [by apply Hst|].
    apply staked_from_before, Forall_forall. intros x Hx%Hgt. lia.
  - unfold Delegation.latest_staked_value at 1. simpl. by rewrite Hlat'.
  - rewrite <-Hd. intros H0. exact (drop_leading_zero_compact l (Hnz H0)).
Qed.

Lemma claim_nil d : stakes d = [] → Delegation.claim d = ((0, 0), d).
Proof. unfold Delegation.claim. by intros ->. Qed.

(** *** The history as a function of eras

    The abstract state is the function [h] from eras to amounts; an update
    fixes the stake from an era on, a claim forgets the eras up to the claimed
    one. *)
Definition represents (d : Delegation) (h : Z → Z) : Prop :=
  wf_delegation d ∧ ∀ e, staked_at d e = h e.
Definition h_from (era v : Z) (h : Z → Z) : Z → Z :=
  λ e, if era <=? e then v else h e.
Definition h_forget (era : Z) (h : Z → Z) : Z → Z :=
  λ e, if era <? e then h e else 0.

(** C16: staking implements the abstract update: if a well-formed delegation
    represents the stake function [h], a successful [stake] at [era] represents
    [h] with the latest stake plus the amount (saturating at [u128::MAX]) from
    [era] on, and [stake] succeeds whenever [era] is not before the last entry. *)
Theorem stake_refines d h era amount :
  represents d h → is_u32 era → is_u128 amount →
  (∀ s, last (stakes d) = Some s → es_era s <= era) →
  ∃ d', Delegation.stake d era amount = Ok d' ∧
    represents d'
      (h_from era (sat_add u128_max (Delegation.latest_staked_value d) amount) h).
Proof.
  intros [Hwf Hh] Hera Ham Hle%(stake_is_ok d era amount).
  destruct (Delegation.stake d era amount) as [d'|] eqn:Hs; [|done].
  apply stake_spec in Hs as (Hwf' & _ & Hst & _); [|done..].
  exists d'. split; [done|split; [done|]]. intros e. rewrite Hst.
  unfold h_from. by destruct (era <=? e).
Qed.

Lemma stake_refines_witness :
  let d := mkDelegation [mkEraStake 1000 5; mkEraStake 1300 7] in
  ∃ d', Delegation.stake d 9 200 = Ok d' ∧
    represents d' (h_from 9 1500 (staked_at d)).
Proof.
  apply (stake_refines (mkDelegation [mkEraStake 1000 5; mkEraStake 1300 7])
           (staked_at (mkDelegation [mkEraStake 1000 5; mkEraStake 1300 7])) 9 200).
  - split; [|done]. split; [repeat constructor|].
    repeat constructor; unfold is_u128, is_u32; simpl; vm_compute; done.
  - vm_compute; split; discriminate.
  - vm_compute; split; discriminate.
  - intros s Hs. simpl in Hs. injection Hs as <-. simpl. lia.
Defined.

(** C17: unstaking implements the abstract update: from [era] on the stake is the
    latest stake minus the amount (saturating at zero), the removal of a
    leading zero entry does not change any era's stake. *)
Theorem unstake_refines d h era amount d' :
  represents d h → is_u32 era → 0 <= amount →
  Delegation.unstake d era amount = Ok d' →
  represents d' (h_from era (sat_sub (Delegation.latest_staked_value d) amount) h).
Proof.
  intros [Hwf Hh] Hera Ham Hs.
  apply unstake_spec in Hs as (Hwf' & _ & Hst & _); [|done..].
  split; [done|]. intros e. rewrite Hst. unfold h_from. by destruct (era <=? e).
Qed.

Lemma unstake_refines_witness :
  let d := mkDelegation [mkEraStake 1000 5; mkEraStake 1200 7] in
  represents (mkDelegation [mkEraStake 1000 5; mkEraStake 1200 7; mkEraStake 800 9])
    (h_from 9 800 (staked_at d)).
Proof.
  apply (unstake_refines (mkDelegation [mkEraStake 1000 5; mkEraStake 1200 7])
           (staked_at (mkDelegation [mkEraStake 1000 5; mkEraStake 1200 7])) 9 400).
  - split; [|done]. split; [repeat constructor|].
    repeat constructor; unfold is_u128, is_u32; simpl; vm_compute; done.
  - vm_compute; split; discriminate.
  - lia.
  - reflexivity.
Defined.

(** C15: a claim pays the oldest unclaimed entry: the pair it returns is an era
    and exactly what was staked in that era, the history after it represents
    the stakes of the later eras unchanged and forgets the claimed era, so no
    era can be claimed twice, and the latest stake is not touched. *)
Theorem claim_refines d h s rest :
  represents d h → stakes d = s :: rest → es_era s < u32_max →
  let '((era, amount), d') := Delegation.claim d in
  era = es_era s ∧ amount = h era ∧ represents d' (h_forget era h) ∧
  (∀ x, x ∈ stakes d' → era < es_era x) ∧
  Delegation.latest_staked_value d' = Delegation.latest_staked_value d.
Proof.
  intros [Hwf Hh] Hd Hmax. pose proof (claim_spec d s rest Hwf Hd Hmax) as Hc.
  destruct (Delegation.claim d) as [[era amount] d'].
  destruct Hc as (? & Hs & Hwf' & Hst & Hgt & Hlat & _). simplify_eq.
  split_and!; [done|by rewrite Hh|split; [done|]|done|done].
  intros e. rewrite Hst. unfold h_forget. by destruct (es_era s <? e).
Qed.

Lemma claim_refines_witness :
  let d := mkDelegation [mkEraStake 1300 7; mkEraStake 0 8; mkEraStake 3000 15] in
  Delegation.claim d = ((7, 1300), mkDelegation [mkEraStake 3000 15]) ∧
  represents (mkDelegation [mkEraStake 3000 15]) (h_forget 7 (staked_at d)).
Proof.
  split; [reflexivity|].
  refine (proj1 (proj2 (proj2 (claim_refines
    (mkDelegation [mkEraStake 1300 7; mkEraStake 0 8; mkEraStake 3000 15]) (staked_at _)
    (mkEraStake 1300 7) [mkEraStake 0 8; mkEraStake 3000 15] _ eq_refl _)))).
  - split; [|done]. split; [repeat constructor|].
    repeat constructor; unfold is_u128, is_u32; simpl; vm_compute; done.
  - vm_compute; reflexivity.
Defined.

(** *** Claiming everything *)

(** Claims repeated while the oldest entry is before the era [c], as a delegator
    does who claims every era before the current one. *)
Fixpoint claims (fuel : nat) (c : Z) (d : Delegation) : list (Z * Z) :=
  match fuel, stakes d with
  | S fuel', s :: _ =>
      if es_era s <? c
      then let '(paid, d') := Delegation.claim d in paid :: claims fuel' c d'
      else []
  | _, _ => []
  end.

(** The eras of [lo .. c-1] with a positive stake, and the stakes. *)
Definition staked_eras (h : Z → Z) (lo c : Z) : list (Z * Z) :=
  (λ e, (e, h e)) <$> filter (λ e, h e ≠ 0) (seqZ lo (c - lo)).

Lemma filter_nil_forall {A} (P : A → Prop) `{∀ x, Decision (P x)} (l : list A) :
  (∀ x, x ∈ l → ¬ P x) → filter P l = [].
Proof.
  induction l as [|x l IH]; intros Hl; [done|].
  rewrite filter_cons_False by (apply Hl; left). apply IH. intros. apply Hl.
  by right.
Qed.

(** Eras without a stake can be skipped. *)
Lemma staked_eras_skip h lo lo' c :
  lo <= lo' <= c → (∀ e, lo <= e < lo' → h e = 0) →
  staked_eras h lo c = staked_eras h lo' c.
Proof.
  intros Hle Hz. unfold staked_eras.
  replace (c - lo) with ((lo' - lo) + (c - lo')) by lia.
  rewrite seqZ_app by lia. rewrite filter_app, filter_nil_forall.
  - simpl. by replace (lo + (lo' - lo)) with lo' by lia.
  - intros e He%elem_of_seqZ Hne. apply Hne, Hz. lia.
Qed.

Lemma staked_eras_nil h lo c :
  (∀ e, lo <= e < c → h e = 0) → staked_eras h lo c = [].
Proof.
  intros Hz. unfold staked_eras. rewrite filter_nil_forall; [done|].
  intros e He%elem_of_seqZ Hne. apply Hne, Hz. lia.
Qed.

Lemma staked_eras_cons h lo c :
  lo < c → h lo ≠ 0 →
  staked_eras h lo c = (lo, h lo) :: staked_eras h (lo + 1) c.
Proof.
  intros Hlo Hh. unfold staked_eras. rewrite seqZ_cons by lia.
  rewrite filter_cons_True by done. rewrite fmap_cons.
  by replace (Z.pred (c - lo)) with (c - (lo + 1)) by lia.
Qed.

Lemma staked_eras_ext h h' lo c :
  (∀ e, lo <= e < c → h e = h' e) → staked_eras h lo c = staked_eras h' lo c.
Proof.
  intros He. unfold staked_eras.
  assert (∀ l : list Z, (∀ e, e ∈ l → h e = h' e) →
    (λ e, (e, h e)) <$> filter (λ e, h e ≠ 0) l =
    (λ e, (e, h' e)) <$> filter (λ e, h' e ≠ 0) l) as Hl.
  { induction l as [|x l IH]; intros Hl; [done|].
    pose proof (Hl x (list_elem_of_here _ _)) as Hx.
    specialize (IH (λ e He, Hl e (list_elem_of_further _ _ _ He))).
    destruct (decide (h x ≠ 0)).
    - rewrite !filter_cons_True by lia. by rewrite !fmap_cons, Hx, IH.
    - by rewrite !filter_cons_False by lia. }
  apply Hl. intros e Hel%elem_of_seqZ. apply He. lia.
Qed.

Lemma claims_enumerate_from fuel c d lo :
  wf_delegation d → compact d → (∀ x, x ∈ stakes d → lo <= es_era x) →
  lo <= c <= u32_max → (Z.to_nat (c - lo) <= fuel)%nat →
  claims fuel c d = staked_eras (staked_at d) lo c.
Proof.
  revert d lo. induction fuel as [|fuel IH]; intros d lo Hwf [Hc Hz] Hlo Hle Hf.
  { rewrite staked_eras_nil by lia. done. }
  simpl. destruct (stakes d) as [|s rest] eqn:Hd.
  { rewrite staked_eras_nil; [done|]. intros. unfold staked_at. by rewrite Hd. }
  assert (lo <= es_era s) by (apply Hlo; left).
  assert (∀ e, e < es_era s → staked_at d e = 0) as Hbefore.
  { intros e He. apply staked_from_before. rewrite Hd.
    unfold wf_delegation in Hwf. rewrite Hd in Hwf.
    apply wf_stakes_cons in Hwf as (_ & _ & HF & _). constructor; [done|].
    eapply Forall_impl; [done|]. simpl. lia. }
  destruct (Z.ltb_spec (es_era s) c) as [Hlt|Hge].
  - pose proof (claim_spec d s rest Hwf Hd ltac:(lia)) as Hs.
    destruct (Delegation.claim d) as [paid d'].
    destruct Hs as (-> & Ham & Hwf' & Hst & Hgt & _ & Hcomp).
    rewrite (staked_eras_skip _ lo (es_era s)) by (lia || intros; apply Hbefore; lia).
    simpl in Hc. rewrite staked_eras_cons by congruence || lia. f_equal.
    rewrite (IH d' (es_era s + 1)).
    + apply staked_eras_ext. intros e He. rewrite Hst.
      destruct (Z.ltb_spec (es_era s) e); [done|lia].
    + done.
    + apply Hcomp. by rewrite Hd.
    + intros x Hx%Hgt. lia.
    + lia.
    + lia.
  - rewrite staked_eras_nil; [done|]. intros. apply Hbefore. lia.
Qed.

(** C18: claiming is complete and pays every era once: from a compact history,
    claiming until the era [c] is reached takes at most [c] claims and pays
    exactly the eras before [c] in which there was a positive stake, in
    ascending order, each with the amount staked in it. *)
Theorem claims_enumerate fuel c d h :
  represents d h → compact d → 0 <= c <= u32_max → (Z.to_nat c <= fuel)%nat →
  claims fuel c d = staked_eras h 0 c.
Proof.
  intros [Hwf Hh] Hc Hle Hf.
  rewrite (claims_enumerate_from fuel c d 0); [|done|done| |lia|lia].
  - by apply staked_eras_ext.
  - intros x Hx. destruct Hwf as [_ HF]. rewrite Forall_forall in HF.
    apply (HF x Hx).
Qed.

Lemma claims_enumerate_witness :
  let d := mkDelegation [mkEraStake 1000 5; mkEraStake 1300 7; mkEraStake 0 8;
                         mkEraStake 3000 15] in
  claims 20 17 d = [(5, 1000); (6, 1000); (7, 1300); (15, 3000); (16, 3000)] ∧
  claims 20 17 d = staked_eras (staked_at d) 0 17.
Proof.
  split; [reflexivity|].
  apply (claims_enumerate 20 17 (mkDelegation [mkEraStake 1000 5; mkEraStake 1300 7;
    mkEraStake 0 8; mkEraStake 3000 15])).
  - split; [|done]. split; [repeat constructor|].
    repeat constructor; unfold is_u128, is_u32; simpl; vm_compute; done.
  - split; simpl; [lia|]. split_and!; lia.
  - unfold u32_max. lia.
  - lia.
Defined.

(** ** Binary search *)

(** The list is ordered with respect to the comparison: a prefix compares [Lt],
    then come the elements that compare [Eq], then a suffix compares [Gt]. *)
Definition searchable {A} (f : A → comparison) (l : list A) : Prop :=
  ∀ i j x y, (i <= j)%nat → l !! i = Some x → l !! j = Some y →
    (f y = Lt → f x = Lt) ∧ (f x = Gt → f y = Gt).

Section bsearch.
Context {A : Type} (f : A → comparison) (l : list A).

(** What [Ok(pos)] and [Err(pos)] mean. *)
Definition search_result (r : nat + nat) : Prop :=
  match r with
  | inl pos => ∃ x, l !! pos = Some x ∧ f x = Eq
  | inr pos =>
      (pos <= length l)%nat ∧
      (∀ j x, (j < pos)%nat → l !! j = Some x → f x = Lt) ∧
      (∀ j x, (pos <= j)%nat → l !! j = Some x → f x = Gt)
  end.

Lemma bsearch_spec fuel left right :
  searchable f l →
  (right - left < fuel)%nat → (left <= right <= length l)%nat →
  (∀ j x, (j < left)%nat → l !! j = Some x → f x = Lt) →
  (∀ j x, (right <= j)%nat → l !! j = Some x → f x = Gt) →
  ∃ r, bsearch fuel f l (right - left) left right = Some r ∧ search_result r.
Proof.
  intros Hs. revert left right.
  induction fuel as [|fuel IH]; intros left right Hf Hle Hlt Hgt; [lia|].
  cbn [bsearch]. destruct (Nat.ltb_spec left right) as [Hlr|Hlr].
  - cbv zeta. set (mid := (left + (right - left) / 2)%nat).
    assert (left <= mid < right)%nat as Hmid.
    { assert ((right - left) / 2 < right - left)%nat;
        [apply Nat.div_lt; lia|lia]. }
    destruct (lookup_lt_is_Some_2 l mid) as [x Hx]; [lia|]. rewrite Hx.
    destruct (f x) eqn:Hfx.
    + exists (inl mid). split; [done|]. by exists x.
    + apply IH; [lia|lia| |done]. intros j y Hj Hy.
      by apply (Hs j mid y x); [lia|..].
    + apply IH; [lia|lia|done|]. intros j y Hj Hy.
      by apply (Hs mid j x y); [lia|..].
  - exists (inr left). split; [done|]. split_and!; [lia|done|].
    intros j x Hj. apply Hgt. lia.
Qed.

Lemma binary_search_by_spec :
  searchable f l →
  ∃ r, binary_search_by f l = Some r ∧ search_result r.
Proof.
  intros Hs. unfold binary_search_by.
  pose proof (bsearch_spec (S (length l)) 0 (length l) Hs) as H.
  rewrite Nat.sub_0_r in H. apply H; [lia|lia|lia|].
  intros j x Hj Hx%lookup_lt_Some. lia.
Qed.
End bsearch.

(** the binary search terminates within its fuel and is correct on every
    ordered list: it returns a position that compares equal, or the insertion
    position that separates the smaller elements from the greater ones. *)
Theorem binary_search_by_total {A} (f : A → comparison) (l : list A) :
  searchable f l →
  match binary_search_by f l with
  | Some (inl pos) => ∃ x, l !! pos = Some x ∧ f x = Eq
  | Some (inr pos) =>
      (pos <= length l)%nat ∧
      (∀ j x, (j < pos)%nat → l !! j = Some x → f x = Lt) ∧
      (∀ j x, (pos <= j)%nat → l !! j = Some x → f x = Gt)
  | None => False
  end.
Proof.
  intros Hs. by destruct (binary_search_by_spec f l Hs) as ([pos|pos] & -> & Hr).
Qed.

(** Sorted keys are searchable. *)
Lemma searchable_ascending {A} (key : A → Z) (k : Z) (l : list A) :
  ascending (key <$> l) → searchable (λ x, Z.compare (key x) k) l.
Proof.
  intros Hl i j x y Hij Hx Hy.
  assert (key x <= key y).
  { destruct (decide (i = j)) as [->|]; [simplify_eq; lia|].
    rewrite <-(take_drop_middle l i x Hx), fmap_app, fmap_cons in Hl.
    apply ascending_app in Hl as (_ & Hl & _).
    apply StronglySorted_inv in Hl as [_ Hl]. rewrite Forall_fmap in Hl.
    assert (key x < key y); [|lia]. rewrite Forall_forall in Hl. apply Hl.
    apply list_elem_of_lookup_2 with (j - S i)%nat. rewrite lookup_drop.
    by replace (S i + (j - S i))%nat with j by lia. }
  rewrite !Z.compare_lt_iff, !Z.compare_gt_iff. lia.
Qed.

Lemma binary_search_by_total_witness :
  binary_search_by (λ x, Z.compare x 7) [2; 5; 9; 12] = Some (inr 2%nat) ∧
  match binary_search_by (λ x, Z.compare x 9) [2; 5; 9; 12] with
  | Some (inl pos) => ∃ x, [2; 5; 9; 12] !! pos = Some x ∧ Z.compare x 9 = Eq
  | Some (inr pos) =>
      (pos <= 4)%nat ∧
      (∀ j x, (j < pos)%nat → [2; 5; 9; 12] !! j = Some x → Z.compare x 9 = Lt) ∧
      (∀ j x, (pos <= j)%nat → [2; 5; 9; 12] !! j = Some x → Z.compare x 9 = Gt)
  | None => False
  end.
Proof.
  split; [reflexivity|].
  apply (binary_search_by_total (λ x, Z.compare x 9) [2; 5; 9; 12]).
  apply (searchable_ascending id). simpl. repeat constructor.
Defined.

(** ** The unbonding queue *)

Definition wf_chunks (l : list UnlockingChunk) : Prop :=
  ascending (uc_unlock_era <$> l) ∧
  Forall (λ c, is_u128 (uc_amount c) ∧ is_u32 (uc_unlock_era c)) l.
Definition wf_unbonding (u : UnbondingMetadata) : Prop :=
  wf_chunks (unlocking_chunks u).

Definition chunks_total (l : list UnlockingChunk) : Z := lsum (uc_amount <$> l).
Definition unbonding_total (u : UnbondingMetadata) : Z :=
  chunks_total (unlocking_chunks u).

(** The meaning of a queue: the amount that unlocks in era [e]. *)
Definition chunks_at (l : list UnlockingChunk) (e : Z) : Z :=
  lsum ((λ c, if uc_unlock_era c =? e then uc_amount c else 0) <$> l).
Definition unlocking_at (u : UnbondingMetadata) (e : Z) : Z :=
  chunks_at (unlocking_chunks u) e.

Lemma chunks_total_app l k : chunks_total (l ++ k) = chunks_total l + chunks_total k.
Proof. unfold chunks_total. by rewrite fmap_app, lsum_app. Qed.
Lemma chunks_total_cons c l : chunks_total (c :: l) = uc_amount c + chunks_total l.
Proof. done. Qed.
Lemma chunks_at_app l k e : chunks_at (l ++ k) e = chunks_at l e + chunks_at k e.
Proof. unfold chunks_at. by rewrite fmap_app, lsum_app. Qed.
Lemma chunks_at_cons c l e :
  chunks_at (c :: l) e =
  (if uc_unlock_era c =? e then uc_amount c else 0) + chunks_at l e.
Proof. done. Qed.

Lemma wf_chunks_app l k :
  wf_chunks (l ++ k) ↔
  wf_chunks l ∧ wf_chunks k ∧
  ∀ c c', c ∈ l → c' ∈ k → uc_unlock_era c < uc_unlock_era c'.
Proof.
  unfold wf_chunks. rewrite fmap_app, ascending_app, Forall_app. split.
  - intros [(? & ? & Hlt) [??]]. split_and!; [done..|].
    intros c c' Hc Hc'. apply Hlt; by apply list_elem_of_fmap_2.
  - intros ([??] & [??] & Hlt). split_and!; [done..| |done|done].
    intros x y (c & -> & Hc)%list_elem_of_fmap (c' & -> & Hc')%list_elem_of_fmap.
    by apply Hlt.
Qed.

Lemma wf_chunks_cons c l :
  wf_chunks (c :: l) ↔
  is_u128 (uc_amount c) ∧ is_u32 (uc_unlock_era c) ∧
  (∀ c', c' ∈ l → uc_unlock_era c < uc_unlock_era c') ∧ wf_chunks l.
Proof.
  rewrite (wf_chunks_app [c] l). split.
  - intros ([_ [[??] _]%Forall_cons] & ? & Hlt). split_and!; [done..| |done].
    intros c'. apply Hlt. by apply list_elem_of_singleton.
  - intros (? & ? & Hlt & ?). split_and!; [|done|].
    + split; simpl; [repeat constructor|by constructor].
    + intros c1 c' ->%list_elem_of_singleton. apply Hlt.
Qed.

Lemma chunks_total_nonneg l : wf_chunks l → 0 <= chunks_total l.
Proof.
  intros [_ HF]. apply lsum_nonneg, Forall_fmap.
  eapply Forall_impl; [done|]. unfold is_u128. simpl. lia.
Qed.

Lemma wf_unbonding_default : wf_unbonding UnbondingMetadata_default.
Proof. split; constructor. Qed.

Lemma wf_chunk_step (l1 l2 : list UnlockingChunk) c c' :
  uc_unlock_era c' = uc_unlock_era c → is_u128 (uc_amount c') →
  wf_chunks (l1 ++ c :: l2) → wf_chunks (l1 ++ c' :: l2).
Proof.
  intros He Ha (? & (? & ? & Hlt & ?)%wf_chunks_cons & Hlt1)%wf_chunks_app.
  apply wf_chunks_app. split_and!; [done| |].
  - apply wf_chunks_cons. split_and!; [done|by rewrite He|by rewrite He|done].
  - intros x y Hx [->|Hy]%elem_of_cons.
    + rewrite He. apply Hlt1; [done|left].
    + apply Hlt1; [done|by right].
Qed.

(** [add] either merges into the chunk of the same era or inserts the chunk at
    its place in the order. *)
Lemma add_cases u c :
  wf_unbonding u →
  (∃ l1 c0 l2, unlocking_chunks u = l1 ++ c0 :: l2 ∧
     uc_unlock_era c0 = uc_unlock_era c ∧
     Unbonding.add u c =
       mkUnbondingMetadata (l1 ++ Unbonding.add_amount c0 (uc_amount c) :: l2)) ∨
  (∃ l1 l2, unlocking_chunks u = l1 ++ l2 ∧
     (∀ x, x ∈ l1 → uc_unlock_era x < uc_unlock_era c) ∧
     (∀ x, x ∈ l2 → uc_unlock_era c < uc_unlock_era x) ∧
     Unbonding.add u c = mkUnbondingMetadata (l1 ++ c :: l2)).
Proof.
  intros [Hs _]. set (l := unlocking_chunks u) in *.
  pose proof (searchable_ascending uc_unlock_era (uc_unlock_era c) l Hs) as Hsr.
  unfold Unbonding.add. fold l.
  destruct (binary_search_by_spec _ l Hsr) as ([pos|pos] & -> & Hr).
  - destruct Hr as (c0 & Hpos & Heq%Z.compare_eq_iff). rewrite Hpos. left.
    exists (take pos l), c0, (drop (S pos) l). split_and!; [|done|].
    + by rewrite take_drop_middle.
    + by rewrite insert_take_drop by (by eapply lookup_lt_Some).
  - destruct Hr as (Hlen & Hlt & Hgt). right.
    exists (take pos l), (drop pos l). split_and!; [by rewrite take_drop| | |done].
    + intros x (j & Hj)%list_elem_of_lookup.
      apply lookup_take_Some in Hj as [Hj Hjp].
      by apply Z.compare_lt_iff, (Hlt j x).
    + intros x (j & Hj)%list_elem_of_lookup. rewrite lookup_drop in Hj.
      apply Z.compare_gt_iff, (Hgt (pos + j)%nat x); [lia|done].
Qed.

Lemma add_spec u c :
  wf_unbonding u → is_u128 (uc_amount c) → is_u32 (uc_unlock_era c) →
  unbonding_total u + uc_amount c <= u128_max →
  wf_unbonding (Unbonding.add u c) ∧
  unbonding_total (Unbonding.add u c) = unbonding_total u + uc_amount c ∧
  (∀ e, unlocking_at (Unbonding.add u c) e =
        unlocking_at u e + (if uc_unlock_era c =? e then uc_amount c else 0)) ∧
  (length (unlocking_chunks (Unbonding.add u c)) <=
   S (length (unlocking_chunks u)))%nat.
Proof.
  intros Hwf Ha He Hle. unfold wf_unbonding, unbonding_total, unlocking_at in *.
  destruct (add_cases u c Hwf) as
    [(l1 & c0 & l2 & Hu & Hera & ->)|(l1 & l2 & Hu & Hlt & Hgt & ->)];
    rewrite Hu in *; simpl.
  - pose proof Hwf as (Hw1 & (Ha0 & He0 & _ & Hw2)%wf_chunks_cons & _)%wf_chunks_app.
    rewrite chunks_total_app, chunks_total_cons in *.
    pose proof (chunks_total_nonneg l1 Hw1). pose proof (chunks_total_nonneg l2 Hw2).
    unfold is_u128 in Ha, Ha0. unfold Unbonding.add_amount.
    rewrite u128_add_small by lia. split_and!.
    + eapply wf_chunk_step; [|unfold is_u128; simpl; lia|done]. done.
    + rewrite chunks_total_app, chunks_total_cons. simpl. lia.
    + intros e. rewrite !chunks_at_app, !chunks_at_cons. simpl. rewrite Hera.
      destruct (uc_unlock_era c =? e); lia.
    + rewrite !length_app. simpl. lia.
  - pose proof Hwf as (Hw1 & Hw2 & Hord)%wf_chunks_app. split_and!.
    + apply wf_chunks_app. split_and!; [done| |].
      * apply wf_chunks_cons. by split_and!.
      * intros x y Hx [->|Hy]%elem_of_cons; [by apply Hlt|by apply Hord].
    + rewrite !chunks_total_app, chunks_total_cons. lia.
    + intros e. rewrite !chunks_at_app, chunks_at_cons. lia.
    + rewrite !length_app. simpl. lia.
Qed.

Lemma wf_chunks_filter (P : UnlockingChunk → Prop) `{∀ c, Decision (P c)} l :
  wf_chunks l → wf_chunks (filter P l).
Proof.
  induction l as [|c l IH]; intros Hwf; [done|].
  pose proof Hwf as (? & ? & Hlt & Hwl)%wf_chunks_cons.
  rewrite filter_cons. destruct (decide (P c)); [|by apply IH].
  apply wf_chunks_cons. split_and!; [done..| |by apply IH].
  intros c' [_ Hc']%list_elem_of_filter. by apply Hlt.
Qed.

Lemma partition_spec u era :
  let '(valid, future) := Unbonding.partition u era in
  (wf_unbonding u → wf_unbonding valid ∧ wf_unbonding future) ∧
  unbonding_total valid + unbonding_total future = unbonding_total u ∧
  (∀ e, unlocking_at valid e = if e <=? era then unlocking_at u e else 0) ∧
  (∀ e, unlocking_at future e = if e <=? era then 0 else unlocking_at u e) ∧
  (length (unlocking_chunks future) <= length (unlocking_chunks u))%nat.
Proof.
  unfold Unbonding.partition, wf_unbonding, unbonding_total, unlocking_at. simpl.
  set (l := unlocking_chunks u). split_and!.
  - by split; apply wf_chunks_filter.
  - induction l as [|c l IH]; [done|]. rewrite !filter_cons, chunks_total_cons.
    destruct (decide (uc_unlock_era c <= era)); [rewrite decide_False by lia|
      rewrite decide_True by lia]; rewrite chunks_total_cons; lia.
  - intros e. induction l as [|c l IH]; [by destruct (e <=? era)|].
    rewrite filter_cons, (chunks_at_cons c l).
    destruct (decide (uc_unlock_era c <= era)); [rewrite chunks_at_cons|];
      rewrite IH; destruct (Z.leb_spec e era), (Z.eqb_spec (uc_unlock_era c) e); lia.
  - intros e. induction l as [|c l IH]; [by destruct (e <=? era)|].
    rewrite filter_cons, (chunks_at_cons c l).
    destruct (decide (¬ uc_unlock_era c <= era)); [rewrite chunks_at_cons|];
      rewrite IH; destruct (Z.leb_spec e era), (Z.eqb_spec (uc_unlock_era c) e); lia.
  - apply length_filter.
Qed.

(** The wrapping sum is the sum of the amounts modulo 2^128. *)
Lemma sum_wrap u : Forall (λ c, is_u128 (uc_amount c)) (unlocking_chunks u) →
  Unbonding.sum u = wrap 128 (unbonding_total u).
Proof.
  unfold Unbonding.sum, unbonding_total, chunks_total. intros HF.
  destruct (unlocking_chunks u) as [|c l]; [done|].
  apply Forall_cons in HF as [Hc _]. rewrite fmap_cons. cbn beta iota.
  rewrite lsum_cons. set (k := uc_amount <$> l).
  assert (∀ (k : list Z) a, fold_left u128_add k (wrap 128 a) = wrap 128 (a + lsum k))
    as Hk.
  { clear. induction k as [|z k IH]; intros a; simpl.
    - by rewrite (Z.add_0_r a : a + lsum [] = a).
    - assert (u128_add (wrap 128 a) z = wrap 128 (a + z)) as ->
        by apply Zplus_mod_idemp_l.
      rewrite IH, lsum_cons. f_equal. lia. }
  rewrite <-Hk. f_equal. symmetry. apply wrap_small.
  unfold is_u128, u128_max in Hc. lia.
Qed.

Lemma sum_spec u :
  wf_unbonding u → unbonding_total u <= u128_max →
  Unbonding.sum u = unbonding_total u.
Proof.
  intros Hwf Hle. rewrite sum_wrap.
  - apply wrap_small. pose proof (chunks_total_nonneg _ Hwf).
    unfold unbonding_total, u128_max in *. lia.
  - destruct Hwf as [_ HF]. eapply Forall_impl; [done|]. by intros ? [? _].
Qed.

(** adding a chunk to a sorted queue keeps it sorted with one chunk per
    unlock era, raises the amount unlocking in the chunk's era by the chunk's
    amount and no other era's, raises the wrapping sum by exactly that amount,
    and lengthens the queue by at most one (not at all when it merges). *)
Theorem unbonding_add_refines u c :
  wf_unbonding u → is_u128 (uc_amount c) → is_u32 (uc_unlock_era c) →
  unbonding_total u + uc_amount c <= u128_max →
  let u' := Unbonding.add u c in
  wf_unbonding u' ∧
  (∀ e, unlocking_at u' e =
        unlocking_at u e + (if uc_unlock_era c =? e then uc_amount c else 0)) ∧
  Unbonding.sum u' = Unbonding.sum u + uc_amount c ∧
  (length (unlocking_chunks u') <= S (length (unlocking_chunks u)))%nat.
Proof.
  intros Hwf Ha He Hle. destruct (add_spec u c Hwf Ha He Hle) as (Hwf' & Ht & Hat & Hl).
  unfold is_u128 in Ha. split_and!; [done..| |done].
  rewrite !sum_spec; [done|done|lia|done|lia].
Qed.

Lemma unbonding_add_refines_witness :
  let u := mkUnbondingMetadata [mkUnlockingChunk 10 4; mkUnlockingChunk 20 6] in
  Unbonding.add u (mkUnlockingChunk 5 6) =
    mkUnbondingMetadata [mkUnlockingChunk 10 4; mkUnlockingChunk 25 6] ∧
  Unbonding.sum (Unbonding.add u (mkUnlockingChunk 7 5)) = Unbonding.sum u + 7.
Proof.
  split; [reflexivity|].
  refine (proj1 (proj2 (proj2 (unbonding_add_refines
    (mkUnbondingMetadata [mkUnlockingChunk 10 4; mkUnlockingChunk 20 6])
    (mkUnlockingChunk 7 5) _ _ _ _)))).
  - split; [repeat constructor|].
    repeat constructor; unfold is_u128, is_u32; vm_compute; done.
  - vm_compute; split; discriminate.
  - vm_compute; split; discriminate.
  - vm_compute; discriminate.
Defined.

(** partitioning a queue at an era loses nothing: the first part holds
    exactly what unlocks up to that era and the second exactly what unlocks
    later, both stay well-formed, and the sums of the parts add up. *)
Theorem unbonding_partition_refines u era :
  wf_unbonding u → unbonding_total u <= u128_max →
  let '(valid, future) := Unbonding.partition u era in
  wf_unbonding valid ∧ wf_unbonding future ∧
  (∀ e, unlocking_at valid e = if e <=? era then unlocking_at u e else 0) ∧
  (∀ e, unlocking_at future e = if e <=? era then 0 else unlocking_at u e) ∧
  Unbonding.sum valid + Unbonding.sum future = Unbonding.sum u.
Proof.
  intros Hwf Hle. pose proof (partition_spec u era) as Hp.
  destruct (Unbonding.partition u era) as [valid future].
  destruct Hp as (Hw & Ht & Hv & Hf & _). destruct (Hw Hwf) as [Hwv Hwf'].
  pose proof (chunks_total_nonneg _ Hwv). pose proof (chunks_total_nonneg _ Hwf').
  unfold unbonding_total in *. split_and!; [done..|].
  rewrite !sum_spec; unfold unbonding_total; done || lia.
Qed.

Lemma unbonding_partition_refines_witness :
  let u := mkUnbondingMetadata [mkUnlockingChunk 10 4; mkUnlockingChunk 20 6] in
  let '(valid, future) := Unbonding.partition u 5 in
  wf_unbonding valid ∧ wf_unbonding future ∧
  (∀ e, unlocking_at valid e = if e <=? 5 then unlocking_at u e else 0) ∧
  (∀ e, unlocking_at future e = if e <=? 5 then 0 else unlocking_at u e) ∧
  Unbonding.sum valid + Unbonding.sum future = Unbonding.sum u.
Proof.
  apply (unbonding_partition_refines
    (mkUnbondingMetadata [mkUnlockingChunk 10 4; mkUnlockingChunk 20 6]) 5).
  - split; [repeat constructor|].
    repeat constructor; unfold is_u128, is_u32; vm_compute; done.
  - vm_compute; discriminate.
Defined.
