(* ===== verification/Staking.v ===== *)
(** * The dAPI staking pallet

    pallets/dapi-staking/src/lib.rs: the storage as [State], one definition per
    dispatchable, hook and helper, in the order of the code, and [dispatch]
    over the [Call] enum that [#[pallet::call]] generates. *)

From S2P Require Export Frame StakingTypes.
Import DapiStakingError.

(** ** [Config] *)

Class StakingConfig (AccountId : Type) `{PerbillOps} := {
  DefaultBlocksPerEra : Z;
  ProviderRewardsPercentage : Perbill;
  MinProviderStake : Z;
  MaxDelegatorsPerProvider : Z;
  MinDelegatorStake : Z;
  MaxEraStakeValues : Z;
  UnbondingPeriod : Z;
  MaxUnlockingChunks : Z;
  (** [T::PalletId::get().into_account_truncating()] *)
  PalletAccount : AccountId
}.

Inductive StakingEvent (AccountId ProviderId : Type) : Type :=
| ProviderBondedMore (provider_id : ProviderId) (amount : Z)
| ProviderBondedLess (provider_id : ProviderId) (amount : Z)
| Delegated (delegator : AccountId) (provider_id : ProviderId) (amount : Z)
| DelegatorUnstaked (delegator : AccountId) (provider_id : ProviderId) (amount : Z)
| Withdrawn (who : AccountId) (amount : Z)
| NewEra (era : Z) (first_block : Z)
| Payout (who : AccountId) (provider_id : ProviderId) (era amount : Z)
| BlocksPerEraSet (current_round first_block old new : Z).
Arguments ProviderBondedMore {AccountId ProviderId} _ _.
Arguments ProviderBondedLess {AccountId ProviderId} _ _.
Arguments Delegated {AccountId ProviderId} _ _ _.
Arguments DelegatorUnstaked {AccountId ProviderId} _ _ _.
Arguments Withdrawn {AccountId ProviderId} _ _.
Arguments NewEra {AccountId ProviderId} _ _.
Arguments Payout {AccountId ProviderId} _ _ _ _.
Arguments BlocksPerEraSet {AccountId ProviderId} _ _ _ _.

#[global] Instance StakingEvent_eq_dec `{EqDecision A, EqDecision P} :
  EqDecision (StakingEvent A P).
Proof. solve_decision. Defined.

(** [#[pallet::call]] *)
Inductive StakingCall (ProviderId : Type) : Type :=
| set_blocks_per_era_call (new : Z)
| provider_bond_more_call (provider_id : ProviderId) (amount : Z)
| provider_bond_less_call (provider_id : ProviderId) (amount : Z)
| delegate_call (provider_id : ProviderId) (amount : Z)
| delegator_unstake_call (provider_id : ProviderId) (amount : Z)
| withdraw_unbonded_call
| claim_provider_call (provider_id : ProviderId) (era : Z)
| claim_delegator_call (provider_id : ProviderId)
| provider_withdraw_unregistered_call (provider_id : ProviderId)
| delegator_withdraw_unregistered_call (provider_id : ProviderId).
Arguments set_blocks_per_era_call {ProviderId} _.
Arguments provider_bond_more_call {ProviderId} _ _.
Arguments provider_bond_less_call {ProviderId} _ _.
Arguments delegate_call {ProviderId} _ _.
Arguments delegator_unstake_call {ProviderId} _ _.
Arguments withdraw_unbonded_call {ProviderId}.
Arguments claim_provider_call {ProviderId} _ _.
Arguments claim_delegator_call {ProviderId} _.
Arguments provider_withdraw_unregistered_call {ProviderId} _.
Arguments delegator_withdraw_unregistered_call {ProviderId} _.

Section staking.
Context {AccountId : Type} `{Countable AccountId}.
Context {ProviderId : Type} `{Countable ProviderId}.
Context {Imb L : Type} `{!Currency AccountId Imb L}.
Context `{!PerbillOps} `{!DbWeightOps} `{!StakingConfig AccountId}.

(** ** Storage

    The last two fields are the pallet's environment: the ledger of
    [T::Currency] and the events deposited so far, oldest first. *)
Record State : Type := mkState {
  Era : EraInfo;
  EraState : gmap Z EraMetadata;
  RewardAccumulator : Z;
  ProviderInfo : gmap ProviderId (ProviderMetadata AccountId);
  ProviderEraInfo : gmap (ProviderId * Z) ProviderEraMetadata;
  DelegationInfo : gmap (AccountId * ProviderId) Delegation;
  UnbondingInfo : gmap AccountId UnbondingMetadata;
  ledger : L;
  events : list (StakingEvent AccountId ProviderId)
}.

#[global] Instance State_eq_dec `{!EqDecision L} : EqDecision State.
Proof. solve_decision. Defined.

Definition set_Era (v : EraInfo) (s : State) : State :=
  mkState v (EraState s) (RewardAccumulator s) (ProviderInfo s)
    (ProviderEraInfo s) (DelegationInfo s) (UnbondingInfo s) (ledger s) (events s).
Definition set_EraState v (s : State) : State :=
  mkState (Era s) v (RewardAccumulator s) (ProviderInfo s)
    (ProviderEraInfo s) (DelegationInfo s) (UnbondingInfo s) (ledger s) (events s).
Definition set_RewardAccumulator v (s : State) : State :=
  mkState (Era s) (EraState s) v (ProviderInfo s)
    (ProviderEraInfo s) (DelegationInfo s) (UnbondingInfo s) (ledger s) (events s).
Definition set_ProviderInfo v (s : State) : State :=
  mkState (Era s) (EraState s) (RewardAccumulator s) v
    (ProviderEraInfo s) (DelegationInfo s) (UnbondingInfo s) (ledger s) (events s).
Definition set_ProviderEraInfo v (s : State) : State :=
  mkState (Era s) (EraState s) (RewardAccumulator s) (ProviderInfo s)
    v (DelegationInfo s) (UnbondingInfo s) (ledger s) (events s).
Definition set_DelegationInfo v (s : State) : State :=
  mkState (Era s) (EraState s) (RewardAccumulator s) (ProviderInfo s)
    (ProviderEraInfo s) v (UnbondingInfo s) (ledger s) (events s).
Definition set_UnbondingInfo v (s : State) : State :=
  mkState (Era s) (EraState s) (RewardAccumulator s) (ProviderInfo s)
    (ProviderEraInfo s) (DelegationInfo s) v (ledger s) (events s).
Definition set_ledger v (s : State) : State :=
  mkState (Era s) (EraState s) (RewardAccumulator s) (ProviderInfo s)
    (ProviderEraInfo s) (DelegationInfo s) (UnbondingInfo s) v (events s).
Definition set_events v (s : State) : State :=
  mkState (Era s) (EraState s) (RewardAccumulator s) (ProviderInfo s)
    (ProviderEraInfo s) (DelegationInfo s) (UnbondingInfo s) (ledger s) v.

(** [ValueQuery] and [unwrap_or_default()] reads. *)
Definition provider_era_info (s : State) (provider_id : ProviderId) (era : Z) :
    ProviderEraMetadata :=
  default ProviderEraMetadata_default (ProviderEraInfo s !! (provider_id, era)).
Definition delegation_info (s : State) (delegator : AccountId)
    (provider_id : ProviderId) : Delegation :=
  default Delegation_default (DelegationInfo s !! (delegator, provider_id)).
Definition unbonding_info (s : State) (who : AccountId) : UnbondingMetadata :=
  default UnbondingMetadata_default (UnbondingInfo s !! who).

Abbreviation Handler := (M DispatchError State).

Definition err (e : Error) : DispatchError := DapiStakingErr e.

(** ** The environment *)

Definition deposit_event (e : StakingEvent AccountId ProviderId) : Handler unit :=
  modify (λ s, set_events (events s ++ [e]) s).

Definition on_ledger {A} (r : result DispatchError (A * L)) (s : State) :
    result DispatchError (A * State) :=
  match r with
  | Ok (a, l) => Ok (a, set_ledger l s)
  | Err e => Err e
  end.

Definition currency_reserve (who : AccountId) (amount : Z) : Handler unit :=
  try_update (λ s, on_ledger (reserve who amount (ledger s)) s).
Definition currency_unreserve (who : AccountId) (amount : Z) : Handler Z :=
  update (λ s, let '(rest, l) := unreserve who amount (ledger s) in
               (rest, set_ledger l s)).
Definition currency_withdraw (who : AccountId) (amount : Z)
    (req : ExistenceRequirement) : Handler Imb :=
  try_update (λ s, on_ledger (withdraw who amount req (ledger s)) s).
Definition currency_resolve_creating (who : AccountId) (imbalance : Imb) :
    Handler unit :=
  modify (λ s, set_ledger (resolve_creating who imbalance (ledger s)) s).

(** ** Helpers of [impl<T: Config> Pallet<T>] *)

Definition account_id : AccountId := PalletAccount.

Definition current_era : Handler Z := gets (λ s, current (Era s)).

Definition update_unbonding_info (account : AccountId) (info : UnbondingMetadata) :
    Handler unit :=
  if Unbonding.is_empty info
  then modify (λ s, set_UnbondingInfo (delete account (UnbondingInfo s)) s)
  else modify (λ s, set_UnbondingInfo (<[account:=info]> (UnbondingInfo s)) s).

Definition update_delegation_info (delegator : AccountId) (provider_id : ProviderId)
    (info : Delegation) : Handler unit :=
  if Delegation.is_empty info
  then modify (λ s, set_DelegationInfo
                      (delete (delegator, provider_id) (DelegationInfo s)) s)
  else modify (λ s, set_DelegationInfo
                      (<[(delegator, provider_id):=info]> (DelegationInfo s)) s).

(** [EraState::<T>::mutate(&era, |v| if let Some(x) = v { x.staked = f(x.staked) })] *)
Definition map_staked (f : Z → Z) (x : EraMetadata) : EraMetadata :=
  mkEraMetadata (em_rewards x) (f (em_staked x)).
Definition mutate_era_staked (era : Z) (f : Z → Z) : Handler unit :=
  modify (λ s, set_EraState (alter (map_staked f) era (EraState s)) s).

Definition insert_provider_era_info (provider_id : ProviderId) (era : Z)
    (info : ProviderEraMetadata) : Handler unit :=
  modify (λ s, set_ProviderEraInfo
                 (<[(provider_id, era):=info]> (ProviderEraInfo s)) s).

Definition snapshot_era_rewards (era : Z) : Handler unit :=
  state ← gets (λ s, default EraMetadata_default (EraState s !! era));
  modify (λ s, set_EraState
    (<[u32_add era 1:=mkEraMetadata 0 (em_staked state)]> (EraState s)) s);;
  rewards ← gets RewardAccumulator;
  modify (set_RewardAccumulator 0);;
  modify (λ s, set_EraState
    (<[era:=mkEraMetadata rewards (em_staked state)]> (EraState s)) s).

(** The loop body of [rotate_provider_era_info], with the consumed weight. *)
Definition rotate_step (era next_era consumed_weight : Z)
    (entry : ProviderId * ProviderMetadata AccountId) : Handler Z :=
  let '(provider_id, provider) := entry in
  let consumed_weight := sat_add u64_max consumed_weight (db_reads 1) in
  match status provider with
  | Inactive _ => mret consumed_weight
  | Active =>
      info ← gets (λ s, ProviderEraInfo s !! (provider_id, era));
      match info with
      | Some info =>
          insert_provider_era_info provider_id next_era
            (mkProviderEraMetadata (bond info) (total info)
               (delegator_count info) false);;
          mret (sat_add u64_max consumed_weight (db_reads_writes 1 1))
      | None => mret (sat_add u64_max consumed_weight (db_reads 1))
      end
  end.

(** The loop over a given enumeration of the providers. *)
Definition rotate_over (era : Z)
    (providers : list (ProviderId * ProviderMetadata AccountId)) : Handler Z :=
  foldM (rotate_step era (u32_add era 1)) 0 providers.

Definition rotate_provider_era_info (era : Z) : Handler Z :=
  providers ← gets (λ s, map_to_list (ProviderInfo s));
  rotate_over era providers.

Definition is_active_provider (s : State) (provider_id : ProviderId) : bool :=
  match ProviderInfo s !! provider_id with
  | Some provider_info => bool_decide (status provider_info = Active)
  | None => false
  end.

Definition split_provider_delegators_rewards (info : ProviderEraMetadata)
    (era_info : EraMetadata) : Z * Z :=
  let provider_rewards :=
    pb_mul (pb_from_rational (total info) (em_staked era_info)) (em_rewards era_info) in
  let provider_reward_part := pb_mul ProviderRewardsPercentage provider_rewards in
  let delegators_reward_part := sat_sub provider_rewards provider_reward_part in
  (provider_reward_part, delegators_reward_part).

Definition handle_imbalance (imbalance : Imb) : Handler unit :=
  modify (λ s, set_RewardAccumulator
                 (sat_add u128_max (RewardAccumulator s) (peek imbalance)) s);;
  currency_resolve_creating account_id imbalance.

(** ** Hooks *)

Definition on_initialize (n : Z) : Handler Z :=
  era ← gets Era;
  if EraInfo.should_update era n then
    let previous_era := current era in
    let era :=
      if previous_era =? 0
      then mkEraInfo (current era) (first_block era) DefaultBlocksPerEra
      else era in
    let era := EraInfo.update era n in
    modify (set_Era era);;
    snapshot_era_rewards previous_era;;
    consumed_weight ← rotate_provider_era_info previous_era;
    deposit_event (NewEra (current era) (first_block era));;
    mret (u64_add consumed_weight (db_reads_writes 2 3))
  else mret (db_reads 1).

(** ** Dispatchables *)

Definition set_blocks_per_era (origin : Origin AccountId) (new : Z) : Handler unit :=
  ensure_root origin;;
  era ← gets Era;
  let now := current era in
  let first := first_block era in
  let old := length_ era in
  ensure (negb (old =? new)) (err NoWritingSameValue);;
  modify (set_Era (mkEraInfo (current era) (first_block era) new));;
  deposit_event (BlocksPerEraSet now first old new).

Definition provider_bond_more (origin : Origin AccountId)
    (provider_id : ProviderId) (amount : Z) : Handler unit :=
  who ← ensure_signed origin;
  ensure (0 <? amount) (err StakingWithNoValue);;
  provider ← gets (λ s, ProviderInfo s !! provider_id);
  provider_info ← ok_or provider (err ProviderDNE);
  ensure (bool_decide (status provider_info = Active)) (err NotOperatedProvider);;
  ensure (bool_decide (owner provider_info = who)) (err NotOwnedProvider);;
  era ← current_era;
  info ← gets (λ s, provider_era_info s provider_id era);
  bond' ← ok_or (checked_add u128_max (bond info) amount) (Arithmetic Overflow);
  total' ← ok_or (checked_add u128_max (total info) amount) (Arithmetic Overflow);
  currency_reserve who amount;;
  mutate_era_staked era (λ staked, sat_add u128_max staked amount);;
  insert_provider_era_info provider_id era
    (mkProviderEraMetadata bond' total' (delegator_count info)
       (provider_reward_claimed info));;
  deposit_event (ProviderBondedMore provider_id amount).

Definition provider_bond_less (origin : Origin AccountId)
    (provider_id : ProviderId) (amount : Z) : Handler unit :=
  who ← ensure_signed origin;
  ensure (0 <? amount) (err UnstakingWithNoValue);;
  provider ← gets (λ s, ProviderInfo s !! provider_id);
  provider_info ← ok_or provider (err ProviderDNE);
  ensure (bool_decide (status provider_info = Active)) (err NotOperatedProvider);;
  ensure (bool_decide (owner provider_info = who)) (err NotOwnedProvider);;
  era ← current_era;
  info ← gets (λ s, provider_era_info s provider_id era);
  ensure (u128_add amount MinProviderStake <=? bond info) (err InsufficientBond);;
  let bond' := sat_sub (bond info) amount in
  let total' := sat_sub (total info) amount in
  unbonding ← gets (λ s, unbonding_info s who);
  let unbonding' :=
    Unbonding.add unbonding (mkUnlockingChunk amount (u32_add era UnbondingPeriod)) in
  ensure (Unbonding.len unbonding' <=? MaxUnlockingChunks)
    (err TooManyUnlockingChunks);;
  update_unbonding_info who unbonding';;
  mutate_era_staked era (λ staked, sat_sub staked amount);;
  insert_provider_era_info provider_id era
    (mkProviderEraMetadata bond' total' (delegator_count info)
       (provider_reward_claimed info));;
  deposit_event (ProviderBondedLess provider_id amount).

Definition delegate (origin : Origin AccountId)
    (provider_id : ProviderId) (amount : Z) : Handler unit :=
  delegator ← ensure_signed origin;
  ensure (0 <? amount) (err StakingWithNoValue);;
  active ← gets (λ s, is_active_provider s provider_id);
  ensure active (err NotOperatedProvider);;
  era ← current_era;
  info ← gets (λ s, provider_era_info s provider_id era);
  delegation ← gets (λ s, delegation_info s delegator provider_id);
  ensure (negb (Delegation.latest_staked_value delegation =? 0) ||
          (delegator_count info <=? MaxDelegatorsPerProvider))
    (err MaxNumberOfStakersExceeded);;
  let count' :=
    if Delegation.latest_staked_value delegation =? 0
    then sat_add u32_max (delegator_count info) 1
    else delegator_count info in
  delegation' ← map_err (Delegation.stake delegation era amount)
                  (λ _, err UnexpectedDelegationInfoEra);
  ensure (Delegation.len delegation' <? MaxEraStakeValues)
    (err TooManyEraStakeValues);;
  ensure (MinDelegatorStake <=? Delegation.latest_staked_value delegation')
    (err InsufficientBond);;
  total' ← ok_or (checked_add u128_max (total info) amount) (Arithmetic Overflow);
  currency_reserve delegator amount;;
  mutate_era_staked era (λ staked, sat_add u128_max staked amount);;
  update_delegation_info delegator provider_id delegation';;
  insert_provider_era_info provider_id era
    (mkProviderEraMetadata (bond info) total' count' (provider_reward_claimed info));;
  deposit_event (Delegated delegator provider_id amount).

Definition delegator_unstake (origin : Origin AccountId)
    (provider_id : ProviderId) (amount : Z) : Handler unit :=
  delegator ← ensure_signed origin;
  ensure (0 <? amount) (err UnstakingWithNoValue);;
  active ← gets (λ s, is_active_provider s provider_id);
  ensure active (err NotOperatedProvider);;
  delegation ← gets (λ s, delegation_info s delegator provider_id);
  let staked_amount := Delegation.latest_staked_value delegation in
  ensure (0 <? staked_amount) (err NotStakedProvider);;
  era ← current_era;
  info ← gets (λ s, provider_era_info s provider_id era);
  let remaining := sat_sub staked_amount amount in
  let '(count', unstake_amount) :=
    if remaining <? MinDelegatorStake
    then (sat_sub (delegator_count info) 1, staked_amount)
    else (delegator_count info, amount) in
  let total' := sat_sub (total info) unstake_amount in
  ensure (0 <? unstake_amount) (err UnstakingWithNoValue);;
  delegation' ← map_err (Delegation.unstake delegation era unstake_amount)
                  (λ _, err UnexpectedDelegationInfoEra);
  ensure (Delegation.len delegation' <? MaxEraStakeValues)
    (err TooManyEraStakeValues);;
  unbonding ← gets (λ s, unbonding_info s delegator);
  let unbonding' :=
    Unbonding.add unbonding
      (mkUnlockingChunk unstake_amount (u32_add era UnbondingPeriod)) in
  ensure (Unbonding.len unbonding' <=? MaxUnlockingChunks)
    (err TooManyUnlockingChunks);;
  update_unbonding_info delegator unbonding';;
  mutate_era_staked era (λ staked, sat_sub staked unstake_amount);;
  update_delegation_info delegator provider_id delegation';;
  insert_provider_era_info provider_id era
    (mkProviderEraMetadata (bond info) total' count' (provider_reward_claimed info));;
  deposit_event (DelegatorUnstaked delegator provider_id unstake_amount).

Definition withdraw_unbonded (origin : Origin AccountId) : Handler unit :=
  who ← ensure_signed origin;
  unbonding ← gets (λ s, unbonding_info s who);
  era ← current_era;
  let '(valid_chunks, future_chunks) := Unbonding.partition unbonding era in
  let amount := Unbonding.sum valid_chunks in
  ensure (negb (amount =? 0)) (err NothingToWithdraw);;
  currency_unreserve who amount;;
  update_unbonding_info who future_chunks;;
  deposit_event (Withdrawn who amount).

(** [if let Inactive(unregistered_era) = status { ensure!(era < unregistered_era) }] *)
Definition before_unregistration (provider_info : ProviderMetadata AccountId)
    (era : Z) : bool :=
  match status provider_info with
  | Inactive unregistered_era => era <? unregistered_era
  | Active => true
  end.

Definition claim_provider (origin : Origin AccountId)
    (provider_id : ProviderId) (era : Z) : Handler unit :=
  ensure_signed origin;;
  provider ← gets (λ s, ProviderInfo s !! provider_id);
  provider_info ← ok_or provider (err NotOperatedProvider);
  ensure (before_unregistration provider_info era) (err NotOperatedProvider);;
  current_era ← current_era;
  ensure (era <? current_era) (err EraOutOfBounds);;
  info ← gets (λ s, provider_era_info s provider_id era);
  ensure (negb (provider_reward_claimed info)) (err AlreadyClaimedInThisEra);;
  ensure (0 <? total info) (err NotStakedProvider);;
  era_state ← gets (λ s, EraState s !! era);
  era_state ← ok_or era_state (err UnknownEra);
  let '(provider_reward, _) := split_provider_delegators_rewards info era_state in
  reward_imbalance ← currency_withdraw account_id provider_reward AllowDeath;
  currency_resolve_creating (owner provider_info) reward_imbalance;;
  insert_provider_era_info provider_id era
    (mkProviderEraMetadata (bond info) (total info) (delegator_count info) true);;
  deposit_event (Payout (owner provider_info) provider_id era provider_reward).

Definition claim_delegator (origin : Origin AccountId)
    (provider_id : ProviderId) : Handler unit :=
  delegator ← ensure_signed origin;
  delegator_info ← gets (λ s, delegation_info s delegator provider_id);
  let '((era, staked), delegator_info') := Delegation.claim delegator_info in
  ensure (0 <? staked) (err NotStakedProvider);;
  provider ← gets (λ s, ProviderInfo s !! provider_id);
  provider_info ← ok_or provider (err NotOperatedProvider);
  ensure (before_unregistration provider_info era) (err NotOperatedProvider);;
  current_era ← current_era;
  ensure (era <? current_era) (err EraOutOfBounds);;
  info ← gets (λ s, provider_era_info s provider_id era);
  era_info ← gets (λ s, EraState s !! era);
  era_info ← ok_or era_info (err UnknownEra);
  let '(_, delegators_reward) := split_provider_delegators_rewards info era_info in
  let reward :=
    pb_mul (pb_from_rational staked (sat_sub (total info) (bond info)))
      delegators_reward in
  reward_imbalance ← currency_withdraw account_id reward AllowDeath;
  currency_resolve_creating delegator reward_imbalance;;
  update_delegation_info delegator provider_id delegator_info';;
  deposit_event (Payout delegator provider_id era reward).

(** [if let Inactive(e) = status { e } else { return Err(NotUnregisteredProvider) }] *)
Definition unregistered_era (provider_info : ProviderMetadata AccountId) : Handler Z :=
  ok_or (match status provider_info with Inactive e => Some e | Active => None end)
    (err NotUnregisteredProvider).

Definition provider_withdraw_unregistered (origin : Origin AccountId)
    (provider_id : ProviderId) : Handler unit :=
  ensure_signed origin;;
  provider ← gets (λ s, ProviderInfo s !! provider_id);
  provider_info ← ok_or provider (err NotOperatedProvider);
  ensure (negb (bond_withdrawn provider_info)) (err NothingToWithdraw);;
  unregistered_era ← unregistered_era provider_info;
  current_era ← current_era;
  ensure (u32_add unregistered_era UnbondingPeriod <=? current_era)
    (err NothingToWithdraw);;
  info ← gets (λ s, provider_era_info s provider_id unregistered_era);
  let owner := owner provider_info in
  let withdraw_amount := bond info in
  currency_unreserve owner withdraw_amount;;
  modify (λ s, set_ProviderInfo
    (<[provider_id:=mkProviderMetadata owner (status provider_info) true]>
       (ProviderInfo s)) s);;
  deposit_event (Withdrawn owner withdraw_amount).

Definition delegator_withdraw_unregistered (origin : Origin AccountId)
    (provider_id : ProviderId) : Handler unit :=
  delegator ← ensure_signed origin;
  provider ← gets (λ s, ProviderInfo s !! provider_id);
  provider_info ← ok_or provider (err NotOperatedProvider);
  unregistered_era ← unregistered_era provider_info;
  current_era ← current_era;
  ensure (u32_add unregistered_era UnbondingPeriod <=? current_era)
    (err NothingToWithdraw);;
  delegation ← gets (λ s, delegation_info s delegator provider_id);
  let staked_value := Delegation.latest_staked_value delegation in
  ensure (0 <? staked_value) (err NotStakedProvider);;
  let '((claimable_era, _), _) := Delegation.claim delegation in
  ensure ((unregistered_era <=? claimable_era) || (claimable_era =? 0))
    (err UnclaimedRewardsRemaining);;
  currency_unreserve delegator staked_value;;
  update_delegation_info delegator provider_id Delegation_default;;
  deposit_event (Withdrawn delegator staked_value).

(** ** [impl DapiStakingRegistration for Pallet] *)

Definition register_provider (account : AccountId) (provider_id : ProviderId)
    (bond : Z) : Handler unit :=
  known ← gets (λ s, bool_decide (is_Some (ProviderInfo s !! provider_id)));
  ensure (negb known) (err ProviderExists);;
  ensure (MinProviderStake <=? bond) (err InsufficientBond);;
  currency_reserve account bond;;
  modify (λ s, set_ProviderInfo
    (<[provider_id:=ProviderMetadata_new account]> (ProviderInfo s)) s);;
  era ← current_era;
  insert_provider_era_info provider_id era (mkProviderEraMetadata bond bond 0 false);;
  era_state ← gets (λ s, default EraMetadata_default (EraState s !! era));
  modify (λ s, set_EraState
    (<[era:=mkEraMetadata (em_rewards era_state)
              (sat_add u128_max (em_staked era_state) bond)]> (EraState s)) s).

Definition unregister_provider (provider_id : ProviderId) : Handler unit :=
  provider ← gets (λ s, ProviderInfo s !! provider_id);
  provider ← ok_or provider (err ProviderDNE);
  ensure (bool_decide (status provider = Active)) (err NotOperatedProvider);;
  current_era ← current_era;
  modify (λ s, set_ProviderInfo
    (<[provider_id:=mkProviderMetadata (owner provider) (Inactive current_era)
                      (bond_withdrawn provider)]> (ProviderInfo s)) s);;
  info ← gets (λ s, provider_era_info s provider_id current_era);
  mutate_era_staked current_era (λ staked, sat_sub staked (total info)).

(** ** Dispatch *)

Definition dispatch (c : StakingCall ProviderId) (origin : Origin AccountId) :
    Handler unit :=
  match c with
  | set_blocks_per_era_call new => set_blocks_per_era origin new
  | provider_bond_more_call p amount => provider_bond_more origin p amount
  | provider_bond_less_call p amount => provider_bond_less origin p amount
  | delegate_call p amount => delegate origin p amount
  | delegator_unstake_call p amount => delegator_unstake origin p amount
  | withdraw_unbonded_call => withdraw_unbonded origin
  | claim_provider_call p era => claim_provider origin p era
  | claim_delegator_call p => claim_delegator origin p
  | provider_withdraw_unregistered_call p => provider_withdraw_unregistered origin p
  | delegator_withdraw_unregistered_call p => delegator_withdraw_unregistered origin p
  end.

End staking.

Arguments State AccountId {_ _} ProviderId {_ _} L.
