(* ===== verification/StakingCalls.v ===== *)
(** * The dispatchables of the staking pallet, one by one

    The verify-first-write-last discipline (a failing call leaves the storage
    and the ledger untouched), and for each dispatchable the exact facts of a
    successful run: the guards that held and the state that results. *)

From S2P Require Export Staking.
Import DapiStakingError.

Section calls.
Context {AccountId : Type} `{Countable AccountId}.
Context {ProviderId : Type} `{Countable ProviderId}.
Context {Imb L : Type} `{!Currency AccountId Imb L}.
Context `{!PerbillOps} `{!DbWeightOps} `{!StakingConfig AccountId}.

Abbreviation State := (State AccountId ProviderId L).
Implicit Types s : State.
Implicit Types origin : Origin AccountId.

(** ** Which steps only read and which steps cannot fail *)

Lemma readonly_current_era : readonly (current_era : M _ State _).
Proof. apply readonly_gets. Qed.
Lemma infallible_current_era : infallible (current_era : M _ State _).
Proof. apply infallible_gets. Qed.
Lemma infallible_deposit_event e : infallible (deposit_event e : M _ State _).
Proof. apply infallible_modify. Qed.
Lemma infallible_currency_unreserve who v :
  infallible (currency_unreserve who v : M _ State _).
Proof. apply infallible_update. Qed.
Lemma infallible_resolve who i :
  infallible (currency_resolve_creating who i : M _ State _).
Proof. apply infallible_modify. Qed.
Lemma atomic_currency_reserve who v : atomic (currency_reserve who v : M _ State _).
Proof. apply atomic_try_update. Qed.
Lemma atomic_currency_withdraw who v r :
  atomic (currency_withdraw who v r : M _ State _).
Proof. apply atomic_try_update. Qed.
Lemma infallible_update_unbonding_info who u :
  infallible (update_unbonding_info who u : M _ State _).
Proof. unfold update_unbonding_info. case_match; apply infallible_modify. Qed.
Lemma infallible_update_delegation_info who p d :
  infallible (update_delegation_info who p d : M _ State _).
Proof. unfold update_delegation_info. case_match; apply infallible_modify. Qed.
Lemma infallible_mutate_era_staked e f :
  infallible (mutate_era_staked e f : M _ State _).
Proof. apply infallible_modify. Qed.
Lemma infallible_insert_provider_era_info p e i :
  infallible (insert_provider_era_info p e i : M _ State _).
Proof. apply infallible_modify. Qed.
Lemma readonly_unregistered_era pm : readonly (unregistered_era pm : M _ State _).
Proof. apply readonly_ok_or. Qed.

Hint Resolve readonly_current_era infallible_current_era infallible_deposit_event
  infallible_currency_unreserve infallible_resolve atomic_currency_reserve
  atomic_currency_withdraw infallible_update_unbonding_info
  infallible_update_delegation_info infallible_mutate_era_staked
  infallible_insert_provider_era_info readonly_unregistered_era : frame.

Lemma set_blocks_per_era_atomic origin new :
  atomic (set_blocks_per_era origin new : M _ State _).
Proof. unfold set_blocks_per_era. solve_atomic. Qed.
Lemma provider_bond_more_atomic origin p v :
  atomic (provider_bond_more origin p v : M _ State _).
Proof. unfold provider_bond_more. solve_atomic. Qed.
Lemma provider_bond_less_atomic origin p v :
  atomic (provider_bond_less origin p v : M _ State _).
Proof. unfold provider_bond_less. solve_atomic. Qed.
Lemma delegate_atomic origin p v : atomic (delegate origin p v : M _ State _).
Proof. unfold delegate. solve_atomic. Qed.
Lemma delegator_unstake_atomic origin p v :
  atomic (delegator_unstake origin p v : M _ State _).
Proof. unfold delegator_unstake. solve_atomic. Qed.
Lemma withdraw_unbonded_atomic origin : atomic (withdraw_unbonded origin : M _ State _).
Proof. unfold withdraw_unbonded. solve_atomic. Qed.
Lemma claim_provider_atomic origin p e :
  atomic (claim_provider origin p e : M _ State _).
Proof. unfold claim_provider. solve_atomic. Qed.
Lemma claim_delegator_atomic origin p :
  atomic (claim_delegator origin p : M _ State _).
Proof. unfold claim_delegator. solve_atomic. Qed.
Lemma provider_withdraw_unregistered_atomic origin p :
  atomic (provider_withdraw_unregistered origin p : M _ State _).
Proof. unfold provider_withdraw_unregistered. solve_atomic. Qed.
Lemma delegator_withdraw_unregistered_atomic origin p :
  atomic (delegator_withdraw_unregistered origin p : M _ State _).
Proof. unfold delegator_withdraw_unregistered. solve_atomic. Qed.
Lemma dispatch_atomic c origin : atomic (dispatch c origin : M _ State _).
Proof.
  destruct c; simpl; auto using set_blocks_per_era_atomic, provider_bond_more_atomic,
    provider_bond_less_atomic, delegate_atomic, delegator_unstake_atomic,
    withdraw_unbonded_atomic, claim_provider_atomic, claim_delegator_atomic,
    provider_withdraw_unregistered_atomic, delegator_withdraw_unregistered_atomic.
Qed.
Lemma register_provider_atomic a p b :
  atomic (register_provider a p b : M _ State _).
Proof. unfold register_provider. solve_atomic. Qed.
Lemma unregister_provider_atomic p : atomic (unregister_provider p : M _ State _).
Proof. unfold unregister_provider. solve_atomic. Qed.

(** ** Successful runs *)

(** The maps after [update_unbonding_info] and [update_delegation_info]. *)
Definition put_unbonding (who : AccountId) (u : UnbondingMetadata)
    (m : gmap AccountId UnbondingMetadata) :=
  if Unbonding.is_empty u then delete who m else <[who:=u]> m.
Definition put_delegation (d : AccountId) (p : ProviderId) (dl : Delegation)
    (m : gmap (AccountId * ProviderId) Delegation) :=
  if Delegation.is_empty dl then delete (d, p) m else <[(d, p):=dl]> m.

Lemma current_era_Ok s s' e :
  current_era s = (Ok e, s') ↔ e = current (Era s) ∧ s' = s.
Proof. unfold current_era. by rewrite gets_Ok. Qed.
Lemma deposit_event_Ok e s s' u :
  deposit_event e s = (Ok u, s') ↔ s' = set_events (events s ++ [e]) s.
Proof. unfold deposit_event. by rewrite modify_Ok. Qed.
Lemma on_ledger_Ok {A} (r : result DispatchError (A * L)) s s' a :
  on_ledger r s = Ok (a, s') ↔ ∃ l, r = Ok (a, l) ∧ s' = set_ledger l s.
Proof. destruct r as [[??]|]; simpl; naive_solver. Qed.
Lemma currency_reserve_Ok who v s s' u :
  currency_reserve who v s = (Ok u, s') ↔
  ∃ l, reserve who v (ledger s) = Ok (u, l) ∧ s' = set_ledger l s.
Proof. unfold currency_reserve. by rewrite try_update_Ok, on_ledger_Ok. Qed.
Lemma currency_withdraw_Ok who v r s s' i :
  currency_withdraw who v r s = (Ok i, s') ↔
  ∃ l, withdraw who v r (ledger s) = Ok (i, l) ∧ s' = set_ledger l s.
Proof. unfold currency_withdraw. by rewrite try_update_Ok, on_ledger_Ok. Qed.
Lemma currency_unreserve_Ok who v s s' r :
  currency_unreserve who v s = (Ok r, s') ↔
  ∃ l, unreserve who v (ledger s) = (r, l) ∧ s' = set_ledger l s.
Proof.
  unfold currency_unreserve. rewrite update_Ok.
  destruct (unreserve who v (ledger s)); naive_solver.
Qed.
Lemma resolve_creating_Ok who i s s' u :
  currency_resolve_creating who i s = (Ok u, s') ↔
  s' = set_ledger (resolve_creating who i (ledger s)) s.
Proof. unfold currency_resolve_creating. by rewrite modify_Ok. Qed.
Lemma update_unbonding_info_Ok who x s s' u :
  update_unbonding_info who x s = (Ok u, s') ↔
  s' = set_UnbondingInfo (put_unbonding who x (UnbondingInfo s)) s.
Proof.
  unfold update_unbonding_info, put_unbonding. case_match; by rewrite modify_Ok.
Qed.
Lemma update_delegation_info_Ok d p x s s' u :
  update_delegation_info d p x s = (Ok u, s') ↔
  s' = set_DelegationInfo (put_delegation d p x (DelegationInfo s)) s.
Proof.
  unfold update_delegation_info, put_delegation. case_match; by rewrite modify_Ok.
Qed.
Lemma mutate_era_staked_Ok e f s s' u :
  mutate_era_staked e f s = (Ok u, s') ↔
  s' = set_EraState (alter (map_staked f) e (EraState s)) s.
Proof. unfold mutate_era_staked. by rewrite modify_Ok. Qed.
Lemma insert_provider_era_info_Ok p e i s s' u :
  insert_provider_era_info p e i s = (Ok u, s') ↔
  s' = set_ProviderEraInfo (<[(p, e):=i]> (ProviderEraInfo s)) s.
Proof. unfold insert_provider_era_info. by rewrite modify_Ok. Qed.
Lemma unregistered_era_Ok pm s s' e :
  unregistered_era pm s = (Ok e, s') ↔ status pm = Inactive e ∧ s' = s.
Proof.
  unfold unregistered_era. rewrite ok_or_Ok. destruct (status pm); naive_solver.
Qed.

End calls.

#[export] Hint Resolve readonly_current_era infallible_current_era
  infallible_deposit_event infallible_currency_unreserve infallible_resolve
  atomic_currency_reserve atomic_currency_withdraw infallible_update_unbonding_info
  infallible_update_delegation_info infallible_mutate_era_staked
  infallible_insert_provider_era_info readonly_unregistered_era : frame.

(** Inverts the run [H] of a staking handler down to its guards and the final
    state. *)
Ltac staking_prim :=
  match goal with
  | H : ensure_signed _ _ = (Ok _, _) |- _ => apply ensure_signed_Ok in H as [H ?]
  | H : ensure_root _ _ = (Ok _, _) |- _ => apply ensure_root_Ok in H as [H ?]
  | H : current_era _ = (Ok _, _) |- _ => apply current_era_Ok in H as [? ?]
  | H : deposit_event _ _ = (Ok _, _) |- _ => apply deposit_event_Ok in H
  | H : currency_reserve _ _ _ = (Ok _, _) |- _ =>
      let l := fresh "l" in apply currency_reserve_Ok in H as (l & H & ?)
  | H : currency_withdraw _ _ _ _ = (Ok _, _) |- _ =>
      let l := fresh "l" in apply currency_withdraw_Ok in H as (l & H & ?)
  | H : currency_unreserve _ _ _ = (Ok _, _) |- _ =>
      let l := fresh "l" in apply currency_unreserve_Ok in H as (l & H & ?)
  | H : currency_resolve_creating _ _ _ = (Ok _, _) |- _ =>
      apply resolve_creating_Ok in H
  | H : update_unbonding_info _ _ _ = (Ok _, _) |- _ =>
      apply update_unbonding_info_Ok in H
  | H : update_delegation_info _ _ _ _ = (Ok _, _) |- _ =>
      apply update_delegation_info_Ok in H
  | H : mutate_era_staked _ _ _ = (Ok _, _) |- _ => apply mutate_era_staked_Ok in H
  | H : insert_provider_era_info _ _ _ _ = (Ok _, _) |- _ =>
      apply insert_provider_era_info_Ok in H
  | H : unregistered_era _ _ = (Ok _, _) |- _ =>
      apply unregistered_era_Ok in H as [H ?]
  end.

Ltac staking_inv H :=
  run_step H; repeat staking_prim; repeat (progress subst); simpl in *; propify.

(** Closes the goal [∃ …, guards ∧ final state] of an inverted run. *)
Ltac staking_done :=
  repeat match goal with x : unit |- _ => destruct x end; subst;
  repeat eexists; eauto.

Section success.
Context {AccountId : Type} `{Countable AccountId}.
Context {ProviderId : Type} `{Countable ProviderId}.
Context {Imb L : Type} `{!Currency AccountId Imb L}.
Context `{!PerbillOps} `{!DbWeightOps} `{!StakingConfig AccountId}.

Abbreviation State := (State AccountId ProviderId L).
Implicit Types s : State.
Implicit Types origin : Origin AccountId.

Lemma set_blocks_per_era_Ok origin new s s' u :
  set_blocks_per_era origin new s = (Ok u, s') →
  origin = Root ∧ length_ (Era s) ≠ new ∧
  s' = mkState (mkEraInfo (current (Era s)) (first_block (Era s)) new)
         (EraState s) (RewardAccumulator s) (ProviderInfo s) (ProviderEraInfo s)
         (DelegationInfo s) (UnbondingInfo s) (ledger s)
         (events s ++ [BlocksPerEraSet (current (Era s)) (first_block (Era s))
                         (length_ (Era s)) new]).
Proof. intros Hr. unfold set_blocks_per_era in Hr. staking_inv Hr. naive_solver. Qed.

Lemma provider_bond_more_Ok origin p v s s' u :
  provider_bond_more origin p v s = (Ok u, s') →
  let era := current (Era s) in
  let info := provider_era_info s p era in
  ∃ who pm l,
    origin = Signed who ∧ 0 < v ∧ ProviderInfo s !! p = Some pm ∧
    status pm = Active ∧ owner pm = who ∧
    bond info + v <= u128_max ∧ total info + v <= u128_max ∧
    reserve who v (ledger s) = Ok (tt, l) ∧
    s' = mkState (Era s)
           (alter (map_staked (λ x, sat_add u128_max x v)) era (EraState s))
           (RewardAccumulator s) (ProviderInfo s)
           (<[(p, era):=mkProviderEraMetadata (bond info + v) (total info + v)
                (delegator_count info) (provider_reward_claimed info)]>
              (ProviderEraInfo s))
           (DelegationInfo s) (UnbondingInfo s) l
           (events s ++ [ProviderBondedMore p v]).
Proof.
  intros Hr. unfold provider_bond_more in Hr. staking_inv Hr. staking_done.
Qed.

Lemma provider_bond_less_Ok origin p v s s' u :
  provider_bond_less origin p v s = (Ok u, s') →
  let era := current (Era s) in
  let info := provider_era_info s p era in
  ∃ who pm,
    let unbonding := Unbonding.add (unbonding_info s who)
                       (mkUnlockingChunk v (u32_add era UnbondingPeriod)) in
    origin = Signed who ∧ 0 < v ∧ ProviderInfo s !! p = Some pm ∧
    status pm = Active ∧ owner pm = who ∧
    u128_add v MinProviderStake <= bond info ∧
    Unbonding.len unbonding <= MaxUnlockingChunks ∧
    s' = mkState (Era s)
           (alter (map_staked (λ x, sat_sub x v)) era (EraState s))
           (RewardAccumulator s) (ProviderInfo s)
           (<[(p, era):=mkProviderEraMetadata (sat_sub (bond info) v)
                (sat_sub (total info) v) (delegator_count info)
                (provider_reward_claimed info)]> (ProviderEraInfo s))
           (DelegationInfo s) (put_unbonding who unbonding (UnbondingInfo s))
           (ledger s) (events s ++ [ProviderBondedLess p v]).
Proof.
  intros Hr. unfold provider_bond_less in Hr. staking_inv Hr. staking_done.
Qed.

Lemma delegate_Ok origin p v s s' u :
  delegate origin p v s = (Ok u, s') →
  let era := current (Era s) in
  let info := provider_era_info s p era in
  ∃ who dl' l,
    let dl := delegation_info s who p in
    origin = Signed who ∧ 0 < v ∧ is_active_provider s p = true ∧
    (Delegation.latest_staked_value dl ≠ 0 ∨
     delegator_count info <= MaxDelegatorsPerProvider) ∧
    Delegation.stake dl era v = Ok dl' ∧
    Delegation.len dl' < MaxEraStakeValues ∧
    MinDelegatorStake <= Delegation.latest_staked_value dl' ∧
    total info + v <= u128_max ∧
    reserve who v (ledger s) = Ok (tt, l) ∧
    s' = mkState (Era s)
           (alter (map_staked (λ x, sat_add u128_max x v)) era (EraState s))
           (RewardAccumulator s) (ProviderInfo s)
           (<[(p, era):=mkProviderEraMetadata (bond info) (total info + v)
                (if Delegation.latest_staked_value dl =? 0
                 then sat_add u32_max (delegator_count info) 1
                 else delegator_count info)
                (provider_reward_claimed info)]> (ProviderEraInfo s))
           (put_delegation who p dl' (DelegationInfo s)) (UnbondingInfo s) l
           (events s ++ [Delegated who p v]).
Proof.
  intros Hr. unfold delegate in Hr. staking_inv Hr.
  match goal with Ho : _ ∨ _ |- _ => destruct Ho end; propify; staking_done.
Qed.

(** What [delegator_unstake] takes out: the amount, or all of the stake when
    less than the minimum would remain, and one delegator fewer in that case. *)
Definition unstake_plan (staked amount count : Z) : Z * Z :=
  if sat_sub staked amount <? MinDelegatorStake
  then (sat_sub count 1, staked) else (count, amount).

Lemma delegator_unstake_Ok origin p v s s' u :
  delegator_unstake origin p v s = (Ok u, s') →
  let era := current (Era s) in
  let info := provider_era_info s p era in
  ∃ who dl' count out,
    let dl := delegation_info s who p in
    let unbonding := Unbonding.add (unbonding_info s who)
                       (mkUnlockingChunk out (u32_add era UnbondingPeriod)) in
    origin = Signed who ∧ 0 < v ∧ is_active_provider s p = true ∧
    0 < Delegation.latest_staked_value dl ∧
    unstake_plan (Delegation.latest_staked_value dl) v (delegator_count info)
      = (count, out) ∧
    0 < out ∧ Delegation.unstake dl era out = Ok dl' ∧
    Delegation.len dl' < MaxEraStakeValues ∧
    Unbonding.len unbonding <= MaxUnlockingChunks ∧
    s' = mkState (Era s)
           (alter (map_staked (λ x, sat_sub x out)) era (EraState s))
           (RewardAccumulator s) (ProviderInfo s)
           (<[(p, era):=mkProviderEraMetadata (bond info) (sat_sub (total info) out)
                count (provider_reward_claimed info)]> (ProviderEraInfo s))
           (put_delegation who p dl' (DelegationInfo s))
           (put_unbonding who unbonding (UnbondingInfo s))
           (ledger s) (events s ++ [DelegatorUnstaked who p out]).
Proof.
  intros Hr. unfold delegator_unstake in Hr. staking_inv Hr.
  match type of Hr with context [if ?b then _ else _] => destruct b eqn:Hb end;
    staking_inv Hr; staking_done; unfold unstake_plan;
    destruct (Z.ltb_spec (sat_sub (Delegation.latest_staked_value
      (delegation_info s v0 p)) v) MinDelegatorStake); lia || done.
Qed.

Lemma withdraw_unbonded_Ok origin s s' u :
  withdraw_unbonded origin s = (Ok u, s') →
  ∃ who valid future rest l,
    origin = Signed who ∧
    Unbonding.partition (unbonding_info s who) (current (Era s)) = (valid, future) ∧
    Unbonding.sum valid ≠ 0 ∧
    unreserve who (Unbonding.sum valid) (ledger s) = (rest, l) ∧
    s' = mkState (Era s) (EraState s) (RewardAccumulator s) (ProviderInfo s)
           (ProviderEraInfo s) (DelegationInfo s)
           (put_unbonding who future (UnbondingInfo s)) l
           (events s ++ [Withdrawn who (Unbonding.sum valid)]).
Proof.
  intros Hr. unfold withdraw_unbonded in Hr. staking_inv Hr.
  staking_inv Hr. by staking_done.
Qed.

Lemma claim_provider_Ok origin p e s s' u :
  claim_provider origin p e s = (Ok u, s') →
  let info := provider_era_info s p e in
  ∃ who pm es i l,
    let reward := (split_provider_delegators_rewards info es).1 in
    origin = Signed who ∧ ProviderInfo s !! p = Some pm ∧
    before_unregistration pm e = true ∧ e < current (Era s) ∧
    provider_reward_claimed info = false ∧ 0 < total info ∧
    EraState s !! e = Some es ∧
    withdraw account_id reward AllowDeath (ledger s) = Ok (i, l) ∧
    s' = mkState (Era s) (EraState s) (RewardAccumulator s) (ProviderInfo s)
           (<[(p, e):=mkProviderEraMetadata (bond info) (total info)
                (delegator_count info) true]> (ProviderEraInfo s))
           (DelegationInfo s) (UnbondingInfo s)
           (resolve_creating (owner pm) i l)
           (events s ++ [Payout (owner pm) p e reward]).
Proof.
  intros Hr. unfold claim_provider in Hr. do 2 staking_inv Hr.
  by staking_done.
Qed.

(** The delegator's share of an era's delegator rewards. *)
Definition delegator_reward (info : ProviderEraMetadata) (es : EraMetadata)
    (staked : Z) : Z :=
  pb_mul (pb_from_rational staked (sat_sub (total info) (bond info)))
    (split_provider_delegators_rewards info es).2.

Lemma claim_delegator_Ok origin p s s' u :
  claim_delegator origin p s = (Ok u, s') →
  ∃ who era staked dl' pm es i l,
    let info := provider_era_info s p era in
    let reward := delegator_reward info es staked in
    origin = Signed who ∧
    Delegation.claim (delegation_info s who p) = ((era, staked), dl') ∧
    0 < staked ∧ ProviderInfo s !! p = Some pm ∧
    before_unregistration pm era = true ∧ era < current (Era s) ∧
    EraState s !! era = Some es ∧
    withdraw account_id reward AllowDeath (ledger s) = Ok (i, l) ∧
    s' = mkState (Era s) (EraState s) (RewardAccumulator s) (ProviderInfo s)
           (ProviderEraInfo s)
           (put_delegation who p dl' (DelegationInfo s)) (UnbondingInfo s)
           (resolve_creating who i l)
           (events s ++ [Payout who p era reward]).
Proof.
  intros Hr. unfold claim_delegator in Hr. staking_inv Hr.
  destruct (Delegation.claim _) as [[era staked] dl'] eqn:Hc. staking_inv Hr.
  by staking_done.
Qed.

Lemma provider_withdraw_unregistered_Ok origin p s s' u :
  provider_withdraw_unregistered origin p s = (Ok u, s') →
  ∃ who pm e rest l,
    let amount := bond (provider_era_info s p e) in
    origin = Signed who ∧ ProviderInfo s !! p = Some pm ∧
    bond_withdrawn pm = false ∧ status pm = Inactive e ∧
    u32_add e UnbondingPeriod <= current (Era s) ∧
    unreserve (owner pm) amount (ledger s) = (rest, l) ∧
    s' = mkState (Era s) (EraState s) (RewardAccumulator s)
           (<[p:=mkProviderMetadata (owner pm) (Inactive e) true]> (ProviderInfo s))
           (ProviderEraInfo s) (DelegationInfo s) (UnbondingInfo s) l
           (events s ++ [Withdrawn (owner pm) amount]).
Proof.
  intros Hr. unfold provider_withdraw_unregistered in Hr. staking_inv Hr.
  repeat match goal with x : unit |- _ => destruct x end; subst.
  eexists _, _, _, _, _; repeat split; eauto.
  match goal with Hs : status _ = _ |- _ => by rewrite Hs end.
Qed.

Lemma delegator_withdraw_unregistered_Ok origin p s s' u :
  delegator_withdraw_unregistered origin p s = (Ok u, s') →
  ∃ who pm e rest l,
    let dl := delegation_info s who p in
    let amount := Delegation.latest_staked_value dl in
    let claimable := (Delegation.claim dl).1.1 in
    origin = Signed who ∧ ProviderInfo s !! p = Some pm ∧
    status pm = Inactive e ∧ u32_add e UnbondingPeriod <= current (Era s) ∧
    0 < amount ∧ (e <= claimable ∨ claimable = 0) ∧
    unreserve who amount (ledger s) = (rest, l) ∧
    s' = mkState (Era s) (EraState s) (RewardAccumulator s) (ProviderInfo s)
           (ProviderEraInfo s) (delete (who, p) (DelegationInfo s))
           (UnbondingInfo s) l
           (events s ++ [Withdrawn who amount]).
Proof.
  intros Hr. unfold delegator_withdraw_unregistered in Hr. staking_inv Hr.
  destruct (Delegation.claim _) as [[era staked] dl'] eqn:Hc. staking_inv Hr.
  repeat match goal with x : unit |- _ => destruct x end; subst.
  eexists _, _, _, _, _; repeat split; eauto. rewrite Hc. simpl.
  match goal with Ho : _ ∨ _ |- _ => destruct Ho end; propify; eauto.
Qed.

Lemma register_provider_Ok a p b s s' u :
  register_provider a p b s = (Ok u, s') →
  let era := current (Era s) in
  let es := default EraMetadata_default (EraState s !! era) in
  ∃ l,
    ProviderInfo s !! p = None ∧ MinProviderStake <= b ∧
    reserve a b (ledger s) = Ok (tt, l) ∧
    s' = mkState (Era s)
           (<[era:=mkEraMetadata (em_rewards es)
                     (sat_add u128_max (em_staked es) b)]> (EraState s))
           (RewardAccumulator s)
           (<[p:=ProviderMetadata_new a]> (ProviderInfo s))
           (<[(p, era):=mkProviderEraMetadata b b 0 false]> (ProviderEraInfo s))
           (DelegationInfo s) (UnbondingInfo s) l (events s).
Proof.
  intros Hr. unfold register_provider in Hr. staking_inv Hr.
  destruct v1, v. eexists; repeat split; eauto. by apply eq_None_not_Some.
Qed.

Lemma unregister_provider_Ok p s s' u :
  unregister_provider p s = (Ok u, s') →
  let era := current (Era s) in
  let info := provider_era_info s p era in
  ∃ pm,
    ProviderInfo s !! p = Some pm ∧ status pm = Active ∧
    s' = mkState (Era s)
           (alter (map_staked (λ x, sat_sub x (total info))) era (EraState s))
           (RewardAccumulator s)
           (<[p:=mkProviderMetadata (owner pm) (Inactive era) (bond_withdrawn pm)]>
              (ProviderInfo s))
           (ProviderEraInfo s) (DelegationInfo s) (UnbondingInfo s) (ledger s)
           (events s).
Proof.
  intros Hr. unfold unregister_provider in Hr. staking_inv Hr. staking_done.
Qed.

End success.
