(* ===== verification/StakingEras.v ===== *)
(** * Era transitions of the staking pallet

    [rotate_provider_era_info] as a map update that does not depend on the
    order in which the providers are enumerated, and [on_initialize] on both of
    its branches. *)

From S2P Require Export StakingCalls.
Import DapiStakingError.

Section eras.
Context {AccountId : Type} `{Countable AccountId}.
Context {ProviderId : Type} `{Countable ProviderId}.
Context {Imb L : Type} `{!Currency AccountId Imb L}.
Context `{!PerbillOps} `{!DbWeightOps} `{!StakingConfig AccountId}.

Abbreviation State := (State AccountId ProviderId L).
Implicit Types s : State.
Implicit Types pei : gmap (ProviderId * Z) ProviderEraMetadata.
Implicit Types l : list (ProviderId * ProviderMetadata AccountId).

(** The entry a provider takes into the next era. *)
Definition carry (info : ProviderEraMetadata) : ProviderEraMetadata :=
  mkProviderEraMetadata (bond info) (total info) (delegator_count info) false.

(** The storage map after one step of the rotation and after all of them. *)
Definition rotate_entry (era next : Z) pei
    (entry : ProviderId * ProviderMetadata AccountId) :=
  match status entry.2, pei !! (entry.1, era) with
  | Active, Some info => <[(entry.1, next):=carry info]> pei
  | _, _ => pei
  end.
Definition rotate_map (era next : Z) l pei := fold_left (rotate_entry era next) l pei.

Lemma rotate_over_run era next l w s :
  ∃ w', foldM (rotate_step era next) w l s =
    (Ok w', set_ProviderEraInfo (rotate_map era next l (ProviderEraInfo s)) s).
Proof.
  revert w s. induction l as [|[p pm] l IH]; intros w s.
  { exists w. by destruct s. }
  unfold rotate_map. cbn [foldM fold_left].
  set (pei := rotate_entry era next (ProviderEraInfo s) (p, pm)).
  assert (∃ w', rotate_step era next w (p, pm) s = (Ok w', set_ProviderEraInfo pei s))
    as [w' Hw].
  { unfold rotate_step, pei, rotate_entry. simpl.
    destruct (status pm); [|eexists; by destruct s].
    erewrite bind_run_Ok by reflexivity.
    destruct (ProviderEraInfo s !! (p, era)); eexists; by destruct s. }
  rewrite (bind_run_Ok _ _ _ _ _ Hw). destruct (IH w' (set_ProviderEraInfo pei s)) as [w'' ->].
  exists w''. by destruct s.
Qed.

Lemma rotate_entry_other era next pei entry k :
  k ≠ (entry.1, next) → rotate_entry era next pei entry !! k = pei !! k.
Proof.
  intros Hk. unfold rotate_entry. repeat case_match; try done.
  by rewrite lookup_insert_ne.
Qed.

Lemma rotate_map_other_era era next l pei p e :
  e ≠ next → rotate_map era next l pei !! (p, e) = pei !! (p, e).
Proof.
  intros He. unfold rotate_map. revert pei.
  induction l as [|x l IH]; intros pei; [done|]. simpl. rewrite IH.
  apply rotate_entry_other. congruence.
Qed.

Lemma rotate_map_not_in era next l pei p :
  p ∉ l.*1 → rotate_map era next l pei !! (p, next) = pei !! (p, next).
Proof.
  unfold rotate_map. revert pei.
  induction l as [|x l IH]; intros pei Hp; [done|]. simpl.
  rewrite fmap_cons, not_elem_of_cons in Hp. destruct Hp as [Hx Hp].
  rewrite IH by done. apply rotate_entry_other. congruence.
Qed.

(** What an entry of the next era is after the rotation. *)
Lemma rotate_map_lookup era next l pei p pm :
  era ≠ next → NoDup l.*1 → (p, pm) ∈ l →
  rotate_map era next l pei !! (p, next) =
  match status pm, pei !! (p, era) with
  | Active, Some info => Some (carry info)
  | _, _ => pei !! (p, next)
  end.
Proof.
  intros He. unfold rotate_map. revert pei.
  induction l as [|x l IH]; intros pei Hnd Hin; [by apply elem_of_nil in Hin|].
  rewrite fmap_cons, NoDup_cons in Hnd. destruct Hnd as [Hx Hnd]. simpl.
  apply elem_of_cons in Hin as [<-|Hin].
  - pose proof (rotate_map_not_in era next l (rotate_entry era next pei (p, pm)) p Hx)
      as Hl. unfold rotate_map in Hl. rewrite Hl. unfold rotate_entry. simpl.
    destruct (status pm); [|done]. destruct (pei !! (p, era)); [|done].
    by rewrite lookup_insert_eq.
  - assert (p ≠ x.1).
    { intros ->. apply Hx. apply list_elem_of_fmap. by exists (x.1, pm). }
    rewrite IH by done. rewrite !rotate_entry_other by congruence. done.
Qed.

(** The rotation over the providers of the storage. *)
Definition rotated (era next : Z) (pis : gmap ProviderId (ProviderMetadata AccountId))
    pei := rotate_map era next (map_to_list pis) pei.

Lemma rotated_lookup era next pis pei p :
  era ≠ next →
  rotated era next pis pei !! (p, next) =
  match pis !! p with
  | Some pm =>
      match status pm, pei !! (p, era) with
      | Active, Some info => Some (carry info)
      | _, _ => pei !! (p, next)
      end
  | None => pei !! (p, next)
  end.
Proof.
  intros He. unfold rotated. destruct (pis !! p) as [pm|] eqn:Hp.
  - apply rotate_map_lookup; [done|apply NoDup_fst_map_to_list|].
    by apply elem_of_map_to_list.
  - apply rotate_map_not_in. intros ([p' pm] & -> & Hin)%list_elem_of_fmap.
    apply elem_of_map_to_list in Hin. simpl in *. congruence.
Qed.

Lemma rotated_other_era era next pis pei p e :
  e ≠ next → rotated era next pis pei !! (p, e) = pei !! (p, e).
Proof. apply rotate_map_other_era. Qed.

(** *** [on_initialize] *)

Lemma on_initialize_idle n s :
  EraInfo.should_update (Era s) n = false →
  on_initialize n s = (Ok (db_reads 1), s).
Proof.
  intros Hn. unfold on_initialize. erewrite bind_run_Ok by reflexivity. by rewrite Hn.
Qed.

(** The era clock of the new era: the length is set to the default when the
    first era starts. *)
Definition next_clock (era : EraInfo) (n : Z) : EraInfo :=
  mkEraInfo (sat_add u32_max (current era) 1) n
    (if current era =? 0 then DefaultBlocksPerEra else length_ era).

Lemma on_initialize_new_era n s :
  EraInfo.should_update (Era s) n = true →
  let prev := current (Era s) in
  let next := u32_add prev 1 in
  let staked := em_staked (default EraMetadata_default (EraState s !! prev)) in
  ∃ w, on_initialize n s =
    (Ok w, mkState (next_clock (Era s) n)
       (<[prev:=mkEraMetadata (RewardAccumulator s) staked]>
          (<[next:=mkEraMetadata 0 staked]> (EraState s)))
       0 (ProviderInfo s)
       (rotated prev next (ProviderInfo s) (ProviderEraInfo s))
       (DelegationInfo s) (UnbondingInfo s) (ledger s)
       (events s ++ [NewEra (current (next_clock (Era s) n)) n])).
Proof.
  intros Hn. unfold on_initialize. erewrite bind_run_Ok by reflexivity. rewrite Hn.
  erewrite bind_run_Ok by reflexivity.
  unfold snapshot_era_rewards. erewrite bind_run_Ok by reflexivity.
  unfold rotate_provider_era_info, rotate_over. simpl.
  match goal with |- context [(_ ≫= _) ?w] => set (s1 := w) end.
  destruct (rotate_over_run (current (Era s)) (u32_add (current (Era s)) 1)
    (map_to_list (ProviderInfo s)) 0 s1) as [w Hw].
  erewrite bind_run_Ok; [|erewrite bind_run_Ok by reflexivity; exact Hw].
  eexists. erewrite bind_run_Ok by reflexivity.
  unfold next_clock, EraInfo.update. subst s1. simpl.
  by destruct (current (Era s) =? 0).
Qed.

End eras.
