(* ===== verification/StakingBooks.v ===== *)
(** * The books of the staking pallet

    The bookkeeping invariant: the totals the pallet caches per provider and
    era are the sums of the stakes it records, and the reserves of every
    account cover what the pallet owes it.  This file states the invariant and
    the lemmas on its sums; [StakingSteps] proves that the operations preserve
    it. *)

From S2P Require Export StakingEras.
Import DapiStakingError.

(** What the proofs need of the constants of [Config]. *)
Class StakingConfigLaws (AccountId : Type) `{StakingConfig AccountId} : Prop := {
  MinDelegatorStake_pos : 0 < MinDelegatorStake;
  MinProviderStake_nonneg : 0 <= MinProviderStake;
  MaxDelegatorsPerProvider_range : 0 <= MaxDelegatorsPerProvider < u32_max;
  MaxEraStakeValues_range : 0 < MaxEraStakeValues <= u32_max;
  MaxUnlockingChunks_range : 0 <= MaxUnlockingChunks < u32_max
}.

(** What the other pallets have reserved on an account (nothing, for the
    staking pallet alone): reserves of one currency are shared. *)
Class OtherReserves (AccountId : Type) := others : AccountId → Z.

Class OtherReservesLaws (AccountId : Type)
    `{StakingConfig AccountId, !OtherReserves AccountId} : Prop := {
  others_nonneg : ∀ w, 0 <= others w;
  others_pallet : others PalletAccount = 0
}.

Abbreviation latest := Delegation.latest_staked_value.

Section books.
Context {AccountId : Type} `{Countable AccountId}.
Context {ProviderId : Type} `{Countable ProviderId}.
Context {Imb L : Type} `{!Currency AccountId Imb L} `{!CurrencyLaws AccountId Imb L}.
Context `{!PerbillOps} `{!DbWeightOps} `{!StakingConfig AccountId}.
Context `{!StakingConfigLaws AccountId}.
Context `{!OtherReserves AccountId} `{!OtherReservesLaws AccountId}.

Abbreviation State := (State AccountId ProviderId L).
Abbreviation Delegations := (gmap (AccountId * ProviderId) Delegation).
Abbreviation Providers := (gmap ProviderId (ProviderMetadata AccountId)).
Abbreviation ProviderEras := (gmap (ProviderId * Z) ProviderEraMetadata).
Implicit Types s : State.
Implicit Types di : Delegations.
Implicit Types pis : Providers.
Implicit Types pei : ProviderEras.
Implicit Types ui : gmap AccountId UnbondingMetadata.

(** ** The sums *)

(** The current stakes in a provider, by a delegator, and the number of
    delegators with a stake. *)
Definition delegated_to di (p : ProviderId) : Z :=
  msum (λ k dl, if decide (k.2 = p) then latest dl else 0) di.
Definition delegated_by di (w : AccountId) : Z :=
  msum (λ k dl, if decide (k.1 = w) then latest dl else 0) di.
Definition delegators_of di (p : ProviderId) : Z :=
  msum (λ k dl, if decide (k.2 = p) then (if latest dl =? 0 then 0 else 1) else 0) di.

(** A [ValueQuery] read of a [ProviderEraInfo] map. *)
Definition pei_at pei (p : ProviderId) (e : Z) : ProviderEraMetadata :=
  default ProviderEraMetadata_default (pei !! (p, e)).

(** The bond a registration still holds: that of the current era, or of the
    era of the unregistration until it is withdrawn. *)
Definition held_bond (cur : Z) pei (p : ProviderId)
    (pm : ProviderMetadata AccountId) : Z :=
  match status pm with
  | Active => bond (pei_at pei p cur)
  | Inactive e => if bond_withdrawn pm then 0 else bond (pei_at pei p e)
  end.
Definition owned_bonds (cur : Z) pei pis (w : AccountId) : Z :=
  msum (λ p pm, if decide (owner pm = w) then held_bond cur pei p pm else 0) pis.

Definition active_total (cur : Z) pei (p : ProviderId)
    (pm : ProviderMetadata AccountId) : Z :=
  match status pm with Active => total (pei_at pei p cur) | Inactive _ => 0 end.
(** The total staked in active providers. *)
Definition staked_total (cur : Z) pei pis : Z := msum (active_total cur pei) pis.

(** What the pallet owes to an account. *)
Definition obligations s (w : AccountId) : Z :=
  owned_bonds (current (Era s)) (ProviderEraInfo s) (ProviderInfo s) w +
  delegated_by (DelegationInfo s) w + unbonding_total (unbonding_info s w).

(** The reserves of any set of accounts fit the balance type (the total
    issuance does). *)
Definition supply_ok (l : L) : Prop :=
  ∀ ws : list AccountId, NoDup ws → lsum (reserved_balance l <$> ws) <= u128_max.

(** ** The invariant *)

Definition delegations_ok (cur : Z) pis di : Prop :=
  ∀ d p dl, di !! (d, p) = Some dl →
    d ≠ account_id ∧ wf_delegation dl ∧ stakes dl ≠ [] ∧
    (∀ x, x ∈ stakes dl → es_era x <= cur) ∧ is_Some (pis !! p).

Definition unbondings_ok (ui : gmap AccountId UnbondingMetadata) : Prop :=
  ∀ w u, ui !! w = Some u → w ≠ account_id ∧ wf_unbonding u.

(** An entry of [ProviderEraInfo] of an active provider. *)
Definition info_ok di (p : ProviderId) (info : ProviderEraMetadata) : Prop :=
  MinProviderStake <= bond info ∧ total info = bond info + delegated_to di p ∧
  delegator_count info = delegators_of di p.

Definition provider_ok (cur : Z) (es : gmap Z EraMetadata) pei di (p : ProviderId)
    (pm : ProviderMetadata AccountId) : Prop :=
  owner pm ≠ account_id ∧
  match status pm with
  | Active =>
      bond_withdrawn pm = false ∧ is_Some (es !! cur) ∧
      ∃ info, pei !! (p, cur) = Some info ∧ info_ok di p info
  | Inactive e => 0 <= e <= cur ∧ 0 <= bond (pei_at pei p e)
  end.

Record inv s : Prop := {
  inv_era : is_u32 (current (Era s));
  inv_delegations :
    delegations_ok (current (Era s)) (ProviderInfo s) (DelegationInfo s);
  inv_unbondings : unbondings_ok (UnbondingInfo s);
  inv_providers : ∀ p pm, ProviderInfo s !! p = Some pm →
    provider_ok (current (Era s)) (EraState s) (ProviderEraInfo s)
      (DelegationInfo s) p pm;
  inv_staked :
    em_staked (default EraMetadata_default (EraState s !! current (Era s))) =
    staked_total (current (Era s)) (ProviderEraInfo s) (ProviderInfo s);
  inv_rewards : 0 <= RewardAccumulator s ∧
    ∀ e es, EraState s !! e = Some es → 0 <= em_rewards es;
  inv_funds : ∀ w, others w + obligations s w <= reserved_balance (ledger s) w
}.

(** ** The sums under the updates of the operations *)

Lemma latest_empty dl : Delegation.is_empty dl = true → latest dl = 0.
Proof. unfold Delegation.is_empty, latest. by destruct dl as [[|]]. Qed.

Lemma msum_put_delegation (f : AccountId * ProviderId → Delegation → Z) d p dl di :
  (∀ dl, Delegation.is_empty dl = true → f (d, p) dl = 0) →
  msum f (put_delegation d p dl di) =
  msum f di - f (d, p) (default Delegation_default (di !! (d, p))) + f (d, p) dl.
Proof.
  intros Hf.
  assert (from_option (f (d, p)) 0 (di !! (d, p)) =
          f (d, p) (default Delegation_default (di !! (d, p)))) as Hd.
  { destruct (di !! (d, p)); simpl; [done|]. by rewrite (Hf Delegation_default). }
  unfold put_delegation. destruct (Delegation.is_empty dl) eqn:He.
  - rewrite msum_delete, Hd, (Hf dl) by done. lia.
  - by rewrite msum_insert, Hd.
Qed.

Lemma delegated_to_put d p dl di p' :
  delegated_to (put_delegation d p dl di) p' =
  delegated_to di p' +
  (if decide (p = p')
   then latest dl - latest (default Delegation_default (di !! (d, p))) else 0).
Proof.
  unfold delegated_to. rewrite msum_put_delegation; simpl.
  - case_decide; lia.
  - intros dl' ->%latest_empty. by case_decide.
Qed.

Lemma delegated_by_put d p dl di w :
  delegated_by (put_delegation d p dl di) w =
  delegated_by di w +
  (if decide (d = w)
   then latest dl - latest (default Delegation_default (di !! (d, p))) else 0).
Proof.
  unfold delegated_by. rewrite msum_put_delegation; simpl.
  - case_decide; lia.
  - intros dl' ->%latest_empty. by case_decide.
Qed.

Lemma delegators_of_put d p dl di p' :
  delegators_of (put_delegation d p dl di) p' =
  delegators_of di p' +
  (if decide (p = p')
   then (if latest dl =? 0 then 0 else 1) -
        (if latest (default Delegation_default (di !! (d, p))) =? 0 then 0 else 1)
   else 0).
Proof.
  unfold delegators_of. rewrite msum_put_delegation; simpl.
  - case_decide; lia.
  - intros dl' ->%latest_empty. by case_decide.
Qed.

Lemma put_delegation_ok cur pis di d p dl :
  delegations_ok cur pis di → d ≠ account_id → wf_delegation dl →
  (∀ x, x ∈ stakes dl → es_era x <= cur) → is_Some (pis !! p) →
  delegations_ok cur pis (put_delegation d p dl di).
Proof.
  intros Hok Hd Hwf Hera Hp d' p' dl' Hl. unfold put_delegation in Hl.
  destruct (Delegation.is_empty dl) eqn:He.
  - apply lookup_delete_Some in Hl as [_ Hl]. by eapply Hok.
  - apply lookup_insert_Some in Hl as [[? <-]|[_ Hl]]; [|by eapply Hok].
    simplify_eq. split_and!; try done. unfold Delegation.is_empty in He.
    by destruct (stakes dl).
Qed.

Lemma put_unbonding_ok ui w u :
  unbondings_ok ui → w ≠ account_id → wf_unbonding u →
  unbondings_ok (put_unbonding w u ui).
Proof.
  intros Hok Hw Hwf w' u' Hl. unfold put_unbonding in Hl. case_match.
  - apply lookup_delete_Some in Hl as [_ Hl]. by eapply Hok.
  - apply lookup_insert_Some in Hl as [[<- <-]|[_ Hl]]; [done|by eapply Hok].
Qed.

(** The queue an account has after [put_unbonding]. *)
Lemma put_unbonding_total ui w u w' :
  unbonding_total (default UnbondingMetadata_default (put_unbonding w u ui !! w')) =
  if decide (w = w') then unbonding_total u
  else unbonding_total (default UnbondingMetadata_default (ui !! w')).
Proof.
  unfold put_unbonding. case_decide; subst.
  - destruct (Unbonding.is_empty u) eqn:He.
    + rewrite lookup_delete_eq. unfold Unbonding.is_empty in He.
      by destruct u as [[|]].
    + by rewrite lookup_insert_eq.
  - case_match; [by rewrite lookup_delete_ne|by rewrite lookup_insert_ne].
Qed.

Lemma pei_at_insert pei p e i : pei_at (<[(p, e):=i]> pei) p e = i.
Proof. unfold pei_at. by rewrite lookup_insert_eq. Qed.

Lemma pei_at_insert_ne pei p e i p' e' :
  (p, e) ≠ (p', e') → pei_at (<[(p, e):=i]> pei) p' e' = pei_at pei p' e'.
Proof. intros. unfold pei_at. by rewrite lookup_insert_ne. Qed.

(** Rewriting the entry of an active provider. *)
Lemma owned_bonds_insert cur pei pis p pm i w :
  pis !! p = Some pm → status pm = Active →
  owned_bonds cur (<[(p, cur):=i]> pei) pis w =
  owned_bonds cur pei pis w +
  (if decide (owner pm = w) then bond i - bond (pei_at pei p cur) else 0).
Proof.
  intros Hp Ha. unfold owned_bonds.
  rewrite (msum_change (λ p pm, if decide (owner pm = w) then held_bond cur pei p pm else 0)
             _ _ p pm Hp).
  - unfold held_bond. rewrite Ha, pei_at_insert. case_decide; lia.
  - intros p' pm' Hne _. unfold held_bond.
    by rewrite !pei_at_insert_ne by congruence; destruct (status pm');
      rewrite ?pei_at_insert_ne by congruence.
Qed.

Lemma staked_total_insert cur pei pis p pm i :
  pis !! p = Some pm → status pm = Active →
  staked_total cur (<[(p, cur):=i]> pei) pis =
  staked_total cur pei pis + (total i - total (pei_at pei p cur)).
Proof.
  intros Hp Ha. unfold staked_total.
  rewrite (msum_change (active_total cur pei) _ _ p pm Hp).
  - unfold active_total. rewrite Ha, pei_at_insert. lia.
  - intros p' pm' Hne _. unfold active_total.
    by rewrite pei_at_insert_ne by congruence.
Qed.

(** Registering a provider with its first entry. *)
Lemma owned_bonds_register cur pei pis p pm i w :
  pis !! p = None → status pm = Active →
  owned_bonds cur (<[(p, cur):=i]> pei) (<[p:=pm]> pis) w =
    (if decide (owner pm = w) then bond i else 0) + owned_bonds cur pei pis w.
Proof.
  intros Hp Hact. unfold owned_bonds. rewrite msum_insert_None by done.
  unfold held_bond at 1. rewrite Hact, pei_at_insert. f_equal. apply msum_ext.
  intros p' pm' Hp'. case_decide; [|done]. unfold held_bond.
  by destruct (status pm'); rewrite pei_at_insert_ne by congruence.
Qed.

Lemma staked_total_register cur pei pis p pm i :
  pis !! p = None → status pm = Active →
  staked_total cur (<[(p, cur):=i]> pei) (<[p:=pm]> pis) = total i + staked_total cur pei pis.
Proof.
  intros Hp Hact. unfold staked_total. rewrite msum_insert_None by done.
  unfold active_total at 1. rewrite Hact, pei_at_insert. f_equal. apply msum_ext.
  intros p' pm' Hp'. unfold active_total. by rewrite pei_at_insert_ne by congruence.
Qed.

(** ** What the invariant gives about single entries *)

Lemma delegations_latest cur pis di k dl :
  delegations_ok cur pis di → di !! k = Some dl → is_u128 (latest dl).
Proof.
  destruct k as [d p]. intros Hok Hk. destruct (Hok d p dl Hk) as (_ & Hwf & _).
  by apply latest_range.
Qed.

Lemma delegated_by_nonneg cur pis di w :
  delegations_ok cur pis di → 0 <= delegated_by di w.
Proof.
  intros Hok. apply msum_nonneg. intros k dl Hk.
  pose proof (delegations_latest _ _ _ _ _ Hok Hk) as Hr. unfold is_u128 in Hr.
  case_decide; lia.
Qed.

Lemma delegation_info_ok cur pis di d p :
  delegations_ok cur pis di →
  let dl := default Delegation_default (di !! (d, p)) in
  wf_delegation dl ∧ (∀ x, x ∈ stakes dl → es_era x <= cur) ∧
  0 <= latest dl <= delegated_by di d ∧ latest dl <= delegated_to di p ∧
  (if latest dl =? 0 then 0 else 1) <= delegators_of di p.
Proof.
  intros Hok.
  assert (∀ k dl, di !! k = Some dl → 0 <= latest dl) as Hpos.
  { intros k dl Hk. by apply (delegations_latest _ _ _ _ _ Hok Hk). }
  assert (∀ dl, 0 <= (if latest dl =? 0 then 0 else 1)) as H01
    by (intros dl; by case_match).
  destruct (di !! (d, p)) as [dl|] eqn:Hk; simpl.
  - destruct (Hok d p dl Hk) as (_ & Hwf & _ & Hera & _).
    pose proof (msum_elem_le (λ k dl, if decide (k.1 = d) then latest dl else 0) di
      (d, p) dl Hk) as Hby.
    pose proof (msum_elem_le (λ k dl, if decide (k.2 = p) then latest dl else 0) di
      (d, p) dl Hk) as Hto.
    pose proof (msum_elem_le (λ k dl, if decide (k.2 = p) then
      (if latest dl =? 0 then 0 else 1) else 0) di (d, p) dl Hk) as Hn.
    simpl in *. rewrite !decide_True in * by done.
    split_and!; [done|done|by eapply Hpos|apply Hby|apply Hto|apply Hn];
      intros k' dl' Hk'; case_decide; eauto; lia.
  - split_and!; [apply wf_delegation_default|by intros x ?%elem_of_nil|done| | |].
    + by eapply delegated_by_nonneg.
    + apply msum_nonneg. intros k' dl' Hk'. case_decide; eauto; lia.
    + apply msum_nonneg. intros k' dl' Hk'. case_decide; eauto; lia.
Qed.

Lemma delegated_to_nonneg cur pis di p : delegations_ok cur pis di → 0 <= delegated_to di p.
Proof.
  intros Hok. apply msum_nonneg. intros k dl Hk.
  pose proof (delegations_latest _ _ _ _ _ Hok Hk) as Hr. unfold is_u128 in Hr.
  case_decide; lia.
Qed.

Lemma held_bond_nonneg cur es pei di p pm :
  provider_ok cur es pei di p pm → 0 <= held_bond cur pei p pm.
Proof.
  pose proof MinProviderStake_nonneg.
  intros [_ Hok]. unfold held_bond. destruct (status pm).
  - destruct Hok as (_ & _ & info & Hi & ? & _). unfold pei_at. rewrite Hi. simpl. lia.
  - destruct (bond_withdrawn pm); naive_solver.
Qed.

Lemma held_bond_le s p pm :
  inv s → ProviderInfo s !! p = Some pm →
  0 <= held_bond (current (Era s)) (ProviderEraInfo s) p pm <=
  owned_bonds (current (Era s)) (ProviderEraInfo s) (ProviderInfo s) (owner pm).
Proof.
  intros Hi Hp. split; [by eapply held_bond_nonneg, inv_providers|].
  pose proof (msum_elem_le (λ p' pm', if decide (owner pm' = owner pm)
    then held_bond (current (Era s)) (ProviderEraInfo s) p' pm' else 0)
    _ p pm Hp) as Hle.
  simpl in Hle. rewrite decide_True in Hle by done. apply Hle.
  intros p' pm' Hp'. case_decide; [|done].
  by eapply held_bond_nonneg, inv_providers.
Qed.

Lemma owned_bonds_nonneg s w :
  inv s → 0 <= owned_bonds (current (Era s)) (ProviderEraInfo s) (ProviderInfo s) w.
Proof.
  intros Hi. apply msum_nonneg. intros p pm Hp. case_decide; [|done].
  by eapply held_bond_nonneg, inv_providers.
Qed.

Lemma unbonding_info_ok s w :
  inv s → wf_unbonding (unbonding_info s w) ∧ 0 <= unbonding_total (unbonding_info s w).
Proof.
  intros Hi. assert (wf_unbonding (unbonding_info s w)) as Hwf.
  { unfold unbonding_info. destruct (UnbondingInfo s !! w) as [u|] eqn:Hu; simpl.
    - by eapply inv_unbondings.
    - apply wf_unbonding_default. }
  split; [done|]. by apply chunks_total_nonneg.
Qed.

Lemma obligations_range s w :
  inv s → 0 <= obligations s w <= reserved_balance (ledger s) w.
Proof.
  intros Hi. pose proof (inv_funds _ Hi w). pose proof (others_nonneg w).
  split; [|lia]. unfold obligations. pose proof (owned_bonds_nonneg s w Hi).
  pose proof (delegated_by_nonneg _ _ _ w (inv_delegations _ Hi)).
  pose proof (unbonding_info_ok s w Hi). lia.
Qed.

Lemma reserved_range (l : L) w : 0 <= reserved_balance l w <= u128_max.
Proof.
  pose proof (reserved_nonneg l w). pose proof (free_nonneg l w).
  pose proof (account_range l w). lia.
Qed.

Lemma active_total_nonneg s p pm :
  inv s → ProviderInfo s !! p = Some pm →
  0 <= active_total (current (Era s)) (ProviderEraInfo s) p pm.
Proof.
  intros Hi Hp. pose proof (inv_providers _ Hi p pm Hp) as [_ Hok].
  unfold active_total. destruct (status pm); [|done].
  destruct Hok as (_ & _ & info & Hinfo & ? & Ht & _).
  unfold pei_at. rewrite Hinfo. simpl. rewrite Ht.
  pose proof (delegated_to_nonneg _ _ _ p (inv_delegations _ Hi)).
  pose proof MinProviderStake_nonneg. lia.
Qed.

(** The entry of an active provider. *)
Lemma active_info s p pm :
  inv s → ProviderInfo s !! p = Some pm → status pm = Active →
  ∃ x, ProviderEraInfo s !! (p, current (Era s)) = Some (provider_era_info s p (current (Era s))) ∧
    info_ok (DelegationInfo s) p (provider_era_info s p (current (Era s))) ∧
    EraState s !! current (Era s) = Some x ∧
    0 <= total (provider_era_info s p (current (Era s))) <= em_staked x.
Proof.
  intros Hi Hp Ha. pose proof (inv_providers _ Hi p pm Hp) as [_ Hok].
  rewrite Ha in Hok. destruct Hok as (_ & [x Hx] & info & Hinfo & Hio).
  unfold provider_era_info. rewrite Hinfo. simpl. exists x.
  split; [done|]. split; [done|]. split; [done|].
  pose proof (active_total_nonneg s p pm Hi Hp) as Hnn.
  pose proof (inv_staked _ Hi) as Hst. rewrite Hx in Hst. simpl in Hst. rewrite Hst.
  assert (active_total (current (Era s)) (ProviderEraInfo s) p pm = total info) as Ht.
  { unfold active_total, pei_at. by rewrite Ha, Hinfo. }
  rewrite <-Ht. split; [done|].
  apply (msum_elem_le (active_total _ _) _ p pm Hp).
  intros p' pm'. by apply active_total_nonneg.
Qed.

(** ** The total staked is covered by the reserves *)

(** The accounts the pallet owes something to. *)
Definition stakers s : list AccountId :=
  remove_dups ((owner <$> (map_to_list (ProviderInfo s)).*2) ++
               ((map_to_list (DelegationInfo s)).*1).*1).

Lemma stakers_owner s p pm : ProviderInfo s !! p = Some pm → owner pm ∈ stakers s.
Proof.
  intros Hp%elem_of_map_to_list. apply elem_of_remove_dups, elem_of_app. left.
  by apply list_elem_of_fmap_2, (list_elem_of_fmap_2 snd _ (p, pm)).
Qed.

Lemma stakers_delegator s d p dl :
  DelegationInfo s !! (d, p) = Some dl → d ∈ stakers s.
Proof.
  intros Hk%elem_of_map_to_list. apply elem_of_remove_dups, elem_of_app. right.
  apply (list_elem_of_fmap_2 fst _ (d, p)), (list_elem_of_fmap_2 fst _ ((d, p), dl)), Hk.
Qed.

Lemma staked_total_le s :
  inv s →
  staked_total (current (Era s)) (ProviderEraInfo s) (ProviderInfo s) <=
  msum (held_bond (current (Era s)) (ProviderEraInfo s)) (ProviderInfo s) +
  msum (λ _ dl, latest dl) (DelegationInfo s).
Proof.
  intros Hi. pose proof (inv_delegations _ Hi) as Hd.
  assert (staked_total (current (Era s)) (ProviderEraInfo s) (ProviderInfo s) <=
    msum (λ p pm, held_bond (current (Era s)) (ProviderEraInfo s) p pm +
                  delegated_to (DelegationInfo s) p) (ProviderInfo s)) as Hle.
  { apply msum_mono. intros p pm Hp.
    pose proof (held_bond_le s p pm Hi Hp) as Hh.
    pose proof (delegated_to_nonneg _ _ _ p Hd).
    pose proof (inv_providers _ Hi p pm Hp) as [_ Hok].
    unfold active_total, held_bond in *. destruct (status pm); [|lia].
    destruct Hok as (_ & _ & info & Hinfo & _ & Ht & _).
    unfold pei_at. rewrite Hinfo. simpl. lia. }
  rewrite msum_plus in Hle.
  rewrite (msum_keys (delegated_to (DelegationInfo s))) in Hle.
  pose proof (msum_group_le (λ k _, k.2) (λ _ dl, latest dl)
    (map_to_list (ProviderInfo s)).*1 (DelegationInfo s)
    (NoDup_fst_map_to_list _)) as Hg.
  unfold delegated_to in Hle. simpl in Hg.
  etrans; [exact Hle|]. apply Z.add_le_mono_l, Hg.
  intros k dl Hk. apply (delegations_latest _ _ _ _ _ Hd Hk).
Qed.

Lemma staked_total_obligations s ws :
  inv s → NoDup ws → (∀ w, w ∈ stakers s → w ∈ ws) →
  staked_total (current (Era s)) (ProviderEraInfo s) (ProviderInfo s) <=
  lsum (obligations s <$> ws).
Proof.
  intros Hi Hnd Hin. etrans; [by apply staked_total_le|].
  unfold obligations.
  rewrite (lsum_plus (λ w, owned_bonds _ _ _ w + delegated_by _ w)).
  rewrite (lsum_plus (owned_bonds _ _ _)).
  rewrite <-(msum_group_all (λ _ pm, owner pm)
    (held_bond (current (Era s)) (ProviderEraInfo s)) ws (ProviderInfo s) Hnd)
    by eauto using stakers_owner.
  rewrite <-(msum_group_all (λ k _, k.1)
    (λ _ dl, latest dl) ws (DelegationInfo s) Hnd)
    by (intros [d p] dl Hk; eapply Hin, stakers_delegator; exact Hk).
  assert (0 <= lsum ((λ w, unbonding_total (unbonding_info s w)) <$> ws)) as Hu.
  { apply lsum_nonneg, Forall_fmap, Forall_forall. intros w _.
    by apply unbonding_info_ok. }
  unfold owned_bonds, delegated_by in *. lia.
Qed.

(** Reserving [v] more keeps the total staked plus [v] within the supply, so
    that the saturating additions of the pallet are exact. *)
Lemma supply_bound s l' who v :
  inv s → supply_ok l' → 0 <= v →
  reserved_balance l' who = reserved_balance (ledger s) who + v →
  only_changes who (ledger s) l' →
  staked_total (current (Era s)) (ProviderEraInfo s) (ProviderInfo s) + v <= u128_max.
Proof.
  intros Hi Hs Hv Hr Ho.
  set (ws := remove_dups (who :: stakers s)).
  assert (NoDup ws) as Hnd by apply NoDup_remove_dups.
  assert (who ∈ ws) as Hw by (apply elem_of_remove_dups; left).
  pose proof (staked_total_obligations s ws Hi Hnd) as Hle.
  specialize (Hs ws Hnd).
  assert (lsum (obligations s <$> ws) + v <= lsum (reserved_balance l' <$> ws)).
  { pose proof (lsum_single who v ws Hnd) as Hv1. rewrite decide_True in Hv1 by done.
    rewrite <-Hv1 at 1. rewrite <-lsum_plus. apply lsum_mono. intros w _.
    pose proof (obligations_range s w Hi). destruct (decide (who = w)) as [<-|Hne].
    - lia.
    - destruct (Ho w ltac:(congruence)) as [_ ->]. lia. }
  assert (∀ w, w ∈ stakers s → w ∈ ws).
  { intros w ?. apply elem_of_remove_dups. by right. }
  naive_solver lia.
Qed.

(** ** The update the staking calls share

    A call that rewrites the current entry of an active provider keeps the
    invariant when the new entry is the sum it caches, the total staked moves by
    the same amount, and the reserves move at least by what becomes owed. *)
Lemma inv_update_active s p pm i f di' ui' (l' : L) ev' :
  let cur := current (Era s) in
  let old := provider_era_info s p cur in
  inv s → ProviderInfo s !! p = Some pm → status pm = Active →
  info_ok di' p i →
  (∀ p', p' ≠ p → delegated_to di' p' = delegated_to (DelegationInfo s) p' ∧
     delegators_of di' p' = delegators_of (DelegationInfo s) p') →
  (∀ x, EraState s !! cur = Some x →
     f (em_staked x) = em_staked x + (total i - total old)) →
  delegations_ok cur (ProviderInfo s) di' → unbondings_ok ui' →
  (∀ w, (if decide (owner pm = w) then bond i - bond old else 0) +
        (delegated_by di' w - delegated_by (DelegationInfo s) w) +
        (unbonding_total (default UnbondingMetadata_default (ui' !! w)) -
         unbonding_total (unbonding_info s w)) <=
        reserved_balance l' w - reserved_balance (ledger s) w) →
  inv (mkState (Era s) (alter (map_staked f) cur (EraState s)) (RewardAccumulator s)
    (ProviderInfo s) (<[(p, cur):=i]> (ProviderEraInfo s)) di' ui' l' ev').
Proof.
  intros cur old Hi Hp Ha Hio Hdel Hf Hdi Hui Hfunds.
  destruct (active_info s p pm Hi Hp Ha) as (x & Hold & _ & Hx & _).
  fold cur in Hold, Hx. split; simpl; fold cur; [apply Hi|done|done|..].
  - intros p' pm' Hp'. pose proof (inv_providers _ Hi p' pm' Hp') as [Hown Hok].
    split; [done|]. destruct (status pm') eqn:Hs.
    + destruct Hok as (Hw & He & info & Hinfo & Hiok). split_and!; [done| |].
      { rewrite lookup_alter_eq. unfold cur. destruct He as [? ->]. by eexists. }
      destruct (decide (p' = p)) as [->|Hne].
      * exists i. by rewrite lookup_insert_eq.
      * exists info. rewrite lookup_insert_ne by congruence. split; [done|].
        destruct (Hdel p' Hne) as [Hd Hn], Hiok as (? & ? & ?).
        by split_and!; rewrite ?Hd, ?Hn.
    + assert (p' ≠ p) by congruence.
      by rewrite pei_at_insert_ne by congruence.
  - rewrite (staked_total_insert _ _ _ _ pm) by done.
    rewrite lookup_alter_eq. unfold cur. rewrite <-(inv_staked _ Hi).
    fold cur. rewrite Hx. simpl.
    by rewrite Hf.
  - destruct (inv_rewards _ Hi) as [Hacc Hes]. split; [done|]. intros e es.
    destruct (decide (e = cur)) as [->|Hne].
    + rewrite lookup_alter_eq. unfold cur. fold cur. rewrite Hx. simpl.
      intros [= <-]. exact (Hes cur x Hx).
    + rewrite lookup_alter_ne by done. apply Hes.
  - intros w. unfold obligations in *. simpl. fold cur.
    rewrite (owned_bonds_insert _ _ _ _ pm) by done.
    specialize (Hfunds w). pose proof (inv_funds _ Hi w) as Hw.
    unfold obligations in Hw. fold cur in Hw. unfold old, provider_era_info in Hfunds.
    unfold pei_at, unbonding_info in *. simpl. lia.
Qed.

End books.
