(* ===== verification/StakingReach.v ===== *)
(** * The reachable states of the staking pallet

    The step relation of the pallet in its environment (calls, registrations
    by the dapi pallet, blocks, rewards, foreign ledger moves), and the theorems
    about every state it reaches. *)

From S2P Require Export StakingSteps.
Import DapiStakingError.

Section calls.
Context {AccountId : Type} `{Countable AccountId}.
Context {ProviderId : Type} `{Countable ProviderId}.
Context {Imb L : Type} `{!Currency AccountId Imb L} `{!CurrencyLaws AccountId Imb L}.
Context `{!PerbillOps} `{!PerbillLaws} `{!DbWeightOps} `{!StakingConfig AccountId}.
Context `{!StakingConfigLaws AccountId}.
Context `{!OtherReserves AccountId} `{!OtherReservesLaws AccountId}.

(** [provider_bond_less] adds the minimum stake to its argument; the sum must
    not wrap (see [bond_less_overflow] for what happens when it does). *)
Definition call_ok (c : StakingCall ProviderId) : Prop :=
  match c with
  | provider_bond_less_call _ v => v + MinProviderStake <= u128_max
  | _ => True
  end.

Lemma dispatch_inv c origin s s' :
  dispatch c origin s = (Ok tt, s') → signer_ok origin → call_ok c →
  supply_ok (ledger s') → inv s → inv s'.
Proof.
  destruct c; simpl; intros.
  - by eapply set_blocks_per_era_inv.
  - by eapply provider_bond_more_inv.
  - by eapply provider_bond_less_inv.
  - by eapply delegate_inv.
  - by eapply delegator_unstake_inv.
  - by eapply withdraw_unbonded_inv.
  - by eapply claim_provider_inv.
  - by eapply claim_delegator_inv.
  - by eapply provider_withdraw_unregistered_inv.
  - by eapply delegator_withdraw_unregistered_inv.
Qed.

End calls.

(** The staking pallet alone: nobody else reserves anything. *)
#[global] Instance no_others (AccountId : Type) : OtherReserves AccountId := λ _, 0.

#[global] Instance no_others_laws (AccountId : Type) `{StakingConfig AccountId} :
  OtherReservesLaws AccountId.
Proof. by split. Qed.

Section reach.
Context {AccountId : Type} `{Countable AccountId}.
Context {ProviderId : Type} `{Countable ProviderId}.
Context {Imb L : Type} `{!Currency AccountId Imb L} `{!CurrencyLaws AccountId Imb L}.
Context `{!PerbillOps} `{!PerbillLaws} `{!DbWeightOps} `{!StakingConfig AccountId}.
Context `{!StakingConfigLaws AccountId}.

Abbreviation State := (State AccountId ProviderId L).
Implicit Types s : State.

(** One step of the chain as the pallet sees it, where the calls come from the
    [allowed] origins.  A failing call changes nothing, so only successful ones
    are steps. *)
Inductive step_from {allowed : Origin AccountId → Prop} s s' : Prop :=
| step_call c origin :
    dispatch c origin s = (Ok tt, s') → allowed origin → call_ok c →
    supply_ok (ledger s') → step_from s s'
| step_register account p b :
    register_provider account p b s = (Ok tt, s') → account ≠ account_id →
    supply_ok (ledger s') → step_from s s'
| step_unregister p : unregister_provider p s = (Ok tt, s') → step_from s s'
| step_block n w :
    on_initialize n s = (Ok w, s') → current (Era s) < u32_max → step_from s s'
| step_reward i : handle_imbalance i s = (Ok tt, s') → step_from s s'
(** Nobody else releases what the pallet holds. *)
| step_ledger (l : L) :
    (∀ w, obligations s w <= reserved_balance l w) → s' = set_ledger l s → step_from s s'.

(** Any step: the pallet's own account signs nothing. *)
Abbreviation step := (step_from (allowed := signer_ok)).

Lemma step_from_mono (P Q : Origin AccountId → Prop) s s' :
  (∀ o, P o → Q o) → step_from (allowed := P) s s' → step_from (allowed := Q) s s'.
Proof.
  intros HPQ [].
  - eapply step_call; eauto.
  - by eapply step_register.
  - by eapply step_unregister.
  - by eapply step_block.
  - by eapply step_reward.
  - by eapply step_ledger.
Qed.

(** The storage of a chain that starts with this pallet. *)
Record genesis s : Prop := {
  genesis_era : current (Era s) = 0;
  genesis_era_state : EraState s = ∅;
  genesis_accumulator : RewardAccumulator s = 0;
  genesis_providers : ProviderInfo s = ∅;
  genesis_provider_eras : ProviderEraInfo s = ∅;
  genesis_delegations : DelegationInfo s = ∅;
  genesis_unbonding : UnbondingInfo s = ∅;
  genesis_events : events s = []
}.

Definition reachable s : Prop := ∃ s0, genesis s0 ∧ rtc step s0 s.

Lemma genesis_inv s : genesis s → inv s.
Proof.
  intros []. destruct s; simpl in *; subst.
  split; simpl.
  - unfold is_u32. by rewrite genesis_era0.
  - intros d p dl. by rewrite lookup_empty.
  - intros w u. by rewrite lookup_empty.
  - intros p pm. by rewrite lookup_empty.
  - by rewrite lookup_empty.
  - split; [done|]. intros e es. by rewrite lookup_empty.
  - intros w. unfold obligations. simpl.
    unfold owned_bonds, delegated_by, unbonding_info. simpl.
    rewrite !msum_empty, lookup_empty. apply reserved_nonneg.
Qed.

Lemma step_inv s s' : step s s' → inv s → inv s'.
Proof.
  intros [] Hi.
  - by eapply dispatch_inv.
  - by eapply register_provider_inv.
  - by eapply unregister_provider_inv.
  - by eapply on_initialize_inv.
  - by eapply handle_imbalance_inv.
  - subst. destruct Hi. by split.
Qed.

Lemma reachable_inv s : reachable s → inv s.
Proof.
  intros (s0 & Hg & Hs). apply genesis_inv in Hg.
  induction Hs; [done|]. eauto using step_inv.
Qed.

(** C4: In every reachable state, the entry of the current era of each active
    provider exists and is the sum it caches (total = own bond + the latest
    stakes of all its delegators; delegator count = number of delegators with a
    stake; bond at least the minimum), and the era's staked amount is the sum of
    the totals of the active providers: no operation, era change or saturating
    addition ever lets the cached sums drift. *)
Theorem staking_books_balance s :
  reachable s →
  let cur := current (Era s) in
  (∀ p pm, ProviderInfo s !! p = Some pm → status pm = Active →
     ∃ info, ProviderEraInfo s !! (p, cur) = Some info ∧
       MinProviderStake <= bond info ∧
       total info = bond info + delegated_to (DelegationInfo s) p ∧
       delegator_count info = delegators_of (DelegationInfo s) p) ∧
  em_staked (default EraMetadata_default (EraState s !! cur)) =
  msum (λ p pm, match status pm with
                | Active => total (provider_era_info s p cur)
                | Inactive _ => 0
                end) (ProviderInfo s).
Proof.
  intros Hi%reachable_inv. split.
  - intros p pm Hp Ha. destruct (inv_providers _ Hi p pm Hp) as [_ Hok].
    rewrite Ha in Hok. destruct Hok as (_ & _ & info & ? & ?). by exists info.
  - apply inv_staked, Hi.
Qed.

(** C5: In every reachable state the reserved balance of every account covers
    all the pallet owes it: the bonds of its providers (until withdrawn), its
    stakes, and its unbonding queue; and the pallet owes nothing negative. *)
Theorem reserves_cover_obligations s w :
  reachable s →
  0 <= obligations s w <= reserved_balance (ledger s) w.
Proof. intros Hi%reachable_inv. by apply obligations_range. Qed.

(** What is due can be withdrawn. *)
Lemma withdraw_unbonded_run s who :
  inv s →
  let due := unbonding_total (Unbonding.partition (unbonding_info s who) (current (Era s))).1 in
  0 < due →
  ∃ s', withdraw_unbonded (Signed who) s = (Ok tt, s') ∧
    free_balance (ledger s') who = free_balance (ledger s) who + due ∧
    reserved_balance (ledger s') who = reserved_balance (ledger s) who - due ∧
    ∀ e, unlocking_at (unbonding_info s' who) e =
         if e <=? current (Era s) then 0 else unlocking_at (unbonding_info s who) e.
Proof.
  intros Hi. pose proof (unbonded_sum s who Hi) as Hsum.
  pose proof (partition_spec (unbonding_info s who) (current (Era s))) as Hp.
  destruct (Unbonding.partition _ _) as [valid future] eqn:Hpart. simpl.
  destruct Hsum as (Hrange & _ & Hsum & _), Hp as (_ & _ & _ & Hfut & _). intros Hdue.
  destruct (unreserve who (Unbonding.sum valid) (ledger s)) as [rest l] eqn:Hu.
  pose proof (unreserve_spec _ _ _ _ _ (proj1 Hrange) Hu) as (_ & Hf & Hr & _).
  exists (mkState (Era s) (EraState s) (RewardAccumulator s) (ProviderInfo s)
    (ProviderEraInfo s) (DelegationInfo s) (put_unbonding who future (UnbondingInfo s)) l
    (events s ++ [Withdrawn who (Unbonding.sum valid)])). split_and!.
  - unfold withdraw_unbonded.
    do 3 (erewrite bind_run_Ok by reflexivity). rewrite Hpart.
    assert (negb (Unbonding.sum valid =? 0) = true) as -> by lia.
    erewrite bind_run_Ok by reflexivity.
    erewrite bind_run_Ok by (apply currency_unreserve_Ok; by eexists).
    erewrite (bind_run_Ok _ _ _ tt) by (by apply update_unbonding_info_Ok). done.
  - simpl. rewrite Hf. lia.
  - simpl. rewrite Hr. lia.
  - intros e. rewrite <-Hfut. unfold unbonding_info, put_unbonding. simpl.
    destruct (Unbonding.is_empty future) eqn:He.
    + rewrite lookup_delete_eq. unfold Unbonding.is_empty in He.
      by destruct future as [[|]].
    + by rewrite lookup_insert_eq.
Qed.

(** In every reachable state [withdraw_unbonded] pays exactly the chunks
    whose era has come: it succeeds whenever they add up to something, the
    whole amount moves from the reserved to the free balance, and the chunks of
    later eras stay queued. *)
Theorem withdraw_unbonded_pays s who :
  reachable s →
  let due := unbonding_total (Unbonding.partition (unbonding_info s who) (current (Era s))).1 in
  0 < due →
  ∃ s', withdraw_unbonded (Signed who) s = (Ok tt, s') ∧
    free_balance (ledger s') who = free_balance (ledger s) who + due ∧
    reserved_balance (ledger s') who = reserved_balance (ledger s) who - due ∧
    ∀ e, unlocking_at (unbonding_info s' who) e =
         if e <=? current (Era s) then 0 else unlocking_at (unbonding_info s who) e.
Proof. intros Hi%reachable_inv. by apply withdraw_unbonded_run. Qed.

End reach.

Abbreviation step := (step_from (allowed := signer_ok)).
