(* ===== verification/StakingMock.v ===== *)
(** * The mock of the staking pallet

    pallets/dapi-staking/src/mock.rs over the ledger of [Ledger]: its constants,
    the instance at which the theorems about the staking pallet are evaluated,
    and the externalities its tests run in. *)

From S2P Require Export Testing Staking.

(** ** Constants *)

Definition EXISTENTIAL_DEPOSIT : Z := 2.
Definition MIN_PROVIDER_STAKE : Z := 10.
Definition PROVIDER_REWARD_PERCENTAGE : Z := 80.
Definition MAX_NUMBER_OF_DELEGATORS : Z := 5.
Definition MIN_DELEGATOR_STAKE : Z := 10.
Definition MAX_UNLOCKING_CHUNKS : Z := 4.
Definition UNBONDING_PERIOD : Z := 3.
Definition MAX_ERA_STAKE_VALUES : Z := 8.
Definition BLOCKS_PER_ERA : Z := 3.
Definition BLOCK_REWARD : Z := 123456.

#[global] Instance mock_deposit : ExistentialDeposit :=
  {| ED := EXISTENTIAL_DEPOSIT; ED_nonneg := ltac:(done) |}.

(** [impl pallet_dapi_staking::Config for TestRuntime]; 99 stands for the
    account of [DapiStakingPalletId]. *)
#[global] Instance mock_config : StakingConfig Z := {|
  DefaultBlocksPerEra := BLOCKS_PER_ERA;
  ProviderRewardsPercentage := pb_from_percent PROVIDER_REWARD_PERCENTAGE;
  MinProviderStake := MIN_PROVIDER_STAKE;
  MaxDelegatorsPerProvider := MAX_NUMBER_OF_DELEGATORS;
  MinDelegatorStake := MIN_DELEGATOR_STAKE;
  MaxEraStakeValues := MAX_ERA_STAKE_VALUES;
  UnbondingPeriod := UNBONDING_PERIOD;
  MaxUnlockingChunks := MAX_UNLOCKING_CHUNKS;
  PalletAccount := 99
|}.

(** ** Externalities *)

(** [MockProvider([u8; 36])] *)
Abbreviation MockProvider := (list Z).
Definition MockProvider_default : MockProvider := replicate 36 1.

Abbreviation MockStorage := (State Z MockProvider Ledger).
Record TestExternalities : Type := mkTestExternalities {
  block_number : Z;
  dapi_staking : MockStorage
}.
Abbreviation Test := (M Failure TestExternalities).

#[global] Instance mock_externalities : Externalities TestExternalities MockStorage := {|
  storage := dapi_staking;
  with_storage v s := mkTestExternalities (block_number s) v
|}.

(** [ExternalityBuilder::build] *)
Definition build : TestExternalities :=
  mkTestExternalities 1
    (mkState (mkEraInfo 0 0 0) ∅ 0 ∅ ∅ ∅ ∅
       (endowed [(1, 9000); (2, 800); (3, 10000); (4, 4900); (5, 3800); (6, 10);
                 (7, 1000); (8, 2000); (9, 10000); (10, 300); (11, 400); (20, 10);
                 (540, EXISTENTIAL_DEPOSIT); (1337, 1_000_000_000_000)]) []).

Definition set_block_number (n : Z) : Test unit :=
  modify (λ s, mkTestExternalities n (dapi_staking s)).

(** [Balances::issue] *)
Definition balances_issue (amount : Z) : M DispatchError MockStorage Z :=
  update (λ s, let '(i, l) := issue (AccountId := Z) amount (ledger s) in (i, set_ledger l s)).

Definition payout_block_rewards : Test unit :=
  execute (imbalance ← balances_issue BLOCK_REWARD; handle_imbalance imbalance).

(** The pallet has no [on_finalize]. *)
Definition run_to_block (n : Z) : Test unit :=
  start ← gets block_number;
  while (Z.to_nat (n - start)) (λ s, block_number s <? n)
    (block ← gets block_number;
     set_block_number (block + 1);;
     payout_block_rewards;;
     block ← gets block_number;
     execute (on_initialize block);;
     mret tt).

Definition run_for_blocks (n : Z) : Test unit :=
  block ← gets block_number; run_to_block (block + n).

Definition era (s : TestExternalities) : Z := current (Era (dapi_staking s)).

(** An era has [BLOCKS_PER_ERA] blocks. *)
Definition advance_to_era (n : Z) : Test unit :=
  start ← gets era;
  while (Z.to_nat ((n - start) * BLOCKS_PER_ERA)) (λ s, era s <? n) (run_for_blocks 1).

Definition initialize_first_block : Test unit :=
  assert (λ s, block_number s =? 1);;
  payout_block_rewards;;
  block ← gets block_number;
  execute (on_initialize block);;
  run_to_block 2.

(** ** Scenarios

    Runs of the pallet from a storage in which eight accounts are endowed. *)

Abbreviation MockState := (State Z Z Ledger).

(** Accounts 1 .. 8 are endowed, the pallet's storage is empty. *)
Definition mock_ledger : Ledger :=
  mkLedger (list_to_map ((λ who, (who, (10000, 0))) <$> [1; 2; 3; 4; 5; 6; 7; 8]))
    80000.

Definition mock_genesis : MockState :=
  mkState (mkEraInfo 0 0 0) ∅ 0 ∅ ∅ ∅ ∅ mock_ledger [].

(** The actions of a scenario. *)
Inductive Action : Type :=
| ACall (origin : Origin Z) (c : StakingCall Z)
| ARegister (account provider_id bond : Z)
| AUnregister (provider_id : Z)
| ABlock (n : Z)
| AReward (amount : Z).

Definition act (a : Action) : M DispatchError MockState unit :=
  match a with
  | ACall origin c => dispatch c origin
  | ARegister account p bond => register_provider account p bond
  | AUnregister p => unregister_provider p
  | ABlock n => on_initialize n;; mret tt
  | AReward amount => handle_imbalance amount
  end.

(** Runs a scenario; a failing action is skipped and reported. *)
Fixpoint run (l : list Action) (s : MockState) : list (option DispatchError) * MockState :=
  match l with
  | [] => ([], s)
  | a :: l' =>
      let '(r, s') := act a s in
      let '(rs, s'') := run l' s' in
      ((match r with Ok _ => None | Err e => Some e end) :: rs, s'')
  end.

(** Block 1 starts era 1; with three blocks per era, block [3 * k - 2] starts
    era [k]. *)
Definition to_era (k : Z) : Action := ABlock (3 * k - 2).
