(* ===== verification/StakingTests.v ===== *)
(** * The tests of the staking pallet, replayed

    pallets/dapi-staking/src/tests.rs as programs over the mock: every test of
    the repository passes in the model. *)

From S2P Require Export StakingMock.
Import DapiStakingError.

(** ** Helpers *)

Record MemorySnapshot : Type := mkMemorySnapshot {
  snapshot_era_info : EraMetadata;
  snapshot_provider_info : ProviderMetadata Z;
  snapshot_delegator_info : Delegation;
  snapshot_provider_era_info : ProviderEraMetadata;
  snapshot_free_balance : Z
}.

Definition currency (s : TestExternalities) : Ledger := ledger (dapi_staking s).

(** [MemorySnapshot::all] *)
Definition snapshot_all (era : Z) (provider_id : MockProvider) (account : Z) :
    Test MemorySnapshot :=
  era_info ← unwrap (λ s, EraState (dapi_staking s) !! era);
  provider_info ← unwrap (λ s, ProviderInfo (dapi_staking s) !! provider_id);
  gets (λ s, mkMemorySnapshot era_info provider_info
    (delegation_info (dapi_staking s) account provider_id)
    (provider_era_info (dapi_staking s) provider_id era)
    (free_balance (currency s) account)).

(** [MemorySnapshot::provider] *)
Definition snapshot_provider (era : Z) (provider_id : MockProvider) : Test MemorySnapshot :=
  era_info ← unwrap (λ s, EraState (dapi_staking s) !! era);
  provider_info ← unwrap (λ s, ProviderInfo (dapi_staking s) !! provider_id);
  gets (λ s, mkMemorySnapshot era_info provider_info Delegation_default
    (provider_era_info (dapi_staking s) provider_id era) 0).

Definition free_balance_of_dapi_staking_account (s : TestExternalities) : Z :=
  free_balance (currency s) account_id.

Definition get_total_reward_per_era : Z := BLOCK_REWARD * BLOCKS_PER_ERA.

Definition assert_register (operator : Z) (provider_id : MockProvider) (stake_amount : Z) :
    Test unit :=
  init_reserved_balance ← gets (λ s, reserved_balance (currency s) operator);
  assert (λ s, negb (bool_decide (is_Some (ProviderInfo (dapi_staking s) !! provider_id))));;
  assert_ok (register_provider operator provider_id stake_amount);;
  provider ← unwrap (λ s, ProviderInfo (dapi_staking s) !! provider_id);
  assert (λ _, bool_decide (status provider = Active));;
  assert (λ _, owner provider =? operator);;
  assert (λ s, reserved_balance (currency s) operator =? init_reserved_balance + stake_amount).

Definition assert_unregister (operator : Z) (provider_id : MockProvider) : Test unit :=
  current_era ← gets era;
  init ← snapshot_provider current_era provider_id;
  assert (λ _, bool_decide (status (snapshot_provider_info init) = Active));;
  assert_ok (unregister_provider provider_id);;
  final ← snapshot_provider current_era provider_id;
  assert (λ _, em_staked (snapshot_era_info final) =?
    em_staked (snapshot_era_info init) - total (snapshot_provider_era_info init));;
  assert (λ _, total (snapshot_provider_era_info final) =?
    total (snapshot_provider_era_info init));;
  assert (λ _, bool_decide (status (snapshot_provider_info final) = Inactive current_era));;
  assert (λ _, owner (snapshot_provider_info final) =? operator).

Definition assert_delegate (delegator : Z) (provider_id : MockProvider) (value : Z) :
    Test unit :=
  current_era ← gets era;
  init ← snapshot_all current_era provider_id delegator;
  let staking_value := Z.min (snapshot_free_balance init) value in
  assert_ok (delegate (Signed delegator) provider_id value);;
  assert_eq (λ s, last (events (dapi_staking s)))
    (Some (Delegated delegator provider_id staking_value));;
  final ← snapshot_all current_era provider_id delegator;
  (if Delegation.latest_staked_value (snapshot_delegator_info init) =? 0 then
     assert (λ s, bool_decide (is_Some
       (DelegationInfo (dapi_staking s) !! (delegator, provider_id))));;
     assert (λ _, delegator_count (snapshot_provider_era_info final) =?
       delegator_count (snapshot_provider_era_info init) + 1)
   else mret tt);;
  assert (λ _, em_staked (snapshot_era_info final) =?
    em_staked (snapshot_era_info init) + staking_value);;
  assert (λ _, total (snapshot_provider_era_info final) =?
    total (snapshot_provider_era_info init) + staking_value);;
  assert (λ _, Delegation.latest_staked_value (snapshot_delegator_info final) =?
    Delegation.latest_staked_value (snapshot_delegator_info init) + staking_value).

(** ** The tests *)

Definition reward_is_ok : Test unit :=
  assert (λ s, RewardAccumulator (dapi_staking s) =? 0);;
  assert (λ s, free_balance_of_dapi_staking_account s =? 0);;
  let reward := 123456 in
  execute (imbalance ← balances_issue reward; handle_imbalance imbalance);;
  assert (λ s, reward =? free_balance_of_dapi_staking_account s);;
  block ← gets block_number;
  execute (on_initialize block);;
  assert (λ s, RewardAccumulator (dapi_staking s) =? 0);;
  assert (λ s, reward =? free_balance_of_dapi_staking_account s).

Definition on_initialize_is_ok : Test unit :=
  assert (λ s, era s =? 0);;
  initialize_first_block;;
  current_era ← gets era;
  assert (λ _, 1 =? current_era);;
  let previous_era := current_era in
  advance_to_era (previous_era + 10);;
  current_era ← gets era;
  mapM_ (λ era,
      era_state ← unwrap (λ s, EraState (dapi_staking s) !! era);
      assert (λ _, get_total_reward_per_era =? em_rewards era_state))
    (seqZ 1 (current_era - 1));;
  era_state ← unwrap (λ s, EraState (dapi_staking s) !! current_era);
  assert (λ _, 0 =? em_staked era_state);;
  assert (λ _, 0 =? em_rewards era_state).

Definition register_is_ok : Test unit :=
  initialize_first_block;;
  let operator := 1 in
  let provider := MockProvider_default in
  assert (λ s, reserved_balance (currency s) operator =? 0);;
  assert_register operator provider 100.

Definition register_same_provider_twice_fails : Test unit :=
  initialize_first_block;;
  let operator1 := 1 in
  let operator2 := 2 in
  let provider := MockProvider_default in
  assert_register operator1 provider 100;;
  assert_noop (register_provider operator2 provider 100) (DapiStakingErr ProviderExists).

Definition unregister_after_register_is_ok : Test unit :=
  initialize_first_block;;
  let operator := 1 in
  let provider_id := MockProvider_default in
  assert (λ s, reserved_balance (currency s) operator =? 0);;
  assert_register operator provider_id 100;;
  assert_unregister operator provider_id.

Definition unregister_stake_and_unstake_is_not_ok : Test unit :=
  initialize_first_block;;
  let operator := 1 in
  let delegator := 2 in
  let provider_id := MockProvider_default in
  assert (λ s, reserved_balance (currency s) operator =? 0);;
  assert_register operator provider_id 100;;
  assert_delegate delegator provider_id 100;;
  assert_unregister operator provider_id.

Example staking_tests_pass :
  all_pass [reward_is_ok; on_initialize_is_ok; register_is_ok;
    register_same_provider_twice_fails; unregister_after_register_is_ok;
    unregister_stake_and_unstake_is_not_ok] (Some build) = true.
Proof. vm_compute. reflexivity. Qed.
