(* ===== verification/StakingBenchmarks.v ===== *)
(** * The benchmarks of the staking pallet, replayed

    pallets/dapi-staking/src/benchmarks.rs as the benchmark test suite runs it,
    over the externalities of the mock: set-up, extrinsic and verification of
    every benchmark, for the numbers of delegators the file fixes. *)

From S2P Require Export StakingTests.
From Stdlib Require Import Strings.String.

Definition SEED : Z := 9000.
Definition BENCHMARK_BLOCK_REWARD : Z := 1000.

(** [frame_benchmarking::{account, whitelisted_caller}]: distinct accounts. *)
Definition account (name : string) (n seed : Z) : Z :=
  if bool_decide (name = "owner"%string) then 2000000 + n else 3000000 + n + seed.
Definition whitelisted_caller : Z := 1000000.

(** [BalanceOf::<T>::max_value()] *)
Definition max_value : Z := u128_max.

(** [T::Currency::make_free_balance_be] *)
Definition make_free_balance_be (who v : Z) : Test unit := modify (λ s,
  with_storage (set_ledger (let l := currency s in
    set_issued (Z.min u128_max (issued l + v - free l who))
      (set_account who v (reserved l who) l)) (dapi_staking s)) s).

Definition initialize : Test unit := modify (λ s,
  with_storage (mkState (mkEraInfo 0 0 0) ∅ 0 ∅ ∅ ∅ ∅ (currency s)
    (events (dapi_staking s))) s).

Definition benchmark_payout_block_rewards : Test unit :=
  execute (imbalance ← balances_issue BENCHMARK_BLOCK_REWARD; handle_imbalance imbalance).

Definition assert_last_event (event : StakingEvent Z MockProvider) : Test unit :=
  assert_eq (λ s, last (events (dapi_staking s))) (Some event).

(** An era has at most [BLOCKS_PER_ERA] blocks. *)
Definition benchmark_advance_to_era (n : Z) : Test unit :=
  start ← gets era;
  while (Z.to_nat ((n - start) * BLOCKS_PER_ERA)) (λ s, era s <? n)
    (block ← gets block_number;
     execute (on_initialize block);;
     set_block_number (block + 1);;
     benchmark_payout_block_rewards;;
     block ← gets block_number;
     execute (on_initialize block);;
     mret tt).

Definition benchmark_register_provider : Test (Z * MockProvider) :=
  let owner := account "owner" 10000 SEED in
  make_free_balance_be owner max_value;;
  let provider_id := MockProvider_default in
  execute (register_provider owner provider_id MinProviderStake);;
  mret (owner, provider_id).

Definition prepare_delegate (delegator_count : Z) (provider_id : MockProvider) (seed : Z) :
    Test (list Z) :=
  let stake_balance := MinDelegatorStake in
  foldM (λ delegators id,
      let delegator := account "delegator" id seed in
      make_free_balance_be delegator max_value;;
      execute (delegate (Signed delegator) provider_id stake_balance);;
      mret (delegators ++ [delegator]))
    [] (seqZ 0 delegator_count).

(** ** [benchmarks!] *)

Definition benchmark_set_blocks_per_era : Test unit :=
  assert_ok (set_blocks_per_era Root 1200);;
  assert (λ s, length_ (Era (dapi_staking s)) =? 1200).

Definition benchmark_provider_bond_more : Test unit :=
  initialize;;
  r ← benchmark_register_provider;
  let '(owner, provider_id) := r in
  let amount := max_value / 2 in
  assert_ok (provider_bond_more (Signed owner) provider_id amount);;
  assert_last_event (ProviderBondedMore provider_id amount).

Definition benchmark_provider_bond_less : Test unit :=
  initialize;;
  r ← benchmark_register_provider;
  let '(owner, provider_id) := r in
  let amount := max_value / 2 in
  execute (provider_bond_more (Signed owner) provider_id amount);;
  assert_ok (provider_bond_less (Signed owner) provider_id amount);;
  assert_last_event (ProviderBondedLess provider_id amount).

(** The delegators of [delegate], [delegator_unstake] and [withdraw_unbonded]. *)
Definition crowded_provider : Test MockProvider :=
  initialize;;
  r ← benchmark_register_provider;
  prepare_delegate (MaxDelegatorsPerProvider - 1) r.2 SEED;;
  make_free_balance_be whitelisted_caller max_value;;
  mret r.2.

Definition benchmark_delegate : Test unit :=
  provider_id ← crowded_provider;
  let delegator := whitelisted_caller in
  let amount := max_value / 2 in
  assert_ok (delegate (Signed delegator) provider_id amount);;
  assert_last_event (Delegated delegator provider_id amount).

Definition benchmark_delegator_unstake : Test unit :=
  provider_id ← crowded_provider;
  let delegator := whitelisted_caller in
  let amount := max_value / 2 in
  execute (delegate (Signed delegator) provider_id amount);;
  assert_ok (delegator_unstake (Signed delegator) provider_id amount);;
  assert_last_event (DelegatorUnstaked delegator provider_id amount).

Definition benchmark_withdraw_unbonded : Test unit :=
  provider_id ← crowded_provider;
  let delegator := whitelisted_caller in
  let stake_amount := max_value / 2 in
  let unstake_amount := stake_amount / 2 in
  execute (delegate (Signed delegator) provider_id stake_amount);;
  execute (delegator_unstake (Signed delegator) provider_id unstake_amount);;
  current_era ← gets era;
  benchmark_advance_to_era (current_era + 1 + UnbondingPeriod);;
  assert_ok (withdraw_unbonded (Signed delegator));;
  assert_last_event (Withdrawn delegator unstake_amount).

Definition benchmark_claim_provider : Test unit :=
  initialize;;
  r ← benchmark_register_provider;
  let '(owner, provider_id) := r in
  claim_era ← gets era;
  benchmark_advance_to_era (claim_era + 1);;
  assert_ok (claim_provider (Signed owner) provider_id claim_era);;
  info ← unwrap (λ s, ProviderEraInfo (dapi_staking s) !! (provider_id, claim_era));
  assert (λ _, provider_reward_claimed info).

Definition benchmark_claim_delegator : Test unit :=
  initialize;;
  r ← benchmark_register_provider;
  let provider_id := r.2 in
  let delegator_count := 3 in
  claim_era ← gets era;
  delegators ← prepare_delegate delegator_count provider_id SEED;
  delegator ← unwrap (λ _, delegators !! 0%nat);
  benchmark_advance_to_era (claim_era + 1);;
  assert_ok (claim_delegator (Signed delegator) provider_id);;
  delegation ← gets (λ s, delegation_info (dapi_staking s) delegator provider_id);
  let '((era, _), _) := Delegation.claim delegation in
  assert (λ _, claim_era <? era).

Definition benchmark_provider_withdraw_unregistered : Test unit :=
  initialize;;
  r ← benchmark_register_provider;
  let '(owner, provider_id) := r in
  execute (unregister_provider provider_id);;
  current_era ← gets era;
  benchmark_advance_to_era (current_era + 1 + UnbondingPeriod);;
  assert_ok (provider_withdraw_unregistered (Signed owner) provider_id);;
  provider ← unwrap (λ s, ProviderInfo (dapi_staking s) !! provider_id);
  assert (λ _, bond_withdrawn provider);;
  assert_last_event (Withdrawn owner MinProviderStake).

Definition benchmark_delegator_withdraw_unregistered : Test unit :=
  initialize;;
  r ← benchmark_register_provider;
  let provider_id := r.2 in
  delegators ← prepare_delegate 1 provider_id SEED;
  delegator ← unwrap (λ _, delegators !! 0%nat);
  execute (unregister_provider provider_id);;
  current_era ← gets era;
  benchmark_advance_to_era (current_era + 1 + UnbondingPeriod);;
  assert_ok (delegator_withdraw_unregistered (Signed delegator) provider_id);;
  assert (λ s, Delegation.latest_staked_value
    (delegation_info (dapi_staking s) delegator provider_id) =? 0);;
  assert_last_event (Withdrawn delegator MinDelegatorStake).

Example staking_benchmarks_pass :
  all_pass
    [benchmark_set_blocks_per_era; benchmark_provider_bond_more;
     benchmark_provider_bond_less; benchmark_delegate; benchmark_delegator_unstake;
     benchmark_withdraw_unbonded; benchmark_claim_provider; benchmark_claim_delegator;
     benchmark_provider_withdraw_unregistered; benchmark_delegator_withdraw_unregistered]
    (Some build) = true.
Proof. vm_compute. reflexivity. Qed.
