(* ===== verification/Supply.v ===== *)
(** * The supply of the concrete ledger

    A check that the reserves of every set of accounts of a [Ledger] fit the
    balance type, the side condition under which the staking pallet's saturating
    additions are exact. *)

From S2P Require Export Ledger StakingBooks.

Section supply.
Context `{ExistentialDeposit}.

(** An upper bound of the reserves of any set of accounts. *)
Definition total_reserved (l : Ledger) : Z :=
  msum (λ _ a, clamp a.2) (accounts l).

Lemma total_reserved_bound (l : Ledger) ws :
  NoDup ws → lsum (reserved l <$> ws) <= total_reserved l.
Proof.
  intros Hnd. etrans; [|apply (msum_group_le (λ k _, k) (λ _ a, clamp a.2) ws); [done|]].
  - apply lsum_mono. intros w _. rewrite (msum_single (λ _ a, clamp a.2)).
    unfold reserved, account.
    destruct (accounts l !! w) as [a|]; cbn -[clamp]; [lia|].
    change (clamp 0) with 0. lia.
  - intros. apply clamp_range.
Qed.

Lemma supply_check (l : Ledger) :
  (total_reserved l <=? u128_max) = true → supply_ok l.
Proof. intros Hl%Z.leb_le ws Hnd. etrans; [by apply total_reserved_bound|done]. Qed.
End supply.
