(* ===== verification/StakingScenarios.v ===== *)
(** * Executing scenarios

    A scenario of [StakingMock] whose actions all succeed and meet the side
    conditions of [step] leads to a reachable state; the states below are the
    ones at which the theorems about reachable states are evaluated. *)

From S2P Require Export StakingReach StakingMock Supply.
Import DapiStakingError.

#[global] Instance mock_config_laws : StakingConfigLaws Z.
Proof. split; try split; vm_compute; done. Qed.

(** The side conditions of an action that led from [s] to [s']. *)
Definition action_ok (a : Action) (s s' : MockState) : bool :=
  (total_reserved (ledger s') <=? u128_max) &&
  match a with
  | ACall origin c =>
      match origin with Signed who => negb (who =? PalletAccount) | _ => true end &&
      match c with
      | provider_bond_less_call _ v => v + MinProviderStake <=? u128_max
      | _ => true
      end
  | ARegister account _ _ => negb (account =? PalletAccount)
  | AUnregister _ => true
  | ABlock _ => current (Era s) <? u32_max
  | AReward _ => true
  end.

Fixpoint run_ok (l : list Action) (s : MockState) : option MockState :=
  match l with
  | [] => Some s
  | a :: l' =>
      match act a s with
      | (Ok _, s') => if action_ok a s s' then run_ok l' s' else None
      | (Err _, _) => None
      end
  end.

(** Who may sign an action when only the [allowed] origins may. *)
Definition signs (allowed : Origin Z → Prop) (a : Action) : Prop :=
  match a with ACall origin _ => signer_ok origin → allowed origin | _ => True end.

Lemma action_step_from allowed a s s' :
  act a s = (Ok tt, s') → action_ok a s s' = true → signs allowed a →
  step_from (allowed := allowed) s s'.
Proof.
  unfold action_ok. intros Hact [Hs Hok]%andb_true_iff Hsig. apply supply_check in Hs.
  destruct a as [origin c|account p b|p|n|v]; simpl in Hact.
  - apply andb_true_iff in Hok as [Ho Hc]. eapply step_call; [done| | |done].
    + apply Hsig. destruct origin; try done. intros [= ->]. done.
    + destruct c; try done. simpl. by apply Z.leb_le.
  - eapply step_register; [done| |done]. intros ->. done.
  - by eapply step_unregister.
  - apply bind_Ok in Hact as (w & s1 & Hi & Hr). apply mret_Ok in Hr as [_ ->].
    eapply step_block; [done|]. by apply Z.ltb_lt.
  - by eapply step_reward.
Qed.

Lemma action_step a s s' : act a s = (Ok tt, s') → action_ok a s s' = true → step s s'.
Proof. intros. eapply action_step_from; [done..|]. destruct a; simpl; auto. Qed.

Lemma run_ok_steps_from allowed l s s' :
  run_ok l s = Some s' → Forall (signs allowed) l → rtc (step_from (allowed := allowed)) s s'.
Proof.
  intros Hr Hl. revert s Hr. induction Hl as [|a l Ha _ IH]; simpl; intros s Hr.
  { by simplify_eq. }
  destruct (act a s) as [[[]|] s1] eqn:Hact; [|done].
  destruct (action_ok a s s1) eqn:Hok; [|done].
  eapply rtc_l; [by eapply action_step_from|by apply IH].
Qed.

Lemma run_ok_steps l s s' : run_ok l s = Some s' → rtc step s s'.
Proof.
  intros Hr. apply (run_ok_steps_from _ _ _ _ Hr), Forall_true. intros []; simpl; auto.
Qed.

Lemma mock_genesis_ok : genesis mock_genesis.
Proof. by split. Qed.

Lemma run_ok_reachable l s : run_ok l mock_genesis = Some s → reachable s.
Proof. intros Hr. exists mock_genesis. split; [apply mock_genesis_ok|by eapply run_ok_steps]. Qed.

(** The state a scenario leads to. *)
Definition after (l : list Action) : MockState := default mock_genesis (run_ok l mock_genesis).

Lemma after_reachable l :
  (if run_ok l mock_genesis is Some _ then true else false) = true → reachable (after l).
Proof.
  unfold after. destruct (run_ok l mock_genesis) as [s|] eqn:Hr; [|done].
  intros _. by eapply run_ok_reachable.
Qed.

(** A provider with two delegators, one of which has left. *)
Definition busy_scenario : list Action :=
  [to_era 1; ARegister 1 50 1000; AReward 500; to_era 2;
   ACall (Signed 2) (delegate_call 50 300); ACall (Signed 3) (delegate_call 50 200);
   AReward 700; to_era 3; ACall (Signed 1) (provider_bond_less_call 50 400);
   ACall (Signed 3) (delegator_unstake_call 50 195); to_era 4].
Definition busy : MockState := after busy_scenario.

Lemma busy_reachable : reachable busy.
Proof. apply after_reachable; vm_compute; reflexivity. Qed.

Lemma staking_books_balance_witness :
  is_active_provider busy 50 = true ∧
  (∃ info, ProviderEraInfo busy !! (50, current (Era busy)) = Some info ∧
     MinProviderStake <= bond info ∧
     total info = bond info + delegated_to (DelegationInfo busy) 50 ∧
     delegator_count info = delegators_of (DelegationInfo busy) 50).
Proof.
  split; [reflexivity|].
  refine (proj1 (staking_books_balance busy busy_reachable) 50
    (mkProviderMetadata 1 Active false) _ _); reflexivity.
Defined.

Lemma reserves_cover_obligations_witness :
  obligations busy 3 = 200 ∧ 0 <= obligations busy 3 <= reserved_balance (ledger busy) 3.
Proof.
  split; [reflexivity|]. apply (reserves_cover_obligations busy 3 busy_reachable).
Defined.

(** Six eras later both chunks of the scenario are due. *)
Definition later : MockState := after (busy_scenario ++ [to_era 5; to_era 6]).

Lemma withdraw_unbonded_pays_witness :
  ∃ s', withdraw_unbonded (Signed 3) later = (Ok tt, s') ∧
    free_balance (ledger s') 3 = free_balance (ledger later) 3 + 200 ∧
    reserved_balance (ledger s') 3 = reserved_balance (ledger later) 3 - 200 ∧
    ∀ e, unlocking_at (unbonding_info s' 3) e =
         if e <=? current (Era later) then 0 else unlocking_at (unbonding_info later 3) e.
Proof.
  refine (withdraw_unbonded_pays later 3 _ _).
  - apply after_reachable; vm_compute; reflexivity.
  - vm_compute. done.
Defined.
