(* ===== verification/StakingHistory.v ===== *)
(** * What later steps cannot undo

    Facts about sequences of steps of the staking pallet: past eras are closed,
    a reward is paid at most once, an unregistration is final and its bond is
    paid back once; and the bounds the stored collections respect. *)

From S2P Require Export StakingScenarios.
Import DapiStakingError.

(** The outcome of each kind of successful step, as explicit states. *)
Ltac step_cases Hstep :=
  destruct Hstep as [c origin Hd Hsig Hcall Hsup|a p0 b Hd Hne Hsup|p0 Hd|n w Hd Hmax
    |i Hd|l Hl ->];
  [destruct c; simpl in Hd;
     [apply set_blocks_per_era_Ok in Hd as (? & ? & ->)
     |apply provider_bond_more_Ok in Hd as (? & ? & ? & ? & ? & ? & ? & ? & ? & ? & ? & ->)
     |apply provider_bond_less_Ok in Hd as (? & ? & ? & ? & ? & ? & ? & ? & ? & ->)
     |apply delegate_Ok in Hd as (who & dl' & ? & -> & ? & Hact & ? & Hst & Hlen & ? & ? & ? & ->)
     |apply delegator_unstake_Ok in Hd
        as (who & dl' & ? & out & -> & ? & Hact & ? & ? & Hout & Hst & Hlen & ? & ->)
     |apply withdraw_unbonded_Ok in Hd as (? & ? & ? & ? & ? & ? & ? & ? & ? & ->)
     |apply claim_provider_Ok in Hd as (? & ? & ? & ? & ? & ? & ? & ? & ? & ? & ? & ? & ? & ->)
     |apply claim_delegator_Ok in Hd
        as (who & era & staked & dl' & ? & ? & ? & ? & -> & Hc & Hpos & ? & ? & Hera & ? & ? & ->)
     |apply provider_withdraw_unregistered_Ok in Hd
        as (? & ? & ? & ? & ? & ? & ? & ? & ? & ? & ? & ->)
     |apply delegator_withdraw_unregistered_Ok in Hd
        as (who & ? & ? & ? & ? & -> & ? & ? & ? & ? & ? & ? & ->)]
  |apply register_provider_Ok in Hd as (? & Hnew & ? & ? & ->)
  |apply unregister_provider_Ok in Hd as (? & ? & ? & ->)
  | | |].

Section history.
Context {AccountId : Type} `{Countable AccountId}.
Context {ProviderId : Type} `{Countable ProviderId}.
Context {Imb L : Type} `{!Currency AccountId Imb L} `{!CurrencyLaws AccountId Imb L}.
Context `{!PerbillOps} `{!PerbillLaws} `{!DbWeightOps} `{!StakingConfig AccountId}.
Context `{!StakingConfigLaws AccountId}.

Abbreviation State := (State AccountId ProviderId L).
Implicit Types s : State.

(** ** Steps on the parts of the storage *)

Lemma on_initialize_outcome n w s s' :
  on_initialize n s = (Ok w, s') → inv s → current (Era s) < u32_max →
  let cur := current (Era s) in
  let staked := em_staked (default EraMetadata_default (EraState s !! cur)) in
  s' = s ∨
  s' = mkState (mkEraInfo (cur + 1) n
                  (if cur =? 0 then DefaultBlocksPerEra else length_ (Era s)))
         (<[cur:=mkEraMetadata (RewardAccumulator s) staked]>
            (<[cur + 1:=mkEraMetadata 0 staked]> (EraState s)))
         0 (ProviderInfo s)
         (rotated cur (cur + 1) (ProviderInfo s) (ProviderEraInfo s))
         (DelegationInfo s) (UnbondingInfo s) (ledger s) (events s ++ [NewEra (cur + 1) n]).
Proof.
  intros Hr Hi Hmax. destruct (EraInfo.should_update (Era s) n) eqn:Hn; last first.
  { rewrite on_initialize_idle in Hr by done. left. by simplify_eq. }
  destruct (on_initialize_new_era n s Hn) as [w' Hr']. rewrite Hr in Hr'.
  injection Hr' as -> ->. right. unfold next_clock. simpl.
  destruct (inv_era _ Hi) as [??]. by rewrite u32_add_small, sat_add_small by lia.
Qed.

Lemma on_initialize_cases n w s s' :
  on_initialize n s = (Ok w, s') → inv s → current (Era s) < u32_max →
  s' = s ∨
  current (Era s') = current (Era s) + 1 ∧ ProviderInfo s' = ProviderInfo s ∧
  ProviderEraInfo s' = rotated (current (Era s)) (current (Era s) + 1)
    (ProviderInfo s) (ProviderEraInfo s) ∧
  DelegationInfo s' = DelegationInfo s ∧ UnbondingInfo s' = UnbondingInfo s.
Proof.
  intros Hr Hi Hmax.
  destruct (on_initialize_outcome _ _ _ _ Hr Hi Hmax) as [->| ->]; [by left|by right].
Qed.

Lemma step_era s s' : step s s' → inv s → current (Era s) <= current (Era s').
Proof.
  intros Hstep Hi. step_cases Hstep; simpl; try lia.
  - destruct (on_initialize_cases _ _ _ _ Hd Hi Hmax) as [->|[-> _]]; lia.
  - rewrite handle_imbalance_run in Hd. by injection Hd as <-.
Qed.

(** The entries of past eras change in one way: the provider's claim. *)
Lemma step_past_entry s s' p e :
  step s s' → inv s → e < current (Era s) →
  let info := provider_era_info s p e in
  provider_era_info s' p e = info ∨
  provider_era_info s' p e =
    mkProviderEraMetadata (bond info) (total info) (delegator_count info) true.
Proof.
  intros Hstep Hi He. assert (∀ p' i s', ProviderEraInfo s' =
    <[(p', current (Era s)):=i]> (ProviderEraInfo s) →
    provider_era_info s' p e = provider_era_info s p e) as Hcur.
  { intros p' i s1 Hs. unfold provider_era_info. rewrite Hs, lookup_insert_ne; [done|].
    intros [= ??]. lia. }
  step_cases Hstep; simpl; try (by left; eapply Hcur); try by left.
  - unfold provider_era_info. simpl.
    destruct (decide ((provider_id, era) = (p, e))) as [[= -> ->]|Hn].
    + rewrite lookup_insert_eq. by right.
    + rewrite lookup_insert_ne by done. by left.
  - destruct (on_initialize_cases _ _ _ _ Hd Hi Hmax) as [->|(_ & _ & Hpei & _)]; [by left|].
    left. unfold provider_era_info. rewrite Hpei, rotated_other_era; [done|lia].
  - rewrite handle_imbalance_run in Hd. injection Hd as <-. by left.
Qed.

(** Registrations are never removed, their owner is fixed, and neither an
    unregistration nor a withdrawn bond is ever undone. *)
Lemma step_provider s s' p pm :
  step s s' → inv s → ProviderInfo s !! p = Some pm →
  ∃ pm', ProviderInfo s' !! p = Some pm' ∧ owner pm' = owner pm ∧
    (∀ e, status pm = Inactive e → status pm' = Inactive e) ∧
    (bond_withdrawn pm = true → bond_withdrawn pm' = true).
Proof.
  intros Hstep Hi Hp. step_cases Hstep; simpl; try by exists pm.
  - destruct (decide (provider_id = p)) as [->|Hn].
    + rewrite lookup_insert_eq. eexists. split; [done|]. simplify_eq. simpl.
      split_and!; [done|congruence|done].
    + rewrite lookup_insert_ne by done. by exists pm.
  - destruct (decide (p0 = p)) as [->|Hn]; [congruence|].
    rewrite lookup_insert_ne by done. by exists pm.
  - destruct (decide (p0 = p)) as [->|Hn].
    + rewrite lookup_insert_eq. eexists. split; [done|]. simplify_eq. simpl.
      split_and!; [done|congruence|done].
    + rewrite lookup_insert_ne by done. by exists pm.
  - destruct (on_initialize_cases _ _ _ _ Hd Hi Hmax) as [->|(_ & -> & _)]; by exists pm.
  - rewrite handle_imbalance_run in Hd. injection Hd as <-. by exists pm.
Qed.

(** ** The stake histories *)

Lemma push_stake_elem l era v x :
  x ∈ push_stake l era v → x ∈ l ∨ es_era x = era.
Proof.
  unfold push_stake. destruct (last l) as [y|] eqn:Hl.
  - apply last_Some_snoc in Hl as [l' ->]. case_match.
    + rewrite set_last_snoc. intros [Hx|Hx%list_elem_of_singleton]%elem_of_app.
      * left. apply elem_of_app. by left.
      * subst. by right.
    + intros [Hx|Hx%list_elem_of_singleton]%elem_of_app; [by left|subst; by right].
  - intros ->%list_elem_of_singleton. by right.
Qed.

Lemma drop_leading_zero_elem l x : x ∈ Delegation.drop_leading_zero l → x ∈ l.
Proof.
  destruct l as [|y l]; [done|]. simpl.
  destruct (es_amount y =? 0); intros Hx; [by right|done].
Qed.

Lemma stake_elem d era v d' x :
  Delegation.stake d era v = Ok d' → x ∈ stakes d' → x ∈ stakes d ∨ es_era x = era.
Proof. intros (_ & z & -> & _)%stake_Ok. apply push_stake_elem. Qed.

Lemma unstake_elem d era v d' x :
  Delegation.unstake d era v = Ok d' → x ∈ stakes d' → x ∈ stakes d ∨ es_era x = era.
Proof.
  intros (_ & [(_ & ->)|(_ & ->)])%unstake_Ok; [by left|].
  intros Hx%drop_leading_zero_elem. by apply push_stake_elem in Hx.
Qed.

Lemma put_delegation_stakes (di : gmap (AccountId * ProviderId) Delegation) d p dl d' p' :
  stakes (default Delegation_default (put_delegation d p dl di !! (d', p'))) =
  if decide ((d, p) = (d', p')) then stakes dl
  else stakes (default Delegation_default (di !! (d', p'))).
Proof.
  unfold put_delegation, Delegation.is_empty. case_decide as Hk; simplify_eq.
  - destruct (stakes dl) eqn:Hs; [by rewrite lookup_delete_eq|].
    by rewrite lookup_insert_eq.
  - destruct (stakes dl); [by rewrite lookup_delete_ne|by rewrite lookup_insert_ne].
Qed.

(** A new entry of a history is of the current era, or later than a claimed one. *)
Lemma step_delegation s s' d p x :
  step s s' → inv s → x ∈ stakes (delegation_info s' d p) →
  x ∈ stakes (delegation_info s d p) ∨ es_era x = current (Era s) ∨
  ∃ y, y ∈ stakes (delegation_info s d p) ∧ es_era y < es_era x.
Proof.
  intros Hstep Hi. unfold delegation_info at 1.
  step_cases Hstep; simpl; try (by left); rewrite ?put_delegation_stakes.
  - case_decide as Hk; [|by left]. simplify_eq. intros Hx.
    destruct (stake_elem _ _ _ _ _ Hst Hx); auto.
  - case_decide as Hk; [|by left]. simplify_eq. intros Hx.
    destruct (unstake_elem _ _ _ _ _ Hst Hx); auto.
  - case_decide as Hk; [|by left]. simplify_eq. intros Hx.
    destruct (claim_delegation s d p era staked dl' Hi Hc Hpos Hera)
      as (_ & _ & _ & Hgt & (y & Hy & <-) & _).
    right; right. exists y. split; [done|by apply Hgt].
  - destruct (decide ((who, provider_id) = (d, p))) as [Hk|Hk].
    + rewrite Hk, lookup_delete_eq. intros Hx. by apply elem_of_nil in Hx.
    + rewrite lookup_delete_ne by done. by left.
  - destruct (on_initialize_cases _ _ _ _ Hd Hi Hmax) as [->|(_ & _ & _ & -> & _)];
      by left.
  - rewrite handle_imbalance_run in Hd. injection Hd as <-. by left.
Qed.

(** All entries of a history are later than a past era. *)
Definition only_after s (d : AccountId) (p : ProviderId) (e : Z) : Prop :=
  e < current (Era s) ∧ ∀ x, x ∈ stakes (delegation_info s d p) → e < es_era x.

Lemma step_only_after s s' d p e :
  step s s' → inv s → only_after s d p e → only_after s' d p e.
Proof.
  intros Hstep Hi [He Hx]. pose proof (step_era s s' Hstep Hi). split; [lia|].
  intros x Hin.
  destruct (step_delegation s s' d p x Hstep Hi Hin) as [?|[->|(y & Hy & Hlt)]];
    [by apply Hx|done|]. specialize (Hx y Hy). lia.
Qed.

Lemma steps_preserve (P : State → Prop) s s' :
  (∀ s s', step s s' → inv s → P s → P s') →
  rtc step s s' → inv s → P s → P s' ∧ inv s'.
Proof.
  intros Hstep. induction 1 as [|s s1 s' Hs _ IH]; [done|].
  intros Hi HP. apply IH; [by eapply step_inv|by eapply Hstep].
Qed.

(** C19: A delegator is paid at most once per era: after a claim that paid era
    [e], every later claim of the same delegator for the same provider, whatever
    happened in between (more stake, unstaking, withdrawal, re-delegation, era
    changes), pays an era after [e]. *)
Theorem delegator_claims_advance s0 s1 s2 s3 w p e r e' r' evs evs' :
  reachable s0 →
  claim_delegator (Signed w) p s0 = (Ok tt, s1) → events s1 = evs ++ [Payout w p e r] →
  supply_ok (ledger s1) → w ≠ account_id →
  rtc step s1 s2 →
  claim_delegator (Signed w) p s2 = (Ok tt, s3) → events s3 = evs' ++ [Payout w p e' r'] →
  e < e'.
Proof.
  intros Hi%reachable_inv Hc1 Hev1 Hsup Hw Hsteps Hc2 Hev2.
  assert (step s0 s1) as Hs1.
  { apply (step_call s0 s1 (claim_delegator_call p) (Signed w)); try done.
    intros [= ->]. done. }
  assert (inv s1) as Hi1 by (by eapply step_inv).
  apply claim_delegator_Ok in Hc1
    as (? & era & staked & dl' & ? & ? & ? & ? & [= <-] & Hc & Hpos & _ & _ & Hera & _ & _ & Heq).
  assert (only_after s1 w p e) as Haft.
  { rewrite Heq in Hev1. simpl in Hev1. apply app_inj_tail in Hev1 as [_ [= <- <-]].
    destruct (claim_delegation s0 w p era staked dl' Hi Hc Hpos Hera)
      as (_ & _ & _ & Hgt & _).
    split; [by rewrite Heq|]. unfold delegation_info. rewrite Heq. simpl.
    rewrite put_delegation_stakes, decide_True by done. done. }
  destruct (steps_preserve (λ s, only_after s w p e) s1 s2) as [[_ Hgt] Hi2]; try done.
  { intros. by eapply step_only_after. }
  apply claim_delegator_Ok in Hc2
    as (? & era' & staked' & dl2 & ? & ? & ? & ? & [= <-] & Hc' & Hpos' & _ & _ & Hera' & _ & _ & ->).
  apply app_inj_tail in Hev2 as [_ [= <- <-]].
  destruct (claim_delegation s2 w p era' staked' dl2 Hi2 Hc' Hpos' Hera')
    as (_ & _ & _ & _ & (y & Hy & <-) & _).
  by apply Hgt.
Qed.

(** C20: A provider is paid at most once per era: once [claim_provider] has paid
    an era, it fails for that provider and era in every later state. *)
Theorem provider_claims_once s0 s1 s2 o p e o' :
  reachable s0 →
  claim_provider o p e s0 = (Ok tt, s1) → signer_ok o → supply_ok (ledger s1) →
  rtc step s1 s2 →
  is_ok (claim_provider o' p e s2).1 = false.
Proof.
  intros Hi%reachable_inv Hc Hsig Hsup Hsteps.
  assert (inv s1) as Hi1.
  { eapply step_inv; [|done]. by apply (step_call s0 s1 (claim_provider_call p e) o). }
  apply claim_provider_Ok in Hc as (? & ? & ? & ? & ? & _ & _ & _ & He & _ & _ & _ & _ & Heq).
  set (P s := e < current (Era s) ∧
    provider_reward_claimed (provider_era_info s p e) = true).
  destruct (steps_preserve P s1 s2) as [[_ Hcl] _]; [|exact Hsteps|done| |].
  - intros s s' Hstep Hinv [Hlt Hcl]. pose proof (step_era s s' Hstep Hinv).
    split; [lia|]. destruct (step_past_entry s s' p e Hstep Hinv Hlt) as [->| ->]; done.
  - subst s1. split; [done|]. unfold provider_era_info. simpl. by rewrite lookup_insert_eq.
  - destruct (claim_provider o' p e s2) as [[[]|err] s3] eqn:Hc; [|done].
    apply claim_provider_Ok in Hc as (? & ? & ? & ? & ? & _ & _ & _ & _ & Hn & _). congruence.
Qed.

(** ** Unregistration *)

(** C21: An unregistered provider gets its bond back exactly once: a successful
    [provider_withdraw_unregistered] moves the whole bond of the unregistration
    era from the owner's reserved to its free balance, and from then on the same
    call, [unregister_provider] and a new registration of the id all fail. *)
Theorem provider_bond_returned_once s0 s1 s2 o p pm e :
  reachable s0 → ProviderInfo s0 !! p = Some pm → status pm = Inactive e →
  provider_withdraw_unregistered o p s0 = (Ok tt, s1) → signer_ok o →
  supply_ok (ledger s1) → rtc step s1 s2 →
  let amount := bond (provider_era_info s0 p e) in
  free_balance (ledger s1) (owner pm) = free_balance (ledger s0) (owner pm) + amount ∧
  reserved_balance (ledger s1) (owner pm) = reserved_balance (ledger s0) (owner pm) - amount ∧
  (∀ o', is_ok (provider_withdraw_unregistered o' p s2).1 = false) ∧
  is_ok (unregister_provider p s2).1 = false ∧
  (∀ a b, is_ok (register_provider a p b s2).1 = false).
Proof.
  intros Hi%reachable_inv Hp Hin Hw Hsig Hsup Hsteps.
  assert (inv s1) as Hi1.
  { eapply step_inv; [|done].
    by apply (step_call s0 s1 (provider_withdraw_unregistered_call p) o). }
  apply provider_withdraw_unregistered_Ok in Hw
    as (who & pm' & e' & rest & l & _ & Hp' & Hbw & Hin' & _ & Hu & Heq).
  assert (pm' = pm) as -> by congruence. assert (e' = e) as -> by congruence.
  pose proof (held_bond_le s0 p pm Hi Hp) as Hh. unfold held_bond in Hh.
  rewrite Hin, Hbw in Hh. change (pei_at (ProviderEraInfo s0) p e) with
    (provider_era_info s0 p e) in Hh.
  pose proof (obligations_range s0 (owner pm) Hi) as Hob. unfold obligations in Hob.
  pose proof (delegated_by_nonneg _ _ _ (owner pm) (inv_delegations _ Hi)).
  pose proof (unbonding_info_ok s0 (owner pm) Hi) as [_ Hun].
  pose proof (unreserve_spec _ _ _ _ _ (proj1 Hh) Hu) as (_ & Hf & Hr & _).
  rewrite Z.min_l in Hf, Hr by lia.
  set (P s := ∃ pm, ProviderInfo s !! p = Some pm ∧ status pm = Inactive e ∧
    bond_withdrawn pm = true).
  destruct (steps_preserve P s1 s2) as [(pm2 & Hp2 & Hst2 & Hbw2) _]; [|exact Hsteps|done| |].
  { intros s s' Hs Hi' (pm2 & Hpm & Hst & Hbw').
    destruct (step_provider s s' p pm2 Hs Hi' Hpm) as (pm3 & ? & _ & ? & ?).
    exists pm3. eauto. }
  { rewrite Heq. eexists. split; [apply lookup_insert_eq|done]. }
  rewrite Heq. simpl. split; [by rewrite Hf|]. split; [by rewrite Hr|]. split_and!.
  - intros o'. destruct (provider_withdraw_unregistered o' p s2) as [[[]|] ?] eqn:Hr2; [|done].
    apply provider_withdraw_unregistered_Ok in Hr2 as (? & ? & ? & ? & ? & _ & ? & ? & _).
    congruence.
  - destruct (unregister_provider p s2) as [[[]|] ?] eqn:Hr2; [|done].
    apply unregister_provider_Ok in Hr2 as (? & ? & ? & _). congruence.
  - intros a b. destruct (register_provider a p b s2) as [[[]|] ?] eqn:Hr2; [|done].
    apply register_provider_Ok in Hr2 as (? & ? & _). congruence.
Qed.

(** ** Bounds *)

Lemma len_u32_small {A} (l : list A) :
  Z.of_nat (length l) <= u32_max → len_u32 l = Z.of_nat (length l).
Proof. intros. unfold len_u32. apply wrap_small. unfold u32_max in *. lia. Qed.

Lemma length_push_stake l era v : (length (push_stake l era v) <= S (length l))%nat.
Proof.
  unfold push_stake. destruct (last l) eqn:Hl; [|simpl; lia].
  case_match; [unfold set_last; rewrite length_insert; lia|].
  rewrite length_app. simpl. lia.
Qed.

Lemma length_drop_leading_zero l :
  (length (Delegation.drop_leading_zero l) <= length l)%nat.
Proof. destruct l as [|x l]; simpl; [lia|]. case_match; simpl; lia. Qed.

Lemma length_stake d era v d' :
  Delegation.stake d era v = Ok d' → (length (stakes d') <= S (length (stakes d)))%nat.
Proof. intros (_ & z & -> & _)%stake_Ok. apply length_push_stake. Qed.

Lemma length_unstake d era v d' :
  Delegation.unstake d era v = Ok d' → (length (stakes d') <= S (length (stakes d)))%nat.
Proof.
  intros (_ & [(_ & ->)|(_ & ->)])%unstake_Ok; [lia|]. simpl.
  etrans; [apply length_drop_leading_zero|apply length_push_stake].
Qed.

Lemma length_claim d :
  (length (stakes (Delegation.claim d).2) <= length (stakes d))%nat.
Proof.
  unfold Delegation.claim. destruct (stakes d) as [|x rest] eqn:Hd; simpl;
    [by rewrite Hd|].
  etrans; [apply length_drop_leading_zero|]. destruct rest as [|y rest]; simpl; [lia|].
  case_match; simpl; lia.
Qed.

Record bounded s : Prop := {
  bounded_stakes : ∀ d p,
    Z.of_nat (length (stakes (delegation_info s d p))) < MaxEraStakeValues;
  bounded_chunks : ∀ w,
    Z.of_nat (length (unlocking_chunks (unbonding_info s w))) <= MaxUnlockingChunks;
  bounded_delegators : ∀ p,
    delegators_of (DelegationInfo s) p <= MaxDelegatorsPerProvider + 1
}.

Lemma put_unbonding_chunks (ui : gmap AccountId UnbondingMetadata) w u w' :
  unlocking_chunks (default UnbondingMetadata_default (put_unbonding w u ui !! w')) =
  if decide (w = w') then unlocking_chunks u
  else unlocking_chunks (default UnbondingMetadata_default (ui !! w')).
Proof.
  unfold put_unbonding, Unbonding.is_empty. case_decide; subst.
  - destruct (unlocking_chunks u) eqn:Hs; [by rewrite lookup_delete_eq|].
    by rewrite lookup_insert_eq.
  - destruct (unlocking_chunks u); [by rewrite lookup_delete_ne|by rewrite lookup_insert_ne].
Qed.

(** A history or a queue that passed its length check is within its bound. *)
Lemma len_checked {A} (old new : list A) bound :
  (length new <= S (length old))%nat → Z.of_nat (length old) < u32_max →
  len_u32 new <= bound → Z.of_nat (length new) <= bound.
Proof. intros Hle Ho. rewrite len_u32_small by lia. done. Qed.

Lemma bounded_put_delegation s d p dl :
  Delegation.len dl < MaxEraStakeValues →
  (length (stakes dl) <= S (length (stakes (delegation_info s d p))))%nat →
  (∀ d p, Z.of_nat (length (stakes (delegation_info s d p))) < MaxEraStakeValues) →
  ∀ d' p', Z.of_nat (length (stakes (default Delegation_default
    (put_delegation d p dl (DelegationInfo s) !! (d', p'))))) < MaxEraStakeValues.
Proof.
  intros Hlen Hle Hb d' p'. rewrite put_delegation_stakes.
  case_decide; [|by apply (Hb d' p')].
  pose proof MaxEraStakeValues_range. pose proof (Hb d p).
  unfold Delegation.len in Hlen.
  pose proof (len_checked _ (stakes dl) (MaxEraStakeValues - 1) Hle). lia.
Qed.

Lemma bounded_put_unbonding s w u :
  Unbonding.len u <= MaxUnlockingChunks →
  (length (unlocking_chunks u) <= S (length (unlocking_chunks (unbonding_info s w))))%nat →
  (∀ w, Z.of_nat (length (unlocking_chunks (unbonding_info s w))) <= MaxUnlockingChunks) →
  ∀ w', Z.of_nat (length (unlocking_chunks (default UnbondingMetadata_default
    (put_unbonding w u (UnbondingInfo s) !! w')))) <= MaxUnlockingChunks.
Proof.
  intros Hlen Hle Hb w'. rewrite put_unbonding_chunks.
  case_decide; [|by apply (Hb w')].
  pose proof MaxUnlockingChunks_range. pose proof (Hb w).
  eapply len_checked; [done|lia|done].
Qed.

(** The number of delegators of [p] after [d]'s history became [dl]. *)
Lemma bounded_put_delegators s d p dl :
  inv s →
  (latest dl = 0 ∨ latest (delegation_info s d p) ≠ 0 ∨
   delegators_of (DelegationInfo s) p <= MaxDelegatorsPerProvider) →
  (∀ p, delegators_of (DelegationInfo s) p <= MaxDelegatorsPerProvider + 1) →
  ∀ p', delegators_of (put_delegation d p dl (DelegationInfo s)) p' <=
        MaxDelegatorsPerProvider + 1.
Proof.
  intros Hi Hor Hb p'. rewrite delegators_of_put. specialize (Hb p').
  fold (delegation_info s d p). case_decide; subst; [|lia].
  destruct (Z.eqb_spec (latest dl) 0), (Z.eqb_spec (latest (delegation_info s d p')) 0); lia.
Qed.

Lemma length_unbonding_add s w v era :
  inv s →
  let u := unbonding_info s w in
  (length (unlocking_chunks (Unbonding.add u (mkUnlockingChunk v era))) <=
   S (length (unlocking_chunks u)))%nat.
Proof.
  intros Hi u. destruct (unbonding_info_ok s w Hi) as [Hwf _]. fold u in Hwf.
  destruct (add_cases u (mkUnlockingChunk v era) Hwf)
    as [(l1 & c0 & l2 & -> & _ & ->)|(l1 & l2 & -> & _ & _ & ->)]; simpl;
    rewrite !length_app; simpl; lia.
Qed.

Lemma step_bounded s s' : step s s' → inv s → bounded s → bounded s'.
Proof.
  intros Hstep Hi Hb. pose proof Hb as [Hs Hq Hd'].
  step_cases Hstep; try exact Hb; (split; unfold delegation_info, unbonding_info; simpl);
    try solve [exact Hs | exact Hq | exact Hd'].
  - apply bounded_put_unbonding; [done|by apply length_unbonding_add|done].
  - apply bounded_put_delegation; [done|by eapply length_stake|done].
  - apply bounded_put_delegators; [done| |done]. right.
    apply is_active_Some in Hact as (pm & Hp & Ha).
    destruct (active_info s _ pm Hi Hp Ha) as (_ & _ & (_ & _ & <-) & _). tauto.
  - apply bounded_put_delegation; [done|by eapply length_unstake|done].
  - apply bounded_put_unbonding; [tauto|by apply length_unbonding_add|done].
  - apply bounded_put_delegators; [done| |done]. right. left. lia.
  - intros w. rewrite put_unbonding_chunks. case_decide; [|apply Hq]. subst.
    pose proof (partition_spec (unbonding_info s w) (current (Era s))) as Hp.
    destruct (Unbonding.partition _ _). simplify_eq. destruct Hp as (_ & _ & _ & _ & Hle).
    specialize (Hq w). lia.
  - intros d' p'. rewrite put_delegation_stakes. case_decide; [|apply Hs]. simplify_eq.
    pose proof (length_claim (delegation_info s d' p')) as Hle. rewrite Hc in Hle.
    specialize (Hs d' p'). simpl in *. lia.
  - destruct (claim_delegation s who provider_id era staked dl' Hi Hc Hpos Hera)
      as (_ & Hlat & _).
    apply bounded_put_delegators; [done| |done].
    destruct (decide (latest dl' = 0)); [by left|]. right. left. congruence.
  - intros d' p'. destruct (decide ((who, provider_id) = (d', p'))) as [Hk|Hk].
    + rewrite Hk, lookup_delete_eq. simpl. pose proof MaxEraStakeValues_range. lia.
    + rewrite lookup_delete_ne by done. apply Hs.
  - apply (bounded_put_delegators s who provider_id Delegation_default); [done|by left|done].
  - destruct (on_initialize_cases _ _ _ _ Hd Hi Hmax) as [->|(_ & _ & _ & -> & _)]; apply Hs.
  - destruct (on_initialize_cases _ _ _ _ Hd Hi Hmax) as [->|(_ & _ & _ & _ & ->)]; apply Hq.
  - destruct (on_initialize_cases _ _ _ _ Hd Hi Hmax) as [->|(_ & _ & _ & -> & _)]; apply Hd'.
  - rewrite handle_imbalance_run in Hd. injection Hd as <-. apply Hs.
  - rewrite handle_imbalance_run in Hd. injection Hd as <-. apply Hq.
  - rewrite handle_imbalance_run in Hd. injection Hd as <-. apply Hd'.
Qed.

Lemma reachable_bounded s : reachable s → bounded s.
Proof.
  intros (s0 & Hg & Hsteps).
  apply (steps_preserve bounded s0 s step_bounded Hsteps (genesis_inv _ Hg)).
  destruct Hg. split; unfold delegation_info, unbonding_info, delegators_of.
  - intros d p. rewrite genesis_delegations, lookup_empty. simpl.
    pose proof MaxEraStakeValues_range. lia.
  - intros w. rewrite genesis_unbonding, lookup_empty. apply MaxUnlockingChunks_range.
  - intros p. rewrite genesis_delegations, msum_empty.
    pose proof MaxDelegatorsPerProvider_range. lia.
Qed.

(** C24: In every reachable state a stake history has fewer than
    [MaxEraStakeValues] entries, an unbonding queue at most
    [MaxUnlockingChunks] chunks, and a provider at most
    [MaxDelegatorsPerProvider + 1] delegators (one more than the constant:
    [delegate] compares the count before adding with [<=]). *)
Theorem storage_bounded s :
  reachable s →
  (∀ d p, Z.of_nat (length (stakes (delegation_info s d p))) < MaxEraStakeValues) ∧
  (∀ w, Z.of_nat (length (unlocking_chunks (unbonding_info s w))) <= MaxUnlockingChunks) ∧
  (∀ p, delegators_of (DelegationInfo s) p <= MaxDelegatorsPerProvider + 1).
Proof. by intros []%reachable_bounded. Qed.

End history.

(** ** The theorems at concrete states *)

(** A delegator with stake in the eras 2 and 3, in era 4. *)
Definition claims_scenario : list Action :=
  [to_era 1; ARegister 1 50 1000; AReward 500; to_era 2;
   ACall (Signed 2) (delegate_call 50 1000); AReward 700; to_era 3; AReward 900; to_era 4].
Definition claims0 : MockState := after claims_scenario.
Definition claims1 : MockState := (claim_delegator (Signed 2) 50 claims0).2.
Definition claims2 : MockState := (claim_delegator (Signed 2) 50 claims1).2.
Definition claims3 : MockState := (claim_provider (Signed 1) 50 3 claims0).2.

Lemma claims0_reachable : reachable claims0.
Proof. apply after_reachable; vm_compute; reflexivity. Qed.

Lemma delegator_claims_advance_witness :
  last (events claims1) = Some (Payout 2 50 2 140) ∧
  last (events claims2) = Some (Payout 2 50 3 180) ∧ 2 < 3.
Proof.
  split; [reflexivity|]. split; [reflexivity|].
  refine (delegator_claims_advance claims0 claims1 claims1 claims2 2 50 2 140 3 180
    (events claims0) (events claims1) claims0_reachable _ _ _ _ _ _ _).
  - reflexivity.
  - reflexivity.
  - apply supply_check. reflexivity.
  - discriminate.
  - apply rtc_refl.
  - reflexivity.
  - reflexivity.
Defined.

Lemma provider_claims_once_witness :
  last (events claims3) = Some (Payout 1 50 3 720) ∧
  is_ok (claim_provider (Signed 4) 50 3 (claim_delegator (Signed 2) 50 claims3).2).1 = false.
Proof.
  split; [reflexivity|].
  refine (provider_claims_once claims0 claims3 (claim_delegator (Signed 2) 50 claims3).2
    (Signed 1) 50 3 (Signed 4) claims0_reachable _ _ _ _).
  - reflexivity.
  - discriminate.
  - apply supply_check. reflexivity.
  - apply rtc_once, (action_step (ACall (Signed 2) (claim_delegator_call 50)));
      reflexivity.
Defined.

(** A provider that unregistered in era 2, in era 5. *)
Definition gone_scenario : list Action :=
  [to_era 1; ARegister 1 50 1000; to_era 2; AUnregister 50; to_era 3; to_era 4; to_era 5].
Definition gone0 : MockState := after gone_scenario.
Definition gone1 : MockState := (provider_withdraw_unregistered (Signed 7) 50 gone0).2.

Lemma provider_bond_returned_once_witness :
  free_balance (ledger gone1) 1 = free_balance (ledger gone0) 1 + 1000 ∧
  is_ok (unregister_provider 50 gone1).1 = false.
Proof.
  destruct (provider_bond_returned_once gone0 gone1 gone1 (Signed 7) 50
    (mkProviderMetadata 1 (Inactive 2) false) 2) as (Hf & _ & _ & Hu & _).
  - apply after_reachable; vm_compute; reflexivity.
  - reflexivity.
  - reflexivity.
  - reflexivity.
  - discriminate.
  - apply supply_check. reflexivity.
  - apply rtc_refl.
  - split; [exact Hf|exact Hu].
Defined.

Lemma storage_bounded_witness :
  stakes (delegation_info claims0 2 50) = [mkEraStake 1000 2] ∧
  Z.of_nat (length (stakes (delegation_info claims0 2 50))) < 8.
Proof.
  split; [reflexivity|]. apply (proj1 (storage_bounded claims0 claims0_reachable)).
Defined.
