(* ===== verification/StakingClock.v ===== *)
(** * The era clock against the block number

    When the blocks come one after the other and root leaves the length alone,
    the era is a function of the block number, whatever else happens in the
    blocks. *)

From S2P Require Export StakingHistory.
Import DapiStakingError.

Section clock.
Context {AccountId : Type} `{Countable AccountId}.
Context {ProviderId : Type} `{Countable ProviderId}.
Context {Imb L : Type} `{!Currency AccountId Imb L} `{!CurrencyLaws AccountId Imb L}.
Context `{!PerbillOps} `{!PerbillLaws} `{!DbWeightOps} `{!StakingConfig AccountId}.
Context `{!StakingConfigLaws AccountId}.

Abbreviation State := (State AccountId ProviderId L).
Implicit Types s : State.

(** A step inside a block that leaves the clock alone. *)
Definition quiet_step s s' : Prop := step s s' ∧ Era s' = Era s.

(** Only the hook and root's [set_blocks_per_era] move the clock. *)
Lemma clock_moves s s' :
  step s s' →
  quiet_step s s' ∨ (∃ n w, on_initialize n s = (Ok w, s')) ∨
  (∃ new, set_blocks_per_era Root new s = (Ok tt, s')).
Proof.
  intros Hstep. pose proof Hstep as Hany. unfold quiet_step.
  step_cases Hstep; try (by left); [|right; left; by eauto|].
  - right. right. exists new. subst origin. unfold set_blocks_per_era.
    do 2 (erewrite bind_run_Ok by reflexivity).
    rewrite (bind_run_Ok _ _ _ tt s); [done|]. apply ensure_Ok. split; [lia|done].
  - left. rewrite handle_imbalance_run in Hd. by injection Hd as <-.
Qed.

(** Consecutive blocks: the hook of block [n + 1], then any quiet steps. *)
Inductive blocks (n : Z) s : Z → State → Prop :=
| blocks_none : blocks n s n s
| blocks_next m s1 w s2 s3 :
    blocks n s m s1 → on_initialize (m + 1) s1 = (Ok w, s2) → rtc quiet_step s2 s3 →
    blocks n s (m + 1) s3.

Lemma blocks_le n s m s' : blocks n s m s' → n <= m.
Proof. induction 1; lia. Qed.

Lemma quiet_steps_clock s s' : rtc quiet_step s s' → Era s' = Era s.
Proof. induction 1 as [|s s1 s' [_ Hq] _ IH]; [done|]. by rewrite IH. Qed.

(** The hook never fails. *)
Lemma on_initialize_total n s : ∃ w, on_initialize n s = (Ok w, (on_initialize n s).2).
Proof.
  destruct (EraInfo.should_update (Era s) n) eqn:Hn.
  - destruct (on_initialize_new_era n s Hn) as [w ->]. by exists w.
  - rewrite on_initialize_idle by done. by eexists.
Qed.

(** The clock after the hook. *)
Lemma on_initialize_clock n s :
  (on_initialize n s).2.(Era) =
  if EraInfo.should_update (Era s) n then next_clock (Era s) n else Era s.
Proof.
  destruct (EraInfo.should_update (Era s) n) eqn:Hn.
  - destruct (on_initialize_new_era n s Hn) as [w ->]. done.
  - by rewrite on_initialize_idle.
Qed.

(** The clock that block [m] must show, when era 1 starts in block [first] and
    every era has [len] blocks. *)
Definition scheduled (first len m : Z) : EraInfo :=
  let k := (m - first) / len in mkEraInfo (1 + k) (first + len * k) len.

Lemma scheduled_next first len m :
  0 < len → 1 <= first → first <= m → m < u32_max →
  let e := scheduled first len m in
  (if EraInfo.should_update e (m + 1) then next_clock e (m + 1) else e) =
  scheduled first len (m + 1).
Proof.
  intros Hlen Hf Hm Hmax e. set (k := (m - first) / len).
  pose proof (Z.div_mod (m - first) len ltac:(lia)) as Hdiv.
  pose proof (Z.mod_pos_bound (m - first) len Hlen) as Hmod.
  assert (0 <= k) as Hk by (apply Z.div_pos; lia).
  fold k in Hdiv. set (r := (m - first) mod len) in *.
  assert (k <= m - first ∧ 0 <= len * k) as [Hkm Hlk] by nia.
  unfold EraInfo.should_update, next_clock, e, scheduled. fold k. cbn [current first_block length_].
  rewrite u32_sub_small by lia.
  destruct (Z.eqb_spec (1 + k) 0) as [?|_]; [lia|]. rewrite orb_false_r.
  rewrite sat_add_small by lia.
  replace (m + 1 - (first + len * k)) with (r + 1) by lia.
  replace (m + 1 - first) with (len * k + (r + 1)) by lia.
  destruct (Z.leb_spec len (r + 1)) as [Hnew|Hold].
  - assert (r + 1 = len) as -> by lia.
    replace (len * k + len) with ((k + 1) * len) by lia. rewrite Z.div_mul by lia.
    f_equal; lia.
  - assert ((len * k + (r + 1)) / len = k) as ->; [|done].
    rewrite Z.mul_comm, Z.div_add_l by lia. rewrite (Z.div_small (r + 1)); lia.
Qed.

(** C11: The era is a function of the block number: from genesis, when the blocks
    come one after the other and root does not change the length, at every block
    [m >= 1], and whatever calls, registrations, rewards and ledger moves the
    blocks contain, the running era is [1 + (m - 1) / DefaultBlocksPerEra], it
    started at the block where it must, and no era is skipped or prolonged. *)
Theorem era_schedule s m s' :
  genesis s → blocks 0 s m s' → 1 <= m <= u32_max → 0 < DefaultBlocksPerEra →
  let k := (m - 1) / DefaultBlocksPerEra in
  Era s' = mkEraInfo (1 + k) (1 + DefaultBlocksPerEra * k) DefaultBlocksPerEra.
Proof.
  intros Hg Hb Hm Hlen. change (Era s' = scheduled 1 DefaultBlocksPerEra m).
  induction Hb as [|m s1 w s2 s3 Hb IH Hr Hq]; [lia|].
  rewrite (quiet_steps_clock _ _ Hq). apply (f_equal snd) in Hr. simpl in Hr. subst s2.
  rewrite on_initialize_clock. pose proof (blocks_le _ _ _ _ Hb).
  destruct (Z.eq_dec m 0) as [->|Hne].
  - inversion Hb; [subst|pose proof (blocks_le _ _ _ _ ltac:(eassumption)); lia].
    unfold EraInfo.should_update, next_clock, scheduled. rewrite (genesis_era _ Hg). simpl.
    rewrite orb_true_r, Z.div_0_l by lia. simpl. f_equal; lia.
  - rewrite IH by lia. apply scheduled_next; lia.
Qed.

End clock.

(** ** Seven blocks

    A provider registers in block 1 and a delegator joins in block 5; an era has
    three blocks. *)

Fixpoint run_quiet (l : list Action) (s : MockState) : option MockState :=
  match l with
  | [] => Some s
  | a :: l' =>
      match act a s with
      | (Ok _, s') =>
          if action_ok a s s' && bool_decide (Era s' = Era s) then run_quiet l' s' else None
      | (Err _, _) => None
      end
  end.

Fixpoint run_blocks (m : Z) (l : list (list Action)) (s : MockState) : option MockState :=
  match l with
  | [] => Some s
  | b :: l' => run_quiet b (on_initialize (m + 1) s).2 ≫= run_blocks (m + 1) l'
  end.

Lemma run_quiet_steps l s s' : run_quiet l s = Some s' → rtc quiet_step s s'.
Proof.
  revert s. induction l as [|a l IH]; simpl; intros s Hr; [by simplify_eq|].
  destruct (act a s) as [[[]|] s1] eqn:Ha; [|done].
  destruct (action_ok a s s1 && _) eqn:Hc; [|done].
  apply andb_true_iff in Hc as [Hok Hera%bool_decide_eq_true].
  eapply rtc_l; [|by apply IH]. split; [exact (action_step a s s1 Ha Hok)|done].
Qed.

Lemma run_blocks_blocks n s m l s1 s' :
  blocks n s m s1 → run_blocks m l s1 = Some s' → blocks n s (m + Z.of_nat (length l)) s'.
Proof.
  revert m s1. induction l as [|b l IH]; simpl; intros m s1 Hb Hr.
  { simplify_eq. by rewrite Z.add_0_r. }
  apply bind_Some in Hr as (s2 & Hq & Hr). rewrite Nat2Z.inj_succ.
  replace (m + Z.succ (Z.of_nat (length l))) with (m + 1 + Z.of_nat (length l)) by lia.
  apply (IH (m + 1) s2); [|done].
  destruct (on_initialize_total (m + 1) s1) as [w Hw].
  apply (blocks_next n s m s1 w (on_initialize (m + 1) s1).2); [done|done|].
  by apply run_quiet_steps in Hq.
Qed.

Definition seven_blocks : list (list Action) :=
  [[ARegister 1 50 1000]; []; []; []; [ACall (Signed 2) (delegate_call 50 300)]; [AReward 9]; []].
Definition block_7 : MockState := default mock_genesis (run_blocks 0 seven_blocks mock_genesis).

Lemma block_7_reached : blocks 0 mock_genesis 7 block_7.
Proof.
  assert ((if run_blocks 0 seven_blocks mock_genesis is Some _ then true else false) = true)
    as Hr by (vm_compute; reflexivity).
  unfold block_7. destruct (run_blocks 0 seven_blocks mock_genesis) as [s|] eqn:Hs; [|done].
  apply (run_blocks_blocks 0 mock_genesis 0 seven_blocks mock_genesis s); [constructor|done].
Qed.

Lemma era_schedule_witness :
  is_active_provider block_7 50 = true ∧ Era block_7 = mkEraInfo 3 7 3.
Proof.
  split; [vm_compute; reflexivity|].
  refine (era_schedule mock_genesis 7 block_7 mock_genesis_ok block_7_reached _ _);
    vm_compute; split; done.
Defined.
