(* ===== verification/StakingSpec.v ===== *)
(** * An abstract specification of the staking pallet

    What the pallet promises, without histories, eras' entries, caches, counters
    or storage keys: a book of positions.  A provider has a bond, a delegator has
    a stake per provider, an account has amounts that unlock in given eras; ten
    moves change the book.  Every step of the pallet is one of these moves or
    none, so what holds of the book holds of the pallet. *)

From S2P Require Export StakingReach StakingHistory.
Import DapiStakingError.

(** ** The book and its moves *)

Section spec.
Context {AccountId : Type} `{Countable AccountId}.
Context {ProviderId : Type} `{Countable ProviderId}.
Context `{!PerbillOps} `{!StakingConfig AccountId}.

(** An account's bond for a provider; it is open until the provider leaves. *)
Record Bond : Type := mkBond {
  bond_owner : AccountId;
  bond_open : bool;
  bond_held : Z
}.

Record Positions : Type := mkPositions {
  now : Z;
  bonds : ProviderId → option Bond;
  stake_of : AccountId → ProviderId → Z;
  (** the amount of an account that unlocks in an era *)
  queue : AccountId → Z → Z
}.
Implicit Types b : Positions.

Definition positions_eq b b' : Prop :=
  now b = now b' ∧ (∀ p, bonds b p = bonds b' p) ∧
  (∀ w p, stake_of b w p = stake_of b' w p) ∧ ∀ w e, queue b w e = queue b' w e.

#[export] Instance positions_equivalence : Equivalence positions_eq.
Proof.
  split; [by intros b|intros b b' (? & ? & ? & ?)|intros b1 b2 b3 (? & ? & ? & ?) (? & ? & ? & ?)];
    (split; [|split; [|split]]); intros; congruence.
Qed.

Definition set_bond (p : ProviderId) (x : Bond) b : Positions :=
  mkPositions (now b) (λ p', if decide (p = p') then Some x else bonds b p') (stake_of b) (queue b).
Definition set_stake (w : AccountId) (p : ProviderId) (v : Z) b : Positions :=
  mkPositions (now b) (bonds b)
    (λ w' p', if decide ((w, p) = (w', p')) then v else stake_of b w' p') (queue b).
(** [v] unlocks when the unbonding period is over. *)
Definition lock (w : AccountId) (v : Z) b : Positions :=
  mkPositions (now b) (bonds b) (stake_of b)
    (λ w' e, queue b w' e +
       if decide (w = w' ∧ u32_add (now b) UnbondingPeriod = e) then v else 0).
(** Everything due leaves the queue. *)
Definition release (w : AccountId) b : Positions :=
  mkPositions (now b) (bonds b) (stake_of b)
    (λ w' e, if decide (w = w' ∧ e <= now b) then 0 else queue b w' e).

Definition is_open (p : ProviderId) b : Prop :=
  ∃ x, bonds b p = Some x ∧ bond_open x = true.
Definition is_closed (p : ProviderId) b : Prop :=
  ∃ x, bonds b p = Some x ∧ bond_open x = false.

(** The moves, with what was asked for. *)
Inductive Move : Type :=
| Register (p : ProviderId) (owner : AccountId) (v : Z)
| Close (p : ProviderId)
| BondMore (p : ProviderId) (v : Z)
| BondLess (p : ProviderId) (v : Z)
| TakeBond (p : ProviderId)
| Stake (w : AccountId) (p : ProviderId) (v : Z)
| Unstake (w : AccountId) (p : ProviderId) (v : Z)
| TakeStake (w : AccountId) (p : ProviderId)
| Release (w : AccountId)
| NextEra.

(** What an unstake takes out: all of it when less than the minimum would
    remain. *)
Definition taken_out (staked v : Z) : Z := if staked - v <? MinDelegatorStake then staked else v.

Inductive spec_move b : Move → Positions → Prop :=
| move_register p owner v :
    bonds b p = None → MinProviderStake <= v →
    spec_move b (Register p owner v) (set_bond p (mkBond owner true v) b)
| move_close p x :
    bonds b p = Some x → bond_open x = true →
    spec_move b (Close p) (set_bond p (mkBond (bond_owner x) false (bond_held x)) b)
| move_bond_more p x v :
    bonds b p = Some x → bond_open x = true → 0 < v →
    spec_move b (BondMore p v) (set_bond p (mkBond (bond_owner x) true (bond_held x + v)) b)
| move_bond_less p x v :
    bonds b p = Some x → bond_open x = true → 0 < v → MinProviderStake <= bond_held x - v →
    spec_move b (BondLess p v)
      (lock (bond_owner x) v (set_bond p (mkBond (bond_owner x) true (bond_held x - v)) b))
| move_take_bond p x :
    bonds b p = Some x → bond_open x = false →
    spec_move b (TakeBond p) (set_bond p (mkBond (bond_owner x) false 0) b)
| move_stake w p v :
    is_open p b → 0 < v → MinDelegatorStake <= stake_of b w p + v →
    spec_move b (Stake w p v) (set_stake w p (stake_of b w p + v) b)
| move_unstake w p v :
    is_open p b → 0 < v → 0 < stake_of b w p →
    let out := taken_out (stake_of b w p) v in
    spec_move b (Unstake w p v) (lock w out (set_stake w p (stake_of b w p - out) b))
| move_take_stake w p :
    is_closed p b → 0 < stake_of b w p → spec_move b (TakeStake w p) (set_stake w p 0 b)
| move_release w : spec_move b (Release w) (release w b)
| move_era :
    spec_move b NextEra (mkPositions (now b + 1) (bonds b) (stake_of b) (queue b)).

(** The given move, or none, up to the equality of books. *)
Definition spec_step (m : option Move) b b' : Prop :=
  match m with
  | None => positions_eq b' b
  | Some m => ∃ b1, spec_move b m b1 ∧ positions_eq b' b1
  end.
Definition any_step b b' : Prop := ∃ m, spec_step m b b'.

(** ** What holds of the book *)

Lemma taken_out_pos staked v : 0 < staked → 0 < v → 0 < taken_out staked v.
Proof. unfold taken_out. by case_match. Qed.

(** Nothing that is not yet due leaves the queue. *)
Lemma spec_keeps_queue b b' w e :
  any_step b b' → now b < e → queue b w e <= queue b' w e.
Proof.
  intros [[m|] Hm] He; simpl in Hm; last first.
  { destruct Hm as (_ & _ & _ & ->). lia. }
  destruct Hm as (b1 & Hm & (_ & _ & _ & ->)).
  destruct Hm as [| | | | | |w' p v _ Hv Hst out| | |]; simpl;
    try pose proof (taken_out_pos _ _ Hst Hv : 0 < out); repeat case_decide; lia.
Qed.

(** A stake shrinks into the queue, by exactly what it loses, or it is taken
    whole from a provider that has left. *)
Lemma spec_stake_shrinks b b' w p :
  any_step b b' → stake_of b' w p < stake_of b w p →
  (let due := u32_add (now b) UnbondingPeriod in
   queue b' w due - queue b w due = stake_of b w p - stake_of b' w p ∧
   (stake_of b' w p = 0 ∨ MinDelegatorStake <= stake_of b' w p)) ∨
  is_closed p b ∧ stake_of b' w p = 0.
Proof.
  intros [[m|] Hm] Hlt; simpl in Hm; last first.
  { destruct Hm as (_ & _ & Heq & _). rewrite Heq in Hlt. lia. }
  destruct Hm as (b1 & Hm & (_ & _ & Heq & Hq)). rewrite Heq in *.
  destruct Hm as [| | | | |w' p' v|w' p' v Ho Hv Hpos out|w' p' Hc Hp| |]; simpl in *; try lia;
    (destruct (decide ((w', p') = (w, p))) as [[= -> ->]|]; [|lia]); [lia| |right; by split].
  left. rewrite Hq. simpl. rewrite decide_True by done. split; [lia|].
  unfold out, taken_out. destruct (Z.ltb_spec (stake_of b w p - v) MinDelegatorStake); lia.
Qed.

End spec.
Arguments Bond AccountId : clear implicits.
Arguments Positions AccountId ProviderId : clear implicits.
Arguments Move AccountId ProviderId : clear implicits.

(** ** The book of a state *)

Section refinement.
Context {AccountId : Type} `{Countable AccountId}.
Context {ProviderId : Type} `{Countable ProviderId}.
Context {Imb L : Type} `{!Currency AccountId Imb L} `{!CurrencyLaws AccountId Imb L}.
Context `{!PerbillOps} `{!PerbillLaws} `{!DbWeightOps} `{!StakingConfig AccountId}.
Context `{!StakingConfigLaws AccountId}.

Abbreviation State := (State AccountId ProviderId L).
Implicit Types s : State.

Definition bond_at (cur : Z) (pei : gmap (ProviderId * Z) ProviderEraMetadata)
    (pis : gmap ProviderId (ProviderMetadata AccountId)) (p : ProviderId) :
    option (Bond AccountId) :=
  (λ pm, mkBond (owner pm) (bool_decide (status pm = Active)) (held_bond cur pei p pm)) <$> pis !! p.

Definition positions s : Positions AccountId ProviderId :=
  mkPositions (current (Era s))
    (bond_at (current (Era s)) (ProviderEraInfo s) (ProviderInfo s))
    (λ w p, latest (delegation_info s w p))
    (λ w, unlocking_at (unbonding_info s w)).

(** The book does not see the clock's length, the eras' metadata, the rewards,
    the ledger and the events. *)
Lemma positions_same s s' :
  current (Era s') = current (Era s) → ProviderInfo s' = ProviderInfo s →
  ProviderEraInfo s' = ProviderEraInfo s → DelegationInfo s' = DelegationInfo s →
  UnbondingInfo s' = UnbondingInfo s → positions_eq (positions s') (positions s).
Proof.
  unfold positions, delegation_info, unbonding_info. by intros -> -> -> -> ->.
Qed.

Lemma put_delegation_latest (w w' : AccountId) (p p' : ProviderId) (dl : Delegation) di :
  latest (default Delegation_default (put_delegation w p dl di !! (w', p'))) =
  if decide ((w, p) = (w', p')) then latest dl
  else latest (default Delegation_default (di !! (w', p'))).
Proof.
  unfold put_delegation. destruct (Delegation.is_empty dl) eqn:He; case_decide as Hd.
  - rewrite <-Hd, lookup_delete_eq. by rewrite (latest_empty dl).
  - by rewrite lookup_delete_ne.
  - by rewrite <-Hd, lookup_insert_eq.
  - by rewrite lookup_insert_ne.
Qed.

Lemma put_unbonding_at (w w' : AccountId) (u : UnbondingMetadata) ui e :
  unlocking_at (default UnbondingMetadata_default (put_unbonding w u ui !! w')) e =
  if decide (w = w') then unlocking_at u e
  else unlocking_at (default UnbondingMetadata_default (ui !! w')) e.
Proof.
  unfold put_unbonding. case_decide; subst.
  - destruct (Unbonding.is_empty u) eqn:He.
    + rewrite lookup_delete_eq. unfold Unbonding.is_empty in He. by destruct u as [[|]].
    + by rewrite lookup_insert_eq.
  - case_match; [by rewrite lookup_delete_ne|by rewrite lookup_insert_ne].
Qed.

(** Rewriting the current entry of an active provider. *)
Lemma bond_at_insert cur pei pis p pm i p' :
  pis !! p = Some pm → status pm = Active →
  bond_at cur (<[(p, cur):=i]> pei) pis p' =
  if decide (p = p') then Some (mkBond (owner pm) true (bond i)) else bond_at cur pei pis p'.
Proof.
  intros Hp Ha. unfold bond_at. case_decide as Hd.
  - subst p'. rewrite Hp. simpl. unfold held_bond. rewrite Ha, pei_at_insert.
    by rewrite bool_decide_true.
  - destruct (pis !! p') as [pm'|]; [|done]. simpl. unfold held_bond.
    by destruct (status pm'); rewrite pei_at_insert_ne by congruence.
Qed.

(** Rewriting the registration of a provider. *)
Lemma bond_at_put cur pei pis p pm p' :
  bond_at cur pei (<[p:=pm]> pis) p' =
  if decide (p = p')
  then Some (mkBond (owner pm) (bool_decide (status pm = Active)) (held_bond cur pei p pm))
  else bond_at cur pei pis p'.
Proof.
  unfold bond_at. case_decide as Hd; [subst|]; [by rewrite lookup_insert_eq|].
  by rewrite lookup_insert_ne.
Qed.

Lemma bond_at_active s p pm :
  ProviderInfo s !! p = Some pm → status pm = Active →
  bonds (positions s) p =
    Some (mkBond (owner pm) true (bond (provider_era_info s p (current (Era s))))).
Proof.
  intros Hp Ha. simpl. unfold bond_at. rewrite Hp. simpl. unfold held_bond.
  by rewrite Ha, bool_decide_true.
Qed.

Lemma open_provider s p pm :
  ProviderInfo s !! p = Some pm → status pm = Active → is_open p (positions s).
Proof. intros Hp Ha. eexists. by rewrite (bond_at_active s p pm). Qed.

Lemma bond_at_inactive s p pm e :
  ProviderInfo s !! p = Some pm → status pm = Inactive e →
  ∃ v, bonds (positions s) p = Some (mkBond (owner pm) false v).
Proof.
  intros Hp Ha. simpl. unfold bond_at. rewrite Hp. simpl. rewrite Ha. eexists.
  by rewrite bool_decide_false.
Qed.

(** The queue after a new chunk. *)
Lemma queue_after_add s w v e :
  inv s → 0 <= v → unbonding_total (unbonding_info s w) + v <= u128_max →
  let era := u32_add (current (Era s)) UnbondingPeriod in
  unlocking_at (Unbonding.add (unbonding_info s w) (mkUnlockingChunk v era)) e =
  unlocking_at (unbonding_info s w) e + if decide (era = e) then v else 0.
Proof.
  intros Hi Hv Hle era. destruct (unbonding_info_ok s w Hi) as [Hwf Hnn].
  destruct (add_spec (unbonding_info s w) (mkUnlockingChunk v era)) as (_ & _ & -> & _);
    simpl; try done.
  - unfold is_u128. lia.
  - apply u32_add_range.
  - f_equal. destruct (Z.eqb_spec era e), (decide (era = e)); congruence.
Qed.

(** ** Every operation is a move *)

(** The move a call asks for; claims and the clock's length are none. *)
Definition call_move (origin : Origin AccountId) (c : StakingCall ProviderId) :
    option (Move AccountId ProviderId) :=
  match origin, c with
  | Signed w, provider_bond_more_call p v => Some (BondMore p v)
  | Signed w, provider_bond_less_call p v => Some (BondLess p v)
  | Signed w, delegate_call p v => Some (Stake w p v)
  | Signed w, delegator_unstake_call p v => Some (Unstake w p v)
  | Signed w, withdraw_unbonded_call => Some (Release w)
  | Signed w, provider_withdraw_unregistered_call p => Some (TakeBond p)
  | Signed w, delegator_withdraw_unregistered_call p => Some (TakeStake w p)
  | _, _ => None
  end.

(** What the pallet owes an account for its queue fits the balances. *)
Lemma queue_room s w v :
  inv s →
  v <= owned_bonds (current (Era s)) (ProviderEraInfo s) (ProviderInfo s) w +
       delegated_by (DelegationInfo s) w →
  unbonding_total (unbonding_info s w) + v <= u128_max.
Proof.
  intros Hi Hv. pose proof (obligations_range s w Hi) as Hob. unfold obligations in Hob.
  pose proof (reserved_range (ledger s) w). lia.
Qed.

(** The queues after an amount is locked. *)
Lemma queue_locked s w v w' e :
  inv s → 0 <= v →
  v <= owned_bonds (current (Era s)) (ProviderEraInfo s) (ProviderInfo s) w +
       delegated_by (DelegationInfo s) w →
  let era := u32_add (current (Era s)) UnbondingPeriod in
  let u := Unbonding.add (unbonding_info s w) (mkUnlockingChunk v era) in
  unlocking_at (default UnbondingMetadata_default (put_unbonding w u (UnbondingInfo s) !! w')) e =
  unlocking_at (unbonding_info s w') e + if decide (w = w' ∧ era = e) then v else 0.
Proof.
  intros Hi Hv Hroom era u. rewrite put_unbonding_at. case_decide as Hw; last first.
  { rewrite decide_False by naive_solver. unfold unbonding_info. lia. }
  subst w'. unfold u. rewrite queue_after_add by (done || by apply queue_room). fold era.
  f_equal. destruct (decide (era = e)); [by rewrite decide_True|].
  by rewrite decide_False by naive_solver.
Qed.

Lemma bond_more_spec origin p v s s' :
  provider_bond_more origin p v s = (Ok tt, s') → spec_step (call_move origin (provider_bond_more_call p v)) (positions s) (positions s').
Proof.
  intros (who & pm & l & -> & Hv & Hp & Ha & Hw & _ & _ & _ & ->)%provider_bond_more_Ok.
  eexists. split; [by eapply move_bond_more; [by apply bond_at_active| |exact Hv]|].
  split_and!; try done. intros p'. simpl. by rewrite (bond_at_insert _ _ _ _ pm).
Qed.

Lemma bond_less_spec origin p v s s' :
  provider_bond_less origin p v s = (Ok tt, s') → v + MinProviderStake <= u128_max →
  inv s → spec_step (call_move origin (provider_bond_less_call p v)) (positions s) (positions s').
Proof.
  intros (who & pm & -> & Hv & Hp & Ha & Hw & Hb & _ & ->)%provider_bond_less_Ok Hov Hi.
  pose proof MinProviderStake_nonneg. rewrite u128_add_small in Hb by lia.
  eexists.
  split; [eapply move_bond_less; [by apply bond_at_active|done|exact Hv|simpl; lia]|].
  split_and!; try done.
  - intros p'. simpl. rewrite (bond_at_insert _ _ _ _ pm) by done. simpl.
    by rewrite sat_sub_small by lia.
  - intros w e. subst who. apply queue_locked; [done|lia|].
    pose proof (held_bond_le s p pm Hi Hp) as Hh. unfold held_bond in Hh at 2. rewrite Ha in Hh.
    pose proof (delegated_by_nonneg _ _ _ (owner pm) (inv_delegations _ Hi)).
    unfold provider_era_info in Hb. unfold pei_at in Hh. lia.
Qed.

Lemma delegate_spec origin p v s s' :
  delegate origin p v s = (Ok tt, s') → inv s → spec_step (call_move origin (delegate_call p v)) (positions s) (positions s').
Proof.
  intros (who & dl' & l & -> & Hv & Hact & _ & Hst & _ & Hmin & _ & Hr & ->)%delegate_Ok Hi.
  apply is_active_Some in Hact as (pm & Hp & Ha).
  pose proof (delegation_info_ok _ _ _ who p (inv_delegations _ Hi)) as (Hwf & _ & Hl & _).
  fold (delegation_info s who p) in *.
  pose proof (reserve_Ok _ _ _ _ _ (Z.lt_le_incl _ _ Hv) Hr) as (_ & Hr' & _).
  pose proof (reserved_range l who). pose proof (obligations_range s who Hi) as Hob.
  unfold obligations in Hob. pose proof (owned_bonds_nonneg s who Hi).
  pose proof (unbonding_info_ok s who Hi) as [_ Hun].
  assert (is_u128 v) as Hv128 by (unfold is_u128; lia).
  pose proof (stake_spec _ _ _ _ Hwf (inv_era _ Hi) Hv128 Hst) as (_ & Hlat & _).
  rewrite sat_add_small in Hlat by lia. rewrite Hlat in Hmin.
  eexists.
  split; [apply (move_stake _ who p v); [by eapply open_provider|done|exact Hmin]|].
  split_and!; try done.
  - intros p'. simpl. rewrite (bond_at_insert _ _ _ _ pm) by done. simpl. case_decide as Hd; [|done].
    subst p'. by rewrite <-(bond_at_active s p pm Hp Ha).
  - intros w' p'. simpl. unfold delegation_info at 1. simpl. rewrite put_delegation_latest.
    by case_decide; rewrite ?Hlat.
Qed.

(** A delegation leaves the bond of its provider alone. *)
Lemma bond_at_delegation s p pm i p' :
  ProviderInfo s !! p = Some pm → status pm = Active →
  bond i = bond (provider_era_info s p (current (Era s))) →
  bond_at (current (Era s)) (<[(p, current (Era s)):=i]> (ProviderEraInfo s)) (ProviderInfo s) p' =
  bonds (positions s) p'.
Proof.
  intros Hp Ha Hb. rewrite (bond_at_insert _ _ _ _ pm), Hb by done. case_decide as Hd; [|done].
  subst p'. by rewrite (bond_at_active s p pm).
Qed.

Lemma plan_taken_out staked v n n' out :
  0 < staked → 0 < v → unstake_plan staked v n = (n', out) → taken_out staked v = out.
Proof.
  pose proof MinDelegatorStake_pos. unfold unstake_plan, taken_out, sat_sub. intros ??.
  destruct (Z.ltb_spec (Z.max (staked - v) 0) MinDelegatorStake),
    (Z.ltb_spec (staked - v) MinDelegatorStake); intros; simplify_eq; lia.
Qed.

Lemma unstake_spec_move origin p v s s' :
  delegator_unstake origin p v s = (Ok tt, s') → inv s → spec_step (call_move origin (delegator_unstake_call p v)) (positions s) (positions s').
Proof.
  intros (who & dl' & n & out & -> & Hv & Hact & Hpos & Hplan & Hout & Hst & _ & _ & ->)%delegator_unstake_Ok Hi.
  apply is_active_Some in Hact as (pm & Hp & Ha).
  pose proof (delegation_info_ok _ _ _ who p (inv_delegations _ Hi)) as (Hwf & _ & Hl & _).
  fold (delegation_info s who p) in *.
  pose proof (unstake_plan_spec _ _ _ _ _ Hpos Hv Hplan) as (Hle & Hcase).
  pose proof (unstake_spec _ _ _ _ Hwf (inv_era _ Hi) (Z.lt_le_incl _ _ Hout) Hst)
    as (_ & Hlat & _). rewrite sat_sub_small in Hlat by lia.
  eexists. split.
  { apply (move_unstake _ who p v); [by eapply open_provider|done|exact Hpos]. }
  simpl. rewrite (plan_taken_out _ _ _ _ _ Hpos Hv Hplan).
  split_and!; try done.
  - intros p'. by apply (bond_at_delegation s p pm).
  - intros w' p'. simpl. unfold delegation_info at 1. simpl. rewrite put_delegation_latest.
    by case_decide; rewrite ?Hlat.
  - intros w' e. apply queue_locked; [done|lia|].
    pose proof (owned_bonds_nonneg s who Hi). lia.
Qed.

Lemma withdraw_spec origin s s' :
  withdraw_unbonded origin s = (Ok tt, s') → spec_step (call_move origin (withdraw_unbonded_call)) (positions s) (positions s').
Proof.
  intros (who & valid & future & rest & l & -> & Hpart & _ & _ & ->)%withdraw_unbonded_Ok.
  pose proof (partition_spec (unbonding_info s who) (current (Era s))) as Hps.
  rewrite Hpart in Hps. destruct Hps as (_ & _ & _ & Hfut & _).
  eexists. split; [apply (move_release _ who)|]. split_and!; try done.
  intros w e. simpl. unfold unbonding_info at 1. simpl. rewrite put_unbonding_at, Hfut.
  case_decide as Hw; [subst w|by rewrite decide_False by naive_solver].
  destruct (Z.leb_spec e (current (Era s))); [by rewrite decide_True|].
  by rewrite decide_False by lia.
Qed.

Lemma claim_provider_spec origin p e s s' :
  claim_provider origin p e s = (Ok tt, s') → spec_step (call_move origin (claim_provider_call p e)) (positions s) (positions s').
Proof.
  intros (who & pm & es & i & l & -> & _ & _ & _ & _ & _ & _ & _ & ->)%claim_provider_Ok.
  split_and!; try done. intros p'. simpl. unfold bond_at.
  destruct (ProviderInfo s !! p') as [pm'|]; [|done]. simpl. do 2 f_equal.
  apply held_bond_claimed.
Qed.

Lemma claim_delegator_spec origin p s s' :
  claim_delegator origin p s = (Ok tt, s') → inv s → spec_step (call_move origin (claim_delegator_call p)) (positions s) (positions s').
Proof.
  intros (who & era & staked & dl' & pm & es & i & l & -> & Hc & Hst & _ & _ & He & _ & _ & ->)%claim_delegator_Ok Hi.
  destruct (claim_delegation s who p era staked dl' Hi Hc Hst He) as (_ & Hlat & _).
  split_and!; try done. intros w' p'. simpl. unfold delegation_info at 1. simpl.
  rewrite put_delegation_latest. case_decide as Hd; [|done]. by simplify_eq.
Qed.

Lemma take_bond_spec origin p s s' :
  provider_withdraw_unregistered origin p s = (Ok tt, s') →
  spec_step (call_move origin (provider_withdraw_unregistered_call p)) (positions s) (positions s').
Proof.
  intros (who & pm & e & rest & l & -> & Hp & _ & Hin & _ & _ & ->)%provider_withdraw_unregistered_Ok.
  destruct (bond_at_inactive s p pm e Hp Hin) as [v Hb].
  eexists. split; [by eapply move_take_bond; [exact Hb|]|]. split_and!; try done.
  intros p'. simpl. rewrite bond_at_put. by case_decide.
Qed.

Lemma take_stake_spec origin p s s' :
  delegator_withdraw_unregistered origin p s = (Ok tt, s') →
  spec_step (call_move origin (delegator_withdraw_unregistered_call p)) (positions s) (positions s').
Proof.
  intros (who & pm & e & rest & l & -> & Hp & Hin & _ & Hpos & _ & _ & ->)%delegator_withdraw_unregistered_Ok.
  destruct (bond_at_inactive s p pm e Hp Hin) as [v Hb].
  eexists. split; [apply (move_take_stake _ who p); [by eexists|exact Hpos]|].
  split_and!; try done. intros w' p'. simpl. unfold delegation_info at 1. simpl.
  case_decide as Hd; [injection Hd as <- <-; by rewrite lookup_delete_eq|].
  by rewrite lookup_delete_ne.
Qed.

Lemma register_spec a p v s s' :
  register_provider a p v s = (Ok tt, s') → spec_step (Some (Register p a v)) (positions s) (positions s').
Proof.
  intros (l & Hp & Hv & _ & ->)%register_provider_Ok.
  eexists. split; [apply (move_register _ p a v); [simpl; unfold bond_at; by rewrite Hp|done]|].
  split_and!; try done. intros p'. simpl. rewrite bond_at_put. case_decide as Hd.
  - unfold held_bond. simpl. by rewrite pei_at_insert.
  - unfold bond_at. destruct (ProviderInfo s !! p') as [pm'|]; [|done]. simpl. unfold held_bond.
    by destruct (status pm'); rewrite pei_at_insert_ne by congruence.
Qed.

Lemma close_spec p s s' :
  unregister_provider p s = (Ok tt, s') → inv s → spec_step (Some (Close p)) (positions s) (positions s').
Proof.
  intros (pm & Hp & Ha & ->)%unregister_provider_Ok Hi.
  pose proof (inv_providers _ Hi p pm Hp) as [_ Hok]. rewrite Ha in Hok. destruct Hok as (Hbw & _).
  eexists. split; [by eapply (move_close _ p); [by apply bond_at_active|]|].
  split_and!; try done. intros p'. simpl. rewrite bond_at_put. case_decide; [|done].
  unfold held_bond. simpl. by rewrite Hbw.
Qed.

Lemma era_spec n w s s' :
  on_initialize n s = (Ok w, s') → inv s → current (Era s) < u32_max →
  any_step (positions s) (positions s').
Proof.
  intros Hd Hi Hmax.
  destruct (on_initialize_outcome _ _ _ _ Hd Hi Hmax) as [->| ->]; [by exists None|].
  exists (Some NextEra), (mkPositions (current (Era s) + 1) (bonds (positions s))
    (stake_of (positions s)) (queue (positions s))).
  split; [apply move_era|]. split_and!; try done. intros p. simpl. unfold bond_at.
  destruct (ProviderInfo s !! p) as [pm|] eqn:Hp; [|done]. simpl. do 2 f_equal.
  by apply rotated_held_bond.
Qed.

Lemma dispatch_spec c origin s s' :
  dispatch c origin s = (Ok tt, s') → call_ok c → inv s →
  spec_step (call_move origin c) (positions s) (positions s').
Proof.
  intros Hd Hok Hi. destruct c; simpl in Hd.
  - by apply set_blocks_per_era_Ok in Hd as (-> & _ & ->).
  - by eapply bond_more_spec.
  - by eapply bond_less_spec.
  - by eapply delegate_spec.
  - by eapply unstake_spec_move.
  - by eapply withdraw_spec.
  - by eapply claim_provider_spec.
  - by eapply claim_delegator_spec.
  - by eapply take_bond_spec.
  - by eapply take_stake_spec.
Qed.

Lemma step_spec s s' : step s s' → inv s → any_step (positions s) (positions s').
Proof.
  intros [c origin Hd _ Hok _|a p v Hd _ _|p Hd|n w Hd Hmax|i Hd|l _ ->] Hi.
  - eexists. by eapply dispatch_spec.
  - eexists. by eapply register_spec.
  - eexists. by eapply close_spec.
  - by eapply era_spec.
  - rewrite handle_imbalance_run in Hd. injection Hd as <-. by exists None.
  - by exists None.
Qed.

(** The empty book. *)
Definition no_positions : Positions AccountId ProviderId :=
  mkPositions 0 (λ _, None) (λ _ _, 0) (λ _ _, 0).

Lemma genesis_positions s : genesis s → positions_eq (positions s) no_positions.
Proof.
  intros [He _ _ Hp _ Hd Hu _]. split_and!; simpl.
  - done.
  - intros p. unfold bond_at. by rewrite Hp, lookup_empty.
  - intros w p. unfold delegation_info. by rewrite Hd, lookup_empty.
  - intros w e. unfold unbonding_info. by rewrite Hu, lookup_empty.
Qed.

Lemma steps_spec s s' : rtc step s s' → inv s → rtc any_step (positions s) (positions s').
Proof.
  induction 1 as [|s s1 s' Hst _ IH]; intros Hi; [done|].
  eapply rtc_l; [by apply step_spec|]. apply IH. by eapply step_inv.
Qed.

(** C3: The staking pallet refines its abstract specification, the book of
    positions.  In every reachable state the book that the storage stands for
    (bonds, stakes and unlocking amounts, without histories, per-era entries and
    cached totals) has come from the empty book by the ten moves of the
    specification only, whatever calls, registrations, blocks, rewards and foreign
    ledger moves happened; and every successful call makes exactly the move it
    asks for, claims none. *)
Theorem staking_refines_book s :
  reachable s →
  rtc any_step no_positions (positions s) ∧
  ∀ c origin s', dispatch c origin s = (Ok tt, s') → call_ok c →
    spec_step (call_move origin c) (positions s) (positions s').
Proof.
  intros Hs. split; [|intros c origin s' Hd Hok; by apply dispatch_spec; [| |apply reachable_inv]].
  destruct Hs as (s0 & Hg & Hsteps).
  apply (rtc_l _ _ (positions s0)); [exists None; by apply genesis_positions|].
  by apply steps_spec; [|apply genesis_inv].
Qed.

(** C13: Nobody gets locked funds early and no stake evaporates, whatever happens:
    on every step from a reachable state the amounts that unlock in later eras do
    not shrink, for any account, and a stake that shrinks either goes into its
    owner's queue, to the unit, for the unbonding period (and what remains is
    nothing or at least the minimum), or is taken back whole from a provider that
    has left. *)
Theorem funds_stay_locked s s' w p e :
  reachable s → step s s' →
  (current (Era s) < e →
   unlocking_at (unbonding_info s w) e <= unlocking_at (unbonding_info s' w) e) ∧
  (latest (delegation_info s' w p) < latest (delegation_info s w p) →
   (let due := u32_add (current (Era s)) UnbondingPeriod in
    unlocking_at (unbonding_info s' w) due - unlocking_at (unbonding_info s w) due =
      latest (delegation_info s w p) - latest (delegation_info s' w p) ∧
    (latest (delegation_info s' w p) = 0 ∨
     MinDelegatorStake <= latest (delegation_info s' w p))) ∨
   is_closed p (positions s) ∧ latest (delegation_info s' w p) = 0).
Proof.
  intros Hi%reachable_inv Hstep. pose proof (step_spec s s' Hstep Hi) as Hsim. split.
  - intros He. exact (spec_keeps_queue _ _ w e Hsim He).
  - intros Hlt. exact (spec_stake_shrinks _ _ w p Hsim Hlt).
Qed.

End refinement.

(** ** A delegator takes out half of its stake *)

Definition half_unstaked : MockState :=
  (dispatch (delegator_unstake_call 50 500) (Signed 2) claims0).2.

Lemma half_unstaked_run :
  dispatch (delegator_unstake_call 50 500) (Signed 2) claims0 = (Ok tt, half_unstaked).
Proof. vm_compute. reflexivity. Qed.

Lemma staking_refines_book_witness :
  stake_of (positions claims0) 2 50 = 1000 ∧ stake_of (positions half_unstaked) 2 50 = 500 ∧
  rtc any_step no_positions (positions claims0) ∧
  spec_step (Some (Unstake 2 50 500)) (positions claims0) (positions half_unstaked).
Proof.
  split; [vm_compute; reflexivity|]. split; [vm_compute; reflexivity|].
  destruct (staking_refines_book claims0 claims0_reachable) as [Hrun Hcalls].
  split; [exact Hrun|].
  exact (Hcalls (delegator_unstake_call 50 500) (Signed 2) half_unstaked half_unstaked_run I).
Defined.

Lemma funds_stay_locked_witness :
  queue (positions half_unstaked) 2 7 - queue (positions claims0) 2 7 = 500.
Proof.
  assert (step claims0 half_unstaked) as Hstep.
  { apply (step_call _ _ (delegator_unstake_call 50 500) (Signed 2) half_unstaked_run);
      [done|done|]. apply supply_check. vm_compute. reflexivity. }
  destruct (funds_stay_locked claims0 half_unstaked 2 50 7 claims0_reachable Hstep) as [_ Hout].
  destruct Hout as [[Hq _]|[_ Hz]]; [vm_compute; reflexivity| |].
  - exact Hq.
  - vm_compute in Hz. discriminate.
Defined.
