(* ===== verification/StakingSolvency.v ===== *)
(** * The payouts of an era are covered by its rewards

    Whatever is paid for an era, to providers and to delegators and however late,
    adds up to the rewards of that era, except for the rounding of [Perbill]: at
    most one unit per provider and per delegator.  The proof follows what can
    still be claimed ([outstanding]): it is bounded when the era closes, and every
    claim takes from it at least what it pays. *)

From S2P Require Export StakingHistory.
Import DapiStakingError.

(** ** Rounded shares *)

Lemma msum_scale `{Countable K} {V} (c : Z) (f : K → V → Z) (m : gmap K V) :
  msum (λ k v, c * f k v) m = c * msum f m.
Proof.
  induction m as [|k v m Hk IH] using map_ind; [rewrite !msum_empty; lia|].
  rewrite !msum_insert_None by done. lia.
Qed.

Lemma msum_size `{Countable K} {V} (m : gmap K V) :
  msum (λ _ _, 1) m = Z.of_nat (size m).
Proof.
  induction m as [|k v m Hk IH] using map_ind; [by rewrite msum_empty, map_size_empty|].
  rewrite msum_insert_None, map_size_insert_None by done. lia.
Qed.

Section shares.
Context `{PerbillLaws}.

Lemma share_bound v q r :
  0 <= v → 0 < q → 0 <= r → q * pb_mul (pb_from_rational v q) r <= v * r + q.
Proof.
  intros Hv Hq Hr. pose proof (pb_mul_rounds (pb_from_rational v q) r Hr) as Hm.
  pose proof (pb_from_rational_floor v q Hv Hq) as Hf.
  set (part := pb_deconstruct _) in *. set (x := pb_mul _ r) in *.
  assert (x * BILLION * q <= part * q * r + BILLION * q) by nia.
  assert (part * q * r <= v * BILLION * r) by nia.
  unfold BILLION in *. nia.
Qed.

(** Shares of [r] in proportion to parts of [q] add up to at most [r] and one
    unit for each part. *)
Lemma shares_bound `{Countable K} {V} (v : K → V → Z) (m : gmap K V) q r :
  (∀ k x, m !! k = Some x → 0 <= v k x) → msum v m <= q → 0 <= r →
  msum (λ k x, if 0 <? v k x then pb_mul (pb_from_rational (v k x) q) r else 0) m
    <= r + msum (λ k x, if 0 <? v k x then 1 else 0) m.
Proof.
  intros Hv Hq Hr.
  assert (∀ k x, m !! k = Some x → v k x <= q) as Hle.
  { intros k x Hk. etrans; [|exact Hq]. by apply (msum_elem_le v m k x Hk). }
  assert (0 <= msum (λ k x, if 0 <? v k x then 1 else 0) m) as Hcount.
  { apply msum_nonneg. intros. by case_match. }
  destruct (Z.ltb_spec 0 q) as [Hpos|Hneg]; last first.
  { rewrite msum_zero; [lia|]. intros k x Hk. specialize (Hle k x Hk).
    by destruct (Z.ltb_spec 0 (v k x)); [lia|]. }
  apply (Z.mul_le_mono_pos_l _ _ q Hpos).
  rewrite Z.mul_add_distr_l, <-!msum_scale.
  etrans; [apply (msum_mono _ (λ k x, r * v k x + q * (if 0 <? v k x then 1 else 0)))|].
  - intros k x Hk. specialize (Hv k x Hk). destruct (Z.ltb_spec 0 (v k x)); [|nia].
    pose proof (share_bound (v k x) q r). lia.
  - rewrite msum_plus, msum_scale. apply Z.add_le_mono_r. nia.
Qed.

End shares.

Section solvency.
Context {AccountId : Type} `{Countable AccountId}.
Context {ProviderId : Type} `{Countable ProviderId}.
Context {Imb L : Type} `{!Currency AccountId Imb L} `{!CurrencyLaws AccountId Imb L}.
Context `{!PerbillOps} `{!PerbillLaws} `{!DbWeightOps} `{!StakingConfig AccountId}.
Context `{!StakingConfigLaws AccountId}.

Abbreviation State := (State AccountId ProviderId L).
Implicit Types s : State.
Implicit Types es : EraMetadata.

(** ** What was paid for an era and what can still be claimed *)

Definition payout_in (e : Z) (ev : StakingEvent AccountId ProviderId) : Z :=
  match ev with
  | Payout _ _ era amount => if decide (era = e) then amount else 0
  | _ => 0
  end.

(** The sum of the payouts of era [e] in the events so far. *)
Definition paid s (e : Z) : Z := lsum (payout_in e <$> events s).

Definition provider_claim s (e : Z) es (p : ProviderId)
    (pm : ProviderMetadata AccountId) : Z :=
  let info := provider_era_info s p e in
  if before_unregistration pm e && negb (provider_reward_claimed info) && (0 <? total info)
  then (split_provider_delegators_rewards info es).1 else 0.

Definition delegator_claim s (e : Z) es (k : AccountId * ProviderId) (dl : Delegation) : Z :=
  match ProviderInfo s !! k.2 with
  | Some pm =>
      if before_unregistration pm e && (0 <? staked_at dl e)
      then delegator_reward (provider_era_info s k.2 e) es (staked_at dl e) else 0
  | None => 0
  end.

Definition outstanding s (e : Z) es : Z :=
  msum (provider_claim s e es) (ProviderInfo s) +
  msum (delegator_claim s e es) (DelegationInfo s).

Lemma staked_at_latest dl e :
  (∀ x, x ∈ stakes dl → es_era x <= e) → staked_at dl e = latest dl.
Proof.
  intros Hle. unfold staked_at, latest. destruct (last (stakes dl)) as [x|] eqn:Hl; simpl.
  - apply (staked_from_after _ _ x); [done|]. apply Hle.
    apply last_Some_snoc in Hl as [l' ->]. apply elem_of_app. right. left.
  - apply last_None in Hl. by rewrite Hl.
Qed.

Lemma split_sum info es :
  0 <= em_rewards es →
  let r := split_provider_delegators_rewards info es in
  r.1 + r.2 = pb_mul (pb_from_rational (total info) (em_staked es)) (em_rewards es) ∧
  0 <= r.1 ∧ 0 <= r.2.
Proof.
  intros Hr. unfold split_provider_delegators_rewards. simpl.
  pose proof (pb_mul_le (pb_from_rational (total info) (em_staked es)) _ Hr) as [Hp _].
  pose proof (pb_mul_le ProviderRewardsPercentage _ Hp). unfold sat_sub. lia.
Qed.

(** *** The claims of one provider and its delegators *)

Definition stake_in (p : ProviderId) (k : AccountId * ProviderId) (dl : Delegation) : Z :=
  if decide (k.2 = p) then latest dl else 0.

Lemma stake_in_range s p k dl :
  inv s → DelegationInfo s !! k = Some dl →
  0 <= stake_in p k dl <= delegated_to (DelegationInfo s) p.
Proof.
  intros Hi Hk.
  assert (∀ k dl, DelegationInfo s !! k = Some dl → 0 <= stake_in p k dl) as Hn.
  { intros k' dl' Hk'. unfold stake_in.
    pose proof (delegations_latest _ _ _ _ _ (inv_delegations _ Hi) Hk') as Hr.
    unfold is_u128 in Hr. case_decide; lia. }
  split; [by apply Hn|]. by apply (msum_elem_le (stake_in p) _ k dl Hk).
Qed.

Lemma stake_in_count s p :
  inv s →
  msum (λ k dl, if 0 <? stake_in p k dl then 1 else 0) (DelegationInfo s) =
  delegators_of (DelegationInfo s) p.
Proof.
  intros Hi. apply msum_ext. intros k dl Hk. pose proof (stake_in_range s p k dl Hi Hk).
  unfold stake_in in *. case_decide; [|done].
  destruct (Z.ltb_spec 0 (latest dl)), (Z.eqb_spec (latest dl) 0); lia.
Qed.

(** The claims of the delegators of an active provider are their shares. *)
Lemma delegator_claims_active s es p pm :
  inv s → ProviderInfo s !! p = Some pm → status pm = Active →
  let cur := current (Era s) in
  let part := (split_provider_delegators_rewards (provider_era_info s p cur) es).2 in
  msum (λ k dl, if decide (k.2 = p) then delegator_claim s cur es k dl else 0)
    (DelegationInfo s) =
  msum (λ k dl, if 0 <? stake_in p k dl
                then pb_mul (pb_from_rational (stake_in p k dl)
                              (delegated_to (DelegationInfo s) p)) part
                else 0) (DelegationInfo s).
Proof.
  intros Hi Hp Hst cur part.
  destruct (active_info s p pm Hi Hp Hst) as (_ & _ & (_ & Htot & _) & _).
  fold cur in Htot. apply msum_ext. intros [d p'] dl Hk.
  pose proof (stake_in_range s p _ dl Hi Hk) as Hr. unfold stake_in in *. simpl in *.
  case_decide; [|done]. subst.
  destruct (inv_delegations _ Hi _ _ _ Hk) as (_ & _ & _ & Hle & _). fold cur in Hle.
  unfold delegator_claim, before_unregistration, delegator_reward. simpl.
  rewrite Hp, Hst, (staked_at_latest dl cur Hle). simpl. fold part.
  rewrite sat_sub_small by lia.
  rewrite Htot. by rewrite Z.add_simpl_l.
Qed.

Lemma claims_of_inactive s es p pm e :
  inv s → ProviderInfo s !! p = Some pm → status pm = Inactive e →
  let cur := current (Era s) in
  provider_claim s cur es p pm +
  msum (λ k dl, if decide (k.2 = p) then delegator_claim s cur es k dl else 0)
    (DelegationInfo s) = 0.
Proof.
  intros Hi Hp Hst cur. pose proof (inv_providers _ Hi p pm Hp) as [_ Hok].
  rewrite Hst in Hok.
  assert (before_unregistration pm cur = false) as Hb.
  { unfold before_unregistration, cur. rewrite Hst. apply Z.ltb_ge. lia. }
  unfold provider_claim. rewrite Hb. simpl. apply msum_zero.
  intros k dl _. unfold delegator_claim. case_decide; [|done]. subst. by rewrite Hp, Hb.
Qed.

Lemma delegators_of_nonneg s p : 0 <= delegators_of (DelegationInfo s) p.
Proof. apply msum_nonneg. intros k dl _. repeat case_match; lia. Qed.

(** What a provider and its delegators claim is the provider's share, and one
    unit for each delegator. *)
Lemma claims_of_provider s es p pm :
  inv s → ProviderInfo s !! p = Some pm → 0 <= em_rewards es →
  let cur := current (Era s) in
  let v := active_total cur (ProviderEraInfo s) p pm in
  provider_claim s cur es p pm +
  msum (λ k dl, if decide (k.2 = p) then delegator_claim s cur es k dl else 0)
    (DelegationInfo s) <=
  (if 0 <? v then pb_mul (pb_from_rational v (em_staked es)) (em_rewards es) else 0) +
  delegators_of (DelegationInfo s) p.
Proof.
  intros Hi Hp Hr cur v. pose proof (delegators_of_nonneg s p) as Hdn.
  destruct (status pm) as [|e'] eqn:Hst; last first.
  { unfold cur. rewrite (claims_of_inactive s es p pm e' Hi Hp Hst).
    unfold v. by rewrite (active_total_inactive _ _ _ _ _ Hst). }
  destruct (active_info s p pm Hi Hp Hst) as (_ & _ & (Hbond & Htot & _) & _).
  fold cur in Hbond, Htot. pose proof MinProviderStake_nonneg.
  assert (v = total (provider_era_info s p cur)) as ->.
  { unfold v, active_total. by rewrite Hst. }
  unfold cur. rewrite (delegator_claims_active s es p pm Hi Hp Hst). fold cur.
  set (info := provider_era_info s p cur) in *.
  pose proof (split_sum info es Hr) as (Hsum & Hn1 & Hn2).
  pose proof (delegated_to_nonneg _ _ _ p (inv_delegations _ Hi)).
  unfold provider_claim, before_unregistration. rewrite Hst. fold info. cbn [andb].
  destruct (Z.ltb_spec 0 (total info)) as [Hpos|Hneg].
  - pose proof (shares_bound (stake_in p) (DelegationInfo s)
      (delegated_to (DelegationInfo s) p) (split_provider_delegators_rewards info es).2
      (λ k dl Hk, proj1 (stake_in_range s p k dl Hi Hk)) (Z.le_refl _) Hn2) as Hbound.
    rewrite stake_in_count in Hbound by done. destruct (negb _); cbn [andb]; lia.
  - rewrite andb_false_r, msum_zero; [lia|]. intros k dl Hk.
    pose proof (stake_in_range s p k dl Hi Hk).
    by destruct (Z.ltb_spec 0 (stake_in p k dl)); [lia|].
Qed.

(** *** All claims when the era closes *)

Lemma outstanding_at_close s es :
  inv s → bounded s → 0 <= em_rewards es →
  em_staked es = staked_total (current (Era s)) (ProviderEraInfo s) (ProviderInfo s) →
  outstanding s (current (Era s)) es <=
  em_rewards es + Z.of_nat (size (ProviderInfo s)) * (MaxDelegatorsPerProvider + 2).
Proof.
  intros Hi Hb Hr Hstaked. set (cur := current (Era s)) in *.
  set (claims p := msum (λ k dl, if decide (k.2 = p) then delegator_claim s cur es k dl else 0)
    (DelegationInfo s)).
  assert (msum (delegator_claim s cur es) (DelegationInfo s) =
          msum (λ p _, claims p) (ProviderInfo s)) as Hgroup.
  { rewrite msum_keys. symmetry.
    apply (msum_group_all (λ k _, k.2)); [apply NoDup_fst_map_to_list|].
    intros [d p] dl Hk. destruct (inv_delegations _ Hi _ _ _ Hk) as (_ & _ & _ & _ & [pm Hpm]).
    by apply (list_elem_of_fmap_2 fst _ (p, pm)), elem_of_map_to_list. }
  unfold outstanding. rewrite Hgroup, <-msum_plus.
  pose proof (shares_bound (active_total cur (ProviderEraInfo s)) (ProviderInfo s)
    (em_staked es) (em_rewards es) (λ p pm, active_total_nonneg s p pm Hi)) as Hshares.
  unfold staked_total in Hstaked. fold cur in Hshares. specialize (Hshares ltac:(lia) Hr).
  assert (msum (λ p pm, if 0 <? active_total cur (ProviderEraInfo s) p pm then 1 else 0)
    (ProviderInfo s) <= Z.of_nat (size (ProviderInfo s))) as Hcount.
  { rewrite <-msum_size. apply msum_mono. intros. by case_match. }
  etrans; [apply msum_mono; intros p pm Hp; by apply claims_of_provider|].
  fold cur. rewrite msum_plus.
  assert (msum (λ p _, delegators_of (DelegationInfo s) p) (ProviderInfo s) <=
    (MaxDelegatorsPerProvider + 1) * Z.of_nat (size (ProviderInfo s))) as Hdel.
  { rewrite <-msum_size, <-msum_scale. apply msum_mono. intros p pm _.
    pose proof (bounded_delegators _ Hb p). lia. }
  lia.
Qed.

(** ** The claims of a past era under a step *)

(** Entries of [ProviderEraInfo] are of registered providers. *)
Definition known_entries s : Prop :=
  ∀ p e, is_Some (ProviderEraInfo s !! (p, e)) → is_Some (ProviderInfo s !! p).

Lemma unknown_entry s p e :
  known_entries s → ProviderInfo s !! p = None →
  provider_era_info s p e = ProviderEraMetadata_default.
Proof.
  intros Hk Hp. unfold provider_era_info.
  destruct (ProviderEraInfo s !! (p, e)) eqn:He; [|done].
  destruct (Hk p e) as [pm Hpm]; [by eexists|congruence].
Qed.

Lemma step_known_entries s s' : step s s' → inv s → known_entries s → known_entries s'.
Proof.
  intros Hstep Hi Hk. pose proof Hk as Hk0. unfold known_entries in Hk.
  assert (∀ s1 p0 e0 i, ProviderEraInfo s1 = <[(p0, e0):=i]> (ProviderEraInfo s) →
    is_Some (ProviderInfo s1 !! p0) →
    (∀ p, is_Some (ProviderInfo s !! p) → is_Some (ProviderInfo s1 !! p)) →
    known_entries s1) as Hins.
  { intros s1 p0 e0 i Heq Hp0 Hmono p e. rewrite Heq.
    intros [[= <- <-]|[_ Hl]]%lookup_insert_is_Some; [done|eauto]. }
  assert (∀ s1, ProviderEraInfo s1 = ProviderEraInfo s →
    (∀ p, is_Some (ProviderInfo s !! p) → is_Some (ProviderInfo s1 !! p)) →
    known_entries s1) as Hsame.
  { intros s1 Heq Hmono p e. rewrite Heq. eauto. }
  assert (∀ p0 pm p, is_Some (ProviderInfo s !! p) →
    is_Some (<[p0:=pm]> (ProviderInfo s) !! p)) as Hmono.
  { intros p0 pm p Hp. apply lookup_insert_is_Some'. by right. }
  step_cases Hstep; try (apply Hsame; simpl; by auto);
    try (eapply Hins; [reflexivity|simpl; by eauto|simpl; by auto]).
  - apply is_active_Some in Hact as (pm & Hp & _).
    eapply Hins; [reflexivity|simpl; by eexists|done].
  - apply is_active_Some in Hact as (pm & Hp & _).
    eapply Hins; [reflexivity|simpl; by eexists|done].
  - eapply Hins; [reflexivity|simpl|simpl; by auto]. rewrite lookup_insert_eq. by eexists.
  - destruct (on_initialize_cases _ _ _ _ Hd Hi Hmax) as [->|(_ & Hp & Hpei & _)]; [done|].
    intros p e. rewrite Hp, Hpei. destruct (decide (e = current (Era s) + 1)) as [->|He].
    + rewrite rotated_lookup by lia. destruct (ProviderInfo s !! p) eqn:Hpi; [by eexists|].
      intros Hl. apply Hk in Hl. by rewrite Hpi in Hl.
    + rewrite rotated_other_era by done. apply Hk.
  - rewrite handle_imbalance_run in Hd. injection Hd as <-. by apply Hsame.
Qed.

(** The metadata of a past era is final. *)
Lemma step_past_era s s' e :
  step s s' → inv s → e < current (Era s) → EraState s' !! e = EraState s !! e.
Proof.
  intros Hstep Hi He. step_cases Hstep; simpl; try done;
    try (rewrite lookup_alter_ne; [done|lia]).
  - rewrite lookup_insert_ne; [done|lia].
  - destruct (on_initialize_outcome _ _ _ _ Hd Hi Hmax) as [->| ->]; [done|]. simpl.
    rewrite !lookup_insert_ne by lia. done.
  - rewrite handle_imbalance_run in Hd. by injection Hd as <-.
Qed.

(** The claims depend on the registrations, the era's entries and the stakes. *)
Lemma outstanding_ext s s' e es :
  ProviderInfo s' = ProviderInfo s → DelegationInfo s' = DelegationInfo s →
  (∀ p, provider_era_info s' p e = provider_era_info s p e) →
  outstanding s' e es = outstanding s e es.
Proof.
  intros Hp Hd Hi. unfold outstanding. rewrite Hp, Hd. f_equal; apply msum_ext.
  - intros p pm _. unfold provider_claim. by rewrite Hi.
  - intros k dl _. unfold delegator_claim. by rewrite Hp, Hi.
Qed.

(** A registration that ends in the current era keeps its claims for the past
    ones. *)
Lemma outstanding_status s s' e es p pm pm' :
  ProviderInfo s !! p = Some pm → ProviderInfo s' = <[p:=pm']> (ProviderInfo s) →
  before_unregistration pm' e = before_unregistration pm e →
  DelegationInfo s' = DelegationInfo s → ProviderEraInfo s' = ProviderEraInfo s →
  outstanding s' e es = outstanding s e es.
Proof.
  intros Hp Hp' Hb Hd He.
  assert (∀ q, provider_era_info s' q e = provider_era_info s q e) as Hinfo
    by (intros q; unfold provider_era_info; by rewrite He).
  unfold outstanding. f_equal.
  - rewrite Hp', msum_insert, Hp. simpl. unfold provider_claim at 2 3. rewrite Hb, Hinfo.
    rewrite (msum_ext (provider_claim s' e es) (provider_claim s e es)); [lia|].
    intros q qm _. unfold provider_claim. by rewrite Hinfo.
  - rewrite Hd. apply msum_ext. intros k dl _. unfold delegator_claim.
    rewrite Hp', Hinfo. destruct (decide (p = k.2)) as [<-|Hne].
    + by rewrite lookup_insert_eq, Hp, Hb.
    + by rewrite lookup_insert_ne.
Qed.

(** A new stake history of one delegator. *)
Lemma outstanding_delegation s s' e es d p dl' :
  ProviderInfo s' = ProviderInfo s →
  DelegationInfo s' = put_delegation d p dl' (DelegationInfo s) →
  (∀ q, provider_era_info s' q e = provider_era_info s q e) →
  outstanding s' e es =
  outstanding s e es - delegator_claim s e es (d, p) (delegation_info s d p) +
  delegator_claim s e es (d, p) dl'.
Proof.
  intros Hp Hd Hinfo. unfold outstanding. rewrite Hp, Hd.
  rewrite (msum_ext (provider_claim s' e es) (provider_claim s e es))
    by (intros q qm _; unfold provider_claim; by rewrite Hinfo).
  rewrite (msum_ext (delegator_claim s' e es) (delegator_claim s e es))
    by (intros k dl _; unfold delegator_claim; by rewrite Hp, Hinfo).
  rewrite msum_put_delegation; [unfold delegation_info; lia|].
  intros dl He. unfold delegator_claim, staked_at. destruct dl as [[|]]; [|done].
  repeat case_match; try done. by rewrite andb_false_r in *.
Qed.

Lemma delegator_claim_nonneg s e es k dl :
  inv s → EraState s !! e = Some es → 0 <= delegator_claim s e es k dl.
Proof.
  intros Hi He. unfold delegator_claim. repeat case_match; try done.
  apply pb_mul_le. by eapply split_nonneg.
Qed.

(** Before its first entry a history has no stake. *)
Lemma staked_before_first d x rest e :
  wf_delegation d → stakes d = x :: rest → e < es_era x → staked_at d e = 0.
Proof.
  unfold wf_delegation, staked_at. intros Hwf Hd He. rewrite Hd in *.
  apply wf_stakes_cons in Hwf as (_ & _ & Hrest & _). apply staked_from_before.
  constructor; [done|]. eapply Forall_impl; [done|]. simpl. lia.
Qed.

(** The provider's claim takes what it pays. *)
Lemma outstanding_claim_provider s s' p pm e es :
  ProviderInfo s !! p = Some pm → before_unregistration pm e = true →
  let info := provider_era_info s p e in
  provider_reward_claimed info = false → 0 < total info →
  ProviderInfo s' = ProviderInfo s → DelegationInfo s' = DelegationInfo s →
  ProviderEraInfo s' =
    <[(p, e):=mkProviderEraMetadata (bond info) (total info) (delegator_count info) true]>
      (ProviderEraInfo s) →
  outstanding s' e es =
  outstanding s e es - (split_provider_delegators_rewards info es).1.
Proof.
  intros Hp Hb info Hc Ht Hp' Hd' He'.
  assert (∀ q, provider_era_info s' q e =
    if decide (q = p)
    then mkProviderEraMetadata (bond info) (total info) (delegator_count info) true
    else provider_era_info s q e) as Hinfo.
  { intros q. unfold provider_era_info at 1. rewrite He'. case_decide as Hq.
    - subst. by rewrite lookup_insert_eq.
    - rewrite lookup_insert_ne; [done|congruence]. }
  unfold outstanding. rewrite Hp', Hd'.
  rewrite (msum_ext (delegator_claim s' e es) (delegator_claim s e es)); last first.
  { intros k dl _. unfold delegator_claim. rewrite Hp', Hinfo.
    case_decide as Hk; [|done]. by rewrite Hk. }
  rewrite (msum_change (provider_claim s e es) (provider_claim s' e es) _ p pm Hp); last first.
  { intros q qm Hq _. unfold provider_claim. by rewrite Hinfo, decide_False. }
  assert (provider_claim s' e es p pm = 0) as ->.
  { unfold provider_claim. rewrite Hinfo, decide_True by done. simpl. by rewrite andb_false_r. }
  assert (provider_claim s e es p pm = (split_provider_delegators_rewards info es).1) as ->.
  { unfold provider_claim. fold info. by rewrite Hb, Hc, (proj2 (Z.ltb_lt _ _) Ht). }
  lia.
Qed.

(** A claim leaves the stakes of the other eras. *)
Lemma claim_other_era s w p era staked dl' e :
  inv s → Delegation.claim (delegation_info s w p) = ((era, staked), dl') → 0 < staked →
  era < current (Era s) → era ≠ e →
  staked_at dl' e = staked_at (delegation_info s w p) e.
Proof.
  intros Hi Hc Hpos Hera Hn.
  destruct (delegation_info_ok _ _ _ w p (inv_delegations _ Hi)) as (Hwf & _).
  fold (delegation_info s w p) in Hwf.
  destruct (stakes (delegation_info s w p)) as [|x rest] eqn:Hs.
  { rewrite (claim_nil _ Hs) in Hc. injection Hc as <- <- <-. lia. }
  assert (es_era x = era) as Hx.
  { unfold Delegation.claim in Hc. rewrite Hs in Hc. by simplify_eq. }
  pose proof (inv_era _ Hi) as [_ Hmax].
  pose proof (claim_spec _ x rest Hwf Hs ltac:(lia)) as Hsp. rewrite Hc in Hsp.
  destruct Hsp as (_ & _ & _ & Hat & _). rewrite Hat, Hx.
  destruct (Z.ltb_spec era e); [done|]. symmetry. rewrite <-Hx in *.
  apply (staked_before_first _ x rest); [done|done|lia].
Qed.

(** The delegator's claim takes what it pays. *)
Lemma outstanding_claim_delegator s s' w p pm era staked dl' e es :
  inv s → Delegation.claim (delegation_info s w p) = ((era, staked), dl') → 0 < staked →
  era < current (Era s) → ProviderInfo s !! p = Some pm →
  before_unregistration pm era = true → EraState s !! e = Some es →
  ProviderInfo s' = ProviderInfo s →
  DelegationInfo s' = put_delegation w p dl' (DelegationInfo s) →
  ProviderEraInfo s' = ProviderEraInfo s →
  (if decide (era = e) then delegator_reward (provider_era_info s p era) es staked else 0) +
  outstanding s' e es = outstanding s e es.
Proof.
  intros Hi Hc Hpos Hera Hp Hb He Hp' Hd' He'.
  destruct (claim_delegation s w p era staked dl' Hi Hc Hpos Hera)
    as (Hwf' & _ & _ & Hgt & _ & Hst).
  rewrite (outstanding_delegation s s' e es w p dl' Hp' Hd')
    by (intros q; unfold provider_era_info; by rewrite He').
  case_decide as Hn.
  - subst e. unfold delegator_claim. simpl. rewrite Hp, Hb, <-Hst.
    rewrite (proj2 (Z.ltb_lt _ _) Hpos). cbn [andb].
    assert (staked_at dl' era = 0) as ->; [|simpl; lia].
    apply staked_from_before, Forall_forall. intros x Hx. by apply Hgt.
  - assert (staked_at dl' e = staked_at (delegation_info s w p) e) as Heq;
      [|unfold delegator_claim; rewrite Heq; lia].
    by eapply claim_other_era.
Qed.

(** A new registration has no claims for past eras. *)
Lemma outstanding_register s s' p a i e es :
  inv s → known_entries s → ProviderInfo s !! p = None → e < current (Era s) →
  ProviderInfo s' = <[p:=ProviderMetadata_new a]> (ProviderInfo s) →
  ProviderEraInfo s' = <[(p, current (Era s)):=i]> (ProviderEraInfo s) →
  DelegationInfo s' = DelegationInfo s →
  outstanding s' e es = outstanding s e es.
Proof.
  intros Hi Hk Hp He Hp' He' Hd'.
  assert (∀ q, provider_era_info s' q e = provider_era_info s q e) as Hinfo.
  { intros q. unfold provider_era_info. rewrite He', lookup_insert_ne; [done|].
    intros [= ??]. lia. }
  unfold outstanding. f_equal.
  - rewrite Hp', msum_insert_None by done. unfold provider_claim at 1.
    rewrite Hinfo, (unknown_entry s p e Hk Hp). simpl.
    apply msum_ext. intros q qm _. unfold provider_claim. by rewrite Hinfo.
  - rewrite Hd'. apply msum_ext. intros [d q] dl Hdl. unfold delegator_claim. simpl.
    destruct (inv_delegations _ Hi _ _ _ Hdl) as (_ & _ & _ & _ & [qm Hq]).
    rewrite Hp', lookup_insert_ne, Hinfo; [done|congruence].
Qed.

Lemma paid_snoc s s' ev e :
  events s' = events s ++ [ev] → paid s' e = paid s e + payout_in e ev.
Proof.
  intros Hev. unfold paid. rewrite Hev, fmap_app, lsum_app. simpl. rewrite lsum_cons.
  unfold lsum. simpl. lia.
Qed.

(** Staking and unstaking leave the stakes of the past eras. *)
Lemma past_stake s w p v dl' (l : L) u e :
  inv s → 0 < v → reserve w v (ledger s) = Ok (u, l) →
  Delegation.stake (delegation_info s w p) (current (Era s)) v = Ok dl' →
  e < current (Era s) → staked_at dl' e = staked_at (delegation_info s w p) e.
Proof.
  intros Hi Hv Hr Hst He.
  destruct (delegation_info_ok _ _ _ w p (inv_delegations _ Hi)) as (Hwf & _).
  pose proof (reserve_Ok _ _ _ _ _ (Z.lt_le_incl _ _ Hv) Hr) as (_ & Hr' & _).
  pose proof (reserved_range l w). pose proof (reserved_range (ledger s) w).
  destruct (stake_spec _ _ v _ Hwf (inv_era _ Hi) ltac:(unfold is_u128; lia) Hst)
    as (_ & _ & Hat & _).
  rewrite Hat. by destruct (Z.leb_spec (current (Era s)) e); [lia|].
Qed.

Lemma past_unstake s w p out dl' e :
  inv s → 0 < out →
  Delegation.unstake (delegation_info s w p) (current (Era s)) out = Ok dl' →
  e < current (Era s) → staked_at dl' e = staked_at (delegation_info s w p) e.
Proof.
  intros Hi Ho Hst He.
  destruct (delegation_info_ok _ _ _ w p (inv_delegations _ Hi)) as (Hwf & _).
  destruct (unstake_spec _ _ out _ Hwf (inv_era _ Hi) ltac:(lia) Hst) as (_ & _ & Hat & _).
  rewrite Hat. by destruct (Z.leb_spec (current (Era s)) e); [lia|].
Qed.

Ltac no_payout := erewrite paid_snoc by reflexivity; cbn [payout_in]; rewrite ?Z.add_0_r.

(** The first block has opened era 1: no stake is of era 0, which [claim] also
    returns when there is nothing to claim. *)
Definition started s : Prop :=
  1 <= current (Era s) ∧ ∀ d p, only_after s d p 0.

Lemma step_started s s' : step s s' → inv s → started s → started s'.
Proof.
  intros Hstep Hi [He Hd]. pose proof (step_era s s' Hstep Hi).
  split; [lia|]. intros d p. by eapply step_only_after.
Qed.

(** A delegator that withdraws from an unregistered provider has no claims left,
    unless its history begins in era 0. *)
Lemma withdrawn_claim s w p pm u e es :
  inv s → started s → ProviderInfo s !! p = Some pm → status pm = Inactive u →
  (let claimable := (Delegation.claim (delegation_info s w p)).1.1 in
   u <= claimable ∨ claimable = 0) →
  0 < Delegation.latest_staked_value (delegation_info s w p) →
  delegator_claim s e es (w, p) (delegation_info s w p) = 0.
Proof.
  intros Hi [_ Hs] Hp Hu Hcl Hpos. specialize (Hs w p) as [_ Hs].
  destruct (delegation_info_ok _ _ _ w p (inv_delegations _ Hi)) as (Hwf & _).
  fold (delegation_info s w p) in Hwf.
  destruct (stakes (delegation_info s w p)) as [|x rest] eqn:Hd.
  { unfold Delegation.latest_staked_value in Hpos. rewrite Hd in Hpos. simpl in Hpos. lia. }
  assert ((Delegation.claim (delegation_info s w p)).1.1 = es_era x) as Hx.
  { unfold Delegation.claim. by rewrite Hd. }
  cbv zeta in Hcl. rewrite Hx in Hcl. specialize (Hs x ltac:(by left)). unfold delegator_claim. simpl.
  rewrite Hp. unfold before_unregistration. rewrite Hu.
  destruct (Z.ltb_spec e u); [|done].
  rewrite (staked_before_first _ x rest e Hwf Hd) by lia. done.
Qed.

(** A step takes from the claims of a past era what it pays for it; what is lost
    besides is nothing once the first block has been. *)
Lemma step_claims_exact s s' e es :
  step s s' → inv s → known_entries s → e < current (Era s) → EraState s !! e = Some es →
  ∃ lost, 0 <= lost ∧
    paid s' e + outstanding s' e es + lost = paid s e + outstanding s e es ∧
    (started s → lost = 0).
Proof.
  intros Hstep Hi Hk He Hes.
  assert (∀ x y, x = y → ∃ lost, 0 <= lost ∧ x + lost = y ∧ (started s → lost = 0)) as Hnone.
  { intros x y ->. exists 0. split; [done|]. split; [lia|done]. }
  assert (∀ s1 p i, ProviderEraInfo s1 = <[(p, current (Era s)):=i]> (ProviderEraInfo s) →
    ∀ q, provider_era_info s1 q e = provider_era_info s q e) as Hcur.
  { intros s1 p i Heq q. unfold provider_era_info. rewrite Heq, lookup_insert_ne; [done|].
    intros [= ??]. lia. }
  assert (∀ w p dl', staked_at dl' e = staked_at (delegation_info s w p) e →
    outstanding s e es - delegator_claim s e es (w, p) (delegation_info s w p) +
      delegator_claim s e es (w, p) dl' = outstanding s e es) as Hdel.
  { intros w p dl' Heq. unfold delegator_claim. rewrite Heq. lia. }
  step_cases Hstep; try no_payout;
    try lazymatch goal with
        | |- context [delete _ (DelegationInfo s)] => fail
        | _ => apply Hnone
        end.
  - by rewrite (outstanding_ext s).
  - rewrite (outstanding_ext s); [done|done|done|by eapply Hcur].
  - rewrite (outstanding_ext s); [done|done|done|by eapply Hcur].
  - erewrite (outstanding_delegation s); [|reflexivity|reflexivity|by eapply Hcur].
    f_equal. apply Hdel. by eapply past_stake.
  - erewrite (outstanding_delegation s); [|reflexivity|reflexivity|by eapply Hcur].
    f_equal. apply Hdel. eapply past_unstake; [done| |done|done]. tauto.
  - by rewrite (outstanding_ext s).
  - case_decide as Hn.
    + subst. erewrite outstanding_claim_provider; [|done|done|done|done|done|done|done].
      simplify_eq. lia.
    + rewrite (outstanding_ext s); [lia|done|done|]. intros q. unfold provider_era_info.
      simpl. rewrite lookup_insert_ne; [done|congruence].
  - match goal with Hp : ProviderInfo s !! _ = Some ?pm, Hb : before_unregistration ?pm _ = true
        |- _ + outstanding ?s1 _ _ = _ =>
      pose proof (outstanding_claim_delegator s s1 who provider_id pm era staked dl' e es
        Hi Hc Hpos Hera Hp Hb Hes eq_refl eq_refl eq_refl) as Hle
    end.
    case_decide; [|lia]. subst. simplify_eq. lia.
  - erewrite (outstanding_status s); [done|done|reflexivity| |done|done].
    unfold before_unregistration. simpl. match goal with H : status _ = _ |- _ => by rewrite H end.
  - exists (delegator_claim s e es (who, provider_id) (delegation_info s who provider_id)).
    erewrite (outstanding_delegation s _ _ _ who provider_id Delegation_default);
      [|done|done|done].
    assert (delegator_claim s e es (who, provider_id) Delegation_default = 0) as ->.
    { unfold delegator_claim, staked_at. simpl. repeat case_match; try done.
      by rewrite andb_false_r in *. }
    split_and!; [by apply delegator_claim_nonneg|lia|]. intros Hs. by eapply withdrawn_claim.
  - rewrite (outstanding_register s _ p0 a (mkProviderEraMetadata b b 0 false)); done.
  - erewrite (outstanding_status s); [done|done|reflexivity| |done|done].
    unfold before_unregistration. simpl.
    match goal with H : status _ = _ |- _ => rewrite H end. by apply Z.ltb_lt.
  - destruct (on_initialize_outcome _ _ _ _ Hd Hi Hmax) as [->| ->]; [done|]. no_payout.
    rewrite (outstanding_ext s); [done|done|done|]. intros q. unfold provider_era_info. simpl.
    rewrite rotated_other_era; [done|lia].
  - rewrite handle_imbalance_run in Hd. injection Hd as <-. by rewrite (outstanding_ext s).
  - by rewrite (outstanding_ext s).
Qed.

Lemma step_claims s s' e es :
  step s s' → inv s → known_entries s → e < current (Era s) → EraState s !! e = Some es →
  paid s' e + outstanding s' e es <= paid s e + outstanding s e es.
Proof. intros. destruct (step_claims_exact s s' e es) as (? & ? & ? & _); [done..|lia]. Qed.

(** A payout is of a past era. *)
Lemma step_no_early_payout s s' e :
  step s s' → inv s → current (Era s) <= e → paid s' e = paid s e.
Proof.
  intros Hstep Hi He. step_cases Hstep; try no_payout; try done.
  - rewrite decide_False; [lia|]. lia.
  - rewrite decide_False; [lia|]. lia.
  - destruct (on_initialize_outcome _ _ _ _ Hd Hi Hmax) as [->| ->]; [done|]. by no_payout.
  - rewrite handle_imbalance_run in Hd. by injection Hd as <-.
Qed.

(** ** The invariant *)

(** The rounding of the payouts of an era: one unit for each provider and each
    of its delegators. *)
Definition rounding s : Z :=
  Z.of_nat (size (ProviderInfo s)) * (MaxDelegatorsPerProvider + 2).

Lemma step_rounding s s' : step s s' → inv s → rounding s <= rounding s'.
Proof.
  intros Hstep Hi. unfold rounding. pose proof MaxDelegatorsPerProvider_range.
  assert (size (ProviderInfo s) <= size (ProviderInfo s'))%nat; [|nia].
  rewrite <-!size_dom. apply subseteq_size. intros p [pm Hp]%elem_of_dom.
  destruct (step_provider s s' p pm Hstep Hi Hp) as (pm' & Hp' & _).
  apply elem_of_dom. by exists pm'.
Qed.

Record solvent s : Prop := {
  solvent_bounded : bounded s;
  solvent_entries : known_entries s;
  solvent_future : ∀ e, current (Era s) <= e → paid s e = 0;
  solvent_past : ∀ e es, e < current (Era s) → EraState s !! e = Some es →
    paid s e + outstanding s e es <= em_rewards es + rounding s
}.

Lemma step_era_succ s s' : step s s' → inv s → current (Era s') <= current (Era s) + 1.
Proof.
  intros Hstep Hi. step_cases Hstep; simpl; try lia.
  - destruct (on_initialize_cases _ _ _ _ Hd Hi Hmax) as [->|[-> _]]; lia.
  - rewrite handle_imbalance_run in Hd. injection Hd as <-. simpl. lia.
Qed.

(** The era that a step closes. *)
Lemma step_closes s s' es :
  step s s' → inv s → bounded s → current (Era s) < current (Era s') →
  EraState s' !! current (Era s) = Some es →
  outstanding s' (current (Era s)) es <= em_rewards es + rounding s.
Proof.
  intros Hstep Hi Hb. step_cases Hstep; simpl; try lia; last first.
  { rewrite handle_imbalance_run in Hd. injection Hd as <-. simpl. lia. }
  destruct (on_initialize_outcome _ _ _ _ Hd Hi Hmax) as [->| ->]; [lia|]. simpl.
  rewrite lookup_insert_eq. intros _ [= <-].
  rewrite (outstanding_ext s); [|done|done|].
  - apply (outstanding_at_close s _ Hi Hb); [apply (inv_rewards _ Hi)|apply (inv_staked _ Hi)].
  - intros q. unfold provider_era_info. simpl. rewrite rotated_other_era; [done|lia].
Qed.

Lemma step_solvent s s' : step s s' → inv s → solvent s → solvent s'.
Proof.
  intros Hstep Hi [Hb Hk Hf Hp]. pose proof (step_era s s' Hstep Hi) as Hle.
  pose proof (step_rounding s s' Hstep Hi) as Hround. split.
  - by eapply step_bounded.
  - by eapply step_known_entries.
  - intros e He. rewrite (step_no_early_payout s s' e Hstep Hi) by lia. apply Hf. lia.
  - intros e es He Hes. destruct (Z.lt_ge_cases e (current (Era s))) as [Hlt|Hge].
    + rewrite (step_past_era s s' e Hstep Hi Hlt) in Hes.
      pose proof (step_claims s s' e es Hstep Hi Hk Hlt Hes). specialize (Hp e es Hlt Hes). lia.
    + pose proof (step_era_succ s s' Hstep Hi).
      assert (e = current (Era s)) as -> by lia.
      pose proof (step_closes s s' es Hstep Hi Hb ltac:(lia) Hes).
      rewrite (step_no_early_payout s s' _ Hstep Hi), Hf by lia. lia.
Qed.

Lemma reachable_solvent s : reachable s → solvent s.
Proof.
  intros (s0 & Hg & Hsteps).
  apply (steps_preserve solvent s0 s step_solvent Hsteps (genesis_inv _ Hg)).
  assert (reachable s0) as Hr by (by exists s0). destruct Hg. split.
  - by apply reachable_bounded.
  - intros p e. rewrite genesis_provider_eras, lookup_empty. by intros [? [=]].
  - intros e _. unfold paid. by rewrite genesis_events.
  - intros e es _. by rewrite genesis_era_state, lookup_empty.
Qed.

Lemma outstanding_nonneg s e es : inv s → EraState s !! e = Some es → 0 <= outstanding s e es.
Proof.
  intros Hi He. unfold outstanding.
  assert (0 <= msum (provider_claim s e es) (ProviderInfo s)).
  { apply msum_nonneg. intros p pm _. unfold provider_claim.
    case_match; [|done]. by eapply split_nonneg. }
  assert (0 <= msum (delegator_claim s e es) (DelegationInfo s)); [|lia].
  apply msum_nonneg. intros k dl _. unfold delegator_claim. repeat case_match; try done.
  apply pb_mul_le. by eapply split_nonneg.
Qed.

(** C6: The payouts of an era are covered by its rewards: in every reachable
    state, what has been paid for a past era to its provider owners and
    delegators together, and what all of them can still claim, is at most the
    rewards of that era and one unit of rounding for each provider and each of
    its delegators; for the current and later eras nothing has been paid. *)
Theorem era_payouts_covered s e :
  reachable s →
  (current (Era s) <= e → paid s e = 0) ∧
  (∀ es, e < current (Era s) → EraState s !! e = Some es →
     0 <= outstanding s e es ∧
     paid s e + outstanding s e es <=
       em_rewards es +
       Z.of_nat (size (ProviderInfo s)) * (MaxDelegatorsPerProvider + 2)).
Proof.
  intros Hr. pose proof (reachable_solvent s Hr) as [_ _ Hf Hp].
  apply reachable_inv in Hr. split; [apply Hf|].
  intros es He Hes. split; [by apply outstanding_nonneg|by apply Hp].
Qed.

End solvency.

(** In [claims0] the eras 2 and 3 (rewards 700 and 900) are unpaid; after the
    delegator's claim of era 2 and the provider's of era 3 nothing is lost. *)
Definition claims4 : MockState := (claim_provider (Signed 1) 50 3 claims1).2.

Lemma claims4_reachable : reachable claims4.
Proof.
  assert (step claims0 claims1) as H1.
  { apply (step_call _ _ (claim_delegator_call 50) (Signed 2));
      [reflexivity|discriminate|done|by apply supply_check]. }
  assert (step claims1 claims4) as H2.
  { apply (step_call _ _ (claim_provider_call 50 3) (Signed 1));
      [reflexivity|discriminate|done|by apply supply_check]. }
  destruct claims0_reachable as (s0 & Hg & Hs). exists s0. split; [done|].
  do 2 (eapply rtc_r; [|done]). done.
Qed.

Lemma era_payouts_covered_witness :
  paid claims4 3 = 720 ∧ outstanding claims4 3 (mkEraMetadata 900 2000) = 180 ∧
  paid claims4 3 + outstanding claims4 3 (mkEraMetadata 900 2000) <= 900 + 1 * (5 + 2).
Proof.
  split; [reflexivity|]. split; [reflexivity|].
  destruct (era_payouts_covered claims4 3 claims4_reachable) as [_ Hp].
  apply (Hp (mkEraMetadata 900 2000)); reflexivity.
Defined.
