(* ===== verification/StakingSettlement.v ===== *)
(** * What is due for a closed era stays due until it is paid

    When an era has closed, every provider owner and every delegator has a fixed
    amount to claim for it.  Whatever happens afterwards, that amount stays to the
    unit until it is paid out to them: nobody else's claims, stakes, unstakes or
    withdrawals, no unregistration and no later era takes from it. *)

From S2P Require Export StakingSolvency StakingClock.
Import DapiStakingError.

Section settlement.
Context {AccountId : Type} `{Countable AccountId}.
Context {ProviderId : Type} `{Countable ProviderId}.
Context {Imb L : Type} `{!Currency AccountId Imb L} `{!CurrencyLaws AccountId Imb L}.
Context `{!PerbillOps} `{!PerbillLaws} `{!DbWeightOps} `{!StakingConfig AccountId}.
Context `{!StakingConfigLaws AccountId}.

Abbreviation State := (State AccountId ProviderId L).
Implicit Types s : State.
Implicit Types es : EraMetadata.

(** What [w] can claim as a delegator of [p] for era [e], and what the owner of
    [p] can. *)
Definition delegator_due s (e : Z) es (w : AccountId) (p : ProviderId) : Z :=
  delegator_claim s e es (w, p) (delegation_info s w p).
Definition provider_due s (e : Z) es (p : ProviderId) : Z :=
  from_option (provider_claim s e es p) 0 (ProviderInfo s !! p).

(** ** The events are a log *)

Lemma step_events s s' : step s s' → inv s → ∃ new, events s' = events s ++ new.
Proof.
  intros Hstep Hi. step_cases Hstep; simpl; try (eexists; reflexivity);
    try (exists []; by rewrite app_nil_r).
  - destruct (on_initialize_outcome _ _ _ _ Hd Hi Hmax) as [->| ->];
      [exists []; by rewrite app_nil_r|by eexists].
  - rewrite handle_imbalance_run in Hd. injection Hd as <-. exists []. by rewrite app_nil_r.
Qed.

(** ** The due of a delegator under a step *)

(** For a past era a known provider stays registered, or unregistered. *)
Lemma step_registered s s' p pm e :
  step s s' → inv s → e < current (Era s) → ProviderInfo s !! p = Some pm →
  ∃ pm', ProviderInfo s' !! p = Some pm' ∧ owner pm' = owner pm ∧
    before_unregistration pm' e = before_unregistration pm e.
Proof.
  intros Hstep Hi He Hp. unfold before_unregistration.
  step_cases Hstep; simpl; try by exists pm.
  - destruct (decide (provider_id = p)) as [->|Hn];
      [rewrite lookup_insert_eq|rewrite lookup_insert_ne by done; by exists pm].
    eexists. split; [done|]. simplify_eq. simpl. split; [done|].
    by match goal with Hst : status _ = _ |- _ => rewrite Hst end.
  - rewrite lookup_insert_ne by congruence. by exists pm.
  - destruct (decide (p0 = p)) as [->|Hn];
      [rewrite lookup_insert_eq|rewrite lookup_insert_ne by done; by exists pm].
    eexists. split; [done|]. simplify_eq. simpl. split; [done|].
    match goal with Hst : status _ = _ |- _ => rewrite Hst end. by apply Z.ltb_lt.
  - destruct (on_initialize_cases _ _ _ _ Hd Hi Hmax) as [->|(_ & -> & _)]; by exists pm.
  - rewrite handle_imbalance_run in Hd. injection Hd as <-. by exists pm.
Qed.

Lemma unknown_delegation s w p :
  inv s → ProviderInfo s !! p = None → delegation_info s w p = Delegation_default.
Proof.
  intros Hi Hp. unfold delegation_info. destruct (DelegationInfo s !! (w, p)) eqn:Hd; [|done].
  destruct (inv_delegations _ Hi _ _ _ Hd) as (_ & _ & _ & _ & [pm Hpm]). congruence.
Qed.

Lemma delegator_due_no_stake s e es w p :
  staked_at (delegation_info s w p) e = 0 → delegator_due s e es w p = 0.
Proof.
  intros Hz. unfold delegator_due, delegator_claim. rewrite Hz. simpl.
  case_match; [by rewrite andb_false_r|done].
Qed.

(** An unchanged stake leaves the due unchanged. *)
Lemma delegator_due_same s s' e es w p :
  step s s' → inv s → e < current (Era s) →
  staked_at (delegation_info s' w p) e = staked_at (delegation_info s w p) e →
  delegator_due s' e es w p = delegator_due s e es w p.
Proof.
  intros Hstep Hi He Hst. destruct (ProviderInfo s !! p) as [pm|] eqn:Hp; last first.
  { rewrite !delegator_due_no_stake; [done| |rewrite Hst];
      by rewrite (unknown_delegation s w p Hi Hp). }
  destruct (step_registered s s' p pm e Hstep Hi He Hp) as (pm' & Hp' & _ & Hb).
  unfold delegator_due, delegator_claim, delegator_reward, split_provider_delegators_rewards.
  simpl. rewrite Hp, Hp', Hb, Hst.
  by destruct (step_past_entry s s' p e Hstep Hi He) as [->| ->].
Qed.

Lemma delegation_info_put s s' d p dl w q :
  DelegationInfo s' = put_delegation d p dl (DelegationInfo s) →
  stakes (delegation_info s' w q) =
  if decide ((d, p) = (w, q)) then stakes dl else stakes (delegation_info s w q).
Proof. unfold delegation_info. intros ->. apply put_delegation_stakes. Qed.

Lemma staked_at_put s s' d p dl w q e :
  DelegationInfo s' = put_delegation d p dl (DelegationInfo s) →
  ((d, p) = (w, q) → staked_at dl e = staked_at (delegation_info s w q) e) →
  staked_at (delegation_info s' w q) e = staked_at (delegation_info s w q) e.
Proof.
  intros Hd Heq. unfold staked_at at 1. rewrite (delegation_info_put s s' d p dl w q Hd).
  case_decide; [by apply Heq|done].
Qed.

Lemma step_delegator_due s s' e es d p :
  step s s' → inv s → started s → e < current (Era s) → EraState s !! e = Some es →
  let due := delegator_due s e es d p in
  delegator_due s' e es d p = due ∨
  delegator_due s' e es d p = 0 ∧ events s' = events s ++ [Payout d p e due].
Proof.
  intros Hstep Hi Hs He Hes due.
  pose proof (λ es, delegator_due_same s s' e es d p Hstep Hi He) as Hsame.
  step_cases Hstep; try by (left; apply Hsame).
  - left. apply Hsame. eapply staked_at_put; [reflexivity|]. intros [= -> ->].
    by eapply past_stake.
  - left. apply Hsame. eapply staked_at_put; [reflexivity|]. intros [= -> ->].
    eapply past_unstake; [done| |done|done]. tauto.
  - match goal with |- delegator_due ?s1 _ _ _ _ = _ ∨ _ => set (s' := s1) in * end.
    assert (DelegationInfo s' = put_delegation who provider_id dl' (DelegationInfo s))
      as Hput by done.
    destruct (decide ((who, provider_id) = (d, p))) as [[= -> ->]|Hne]; last first.
    { left. apply Hsame. by eapply staked_at_put. }
    destruct (claim_delegation s d p era staked dl' Hi Hc Hpos Hera)
      as (_ & _ & _ & Hgt & _ & Hst).
    destruct (decide (era = e)) as [->|Hn].
    + right. split.
      * apply delegator_due_no_stake. unfold staked_at.
        rewrite (delegation_info_put s s' d p dl' d p Hput), decide_True by done.
        apply staked_from_before, Forall_forall. intros y Hy. by apply Hgt.
      * simpl. do 3 f_equal. unfold due, delegator_due, delegator_claim. simpl. simplify_eq.
        repeat match goal with
        | Hp : ProviderInfo s !! _ = _ |- _ => rewrite Hp; clear Hp
        | Hb : before_unregistration _ _ = _ |- _ => rewrite Hb; clear Hb
        end. by rewrite (proj2 (Z.ltb_lt _ _) Hpos).
    + left. apply Hsame. eapply staked_at_put; [exact Hput|]. intros _.
      by eapply claim_other_era.
  - match goal with |- delegator_due ?s1 _ _ _ _ = _ ∨ _ => set (s' := s1) in * end.
    left. destruct (decide ((who, provider_id) = (d, p))) as [[= -> ->]|Hne].
    + rewrite delegator_due_no_stake;
        [|unfold delegation_info, s'; simpl; by rewrite lookup_delete_eq].
      symmetry. by eapply withdrawn_claim.
    + apply Hsame. unfold delegation_info, s'. simpl. by rewrite lookup_delete_ne.
  - left. apply Hsame.
    destruct (on_initialize_cases _ _ _ _ Hd Hi Hmax) as [->|(_ & _ & _ & Hdi & _)]; [done|].
    unfold delegation_info. by rewrite Hdi.
  - rewrite handle_imbalance_run in Hd. injection Hd as <-. left. by apply Hsame.
Qed.

(** ** The due of a provider under a step *)

Lemma provider_claim_same s s' p pm pm' e es :
  before_unregistration pm' e = before_unregistration pm e →
  provider_era_info s' p e = provider_era_info s p e →
  provider_claim s' e es p pm' = provider_claim s e es p pm.
Proof. unfold provider_claim. by intros -> ->. Qed.

(** A flag that is set leaves nothing to claim. *)
Lemma provider_claim_flagged s p pm e es :
  provider_reward_claimed (provider_era_info s p e) = true →
  provider_claim s e es p pm = 0.
Proof. unfold provider_claim. intros ->. simpl. by rewrite andb_false_r. Qed.

(** Only the claim itself sets the flag of a past era. *)
Lemma step_flag s s' p e es :
  step s s' → inv s → e < current (Era s) → EraState s !! e = Some es →
  let info := provider_era_info s p e in
  provider_era_info s' p e = info ∨
  ∃ pm, ProviderInfo s !! p = Some pm ∧ before_unregistration pm e = true ∧
    provider_reward_claimed info = false ∧ 0 < total info ∧
    provider_reward_claimed (provider_era_info s' p e) = true ∧
    events s' =
      events s ++ [Payout (owner pm) p e (split_provider_delegators_rewards info es).1].
Proof.
  intros Hstep Hi He Hes info. assert (∀ s1 p' i, ProviderEraInfo s1 =
    <[(p', current (Era s)):=i]> (ProviderEraInfo s) → provider_era_info s1 p e = info) as Hcur.
  { intros s1 p' i Hs. unfold info, provider_era_info. rewrite Hs, lookup_insert_ne; [done|].
    intros [= ??]. lia. }
  step_cases Hstep; try (by left; eapply Hcur); try by left.
  - destruct (decide ((provider_id, era) = (p, e))) as [[= -> ->]|Hn].
    + right. eexists. do 4 (split; [done|]). split.
      * unfold provider_era_info. simpl. by rewrite lookup_insert_eq.
      * simpl. simplify_eq. done.
    + left. unfold info, provider_era_info. simpl. by rewrite lookup_insert_ne.
  - left. unfold info, provider_era_info.
    destruct (on_initialize_cases _ _ _ _ Hd Hi Hmax) as [->|(_ & _ & -> & _)]; [done|].
    rewrite rotated_other_era; [done|lia].
  - rewrite handle_imbalance_run in Hd. injection Hd as <-. by left.
Qed.

Lemma step_provider_due s s' e es p pm :
  step s s' → inv s → e < current (Era s) → EraState s !! e = Some es →
  ProviderInfo s !! p = Some pm →
  let due := provider_due s e es p in
  provider_due s' e es p = due ∨
  provider_due s' e es p = 0 ∧ events s' = events s ++ [Payout (owner pm) p e due].
Proof.
  intros Hstep Hi He Hes Hp due.
  destruct (step_registered s s' p pm e Hstep Hi He Hp) as (pm' & Hp' & _ & Hb).
  unfold due, provider_due. rewrite Hp, Hp'. simpl.
  destruct (step_flag s s' p e es Hstep Hi He Hes)
    as [Hinfo|(pm0 & Hp0 & Hb0 & Hc & Ht & Hflag & Hev)].
  - left. by apply provider_claim_same.
  - right. simplify_eq. split; [by apply provider_claim_flagged|]. rewrite Hev. do 3 f_equal.
    unfold provider_claim. by rewrite Hb0, Hc, (proj2 (Z.ltb_lt _ _) Ht).
Qed.

(** ** Along a run *)

(** A run that may follow the first block, from a state where era [e] is over. *)
Record closed s (e : Z) es : Prop := {
  closed_inv : inv s;
  closed_started : started s;
  closed_entries : known_entries s;
  closed_past : e < current (Era s);
  closed_state : EraState s !! e = Some es
}.

Lemma step_closed s s' e es : step s s' → closed s e es → closed s' e es.
Proof.
  intros Hstep []. pose proof (step_era s s' Hstep ltac:(done)). split.
  - by eapply step_inv.
  - by eapply step_started.
  - by eapply step_known_entries.
  - lia.
  - by rewrite (step_past_era s s' e).
Qed.

(** [kept due due' pay new]: the due is what it was, or it was paid. *)
Definition kept (due due' : Z) (pay : Z → StakingEvent AccountId ProviderId)
    (new : list (StakingEvent AccountId ProviderId)) : Prop :=
  due' = due ∨ due' = 0 ∧ pay due ∈ new.

Lemma due_kept_trans due due1 due2 pay new new' :
  due1 = due ∨ due1 = 0 ∧ new = [pay due] →
  kept due1 due2 pay new' → kept due due2 pay (new ++ new').
Proof.
  intros [->|[-> ->]] [->|[-> Hpay]]; unfold kept.
  - by left.
  - right. split; [done|]. apply elem_of_app. by right.
  - right. split; [done|]. apply elem_of_app. left. by apply list_elem_of_singleton.
  - right. split; [done|]. apply elem_of_app. left. by apply list_elem_of_singleton.
Qed.

Lemma steps_closed s s' e es :
  rtc step s s' → closed s e es →
  closed s' e es ∧
  paid s' e + outstanding s' e es = paid s e + outstanding s e es ∧
  ∃ new, events s' = events s ++ new ∧
    (∀ d p, kept (delegator_due s e es d p) (delegator_due s' e es d p) (Payout d p e) new) ∧
    (∀ p pm, ProviderInfo s !! p = Some pm →
       kept (provider_due s e es p) (provider_due s' e es p) (Payout (owner pm) p e) new).
Proof.
  induction 1 as [s|s s1 s' Hstep _ IH]; intros Hc.
  { split; [done|]. split; [done|]. exists []. rewrite app_nil_r. split; [done|].
    split; intros; by left. }
  destruct (IH (step_closed s s1 e es Hstep Hc)) as (Hc' & Hsum & new' & Hev & Hdel & Hpro).
  destruct Hc as [Hi Hs Hk He Hes]. split; [done|].
  destruct (step_claims_exact s s1 e es) as (lost & _ & Hlost & Hz); [done..|].
  specialize (Hz Hs). split; [lia|].
  destruct (step_events s s1 Hstep Hi) as [new Hnew]. exists (new ++ new').
  split; [by rewrite Hev, Hnew, app_assoc|]. split.
  - intros d p. eapply due_kept_trans; [|apply Hdel].
    destruct (step_delegator_due s s1 e es d p) as [?|[? Hpay]]; [done..|by left|right].
    split; [done|]. rewrite Hnew in Hpay. by apply app_inv_head in Hpay.
  - intros p pm Hp.
    destruct (step_provider s s1 p pm Hstep Hi Hp) as (pm' & Hp' & Ho & _).
    eapply due_kept_trans; [|rewrite <-Ho; by apply Hpro].
    destruct (step_provider_due s s1 e es p pm) as [?|[? Hpay]]; [done..|by left|right].
    split; [done|]. rewrite Hnew in Hpay. by apply app_inv_head in Hpay.
Qed.

(** The first block opens era 1, before anyone can stake. *)
Lemma first_block_started s0 n w s1 :
  genesis s0 → on_initialize n s0 = (Ok w, s1) → started s1 ∧ known_entries s1 ∧ inv s1.
Proof.
  intros Hg Hr. pose proof (genesis_inv _ Hg) as Hi.
  assert (current (Era s0) < u32_max) as Hmax by (rewrite (genesis_era _ Hg); done).
  assert (step s0 s1) as Hstep by by eapply step_block.
  assert (current (Era s1) = 1 ∧ DelegationInfo s1 = ∅) as [Hera Hdi].
  { destruct Hg as [Hera _ _ _ _ Hdi _ _].
    assert (EraInfo.should_update (Era s0) n = true) as Hn.
    { unfold EraInfo.should_update. rewrite Hera. apply orb_true_r. }
    destruct (on_initialize_new_era n s0 Hn) as [w' Hr']. rewrite Hr in Hr'.
    injection Hr' as _ ->. simpl. unfold next_clock. simpl. by rewrite Hera. }
  split_and!.
  - split; [lia|]. intros d p. split; [lia|]. unfold delegation_info. rewrite Hdi.
    intros x Hx. by apply elem_of_nil in Hx.
  - apply (step_known_entries s0 s1 Hstep Hi). intros p e.
    rewrite (genesis_provider_eras _ Hg), lookup_empty. by intros [? [=]].
  - by eapply step_inv.
Qed.

(** C7: What is due for a closed era stays due until it is paid.  In every state
    that is reached after the first block, for every era that is over: whatever
    happens from there on, the amount that a delegator is entitled to for that
    era stays to the unit what it is until a payout of exactly that amount to that
    delegator appears in the events, then it is zero; the same holds for what a
    provider's owner is entitled to; and what is paid and what is still due for the
    era always add up to the same sum, so no reward is lost by late claims,
    unstaking, unregistration or withdrawal. *)
Theorem dues_kept_until_paid s0 n w0 s1 s s' e es :
  genesis s0 → on_initialize n s0 = (Ok w0, s1) → rtc step s1 s →
  e < current (Era s) → EraState s !! e = Some es → rtc step s s' →
  paid s' e + outstanding s' e es = paid s e + outstanding s e es ∧
  ∃ new, events s' = events s ++ new ∧
    (∀ d p, let due := delegator_due s e es d p in
       delegator_due s' e es d p = due ∨
       delegator_due s' e es d p = 0 ∧ Payout d p e due ∈ new) ∧
    (∀ p pm, ProviderInfo s !! p = Some pm →
       let due := provider_due s e es p in
       provider_due s' e es p = due ∨
       provider_due s' e es p = 0 ∧ Payout (owner pm) p e due ∈ new).
Proof.
  intros Hg Hr Hs1 He Hes Hs. destruct (first_block_started s0 n w0 s1 Hg Hr) as (Hst & Hk & Hi).
  assert (closed s e es) as Hc.
  { destruct (steps_preserve (λ s, started s ∧ known_entries s) s1 s) as [[??] ?]; [|done..|done].
    intros s2 s3 Hstep Hi2 [??]. split; [by eapply step_started|by eapply step_known_entries]. }
  by destruct (steps_closed s s' e es Hs Hc) as [_ ?].
Qed.

End settlement.

(** ** At concrete states

    The run of [claims_scenario] after its first block, then the delegator's
    claim for era 2 and the provider's for era 3. *)

Definition opened : MockState := (on_initialize 1 mock_genesis).2.

Lemma run_ok_claims0 : run_ok (tail claims_scenario) opened = Some claims0.
Proof. vm_compute. reflexivity. Qed.

Lemma dues_kept_until_paid_witness :
  delegator_due claims0 2 (mkEraMetadata 700 2000) 2 50 = 140 ∧
  delegator_due claims4 2 (mkEraMetadata 700 2000) 2 50 = 0 ∧
  provider_due claims4 2 (mkEraMetadata 700 2000) 50 = 560 ∧
  paid claims4 2 + outstanding claims4 2 (mkEraMetadata 700 2000) =
    paid claims0 2 + outstanding claims0 2 (mkEraMetadata 700 2000).
Proof.
  do 3 (split; [reflexivity|]).
  destruct (on_initialize_total 1 mock_genesis) as [w Hw].
  refine (proj1 (dues_kept_until_paid mock_genesis 1 w opened claims0 claims4 2
    (mkEraMetadata 700 2000) mock_genesis_ok Hw _ _ _ _)); [|reflexivity|reflexivity|].
  - exact (run_ok_steps _ _ _ run_ok_claims0).
  - apply (run_ok_steps [ACall (Signed 2) (claim_delegator_call 50);
      ACall (Signed 1) (claim_provider_call 50 3)]). vm_compute. reflexivity.
Defined.

(** Why the first block matters: with a stake in era 0, which no chain has,
    [claim] returns era 0, [delegator_withdraw_unregistered] takes that for
    nothing to claim, and the delegator's open reward is gone unpaid. *)
Definition early_scenario : list Action :=
  [ARegister 1 50 1000; ACall (Signed 2) (delegate_call 50 1000); AReward 500; to_era 1;
   AUnregister 50; to_era 2; to_era 3; to_era 4].
Definition early0 : MockState := after early_scenario.
Definition early1 : MockState := (delegator_withdraw_unregistered (Signed 2) 50 early0).2.

Example era_zero_due_lost :
  reachable early0 ∧
  let es := default EraMetadata_default (EraState early0 !! 0) in
  0 < delegator_due early0 0 es 2 50 ∧
  delegator_due early1 0 es 2 50 = 0 ∧ paid early1 0 = paid early0 0.
Proof. split; [apply after_reachable; vm_compute; reflexivity|by vm_compute]. Qed.
