(* ===== verification/StakingPot.v ===== *)
(** * The pallet's account can pay every reward

    What the pallet has collected and not yet paid ([debt]) is on its account, as
    long as rewards arrive there and nobody else spends from it.  With a reserve
    for the rounding of [Perbill] no claim ever fails for lack of funds, and none
    lets the account be reaped. *)

From S2P Require Export StakingSolvency.
Import DapiStakingError.

(** ** Sums under updates that keep the summand *)

Lemma msum_alter_same `{Countable K} {V} (f : K → V → Z) (g : V → V) (m : gmap K V) k :
  (∀ v, f k (g v) = f k v) → msum f (alter g k m) = msum f m.
Proof.
  intros Hf. destruct (m !! k) as [v|] eqn:Hk.
  - assert (alter g k m = <[k:=g v]> m) as ->.
    { apply map_eq. intros k'. destruct (decide (k' = k)) as [->|Hne].
      - by rewrite lookup_alter_eq, lookup_insert_eq, Hk.
      - by rewrite lookup_alter_ne, lookup_insert_ne. }
    rewrite msum_insert, Hk. simpl. rewrite Hf. lia.
  - f_equal. apply map_eq. intros k'. destruct (decide (k' = k)) as [->|Hne].
    + by rewrite lookup_alter_eq, Hk.
    + by rewrite lookup_alter_ne.
Qed.

Section pot.
Context {AccountId : Type} `{Countable AccountId}.
Context {ProviderId : Type} `{Countable ProviderId}.
Context {Imb L : Type} `{!Currency AccountId Imb L} `{!CurrencyLaws AccountId Imb L}.
Context `{!PerbillOps} `{!PerbillLaws} `{!DbWeightOps} `{!StakingConfig AccountId}.
Context `{!StakingConfigLaws AccountId}.

Abbreviation State := (State AccountId ProviderId L).
Implicit Types s : State.
Implicit Types es : EraMetadata.

(** The free balance of the pallet's account. *)
Definition pot s : Z := free_balance (ledger s) account_id.

(** ** What is collected and not paid *)

Definition unpaid s (e : Z) es : Z := em_rewards es - paid s e.

(** The rewards of the running era and what is left of the closed ones. *)
Definition debt s : Z := RewardAccumulator s + msum (unpaid s) (EraState s).

(** The rounding of all eras together. *)
Definition slack s : Z := Z.of_nat (size (EraState s)) * rounding s.

(** ** Steps that leave the pot to the pallet

    A foreign move of the ledger, or a reward: the pot grows at least by what the
    accumulator does. *)
Definition outside s s' : Prop :=
  (∃ l, s' = set_ledger l s) ∨ (∃ i, handle_imbalance i s = (Ok tt, s')).
Definition pot_step s s' : Prop :=
  step s s' ∧
  (outside s s' → RewardAccumulator s' + pot s <= RewardAccumulator s + pot s').

(** A reward that the pallet's account can take is such a step. *)
Lemma reward_pot_step i s s' :
  handle_imbalance i s = (Ok tt, s') →
  minimum_balance (AccountId := AccountId) (Imb := Imb) (L := L) <= pot s + peek i →
  pot s + reserved_balance (ledger s) account_id + peek i <= u128_max →
  pot_step s s'.
Proof.
  intros Hr Hmin Hmax. split; [by eapply step_reward|]. intros _.
  rewrite handle_imbalance_run in Hr. injection Hr as <-. unfold pot in *. simpl.
  destruct (resolve_creating_spec account_id i (ledger s)) as (_ & _ & Hf).
  rewrite Hf by done. unfold sat_add. lia.
Qed.

(** ** The debt under each step *)

(** Closed or not, an era from the current one on has collected nothing. *)
Definition no_early_rewards s : Prop :=
  ∀ e es, EraState s !! e = Some es → current (Era s) <= e → em_rewards es = 0.

Lemma debt_same s s' :
  RewardAccumulator s' = RewardAccumulator s → (∀ e, paid s' e = paid s e) →
  msum (unpaid s) (EraState s') = msum (unpaid s) (EraState s) → debt s' = debt s.
Proof.
  intros Ha He Hm. unfold debt. rewrite Ha. f_equal. rewrite <-Hm. apply msum_ext.
  intros e es _. unfold unpaid. by rewrite He.
Qed.

Lemma unpaid_staked s e f (m : gmap Z EraMetadata) :
  msum (unpaid s) (alter (map_staked f) e m) = msum (unpaid s) m.
Proof. by apply msum_alter_same. Qed.

(** A payout takes from the debt what it pays. *)
Lemma debt_payout s s' e es v :
  RewardAccumulator s' = RewardAccumulator s → EraState s' = EraState s →
  EraState s !! e = Some es → (∀ e', paid s' e' = paid s e' + (if decide (e = e') then v else 0)) →
  debt s' = debt s - v.
Proof.
  intros Ha He Hes Hp. unfold debt. rewrite Ha, He.
  rewrite (msum_change (unpaid s) (unpaid s') _ e es Hes).
  - unfold unpaid. rewrite Hp, decide_True by done. lia.
  - intros e' es' Hne _. unfold unpaid. rewrite Hp, decide_False by done. lia.
Qed.

(** An era change moves the accumulated rewards to the closed era. *)
Lemma debt_close s (es es' : EraMetadata) :
  let cur := current (Era s) in
  no_early_rewards s → (∀ e, cur <= e → paid s e = 0) →
  em_rewards es = RewardAccumulator s → em_rewards es' = 0 →
  msum (unpaid s) (<[cur:=es]> (<[cur + 1:=es']> (EraState s))) = debt s.
Proof.
  intros cur Hearly Hpaid Hes Hes'. unfold debt.
  assert (∀ e, cur <= e → from_option (unpaid s e) 0 (EraState s !! e) = 0) as Hz.
  { intros e He. destruct (EraState s !! e) as [x|] eqn:Hx; [|done]. simpl. unfold unpaid.
    rewrite (Hearly e x Hx He), Hpaid by done. lia. }
  rewrite msum_insert, lookup_insert_ne, msum_insert by lia. rewrite !Hz by lia.
  unfold unpaid at 2 3. rewrite Hes, Hes', !Hpaid by lia. lia.
Qed.

(** ** Single claims are part of what is outstanding *)

Lemma provider_claim_range s e es p pm :
  inv s → EraState s !! e = Some es → ProviderInfo s !! p = Some pm →
  0 <= provider_claim s e es p pm <= outstanding s e es.
Proof.
  intros Hi He Hp.
  assert (∀ p pm, ProviderInfo s !! p = Some pm → 0 <= provider_claim s e es p pm) as Hn.
  { intros q qm _. unfold provider_claim. case_match; [|done]. by eapply split_nonneg. }
  split; [by apply Hn|]. unfold outstanding.
  pose proof (msum_elem_le _ _ p pm Hp Hn).
  assert (0 <= msum (delegator_claim s e es) (DelegationInfo s)); [|lia].
  apply msum_nonneg. intros k dl _. unfold delegator_claim. repeat case_match; try done.
  apply pb_mul_le. by eapply split_nonneg.
Qed.

Lemma delegator_claim_range s e es k dl :
  inv s → EraState s !! e = Some es → DelegationInfo s !! k = Some dl →
  0 <= delegator_claim s e es k dl <= outstanding s e es.
Proof.
  intros Hi He Hk.
  assert (∀ k dl, DelegationInfo s !! k = Some dl → 0 <= delegator_claim s e es k dl) as Hn.
  { intros k' dl' _. unfold delegator_claim. repeat case_match; try done.
    apply pb_mul_le. by eapply split_nonneg. }
  split; [by apply Hn|]. unfold outstanding.
  pose proof (msum_elem_le _ _ k dl Hk Hn).
  assert (0 <= msum (provider_claim s e es) (ProviderInfo s)); [|lia].
  apply msum_nonneg. intros p pm _. unfold provider_claim. case_match; [|done].
  by eapply split_nonneg.
Qed.

(** The reward a provider's claim asks for. *)
Lemma provider_reward_range s p pm e es :
  inv s → ProviderInfo s !! p = Some pm → before_unregistration pm e = true →
  EraState s !! e = Some es → provider_reward_claimed (provider_era_info s p e) = false →
  0 < total (provider_era_info s p e) →
  0 <= (split_provider_delegators_rewards (provider_era_info s p e) es).1 <= outstanding s e es.
Proof.
  intros Hi Hp Hb He Hc Ht. pose proof (provider_claim_range s e es p pm Hi He Hp) as Hr.
  unfold provider_claim in Hr. by rewrite Hb, Hc, (proj2 (Z.ltb_lt _ _) Ht) in Hr.
Qed.

(** The reward a delegator's next claim asks for. *)
Lemma delegator_reward_range s w p pm era staked dl' es :
  inv s → Delegation.claim (delegation_info s w p) = ((era, staked), dl') → 0 < staked →
  era < current (Era s) → ProviderInfo s !! p = Some pm →
  before_unregistration pm era = true → EraState s !! era = Some es →
  0 <= delegator_reward (provider_era_info s p era) es staked <= outstanding s era es.
Proof.
  intros Hi Hc Hpos Hera Hp Hb He.
  destruct (claim_delegation s w p era staked dl' Hi Hc Hpos Hera) as (_ & _ & _ & _ & _ & Hst).
  destruct (DelegationInfo s !! (w, p)) as [dl|] eqn:Hk; last first.
  { unfold delegation_info in Hc. rewrite Hk in Hc. simpl in Hc. injection Hc as <- <- <-. lia. }
  pose proof (delegator_claim_range s era es (w, p) dl Hi He Hk) as Hr.
  assert (delegation_info s w p = dl) as Hdl by (unfold delegation_info; by rewrite Hk).
  rewrite Hdl in Hst. unfold delegator_claim in Hr. simpl in Hr.
  rewrite Hp, Hb, <-Hst, (proj2 (Z.ltb_lt _ _) Hpos) in Hr. exact Hr.
Qed.

(** ** The pot under each step *)

Lemma pot_reserve who v s (l : L) u :
  0 <= v → reserve who v (ledger s) = Ok (u, l) → who ≠ account_id →
  free_balance l account_id = pot s.
Proof. intros Hv Hr Hw. destruct (reserve_Ok _ _ _ _ _ Hv Hr) as (_ & _ & Ho). by apply Ho. Qed.

Lemma pot_unreserve who v s (l : L) rest :
  0 <= v → unreserve who v (ledger s) = (rest, l) → who ≠ account_id →
  free_balance l account_id = pot s.
Proof.
  intros Hv Hr Hw. destruct (unreserve_spec _ _ _ _ _ Hv Hr) as (_ & _ & _ & Ho). by apply Ho.
Qed.

(** A payout that leaves the minimum balance. *)
Lemma pot_payout s v i (l : L) to :
  0 <= v → withdraw account_id v AllowDeath (ledger s) = Ok (i, l) → to ≠ account_id →
  minimum_balance (AccountId := AccountId) (Imb := Imb) (L := L) + v <= pot s →
  free_balance (resolve_creating to i l) account_id = pot s - v.
Proof.
  intros Hv Hw Hto Hmin. destruct (withdraw_Ok _ _ _ _ _ _ Hv Hw) as (_ & _ & Hk).
  destruct (resolve_creating_spec to i l) as (_ & Ho & _).
  destruct (Ho account_id) as [-> _]; [congruence|]. unfold pot in *.
  pose proof (reserved_nonneg (ledger s) account_id).
  destruct Hk as [-> _]; [right; lia|done].
Qed.

Lemma paid_other s s' ev e :
  events s' = events s ++ [ev] → payout_in e ev = 0 → paid s' e = paid s e.
Proof. intros Hev Hp. rewrite (paid_snoc s s' ev e Hev), Hp. lia. Qed.

(** Every claim leaves the minimum balance. *)
Definition covered s : Prop :=
  ∀ e es, e < current (Era s) → EraState s !! e = Some es →
    minimum_balance (AccountId := AccountId) (Imb := Imb) (L := L) + outstanding s e es <= pot s.

(** An operation that pays nothing and moves nothing of the pot. *)
Lemma pot_quiet s s' :
  RewardAccumulator s' = RewardAccumulator s → (∀ e, paid s' e = paid s e) →
  msum (unpaid s) (EraState s') = msum (unpaid s) (EraState s) →
  free_balance (ledger s') account_id = pot s → pot s + debt s' <= pot s' + debt s.
Proof. intros Ha Hp Hm Hf. rewrite (debt_same s s' Ha Hp Hm). unfold pot in *. lia. Qed.

Ltac pot_quiet :=
  apply pot_quiet;
    [done|intros ?; (done || by eapply paid_other)|(done || apply unpaid_staked)|simpl].

(** Paying [v] out of what is outstanding of an era. *)
Lemma pot_payment s s' e es v p who i (l : L) :
  RewardAccumulator s' = RewardAccumulator s → EraState s' = EraState s →
  events s' = events s ++ [Payout who p e v] → ledger s' = resolve_creating who i l →
  withdraw account_id v AllowDeath (ledger s) = Ok (i, l) → who ≠ account_id →
  e < current (Era s) → EraState s !! e = Some es → 0 <= v <= outstanding s e es →
  covered s → pot s + debt s' <= pot s' + debt s.
Proof.
  intros Ha He Hev Hl Hw Hne Hlt Hes Hv Hcov. specialize (Hcov e es Hlt Hes).
  rewrite (debt_payout s s' e es v Ha He Hes).
  - unfold pot at 2. rewrite Hl, (pot_payout s v i l who); [lia|lia|done|done|lia].
  - intros e'. rewrite (paid_snoc s s' _ e' Hev). done.
Qed.

Lemma step_pot s s' :
  pot_step s s' → inv s → no_early_rewards s → (∀ e, current (Era s) <= e → paid s e = 0) →
  covered s → pot s + debt s' <= pot s' + debt s.
Proof.
  intros [Hstep Hmove] Hi Hearly Hpaid Hcov. unfold signer_ok in *.
  step_cases Hstep; try (clear Hmove; pot_quiet;
    first [done|eapply pot_reserve; [|eassumption|congruence]; lia]).
  - pot_quiet. eapply pot_unreserve; [|done|congruence].
    match goal with Hp : Unbonding.partition (unbonding_info s ?w) _ = _ |- _ =>
      pose proof (unbonded_sum s w Hi) as Hu; rewrite Hp in Hu end. apply Hu.
  - match goal with Hp : ProviderInfo s !! _ = Some ?pm |- _ =>
      destruct (inv_providers _ Hi _ _ Hp) as [Hown _] end.
    eapply pot_payment; [done|done|done|done|done|done|done|done| |done].
    by eapply provider_reward_range.
  - eapply pot_payment; [done|done|done|done|done|congruence|done|done| |done].
    by eapply delegator_reward_range.
  - match goal with Hp : ProviderInfo s !! _ = Some ?pm, Hs : status ?pm = _ |- _ =>
      destruct (inv_providers _ Hi _ _ Hp) as [Hown Hok]; rewrite Hs in Hok end.
    pot_quiet. eapply pot_unreserve; [|done|done]. apply Hok.
  - pot_quiet. eapply pot_unreserve; [|done|congruence]. lia.
  - clear Hmove. pose proof MinProviderStake_nonneg. apply pot_quiet; [done|done| |].
    + simpl. rewrite msum_insert. unfold unpaid at 2 3.
      destruct (EraState s !! current (Era s)) as [es|]; simpl; [lia|].
      rewrite Hpaid by lia. lia.
    + simpl. eapply pot_reserve; [|done|done]. lia.
  - destruct (on_initialize_outcome _ _ _ _ Hd Hi Hmax) as [->| ->]; [lia|].
    unfold pot, debt at 1. simpl.
    rewrite (msum_ext _ (unpaid s)).
    + rewrite debt_close by done. lia.
    + intros e es _. unfold unpaid. f_equal. by apply (paid_other s _ (NewEra (current (Era s) + 1) n)).
  - specialize (Hmove (or_intror (ex_intro _ i Hd))). rewrite handle_imbalance_run in Hd.
    injection Hd as <-. unfold debt. simpl in *.
    rewrite (msum_ext _ (unpaid s)) by done. lia.
  - specialize (Hmove (or_introl (ex_intro _ l eq_refl))). unfold debt. simpl in *.
    rewrite (msum_ext _ (unpaid s)) by done. lia.
Qed.

(** ** Every reachable state *)

Lemma step_era_state s s' e es' :
  step s s' → inv s → EraState s' !! e = Some es' → current (Era s') <= e →
  em_rewards es' = 0 ∨ ∃ es, EraState s !! e = Some es ∧ em_rewards es' = em_rewards es.
Proof.
  intros Hstep Hi.
  assert (∀ f, alter (map_staked f) (current (Era s)) (EraState s) !! e = Some es' →
    ∃ es, EraState s !! e = Some es ∧ em_rewards es' = em_rewards es) as Halt.
  { intros f [(<- & es & Hes & ->)|(_ & Hes)]%lookup_alter_Some; [by exists es|by exists es']. }
  step_cases Hstep; simpl; try (intros; right; by eauto).
  - intros [[<- <-]|[_ Hx]]%lookup_insert_Some _; [|right; by eauto]. simpl.
    destruct (EraState s !! current (Era s)) as [es|] eqn:Hes; [right|by left].
    by exists es.
  - destruct (on_initialize_outcome _ _ _ _ Hd Hi Hmax) as [->| ->]; [right; by eauto|].
    simpl. intros Hx Hle. rewrite lookup_insert_ne in Hx by lia.
    apply lookup_insert_Some in Hx as [[<- <-]|[_ Hx]]; [by left|right; by eauto].
  - rewrite handle_imbalance_run in Hd. injection Hd as <-. right. by eauto.
Qed.

Lemma step_no_early_rewards s s' :
  step s s' → inv s → no_early_rewards s → no_early_rewards s'.
Proof.
  intros Hstep Hi He e es' Hes' Hle. pose proof (step_era s s' Hstep Hi).
  destruct (step_era_state s s' e es' Hstep Hi Hes' Hle) as [?|(es & Hes & ->)]; [done|].
  apply (He e es Hes). lia.
Qed.

Lemma step_eras_kept s s' : step s s' → inv s → dom (EraState s) ⊆ dom (EraState s').
Proof.
  intros Hstep Hi. step_cases Hstep; simpl; rewrite ?dom_alter_L; try set_solver.
  - destruct (on_initialize_outcome _ _ _ _ Hd Hi Hmax) as [->| ->]; [done|]. simpl. set_solver.
  - rewrite handle_imbalance_run in Hd. by injection Hd as <-.
Qed.

Lemma rounding_nonneg s : 0 <= rounding s.
Proof. unfold rounding. pose proof MaxDelegatorsPerProvider_range. lia. Qed.

Lemma step_slack s s' : step s s' → inv s → slack s <= slack s'.
Proof.
  intros Hstep Hi. unfold slack. pose proof (step_rounding s s' Hstep Hi).
  pose proof (rounding_nonneg s).
  assert (size (EraState s) <= size (EraState s'))%nat; [|nia].
  rewrite <-!size_dom. by apply subseteq_size, step_eras_kept.
Qed.

(** A pot that holds the debt, the slack and the minimum balance covers every
    claim. *)
Lemma pot_covered s :
  inv s → solvent s → no_early_rewards s →
  minimum_balance (AccountId := AccountId) (Imb := Imb) (L := L) + slack s + debt s <= pot s →
  covered s.
Proof.
  intros Hi [_ _ Hfut Hpast] Hearly Hpot e es He Hes. pose proof (inv_rewards _ Hi) as [Hacc _].
  pose proof (rounding_nonneg s) as Hround.
  assert (∀ e es, EraState s !! e = Some es → 0 <= unpaid s e es + rounding s) as Hn.
  { intros e' es' Hes'. unfold unpaid. destruct (Z.lt_ge_cases e' (current (Era s))).
    - specialize (Hpast e' es' ltac:(done) Hes').
      pose proof (outstanding_nonneg s e' es' Hi Hes'). lia.
    - rewrite (Hearly e' es' Hes') by done. rewrite Hfut by done. lia. }
  pose proof (msum_elem_le (λ e es, unpaid s e es + rounding s) _ e es Hes Hn) as Hle.
  simpl in Hle. rewrite msum_plus in Hle.
  rewrite (msum_ext (λ _ _, rounding s) (λ _ _, rounding s * 1)) in Hle by (intros; lia).
  rewrite msum_scale, msum_size in Hle. specialize (Hpast e es He Hes).
  unfold debt, slack, unpaid in *. lia.
Qed.

Lemma pot_steps s0 s :
  rtc pot_step s0 s → inv s0 → solvent s0 → no_early_rewards s0 →
  inv s ∧ solvent s ∧ no_early_rewards s ∧
  (minimum_balance (AccountId := AccountId) (Imb := Imb) (L := L) + slack s + debt s0 <= pot s0 →
   pot s0 + debt s <= pot s + debt s0).
Proof.
  intros Hs Hi0 Hv0 He0. revert s Hs. refine (rtc_ind_r _ s0 _ _).
  { split_and!; [done..|lia]. }
  intros s s' _ Hstep (Hi & Hv & He & Hpot).
  pose proof (proj1 Hstep) as Hst. split_and!.
  - by eapply step_inv.
  - by eapply step_solvent.
  - by eapply step_no_early_rewards.
  - intros Hmin. pose proof (step_slack s s' Hst Hi). specialize (Hpot ltac:(lia)).
    assert (covered s) as Hcov by (apply pot_covered; [done..|lia]).
    pose proof (step_pot s s' Hstep Hi He (solvent_future _ Hv) Hcov). lia.
Qed.

Lemma genesis_no_early s : genesis s → no_early_rewards s.
Proof. intros Hg e es. rewrite (genesis_era_state _ Hg), lookup_empty. done. Qed.

Lemma genesis_debt s : genesis s → debt s = 0.
Proof.
  intros Hg. unfold debt. rewrite (genesis_accumulator _ Hg), (genesis_era_state _ Hg).
  by rewrite msum_empty.
Qed.

Lemma genesis_solvent s : genesis s → solvent s.
Proof. intros Hg. apply reachable_solvent. exists s. split; [done|apply rtc_refl]. Qed.

(** C8: The pallet's account holds what it owes in rewards: when rewards arrive on
    it and nobody else spends from it, and it started with the minimum balance
    and a reserve for rounding (one unit for each era, provider and delegator),
    then in every reachable state its balance is at least the starting balance
    plus the rewards collected and not yet paid, and every amount that can be
    claimed for a closed era can be paid out of it without reaping it. *)
Theorem pot_covers_claims s0 s :
  genesis s0 → rtc pot_step s0 s →
  minimum_balance (AccountId := AccountId) (Imb := Imb) (L := L) + slack s <= pot s0 →
  pot s0 + RewardAccumulator s +
    msum (λ e es, em_rewards es - paid s e) (EraState s) <= pot s ∧
  ∀ e es, e < current (Era s) → EraState s !! e = Some es →
    minimum_balance (AccountId := AccountId) (Imb := Imb) (L := L) + outstanding s e es <= pot s.
Proof.
  intros Hg Hs Hmin. pose proof (genesis_debt _ Hg) as Hd0.
  destruct (pot_steps s0 s Hs (genesis_inv _ Hg) (genesis_solvent _ Hg) (genesis_no_early _ Hg))
    as (Hi & Hv & He & Hpot).
  specialize (Hpot ltac:(lia)). split; [unfold debt at 1 in Hpot; unfold unpaid in Hpot; lia|].
  apply pot_covered; [done..|lia].
Qed.

(** ** Claims that meet their guards succeed *)

(** Runs one step of a handler whose guards are hypotheses. *)
Ltac run_guard :=
  first
    [erewrite bind_run_Ok by reflexivity
    |erewrite (bind_run_Ok _ _ _ tt)
       by first [apply ensure_Ok; split; [first [eassumption|by apply Z.ltb_lt]|reflexivity]
                |by apply update_delegation_info_Ok]
    |erewrite bind_run_Ok
       by first [apply ok_or_Ok; split; [eassumption|reflexivity]
                |apply currency_withdraw_Ok; eexists; split; [eassumption|reflexivity]]];
  cbv beta.

Lemma claim_provider_run who s p e pm es i (l : L) :
  let info := provider_era_info s p e in
  let reward := (split_provider_delegators_rewards info es).1 in
  ProviderInfo s !! p = Some pm → before_unregistration pm e = true → e < current (Era s) →
  provider_reward_claimed info = false → 0 < total info → EraState s !! e = Some es →
  withdraw account_id reward AllowDeath (ledger s) = Ok (i, l) →
  claim_provider (Signed who) p e s =
  (Ok tt, mkState (Era s) (EraState s) (RewardAccumulator s) (ProviderInfo s)
     (<[(p, e):=mkProviderEraMetadata (bond info) (total info) (delegator_count info) true]>
        (ProviderEraInfo s))
     (DelegationInfo s) (UnbondingInfo s) (resolve_creating (owner pm) i l)
     (events s ++ [Payout (owner pm) p e reward])).
Proof.
  intros info reward Hp Hb He Hc Ht Hes Hw. unfold claim_provider.
  assert (negb (provider_reward_claimed (provider_era_info s p e)) = true) as Hc'
    by (fold info; by rewrite Hc).
  do 11 run_guard. fold info. unfold reward in Hw.
  destruct (split_provider_delegators_rewards info es) as [r1 r2] eqn:Hr. simpl in Hw.
  unfold reward. simpl. by do 3 run_guard.
Qed.

Lemma claim_delegator_run who s p era staked dl' pm es i (l : L) :
  let reward := delegator_reward (provider_era_info s p era) es staked in
  Delegation.claim (delegation_info s who p) = ((era, staked), dl') → 0 < staked →
  ProviderInfo s !! p = Some pm → before_unregistration pm era = true →
  era < current (Era s) → EraState s !! era = Some es →
  withdraw account_id reward AllowDeath (ledger s) = Ok (i, l) →
  claim_delegator (Signed who) p s =
  (Ok tt, mkState (Era s) (EraState s) (RewardAccumulator s) (ProviderInfo s)
     (ProviderEraInfo s) (put_delegation who p dl' (DelegationInfo s)) (UnbondingInfo s)
     (resolve_creating who i l) (events s ++ [Payout who p era reward])).
Proof.
  intros reward Hcl Hpos Hp Hb He Hes Hw. unfold claim_delegator.
  do 2 run_guard. rewrite Hcl. do 9 run_guard.
  unfold reward, delegator_reward in *.
  destruct (split_provider_delegators_rewards (provider_era_info s p era) es) as [r1 r2] eqn:Hr.
  simpl in *. by do 3 run_guard.
Qed.

(** Every closed era has its metadata. *)
Definition eras_known s : Prop := ∀ e, 0 <= e < current (Era s) → is_Some (EraState s !! e).

Lemma step_eras_known s s' : step s s' → inv s → eras_known s → eras_known s'.
Proof.
  intros Hstep Hi Hk e He. pose proof (step_eras_kept s s' Hstep Hi) as Hsub.
  pose proof (step_era_succ s s' Hstep Hi). apply elem_of_dom.
  destruct (Z.lt_ge_cases e (current (Era s))) as [Hlt|Hge].
  { apply Hsub, elem_of_dom, Hk. lia. }
  assert (e = current (Era s)) as -> by lia. clear Hsub Hk.
  step_cases Hstep; simpl in *; try lia.
  - destruct (on_initialize_outcome _ _ _ _ Hd Hi Hmax) as [->| ->]; [lia|]. simpl. set_solver.
  - rewrite handle_imbalance_run in Hd. injection Hd as <-. simpl in *. lia.
Qed.

(** Withdrawing from the pallet's account fails for lack of funds only: nothing
    locks them. *)
Class LiquidPot : Prop :=
  withdraw_liquid : ∀ (l : L) v, 0 <= v →
    minimum_balance (AccountId := AccountId) (Imb := Imb) (L := L) + v <=
      free_balance l (account_id : AccountId) →
    ∃ (i : Imb) l', withdraw account_id v AllowDeath l = Ok (i, l').

(** C9: No claim fails for lack of funds: under the conditions of
    [pot_covers_claims], in every reachable state, a provider's claim for any
    closed era in which it was staked, registered and unpaid succeeds and pays
    the provider's part, and a delegator's claim succeeds whenever the first era
    of its history is closed, has a stake and lies before any unregistration of
    the provider. *)
Theorem reward_claims_are_paid s0 s `{!LiquidPot} :
  genesis s0 → rtc pot_step s0 s →
  minimum_balance (AccountId := AccountId) (Imb := Imb) (L := L) + slack s <= pot s0 →
  (∀ who p pm e,
     ProviderInfo s !! p = Some pm → before_unregistration pm e = true →
     0 <= e < current (Era s) → 0 < total (provider_era_info s p e) →
     provider_reward_claimed (provider_era_info s p e) = false →
     ∃ s' es, EraState s !! e = Some es ∧ claim_provider (Signed who) p e s = (Ok tt, s') ∧
       let v := (split_provider_delegators_rewards (provider_era_info s p e) es).1 in
       events s' = events s ++ [Payout (owner pm) p e v] ∧ pot s' = pot s - v) ∧
  (∀ who p pm x rest,
     ProviderInfo s !! p = Some pm → stakes (delegation_info s who p) = x :: rest →
     0 < es_amount x → es_era x < current (Era s) → before_unregistration pm (es_era x) = true →
     ∃ s' es, EraState s !! es_era x = Some es ∧ claim_delegator (Signed who) p s = (Ok tt, s') ∧
       let v := delegator_reward (provider_era_info s p (es_era x)) es (es_amount x) in
       events s' = events s ++ [Payout who p (es_era x) v] ∧ pot s' = pot s - v).
Proof.
  intros Hg Hs Hmin. pose proof (genesis_debt _ Hg) as Hd0.
  destruct (pot_steps s0 s Hs (genesis_inv _ Hg) (genesis_solvent _ Hg) (genesis_no_early _ Hg))
    as (Hi & Hv & He & Hpot).
  assert (covered s) as Hcov by (apply pot_covered; [done..|lia]).
  assert (eras_known s) as Hk.
  { apply (steps_preserve eras_known s0); [apply step_eras_known| |by apply genesis_inv|].
    - eapply rtc_subrel; [|exact Hs]. by intros ?? [].
    - intros e. rewrite (genesis_era _ Hg). lia. }
  split.
  - intros who p pm e Hp Hb Hera Ht Hc. destruct (Hk e Hera) as [es Hes].
    pose proof (provider_reward_range s p pm e es Hi Hp Hb Hes Hc Ht) as Hr.
    specialize (Hcov e es (proj2 Hera) Hes). destruct (inv_providers _ Hi p pm Hp) as [Hown _].
    destruct (withdraw_liquid (ledger s) _ (proj1 Hr)) as (i & l & Hw);
      [unfold pot in Hcov; lia|].
    eexists _, es. split; [done|].
    split; [exact (claim_provider_run who s p e pm es i l Hp Hb (proj2 Hera) Hc Ht Hes Hw)|].
    split; [done|]. apply (pot_payout s _ i l _ (proj1 Hr) Hw); [done|lia].
  - intros who p pm x rest Hp Hst Hpos Hlt Hb.
    destruct (delegation_info_ok _ _ _ who p (inv_delegations _ Hi)) as (Hwf & _).
    fold (delegation_info s who p) in Hwf. unfold wf_delegation in Hwf. rewrite Hst in Hwf.
    apply wf_stakes_cons in Hwf as (_ & [Hx0 _] & _).
    destruct (Hk (es_era x)) as [es Hes]; [lia|].
    destruct (Delegation.claim (delegation_info s who p)) as [[era staked] dl'] eqn:Hcl.
    assert (era = es_era x ∧ staked = es_amount x) as [-> ->].
    { unfold Delegation.claim in Hcl. rewrite Hst in Hcl. by simplify_eq. }
    pose proof (delegator_reward_range s who p pm _ _ dl' es Hi Hcl Hpos Hlt Hp Hb Hes) as Hr.
    specialize (Hcov _ es Hlt Hes).
    destruct (withdraw_liquid (ledger s) _ (proj1 Hr)) as (i & l & Hw);
      [unfold pot in Hcov; lia|].
    assert (who ≠ account_id) as Hne.
    { unfold delegation_info in Hst. destruct (DelegationInfo s !! (who, p)) as [dl|] eqn:Hdl;
        [|done]. by destruct (inv_delegations _ Hi _ _ _ Hdl). }
    eexists _, es. split; [done|].
    split; [exact (claim_delegator_run who s p _ _ dl' pm es i l Hcl Hpos Hp Hb Hlt Hes Hw)|].
    split; [done|]. apply (pot_payout s _ i l _ (proj1 Hr) Hw); [done|lia].
Qed.

End pot.

(** ** The theorems at a concrete chain

    The chain of [claims_scenario], with an endowed pallet account: in era 4 the
    rewards of the eras 2 and 3 are unpaid. *)

#[global] Instance ledger_liquid : LiquidPot (AccountId := Z) (Imb := Z) (L := Ledger).
Proof.
  intros l v Hv Hmin. pose proof (ED_nonneg : 0 <= ED) as He. simpl in *. rewrite andb_true_r.
  change (free l account_id) with (free l 99) in Hmin.
  destruct (Z.leb_spec v (free l 99)); [by eexists _, _|lia].
Qed.

Definition pot_ledger : Ledger :=
  mkLedger (<[99:=(1000, 0)]> (accounts mock_ledger)) (issued mock_ledger + 1000).
Definition pot_genesis : MockState :=
  mkState (mkEraInfo 0 0 0) ∅ 0 ∅ ∅ ∅ ∅ pot_ledger [].

(** Runs a scenario in which every action lets the pot grow with the accumulator. *)
Fixpoint run_pot (l : list Action) (s : MockState) : option MockState :=
  match l with
  | [] => Some s
  | a :: l' =>
      match act a s with
      | (Ok _, s') =>
          if action_ok a s s' && (RewardAccumulator s' + pot s <=? RewardAccumulator s + pot s')
          then run_pot l' s' else None
      | (Err _, _) => None
      end
  end.

Lemma run_pot_steps l s s' : run_pot l s = Some s' → rtc pot_step s s'.
Proof.
  revert s. induction l as [|a l IH]; simpl; intros s Hr; [by simplify_eq|].
  destruct (act a s) as [[[]|] s1] eqn:Ha; [|done].
  destruct (action_ok a s s1 && _) eqn:Hc; [|done].
  apply andb_true_iff in Hc as [Hok Hle%Z.leb_le].
  eapply rtc_l; [|by apply IH]. split; [exact (action_step a s s1 Ha Hok)|done].
Qed.

Definition funded : MockState := default pot_genesis (run_pot claims_scenario pot_genesis).

Lemma funded_steps : rtc pot_step pot_genesis funded.
Proof.
  assert ((if run_pot claims_scenario pot_genesis is Some _ then true else false) = true)
    as Hr by (vm_compute; reflexivity).
  unfold funded. destruct (run_pot claims_scenario pot_genesis) as [s|] eqn:Hs; [|done].
  by apply (run_pot_steps claims_scenario).
Qed.

Lemma pot_genesis_ok : genesis pot_genesis.
Proof. by split. Qed.

Lemma pot_covers_claims_witness :
  pot funded = 3100 ∧ outstanding funded 2 (mkEraMetadata 700 2000) = 700 ∧
  ED + outstanding funded 2 (mkEraMetadata 700 2000) <= pot funded.
Proof.
  split; [reflexivity|]. split; [reflexivity|].
  refine (proj2 (pot_covers_claims pot_genesis funded pot_genesis_ok funded_steps _)
    2 (mkEraMetadata 700 2000) _ _); vm_compute; done.
Defined.

Lemma reward_claims_are_paid_witness :
  ∃ s' es, EraState funded !! 2 = Some es ∧ claim_delegator (Signed 2) 50 funded = (Ok tt, s') ∧
    events s' = events funded ++
      [Payout 2 50 2 (delegator_reward (provider_era_info funded 50 2) es 1000)] ∧
    pot s' = pot funded - delegator_reward (provider_era_info funded 50 2) es 1000.
Proof.
  refine (proj2 (reward_claims_are_paid pot_genesis funded pot_genesis_ok funded_steps _)
    2 50 (mkProviderMetadata 1 Active false) (mkEraStake 1000 2) [] _ _ _ _ _);
    vm_compute; done.
Defined.
