(* ===== verification/StakingLaws.v ===== *)
(** * What each operation of the staking pallet does

    Failing calls change nothing; calls other than claims move balances between
    free and reserved only; the functional behaviour of [delegate],
    [delegator_unstake], [claim_delegator], the reward split and the era change;
    and the behaviours of the code that differ from its documentation. *)

From S2P Require Export StakingHistory.
Import DapiStakingError.

Section laws.
Context {AccountId : Type} `{Countable AccountId}.
Context {ProviderId : Type} `{Countable ProviderId}.
Context {Imb L : Type} `{!Currency AccountId Imb L} `{!CurrencyLaws AccountId Imb L}.
Context `{!PerbillOps} `{!PerbillLaws} `{!DbWeightOps} `{!StakingConfig AccountId}.
Context `{!StakingConfigLaws AccountId}.

Abbreviation State := (State AccountId ProviderId L).
Implicit Types s : State.

(** A dispatchable, a registration or an unregistration that fails has
    written nothing: the storage, the ledger and the events are as before (the
    pallet verifies first and writes last; Substrate of this version does not
    roll a failing call back). *)
Theorem failed_call_changes_nothing s s' e :
  (∃ c origin, dispatch c origin s = (Err e, s')) ∨
  (∃ a p b, register_provider a p b s = (Err e, s')) ∨
  (∃ p, unregister_provider p s = (Err e, s')) →
  s' = s.
Proof.
  intros [(c & origin & Hr)|[(a & p & b & Hr)|(p & Hr)]].
  - by apply dispatch_atomic in Hr.
  - by apply register_provider_atomic in Hr.
  - by apply unregister_provider_atomic in Hr.
Qed.

(** *** Balances *)

Definition holdings (l : L) (w : AccountId) : Z := free_balance l w + reserved_balance l w.

Lemma reserve_holdings who v (l l' : L) w :
  0 <= v → reserve who v l = Ok (tt, l') → holdings l' w = holdings l w.
Proof.
  intros Hv (Hf & Hr & Ho)%reserve_Ok; [|done]. unfold holdings.
  destruct (decide (w = who)) as [->|Hne]; [lia|]. destruct (Ho w Hne). lia.
Qed.

Lemma unreserve_holdings who v (l l' : L) rest w :
  0 <= v → unreserve who v l = (rest, l') → holdings l' w = holdings l w.
Proof.
  intros Hv Hu. destruct (unreserve_spec _ _ _ _ _ Hv Hu) as (_ & Hf & Hr & Ho).
  unfold holdings. destruct (decide (w = who)) as [->|Hne]; [lia|].
  destruct (Ho w Hne). lia.
Qed.

Definition is_claim (c : StakingCall ProviderId) : bool :=
  match c with
  | claim_provider_call _ _ | claim_delegator_call _ => true
  | _ => false
  end.

(** C14: In a reachable state every call except the two claims leaves the total
    holdings (free plus reserved) of every account as they are: the pallet
    never creates, destroys or transfers funds outside reward payments. *)
Theorem calls_conserve_holdings s s' c origin w :
  reachable s → dispatch c origin s = (Ok tt, s') → is_claim c = false →
  holdings (ledger s') w = holdings (ledger s) w.
Proof.
  intros Hi%reachable_inv Hd Hc. destruct c; simpl in *; try done.
  - by apply set_blocks_per_era_Ok in Hd as (_ & _ & ->).
  - apply provider_bond_more_Ok in Hd
      as (? & ? & ? & _ & Hv & _ & _ & _ & _ & _ & Hr & ->).
    simpl. eapply reserve_holdings; [|done]. lia.
  - by apply provider_bond_less_Ok in Hd as (? & ? & _ & _ & _ & _ & _ & _ & _ & ->).
  - apply delegate_Ok in Hd as (? & ? & ? & _ & Hv & _ & _ & _ & _ & _ & _ & Hr & ->).
    simpl. eapply reserve_holdings; [|done]. lia.
  - by apply delegator_unstake_Ok in Hd
      as (? & ? & ? & ? & _ & _ & _ & _ & _ & _ & _ & _ & _ & ->).
  - apply withdraw_unbonded_Ok in Hd as (who & valid & ? & ? & ? & _ & Hp & _ & Hu & ->).
    pose proof (unbonded_sum s who Hi) as Hs. rewrite Hp in Hs. simpl.
    eapply unreserve_holdings; [|done]. lia.
  - apply provider_withdraw_unregistered_Ok in Hd
      as (who & pm & e & ? & ? & _ & Hp & Hbw & Hin & _ & Hu & ->).
    simpl. eapply unreserve_holdings; [|done].
    pose proof (inv_providers _ Hi _ _ Hp) as [_ Hok]. rewrite Hin in Hok. apply Hok.
  - apply delegator_withdraw_unregistered_Ok in Hd
      as (who & ? & ? & ? & ? & _ & _ & _ & _ & Hpos & _ & Hu & ->).
    simpl. eapply unreserve_holdings; [|done]. lia.
Qed.

(** *** Staking and unstaking *)

(** A successful [delegate] of [v] adds exactly [v] to the caller's stake
    from the current era on and leaves the stake of every past era alone; the
    amount moves from the free to the reserved balance; the stake is then at
    least the minimum, and nobody else's stake in the provider changes. *)
Theorem delegate_adds_stake s s' who p v :
  reachable s → supply_ok (ledger s') →
  delegate (Signed who) p v s = (Ok tt, s') →
  let d := delegation_info s who p in
  let d' := delegation_info s' who p in
  0 < v ∧ MinDelegatorStake <= latest d' ∧ latest d' = latest d + v ∧
  (∀ e, staked_at d' e = if current (Era s) <=? e then latest d + v else staked_at d e) ∧
  free_balance (ledger s') who = free_balance (ledger s) who - v ∧
  reserved_balance (ledger s') who = reserved_balance (ledger s) who + v ∧
  (∀ w, w ≠ who → delegation_info s' w p = delegation_info s w p).
Proof.
  intros Hi%reachable_inv Hsup
    (? & dl' & l & [= <-] & Hv & _ & _ & Hst & _ & Hmin & _ & Hr & ->)%delegate_Ok.
  simpl in Hsup.
  pose proof (delegation_info_ok _ _ _ who p (inv_delegations _ Hi)) as (Hwf & _ & Hl & _).
  fold (delegation_info s who p) in *.
  pose proof (reserve_Ok _ _ _ _ _ (Z.lt_le_incl _ _ Hv) Hr) as (Hf & Hr' & _).
  pose proof (reserved_range l who). pose proof (obligations_range s who Hi) as Hob.
  unfold obligations in Hob. pose proof (owned_bonds_nonneg s who Hi).
  pose proof (unbonding_info_ok s who Hi) as [_ Hun].
  assert (is_u128 v) as Hv128 by (unfold is_u128; lia).
  pose proof (stake_spec _ _ _ _ Hwf (inv_era _ Hi) Hv128 Hst) as (_ & Hlat & Hat & _).
  rewrite sat_add_small in Hlat, Hat by lia. unfold delegation_info. simpl.
  assert (default Delegation_default (put_delegation who p dl' (DelegationInfo s) !! (who, p))
    = dl') as ->.
  { unfold put_delegation. destruct (Delegation.is_empty dl') eqn:He.
    - apply latest_empty in He. pose proof MinDelegatorStake_pos. lia.
    - by rewrite lookup_insert_eq. }
  split_and!; try done. intros w Hne. unfold put_delegation.
  case_match; [rewrite lookup_delete_ne|rewrite lookup_insert_ne]; congruence.
Qed.

Lemma delegator_unstake_effect s s' who p v :
  inv s → current (Era s) + UnbondingPeriod <= u32_max → 0 <= UnbondingPeriod →
  delegator_unstake (Signed who) p v s = (Ok tt, s') →
  let d := delegation_info s who p in
  let d' := delegation_info s' who p in
  let out := if latest d - v <? MinDelegatorStake then latest d else v in
  0 < out <= latest d ∧
  (∀ e, staked_at d' e = if current (Era s) <=? e then latest d - out else staked_at d e) ∧
  ledger s' = ledger s ∧
  ∀ e, unlocking_at (unbonding_info s' who) e =
       unlocking_at (unbonding_info s who) e +
       (if current (Era s) + UnbondingPeriod =? e then out else 0).
Proof.
  intros Hi Hera Hper
    (? & dl' & n & out & [= <-] & Hv & _ & Hpos & Hplan & Hout & Hst & _ & _ & ->)%delegator_unstake_Ok.
  pose proof (delegation_info_ok _ _ _ who p (inv_delegations _ Hi)) as (Hwf & _ & Hl & _).
  fold (delegation_info s who p) in *. pose proof MinDelegatorStake_pos.
  pose proof (unstake_plan_spec _ _ _ _ _ Hpos Hv Hplan) as (Hle & _).
  pose proof (unstake_spec _ _ _ _ Hwf (inv_era _ Hi) (Z.lt_le_incl _ _ Hout) Hst)
    as (Hwf' & _ & Hat & _). rewrite sat_sub_small in Hat by lia.
  pose proof (obligations_range s who Hi) as Hob. unfold obligations in Hob.
  pose proof (owned_bonds_nonneg s who Hi).
  pose proof (unbonding_info_ok s who Hi) as [Hwfu Hun].
  pose proof (reserved_range (ledger s) who). pose proof (inv_era _ Hi) as [? _].
  rewrite (u32_add_small _ UnbondingPeriod) by lia.
  destruct (add_spec (unbonding_info s who)
    (mkUnlockingChunk out (current (Era s) + UnbondingPeriod))) as (_ & _ & Hadd & _);
    [done|unfold is_u128; simpl; lia|unfold is_u32; simpl; lia|simpl; lia|].
  cbv zeta.
  assert ((if latest (delegation_info s who p) - v <? MinDelegatorStake
           then latest (delegation_info s who p) else v) = out) as ->.
  { unfold unstake_plan, sat_sub in Hplan.
    destruct (Z.ltb_spec (Z.max (latest (delegation_info s who p) - v) 0) MinDelegatorStake);
      destruct (Z.ltb_spec (latest (delegation_info s who p) - v) MinDelegatorStake);
      simplify_eq; lia. }
  split_and!; [lia..| |done|]; unfold delegation_info, unbonding_info in *; simpl.
  - intros e. rewrite <-Hat. unfold staked_at.
    by rewrite put_delegation_stakes, decide_True by done.
  - intros e. rewrite <-Hadd. unfold unlocking_at.
    by rewrite put_unbonding_chunks, decide_True by done.
Qed.

(** A successful [delegator_unstake] takes out the requested amount, or the
    whole stake when less than the minimum would remain; the stake drops by that
    amount from the current era on (past eras keep earning), no balance moves
    yet, and exactly that amount is queued for withdrawal [UnbondingPeriod] eras
    later. *)
Theorem unstake_queues_stake s s' who p v :
  reachable s → current (Era s) + UnbondingPeriod <= u32_max → 0 <= UnbondingPeriod →
  delegator_unstake (Signed who) p v s = (Ok tt, s') →
  let d := delegation_info s who p in
  let d' := delegation_info s' who p in
  let out := if latest d - v <? MinDelegatorStake then latest d else v in
  0 < out <= latest d ∧
  (∀ e, staked_at d' e = if current (Era s) <=? e then latest d - out else staked_at d e) ∧
  ledger s' = ledger s ∧
  ∀ e, unlocking_at (unbonding_info s' who) e =
       unlocking_at (unbonding_info s who) e +
       (if current (Era s) + UnbondingPeriod =? e then out else 0).
Proof. intros Hi%reachable_inv. by apply delegator_unstake_effect. Qed.

(** *** Rewards *)

(** The provider's part and the delegators' part of an era's reward add up
    exactly to the provider's share of the era rewards (no unit is lost or paid
    twice by the split), and that share is at most the era's rewards. *)
Theorem reward_split_exact info es :
  0 <= em_rewards es →
  let '(provider_part, delegators_part) := split_provider_delegators_rewards info es in
  let share := pb_mul (pb_from_rational (total info) (em_staked es)) (em_rewards es) in
  provider_part + delegators_part = share ∧
  0 <= provider_part ∧ 0 <= delegators_part ∧ share <= em_rewards es ∧
  (pb_deconstruct ProviderRewardsPercentage = BILLION → delegators_part = 0).
Proof.
  intros Hr. unfold split_provider_delegators_rewards.
  pose proof (pb_mul_le (pb_from_rational (total info) (em_staked es)) _ Hr) as [Hp Hle].
  set (share := pb_mul _ (em_rewards es)) in *.
  pose proof (pb_mul_le ProviderRewardsPercentage share Hp).
  rewrite sat_sub_small by lia. split_and!; try lia.
  intros H100. rewrite (pb_mul_one ProviderRewardsPercentage share) by done. lia.
Qed.

(** A payout: [v] leaves the pallet's account, which has enough to stay alive, and
    arrives at [who], which can hold it; nobody else's balance moves. *)
Lemma payout_moves (who : AccountId) v (i : Imb) (l l1 : L) :
  0 <= v → withdraw account_id v AllowDeath l = Ok (i, l1) → who ≠ account_id →
  let l2 := resolve_creating who i l1 in
  let ed := minimum_balance (AccountId := AccountId) (L := L) in
  (ed <= free_balance l account_id + reserved_balance l account_id - v →
   free_balance l2 account_id = free_balance l account_id - v ∧
   reserved_balance l2 account_id = reserved_balance l account_id) ∧
  (ed <= free_balance l who + v →
   free_balance l who + reserved_balance l who + v <= u128_max →
   free_balance l2 who = free_balance l who + v) ∧
  (∀ o, o ≠ who → o ≠ account_id → free_balance l2 o = free_balance l o).
Proof.
  intros Hv Hw Hne l2 ed. destruct (withdraw_Ok _ _ _ _ _ _ Hv Hw) as (Hi & Ho & Hk).
  destruct (resolve_creating_spec who i l1) as (_ & Hro & Hrw).
  destruct (Ho who Hne) as [Hfw Hrsw]. rewrite Hi, Hfw, Hrsw in Hrw. split_and!.
  - intros Hed. destruct Hk as [Hf Hr]; [by right|].
    destruct (Hro account_id) as [Hf2 Hr2]; [congruence|]. unfold l2. by rewrite Hf2, Hr2.
  - done.
  - intros o How Hoa. destruct (Hro o How) as [Hf2 _]. unfold l2. rewrite Hf2. by apply Ho.
Qed.

(** C22: A successful [claim_delegator] pays the first era of the caller's history
    that is still unpaid, for the amount that was staked in that era, out of the
    era's delegator rewards: the reward leaves the pallet's account (which stays
    alive), is added to the caller's free balance (which can hold it), and nobody
    else's balance moves; afterwards exactly the eras up to it are forgotten, the
    current stake is what it was, and no reserve except possibly the pallet
    account's has moved. *)
Theorem claim_delegator_pays s s' who p :
  reachable s → claim_delegator (Signed who) p s = (Ok tt, s') →
  let d := delegation_info s who p in
  let d' := delegation_info s' who p in
  ∃ e es,
    (∀ x, x ∈ stakes d → e <= es_era x) ∧ (∃ x, x ∈ stakes d ∧ es_era x = e) ∧
    e < current (Era s) ∧ EraState s !! e = Some es ∧
    0 < staked_at d e ∧
    (∀ e', staked_at d' e' = if e <? e' then staked_at d e' else 0) ∧
    latest d' = latest d ∧
    (let reward := delegator_reward (provider_era_info s p e) es (staked_at d e) in
     events s' = events s ++ [Payout who p e reward] ∧
     0 <= reward <= em_rewards es ∧
     (who ≠ account_id →
      let ed := minimum_balance (AccountId := AccountId) (L := L) in
      (ed <= free_balance (ledger s) account_id + reserved_balance (ledger s) account_id - reward →
       free_balance (ledger s') account_id = free_balance (ledger s) account_id - reward ∧
       reserved_balance (ledger s') account_id = reserved_balance (ledger s) account_id) ∧
      (ed <= free_balance (ledger s) who + reward →
       free_balance (ledger s) who + reserved_balance (ledger s) who + reward <= u128_max →
       free_balance (ledger s') who = free_balance (ledger s) who + reward) ∧
      (∀ o, o ≠ who → o ≠ account_id →
       free_balance (ledger s') o = free_balance (ledger s) o))) ∧
    (∀ w, w ≠ account_id →
       reserved_balance (ledger s') w = reserved_balance (ledger s) w).
Proof.
  intros Hi%reachable_inv
    (? & era & staked & dl' & pm & es & i & l & [= <-] & Hc & Hpos & _ & _ & Hera & Hes & Hw & ->)%claim_delegator_Ok.
  pose proof (inv_era _ Hi) as [_ Hmax].
  destruct (delegation_info_ok _ _ _ who p (inv_delegations _ Hi)) as (Hwf & _).
  fold (delegation_info s who p) in *. set (d := delegation_info s who p) in *.
  destruct (stakes d) as [|x rest] eqn:Hd.
  { rewrite (claim_nil d Hd) in Hc. by simplify_eq. }
  assert (es_era x = era) as Hx.
  { unfold Delegation.claim in Hc. rewrite Hd in Hc. by simplify_eq. }
  assert (es_era x < u32_max) as Hmx by lia.
  pose proof (claim_spec d x rest Hwf Hd Hmx) as Hs. rewrite Hc in Hs.
  destruct Hs as ([= _ ->] & _ & Hwf' & Hat & _ & Hlat & _). rewrite Hx in *.
  pose proof (split_nonneg s (provider_era_info s p era) es era Hi Hes) as [Hn1 Hn2].
  pose proof (proj1 (inv_rewards _ Hi)) as Hacc.
  pose proof (proj2 (inv_rewards _ Hi) _ _ Hes) as Hrew.
  assert (0 <= delegator_reward (provider_era_info s p era) es (staked_at d era) <=
    em_rewards es) as Hrange.
  { unfold delegator_reward.
    pose proof (pb_mul_le (pb_from_rational (staked_at d era)
      (sat_sub (total (provider_era_info s p era)) (bond (provider_era_info s p era)))) _ Hn2).
    unfold split_provider_delegators_rewards in *. simpl in *.
    pose proof (pb_mul_le (pb_from_rational (total (provider_era_info s p era))
      (em_staked es)) _ Hrew). unfold sat_sub in *. lia. }
  assert (∀ e', staked_at (delegation_info (set_DelegationInfo
    (put_delegation who p dl' (DelegationInfo s)) s) who p) e' = staked_at dl' e') as Hput.
  { intros e'. unfold staked_at, delegation_info. simpl.
    by rewrite put_delegation_stakes, decide_True by done. }
  exists era, es. split_and!; try done.
  - intros y. rewrite Hd. intros [->|Hy]%elem_of_cons; [lia|].
    unfold wf_delegation in Hwf. rewrite Hd in Hwf.
    apply wf_stakes_cons in Hwf as (_ & _ & HF & _).
    rewrite Forall_forall in HF. specialize (HF y Hy). lia.
  - exists x. rewrite Hd. split; [left|done].
  - intros e'. rewrite <-Hat. apply Hput.
  - rewrite <-Hlat. unfold latest, delegation_info. simpl.
    by rewrite put_delegation_stakes, decide_True by done.
  - intros reward. split; [done|]. split; [done|].
    intros Hne. exact (payout_moves who _ i _ l (proj1 Hrange) Hw Hne).
  - intros w Hne. simpl. rewrite reserved_resolve.
    exact (withdraw_reserved _ _ _ _ _ _ _ (proj1 Hrange) Hw Hne).
Qed.

(** *** The era change *)

(** C23: When [should_update] holds, [on_initialize] closes the era: the clock
    moves by one, the accumulated rewards become the closed era's, the staked
    amount is carried over, each active provider's entry is carried into the new
    era unclaimed, and nothing else (past entries, other providers, stakes,
    queues, ledger) changes; otherwise it changes nothing. *)
Theorem era_change s n :
  reachable s → current (Era s) < u32_max →
  let cur := current (Era s) in
  ∃ w s', on_initialize n s = (Ok w, s') ∧
  if EraInfo.should_update (Era s) n then
    current (Era s') = cur + 1 ∧ first_block (Era s') = n ∧
    RewardAccumulator s' = 0 ∧
    EraState s' !! cur = Some (mkEraMetadata (RewardAccumulator s)
      (staked_total cur (ProviderEraInfo s) (ProviderInfo s))) ∧
    EraState s' !! (cur + 1) = Some (mkEraMetadata 0
      (staked_total cur (ProviderEraInfo s) (ProviderInfo s))) ∧
    (∀ p, is_active_provider s p = true →
       ProviderEraInfo s' !! (p, cur + 1) = Some (carry (provider_era_info s p cur))) ∧
    (∀ p, is_active_provider s p = false →
       ProviderEraInfo s' !! (p, cur + 1) = ProviderEraInfo s !! (p, cur + 1)) ∧
    (∀ p e, e ≠ cur + 1 → ProviderEraInfo s' !! (p, e) = ProviderEraInfo s !! (p, e)) ∧
    ProviderInfo s' = ProviderInfo s ∧ DelegationInfo s' = DelegationInfo s ∧
    UnbondingInfo s' = UnbondingInfo s ∧ ledger s' = ledger s
  else s' = s.
Proof.
  intros Hi%reachable_inv Hmax cur. pose proof (inv_era _ Hi) as [Hlo _].
  destruct (EraInfo.should_update (Era s) n) eqn:Hn; last first.
  { rewrite on_initialize_idle by done. by eexists _, _. }
  destruct (on_initialize_new_era n s Hn) as [w Hr]. eexists w, _. split; [exact Hr|].
  fold cur. rewrite (u32_add_small cur 1) by (unfold cur; lia). simpl.
  pose proof (inv_staked _ Hi) as Hst. fold cur in Hst. rewrite Hst.
  split_and!; try done.
  - apply sat_add_small. unfold cur. lia.
  - by rewrite lookup_insert_eq.
  - rewrite lookup_insert_ne by lia. by rewrite lookup_insert_eq.
  - intros p (pm & Hp & Ha)%is_active_Some.
    destruct (active_info s p pm Hi Hp Ha) as (_ & Hinfo & _). by eapply rotated_active_info.
  - intros p Hp. rewrite rotated_lookup by lia. unfold is_active_provider in Hp.
    destruct (ProviderInfo s !! p) as [pm|]; [|done]. by destruct (status pm).
  - intros p e He. by apply rotated_other_era.
Qed.

(** [rotate_provider_era_info] does not depend on the order in which the
    storage map enumerates the providers: any two enumerations leave the same
    state. *)
Theorem rotation_order_irrelevant era s l1 l2 :
  0 <= era < u32_max → NoDup (l1 : list (ProviderId * ProviderMetadata AccountId)).*1 →
  l1 ≡ₚ l2 →
  (rotate_over era l1 s).2 = (rotate_over era l2 s).2.
Proof.
  intros He Hnd Hp. unfold rotate_over. rewrite (u32_add_small era 1) by lia.
  destruct (rotate_over_run era (era + 1) l1 0 s) as [w1 ->].
  destruct (rotate_over_run era (era + 1) l2 0 s) as [w2 ->]. simpl. f_equal.
  assert (NoDup l2.*1) as Hnd2 by (by rewrite <-Hp).
  apply map_eq. intros [p e]. destruct (decide (e = era + 1)) as [->|Hne].
  2: by rewrite !rotate_map_other_era.
  destruct (decide (p ∈ l1.*1)) as [Hin|Hin].
  - apply list_elem_of_fmap in Hin as ([p' pm] & -> & Hin). simpl.
    rewrite !(rotate_map_lookup _ _ _ _ p' pm); try done; try lia. by rewrite <-Hp.
  - rewrite !rotate_map_not_in; [done| |done]. by rewrite <-Hp.
Qed.

End laws.

(** ** The theorems at concrete states *)

Lemma failed_call_changes_nothing_witness :
  (dispatch (delegate_call 50 5) (Signed 4) claims0).1 =
    Err (DapiStakingErr InsufficientBond) ∧
  (dispatch (delegate_call 50 5) (Signed 4) claims0).2 = claims0.
Proof.
  split; [reflexivity|].
  apply (failed_call_changes_nothing claims0
    (dispatch (delegate_call 50 5) (Signed 4) claims0).2 (DapiStakingErr InsufficientBond)).
  left. exists (delegate_call 50 5), (Signed 4). vm_compute. reflexivity.
Defined.

Definition delegated1 : MockState := (delegate (Signed 2) 50 200 claims0).2.

Lemma calls_conserve_holdings_witness :
  reserved (ledger delegated1) 2 = 1200 ∧
  holdings (ledger delegated1) 2 = holdings (ledger claims0) 2.
Proof.
  split; [reflexivity|].
  apply (calls_conserve_holdings claims0 delegated1 (delegate_call 50 200) (Signed 2) 2
    claims0_reachable); reflexivity.
Defined.

Lemma delegate_adds_stake_witness :
  stakes (delegation_info delegated1 2 50) = [mkEraStake 1000 2; mkEraStake 1200 4] ∧
  latest (delegation_info delegated1 2 50) = latest (delegation_info claims0 2 50) + 200.
Proof.
  split; [reflexivity|].
  refine (proj1 (proj2 (proj2 (delegate_adds_stake claims0 delegated1 2 50 200
    claims0_reachable _ _)))).
  - apply supply_check. reflexivity.
  - reflexivity.
Defined.

Definition unstaked1 : MockState := (delegator_unstake (Signed 2) 50 995 claims0).2.

Lemma unstake_queues_stake_witness :
  unlocking_chunks (unbonding_info unstaked1 2) = [mkUnlockingChunk 1000 7] ∧
  ledger unstaked1 = ledger claims0.
Proof.
  split; [reflexivity|].
  refine (proj1 (proj2 (proj2 (unstake_queues_stake claims0 unstaked1 2 50 995
    claims0_reachable _ _ _)))); vm_compute; reflexivity || discriminate.
Defined.

Lemma reward_split_exact_witness :
  split_provider_delegators_rewards (mkProviderEraMetadata 1000 2000 1 false)
    (mkEraMetadata 701 3000) = (373, 94) ∧
  pb_mul (pb_from_rational 2000 3000) 701 = 467 ∧ 373 + 94 = 467.
Proof.
  split; [reflexivity|]. split; [reflexivity|].
  pose proof (reward_split_exact (mkProviderEraMetadata 1000 2000 1 false)
    (mkEraMetadata 701 3000)) as Hs.
  apply Hs. vm_compute. discriminate.
Defined.

Lemma claim_delegator_pays_witness :
  latest (delegation_info claims1 2 50) = 1000 ∧
  free (ledger claims1) 2 - free (ledger claims0) 2 = 140 ∧
  ∃ e es, e < 4 ∧ EraState claims0 !! e = Some es ∧
    0 < staked_at (delegation_info claims0 2 50) e ∧
    ∃ v, events claims1 = events claims0 ++ [Payout 2 50 e v] ∧
      (free (ledger claims0) 2 + reserved (ledger claims0) 2 + v <= u128_max →
       free (ledger claims1) 2 = free (ledger claims0) 2 + v).
Proof.
  split; [reflexivity|]. split; [reflexivity|].
  destruct (claim_delegator_pays claims0 claims1 2 50 claims0_reachable)
    as (e & es & _ & _ & He & Hes & Hpos & _ & _ & (Hev & [Hv _] & Hpay) & _); [reflexivity|].
  destruct Hpay as (_ & Hwho & _); [done|].
  exists e, es. split; [exact He|]. split; [exact Hes|]. split; [exact Hpos|].
  eexists. split; [exact Hev|]. intros Hmax. apply Hwho; [|exact Hmax].
  change (free_balance (ledger claims0) 2) with (free (ledger claims0) 2).
  assert (minimum_balance (AccountId := Z) (L := Ledger) <= free (ledger claims0) 2)
    by (vm_compute; discriminate). lia.
Defined.

Lemma era_change_witness :
  EraInfo.should_update (Era claims0) 13 = true ∧
  ∃ w s', on_initialize 13 claims0 = (Ok w, s') ∧
    current (Era s') = 5 ∧ ledger s' = ledger claims0.
Proof.
  split; [reflexivity|].
  destruct (era_change claims0 13 claims0_reachable) as (w & s' & Hr & Hs); [reflexivity|].
  exists w, s'. split; [exact Hr|].
  replace (EraInfo.should_update (Era claims0) 13) with true in Hs by reflexivity.
  split; [apply Hs|apply Hs].
Defined.

Lemma rotation_order_irrelevant_witness :
  (rotate_over 4 [(50, mkProviderMetadata 1 Active false);
                  (60, mkProviderMetadata 3 (Inactive 2) false)] claims0).2 =
  (rotate_over 4 [(60, mkProviderMetadata 3 (Inactive 2) false);
                  (50, mkProviderMetadata 1 Active false)] claims0).2.
Proof.
  apply (rotation_order_irrelevant 4 claims0 [_; _] [_; _]).
  - vm_compute. split; [discriminate|reflexivity].
  - apply (bool_decide_unpack _). reflexivity.
  - apply perm_swap.
Defined.

(** ** Where the code differs from what it means to do *)

(** [amount + MinProviderStake] wraps: an amount close to [2 ^ 128] passes the
    check of [provider_bond_less], empties the bond of an active provider and
    queues far more than the account has reserved. *)
Theorem bond_less_overflow :
  let v := u128_max in
  let s' := (provider_bond_less (Signed 1) 50 v claims0).2 in
  reachable claims0 ∧ is_u128 v ∧
  (provider_bond_less (Signed 1) 50 v claims0).1 = Ok tt ∧
  bond (provider_era_info s' 50 4) = 0 ∧ is_active_provider s' 50 = true ∧
  reserved (ledger s') 1 < unbonding_total (unbonding_info s' 1).
Proof.
  split; [apply claims0_reachable|]. split; [vm_compute; split; discriminate|].
  split_and!; reflexivity.
Qed.

(** The documented maximum number of delegators is exceeded by one. *)
Theorem delegators_exceed_maximum :
  let s := after ([to_era 1; ARegister 1 50 1000; to_era 2] ++
    ((λ w, ACall (Signed w) (delegate_call 50 100)) <$> [2; 3; 4; 5; 6; 7])) in
  reachable s ∧ delegator_count (provider_era_info s 50 2) = MaxDelegatorsPerProvider + 1.
Proof. split; [apply after_reachable; vm_compute; reflexivity|]. reflexivity. Qed.

(** A history that starts with a zero entry blocks every later claim. *)
Theorem leading_zero_blocks_claims {AccountId} `{Countable AccountId} {ProviderId}
    `{Countable ProviderId} {Imb L} `{!Currency AccountId Imb L} `{!PerbillOps}
    `{!StakingConfig AccountId}
    (s : State AccountId ProviderId L) who p e rest :
  stakes (delegation_info s who p) = mkEraStake 0 e :: rest →
  (claim_delegator (Signed who) p s).1 = Err (DapiStakingErr NotStakedProvider).
Proof.
  intros Hs. unfold claim_delegator. do 2 (erewrite bind_run_Ok by reflexivity).
  unfold Delegation.claim. rewrite Hs. reflexivity.
Qed.

(** The operations reach such a history: stake and unstake in one era, twice,
    with a claim in between. *)
Definition stuck : MockState :=
  after [to_era 1; ARegister 1 50 1000; to_era 2; to_era 3;
    ACall (Signed 2) (delegate_call 50 100); to_era 4;
    ACall (Signed 2) (delegator_unstake_call 50 100); to_era 5;
    ACall (Signed 2) (delegate_call 50 200);
    ACall (Signed 2) (delegator_unstake_call 50 200);
    ACall (Signed 2) (claim_delegator_call 50); to_era 6;
    ACall (Signed 2) (delegate_call 50 300); to_era 7].

Theorem claims_can_get_stuck :
  reachable stuck ∧ 0 < staked_at (delegation_info stuck 2 50) 6 ∧
  current (Era stuck) = 7 ∧
  (claim_delegator (Signed 2) 50 stuck).1 = Err (DapiStakingErr NotStakedProvider).
Proof. split; [apply after_reachable; vm_compute; reflexivity|]. split_and!; reflexivity. Qed.

(** A new era length applies to the running era, not from the next one on. *)
Theorem blocks_per_era_applies_at_once :
  let s' := (set_blocks_per_era Root 1 claims0).2 in
  current (Era s') = current (Era claims0) ∧
  EraInfo.should_update (Era claims0) 11 = false ∧
  EraInfo.should_update (Era s') 11 = true.
Proof. vm_compute. split_and!; reflexivity. Qed.
