(* ===== verification/StakingLiveness.v ===== *)
(** * Unstaked funds come back

    Nobody but the owner can delay or lower a withdrawal: whatever calls others
    sign and whatever the chain does in between, what was unstaked can be
    withdrawn once its era has come. *)

From S2P Require Export StakingLaws.
Import DapiStakingError.

(** ** Amounts in a queue *)

Lemma chunks_at_range l e : wf_chunks l → 0 <= chunks_at l e <= chunks_total l.
Proof.
  induction l as [|c l IH]; [done|]. intros ([? _] & _ & _ & Hl)%wf_chunks_cons.
  rewrite chunks_at_cons, chunks_total_cons. specialize (IH Hl). case_match; lia.
Qed.

(** What unlocks in an era that has come is due. *)
Lemma unlocking_at_due u era e :
  wf_unbonding u → e <= era →
  unlocking_at u e <= unbonding_total (Unbonding.partition u era).1.
Proof.
  intros Hwf He. pose proof (partition_spec u era) as Hp.
  destruct (Unbonding.partition u era) as [valid future]. simpl.
  destruct Hp as (Hwfp & _ & Hvalid & _). destruct (Hwfp Hwf) as [Hv _].
  specialize (Hvalid e). destruct (Z.leb_spec e era); [|lia].
  rewrite <-Hvalid. by apply chunks_at_range.
Qed.

Section liveness.
Context {AccountId : Type} `{Countable AccountId}.
Context {ProviderId : Type} `{Countable ProviderId}.
Context {Imb L : Type} `{!Currency AccountId Imb L} `{!CurrencyLaws AccountId Imb L}.
Context `{!PerbillOps} `{!PerbillLaws} `{!DbWeightOps} `{!StakingConfig AccountId}.
Context `{!StakingConfigLaws AccountId}.

Abbreviation State := (State AccountId ProviderId L).
Implicit Types s : State.

(** The steps in which [who] signs nothing. *)
Definition others (who : AccountId) (o : Origin AccountId) : Prop :=
  signer_ok o ∧ o ≠ Signed who.
Abbreviation foreign_step who := (step_from (allowed := others who)).

Lemma foreign_step_step who s s' : foreign_step who s s' → step s s'.
Proof. apply step_from_mono. by intros o []. Qed.

Lemma put_unbonding_ne (ui : gmap AccountId UnbondingMetadata) w u w' :
  w ≠ w' → put_unbonding w u ui !! w' = ui !! w'.
Proof.
  intros Hne. unfold put_unbonding.
  case_match; [by rewrite lookup_delete_ne|by rewrite lookup_insert_ne].
Qed.

(** Only calls of [who] touch the queue of [who]. *)
Lemma foreign_step_queue x s s' :
  foreign_step x s s' → inv s → unbonding_info s' x = unbonding_info s x.
Proof.
  intros Hstep Hi. unfold unbonding_info.
  step_cases Hstep; try destruct Hsig as [_ Hsig]; simpl; try done.
  - rewrite put_unbonding_ne; congruence.
  - rewrite put_unbonding_ne; congruence.
  - rewrite put_unbonding_ne; congruence.
  - destruct (on_initialize_cases _ _ _ _ Hd Hi Hmax) as [->|(_ & _ & _ & _ & ->)]; done.
  - rewrite handle_imbalance_run in Hd. by injection Hd as <-.
Qed.

Lemma foreign_steps_queue who s s' :
  rtc (foreign_step who) s s' → inv s →
  unbonding_info s' who = unbonding_info s who ∧ inv s'.
Proof.
  induction 1 as [|s s1 s' Hs _ IH]; [done|]. intros Hi.
  rewrite <-(foreign_step_queue who s s1 Hs Hi).
  apply IH. eapply step_inv; [by eapply foreign_step_step|done].
Qed.

(** C12: Unstaked funds come back: after a successful [delegator_unstake], in any
    later state whose era is at least [UnbondingPeriod] eras on, and whatever
    other accounts and the rest of the chain did in between,
    [withdraw_unbonded] succeeds for the delegator and moves at least the
    unstaked amount from the reserved to the free balance. *)
Theorem unstaked_funds_return s0 s1 s2 who p v :
  reachable s0 → who ≠ account_id → 0 <= UnbondingPeriod →
  delegator_unstake (Signed who) p v s0 = (Ok tt, s1) → supply_ok (ledger s1) →
  rtc (foreign_step who) s1 s2 →
  current (Era s0) + UnbondingPeriod <= current (Era s2) →
  let d := latest (delegation_info s0 who p) in
  let out := if d - v <? MinDelegatorStake then d else v in
  0 < out ∧
  ∃ s3 paid_out, withdraw_unbonded (Signed who) s2 = (Ok tt, s3) ∧ out <= paid_out ∧
    free_balance (ledger s3) who = free_balance (ledger s2) who + paid_out ∧
    reserved_balance (ledger s3) who = reserved_balance (ledger s2) who - paid_out.
Proof.
  intros Hi%reachable_inv Hw Hper Hun Hsup Hsteps Hera.
  assert (inv s1) as Hi1.
  { eapply step_inv; [|done].
    apply (step_call s0 s1 (delegator_unstake_call p v) (Signed who)); try done.
    by intros [= ->]. }
  destruct (foreign_steps_queue who s1 s2 Hsteps Hi1) as [Hq Hi2].
  pose proof (inv_era _ Hi2) as [_ Hmax].
  destruct (delegator_unstake_effect s0 s1 who p v Hi ltac:(lia) Hper Hun)
    as (Hout & _ & _ & Hat).
  specialize (Hat (current (Era s0) + UnbondingPeriod)). rewrite Z.eqb_refl in Hat.
  pose proof (unbonding_info_ok s2 who Hi2) as [Hwf _].
  pose proof (unlocking_at_due _ _ _ Hwf Hera) as Hdue. rewrite Hq, Hat in Hdue.
  assert (0 <= unlocking_at (unbonding_info s0 who) (current (Era s0) + UnbondingPeriod)).
  { apply chunks_at_range,  (unbonding_info_ok s0 who Hi). }
  intros d out. fold d out in Hout, Hdue. split; [lia|].
  rewrite <-Hq in Hdue.
  destruct (withdraw_unbonded_run s2 who Hi2) as (s3 & Hrun & Hf & Hr & _); [lia|].
  eexists s3, _. split; [exact Hrun|]. split; [|by split]. lia.
Qed.

End liveness.

Abbreviation foreign_step who := (step_from (allowed := others who)).

(** The delegator of [claims0] unstakes in era 4; others delegate, are rewarded
    and open three eras; then the stake is due. *)
Definition foreign_actions : list Action :=
  [ACall (Signed 4) (delegate_call 50 300); to_era 5; AReward 40; to_era 6; to_era 7].
Definition unstaked2 : MockState := default mock_genesis (run_ok foreign_actions unstaked1).

Lemma unstaked_funds_return_witness :
  rtc (foreign_step 2) unstaked1 unstaked2 ∧
  ∃ s3 paid_out, withdraw_unbonded (Signed 2) unstaked2 = (Ok tt, s3) ∧ 1000 <= paid_out.
Proof.
  assert (rtc (foreign_step 2) unstaked1 unstaked2) as Hsteps.
  { apply (run_ok_steps_from _ foreign_actions); [vm_compute; reflexivity|].
    repeat constructor; done. }
  split; [exact Hsteps|].
  destruct (unstaked_funds_return claims0 unstaked1 unstaked2 2 50 995 claims0_reachable)
    as (_ & s3 & x & Hrun & Hx & _).
  - discriminate.
  - vm_compute. discriminate.
  - vm_compute. reflexivity.
  - apply supply_check. vm_compute. reflexivity.
  - exact Hsteps.
  - vm_compute. discriminate.
  - exists s3, x. split; [exact Hrun|exact Hx].
Defined.
