(* ===== verification/Registration.v ===== *)
(** * The interface between the dapi pallet and the staking pallet

    [pallets/dapi-staking/src/traits.rs] as a class, the contract the dapi pallet
    relies on ([RegistrationLaws]), and the staking pallet's implementation of
    both. *)

From S2P Require Export StakingSteps.
Import DapiStakingError.

(** [trait DapiStakingRegistration], over an environment [E] that holds the
    implementer's storage. *)
Class DapiStakingRegistration (AccountId Provider E : Type) := {
  staking_register_provider : AccountId → Provider → Z → M DispatchError E unit;
  staking_unregister_provider : Provider → M DispatchError E unit
}.

(** What a provider id is to the staking pallet. *)
Inductive StakingView : Type := Unknown | Staked | Unregistered.

#[global] Instance StakingView_eq_dec : EqDecision StakingView.
Proof. solve_decision. Defined.

(** The part of the environment that is the currency's ledger. *)
Class HasLedger (E L : Type) := {
  get_ledger : E → L;
  put_ledger : L → E → E
}.

Class HasLedgerLaws (E L : Type) `{!HasLedger E L} : Prop := {
  get_put_ledger : ∀ (l : L) (e : E), get_ledger (put_ledger l e) = l
}.

(** The contract: both operations are atomic; a registration needs an unknown
    id and makes it staked; an unregistration succeeds exactly on staked ids
    and is final; no operation touches the view of another id, and ledger
    movements touch none. *)
Class RegistrationLaws (AccountId Provider E L : Type)
    `{!DapiStakingRegistration AccountId Provider E, !HasLedger E L} := {
  staking_view : E → Provider → StakingView;
  register_atomic : ∀ (a : AccountId) (p : Provider) v,
    atomic (staking_register_provider a p v : M _ E _);
  unregister_atomic : ∀ p : Provider,
    atomic (staking_unregister_provider (AccountId := AccountId) p : M _ E _);
  register_spec : ∀ (a : AccountId) (p : Provider) v (e e' : E),
    staking_register_provider a p v e = (Ok tt, e') →
    staking_view e p = Unknown ∧ staking_view e' p = Staked ∧
    ∀ q, q ≠ p → staking_view e' q = staking_view e q;
  unregister_spec : ∀ (p : Provider) (e e' : E),
    staking_unregister_provider (AccountId := AccountId) p e = (Ok tt, e') →
    staking_view e' p = Unregistered ∧
    ∀ q, q ≠ p → staking_view e' q = staking_view e q;
  unregister_succeeds : ∀ (p : Provider) (e : E),
    staking_view e p = Staked →
    ∃ e', staking_unregister_provider (AccountId := AccountId) p e = (Ok tt, e');
  view_put_ledger : ∀ (l : L) (e : E) (p : Provider),
    staking_view (put_ledger l e) p = staking_view e p
}.

Section implementation.
Context {AccountId : Type} `{Countable AccountId}.
Context {ProviderId : Type} `{Countable ProviderId}.
Context {Imb L : Type} `{!Currency AccountId Imb L}.
Context `{!PerbillOps} `{!DbWeightOps} `{!StakingConfig AccountId}.

Abbreviation State := (State AccountId ProviderId L).

(** [impl DapiStakingRegistration for Pallet] of pallets/dapi-staking/src/lib.rs *)
#[global] Instance staking_registration :
    DapiStakingRegistration AccountId ProviderId State := {|
  staking_register_provider := register_provider;
  staking_unregister_provider := unregister_provider
|}.

#[global] Instance staking_has_ledger : HasLedger State L := {|
  get_ledger := ledger;
  put_ledger := set_ledger
|}.

#[global] Instance staking_has_ledger_laws : HasLedgerLaws State L.
Proof. done. Qed.

Definition view (s : State) (p : ProviderId) : StakingView :=
  match ProviderInfo s !! p with
  | None => Unknown
  | Some pm => match status pm with Active => Staked | Inactive _ => Unregistered end
  end.

Lemma register_provider_view a p v s s' :
  register_provider a p v s = (Ok tt, s') →
  view s p = Unknown ∧ view s' p = Staked ∧ ∀ q, q ≠ p → view s' q = view s q.
Proof.
  intros (l & Hp & _ & _ & ->)%register_provider_Ok. unfold view. simpl.
  rewrite Hp, lookup_insert_eq. split_and!; [done..|].
  intros q Hq. by rewrite lookup_insert_ne.
Qed.

Lemma unregister_provider_view p s s' :
  unregister_provider p s = (Ok tt, s') →
  view s' p = Unregistered ∧ ∀ q, q ≠ p → view s' q = view s q.
Proof.
  intros (pm & Hp & _ & ->)%unregister_provider_Ok. unfold view. simpl.
  rewrite lookup_insert_eq. split; [done|]. intros q Hq. by rewrite lookup_insert_ne.
Qed.

Lemma unregister_provider_succeeds p s :
  view s p = Staked → ∃ s', unregister_provider p s = (Ok tt, s').
Proof.
  unfold view, unregister_provider. intros Hv.
  erewrite bind_run_Ok by reflexivity.
  destruct (ProviderInfo s !! p) as [pm|]; [|done].
  erewrite bind_run_Ok by reflexivity.
  destruct (status pm) eqn:Hs; [|done]. rewrite bool_decide_eq_true_2 by done.
  do 4 (erewrite bind_run_Ok by reflexivity). by eexists.
Qed.

(** The staking pallet fulfils the contract. *)
#[global] Instance staking_registration_laws :
    RegistrationLaws AccountId ProviderId State L.
Proof.
  refine {| staking_view := view |}.
  - intros. apply register_provider_atomic.
  - intros. apply unregister_provider_atomic.
  - exact register_provider_view.
  - exact unregister_provider_view.
  - exact unregister_provider_succeeds.
  - done.
Defined.

End implementation.
