(* ===== verification/Dapi.v ===== *)
(** * The dAPI pallet

    pallets/dapi/src/lib.rs and types.rs: projects with their quota, providers
    with their lifecycle, regulators and chain ids.  The staking pallet is
    reached through [DapiStakingRegistration] only. *)

From S2P Require Export Common Registration.
Import DapiError.

(** [Vec<u8>] *)
Abbreviation Bytes := (list Byte.byte).

(** ** types.rs *)

Record Project (AccountId : Type) : Type := mkProject {
  consumer : AccountId;
  chain_id : Bytes;
  quota : Z;
  usage : Z
}.
Arguments mkProject {AccountId} _ _ _ _.
Arguments consumer {AccountId} _.
Arguments chain_id {AccountId} _.
Arguments quota {AccountId} _.
Arguments usage {AccountId} _.

Inductive ProviderType : Type := Gateway | Node.

Inductive ProviderDeactivateReason : Type :=
| BadPerformance (requests success_rate average_latency : Z)
| OutOfSync
| UnRegistered.

Inductive DapiProviderStatus : Type :=
| StatusRegistered
| StatusActive
| StatusInActive (reason : ProviderDeactivateReason).

#[global] Instance ProviderType_eq_dec : EqDecision ProviderType.
Proof. solve_decision. Defined.
#[global] Instance ProviderDeactivateReason_eq_dec : EqDecision ProviderDeactivateReason.
Proof. solve_decision. Defined.
#[global] Instance DapiProviderStatus_eq_dec : EqDecision DapiProviderStatus.
Proof. solve_decision. Defined.

Record Provider (AccountId : Type) : Type := mkProvider {
  provider_type : ProviderType;
  provider_owner : AccountId;
  provider_chain_id : Bytes;
  provider_status : DapiProviderStatus
}.
Arguments mkProvider {AccountId} _ _ _ _.
Arguments provider_type {AccountId} _.
Arguments provider_owner {AccountId} _.
Arguments provider_chain_id {AccountId} _.
Arguments provider_status {AccountId} _.

#[global] Instance Project_eq_dec `{EqDecision A} : EqDecision (Project A).
Proof. solve_decision. Defined.
#[global] Instance Provider_eq_dec `{EqDecision A} : EqDecision (Provider A).
Proof. solve_decision. Defined.

Inductive DapiEvent (AccountId MassbitId : Type) : Type :=
| ProjectRegistered (project_id : MassbitId) (consumer : AccountId) (chain_id : Bytes) (quota : Z)
| ProjectDeposited (project_id : MassbitId) (new_quota : Z)
| ProjectUsageUpdated (project_id : MassbitId) (usage : Z)
| ProviderRegistered (provider_id : MassbitId) (provider_type : ProviderType)
    (owner : AccountId) (chain_id : Bytes)
| ProviderActivated (provider_id : MassbitId) (provider_type : ProviderType)
| ProviderDeactivated (provider_id : MassbitId) (provider_type : ProviderType)
    (reason : ProviderDeactivateReason)
| ChainIdAdded (chain_id : Bytes)
| ChainIdRemoved (chain_id : Bytes)
| RegulatorAdded (account_id : AccountId)
| RegulatorRemoved (account_id : AccountId).
Arguments ProjectRegistered {AccountId MassbitId} _ _ _ _.
Arguments ProjectDeposited {AccountId MassbitId} _ _.
Arguments ProjectUsageUpdated {AccountId MassbitId} _ _.
Arguments ProviderRegistered {AccountId MassbitId} _ _ _ _.
Arguments ProviderActivated {AccountId MassbitId} _ _.
Arguments ProviderDeactivated {AccountId MassbitId} _ _ _.
Arguments ChainIdAdded {AccountId MassbitId} _.
Arguments ChainIdRemoved {AccountId MassbitId} _.
Arguments RegulatorAdded {AccountId MassbitId} _.
Arguments RegulatorRemoved {AccountId MassbitId} _.

#[global] Instance DapiEvent_eq_dec `{EqDecision A, EqDecision P} :
  EqDecision (DapiEvent A P).
Proof. solve_decision. Defined.

(** [#[pallet::call]] *)
Inductive DapiCall (AccountId MassbitId : Type) : Type :=
| register_project_call (project_id : MassbitId) (chain_id : Bytes) (deposit : Z)
| deposit_project_call (project_id : MassbitId) (deposit : Z)
| submit_project_usage_call (project_id : MassbitId) (usage : Z)
| register_provider_call (provider_id : MassbitId) (provider_type : ProviderType)
    (owner : AccountId) (chain_id : Bytes)
| deposit_provider_call (provider_id : MassbitId) (deposit : Z)
| unregister_provider_call (provider_id : MassbitId)
| report_provider_offence_call (provider_id : MassbitId) (reason : ProviderDeactivateReason)
| add_regulator_call (account_id : AccountId)
| remove_regulator_call (account_id : AccountId)
| add_chain_id_call (chain_id : Bytes)
| remove_chain_id_call (chain_id : Bytes).
Arguments register_project_call {AccountId MassbitId} _ _ _.
Arguments deposit_project_call {AccountId MassbitId} _ _.
Arguments submit_project_usage_call {AccountId MassbitId} _ _.
Arguments register_provider_call {AccountId MassbitId} _ _ _ _.
Arguments deposit_provider_call {AccountId MassbitId} _ _.
Arguments unregister_provider_call {AccountId MassbitId} _.
Arguments report_provider_offence_call {AccountId MassbitId} _ _.
Arguments add_regulator_call {AccountId MassbitId} _.
Arguments remove_regulator_call {AccountId MassbitId} _.
Arguments add_chain_id_call {AccountId MassbitId} _.
Arguments remove_chain_id_call {AccountId MassbitId} _.

(** [Config]: the chain id bound and the handler of project payments. *)
Class DapiConfig (Imb E : Type) := {
  MaxChainIdLength : Z;
  OnProjectPayment : Imb → E → E
}.

Module Dapi.
Section dapi.
Context {AccountId : Type} `{Countable AccountId}.
Context {MassbitId : Type} `{Countable MassbitId}.
Context {Imb L E : Type} `{!Currency AccountId Imb L} `{!HasLedger E L}.
Context `{!DapiStakingRegistration AccountId MassbitId E} `{!DapiConfig Imb E}.

(** ** Storage; [env] holds the staking pallet and the ledger. *)
Record State : Type := mkState {
  Projects : gmap MassbitId (Project AccountId);
  Providers : gmap MassbitId (Provider AccountId);
  Regulators : gset AccountId;
  ChainIds : gset Bytes;
  env : E;
  events : list (DapiEvent AccountId MassbitId)
}.

Definition set_Projects v (s : State) : State :=
  mkState v (Providers s) (Regulators s) (ChainIds s) (env s) (events s).
Definition set_Providers v (s : State) : State :=
  mkState (Projects s) v (Regulators s) (ChainIds s) (env s) (events s).
Definition set_Regulators v (s : State) : State :=
  mkState (Projects s) (Providers s) v (ChainIds s) (env s) (events s).
Definition set_ChainIds v (s : State) : State :=
  mkState (Projects s) (Providers s) (Regulators s) v (env s) (events s).
Definition set_env v (s : State) : State :=
  mkState (Projects s) (Providers s) (Regulators s) (ChainIds s) v (events s).
Definition set_events v (s : State) : State :=
  mkState (Projects s) (Providers s) (Regulators s) (ChainIds s) (env s) v.

Abbreviation Handler := (M DispatchError State).

Definition err (e : Error) : DispatchError := DapiErr e.

Definition deposit_event (e : DapiEvent AccountId MassbitId) : Handler unit :=
  modify (λ s, set_events (events s ++ [e]) s).

(** Running an operation of the environment. *)
Definition in_env {A} (m : M DispatchError E A) : Handler A := λ s,
  let '(r, e) := m (env s) in (r, set_env e s).

Definition currency_withdraw (who : AccountId) (amount : Z)
    (req : ExistenceRequirement) : Handler Imb :=
  try_update (λ s,
    match withdraw who amount req (get_ledger (env s)) with
    | Ok (i, l) => Ok (i, set_env (put_ledger l (env s)) s)
    | Err e => Err e
    end).

Definition on_project_payment (imbalance : Imb) : Handler unit :=
  modify (λ s, set_env (OnProjectPayment imbalance (env s)) s).

(** [chain_id.try_into().map_err(|_| InvalidChainId)]: a [BoundedVec] is the
    bytes when their number is within the bound. *)
Definition bounded (chain_id : Bytes) : option Bytes :=
  if Z.of_nat (length chain_id) <=? MaxChainIdLength then Some chain_id else None.

Definition calculate_quota (amount : Z) : Z := amount / 1000000000000000.

(** ** Dispatchables *)

Definition register_project (origin : Origin AccountId) (project_id : MassbitId)
    (chain_id : Bytes) (deposit : Z) : Handler unit :=
  consumer ← ensure_signed origin;
  known ← gets (λ s, bool_decide (is_Some (Projects s !! project_id)));
  ensure (negb known) (err ProjectExists);;
  bounded_chain_id ← ok_or (bounded chain_id) (err InvalidChainId);
  listed ← gets (λ s, bool_decide (bounded_chain_id ∈ ChainIds s));
  ensure listed (err InvalidChainId);;
  imbalance ← currency_withdraw consumer deposit KeepAlive;
  on_project_payment imbalance;;
  let quota := calculate_quota deposit in
  modify (λ s, set_Projects
    (<[project_id:=mkProject consumer bounded_chain_id quota 0]> (Projects s)) s);;
  deposit_event (ProjectRegistered project_id consumer chain_id quota).

Definition deposit_project (origin : Origin AccountId) (project_id : MassbitId)
    (deposit : Z) : Handler unit :=
  consumer' ← ensure_signed origin;
  project ← gets (λ s, Projects s !! project_id);
  project ← ok_or project (err ProjectDNE);
  let quota' := sat_add u128_max (quota project) (calculate_quota deposit) in
  imbalance ← currency_withdraw consumer' deposit KeepAlive;
  on_project_payment imbalance;;
  modify (λ s, set_Projects
    (<[project_id:=mkProject (consumer project) (chain_id project) quota'
         (usage project)]> (Projects s)) s);;
  deposit_event (ProjectDeposited project_id quota').

Definition submit_project_usage (origin : Origin AccountId) (project_id : MassbitId)
    (usage' : Z) : Handler unit :=
  regulator ← ensure_signed origin;
  allowed ← gets (λ s, bool_decide (regulator ∈ Regulators s));
  ensure allowed (err PermissionDenied);;
  project ← gets (λ s, Projects s !! project_id);
  project ← ok_or project (err ProjectDNE);
  let usage' := Z.min (sat_add u128_max (usage project) usage') (quota project) in
  modify (λ s, set_Projects
    (<[project_id:=mkProject (consumer project) (chain_id project) (quota project)
         usage']> (Projects s)) s);;
  deposit_event (ProjectUsageUpdated project_id usage').

Definition register_provider (origin : Origin AccountId) (provider_id : MassbitId)
    (provider_type : ProviderType) (owner : AccountId) (chain_id : Bytes) : Handler unit :=
  regulator ← ensure_signed origin;
  allowed ← gets (λ s, bool_decide (regulator ∈ Regulators s));
  ensure allowed (err PermissionDenied);;
  known ← gets (λ s, bool_decide (is_Some (Providers s !! provider_id)));
  ensure (negb known) (err AlreadyExist);;
  bounded_chain_id ← ok_or (bounded chain_id) (err InvalidChainId);
  listed ← gets (λ s, bool_decide (bounded_chain_id ∈ ChainIds s));
  ensure listed (err InvalidChainId);;
  modify (λ s, set_Providers
    (<[provider_id:=mkProvider provider_type owner bounded_chain_id StatusRegistered]>
       (Providers s)) s);;
  deposit_event (ProviderRegistered provider_id provider_type owner chain_id).

(** [Providers::<T>::insert(&provider_id, provider.clone())] with a new status *)
Definition insert_status (provider_id : MassbitId) (provider : Provider AccountId)
    (status : DapiProviderStatus) : Handler unit :=
  modify (λ s, set_Providers
    (<[provider_id:=mkProvider (provider_type provider) (provider_owner provider)
         (provider_chain_id provider) status]> (Providers s)) s).

Definition deposit_provider (origin : Origin AccountId) (provider_id : MassbitId)
    (deposit : Z) : Handler unit :=
  owner ← ensure_signed origin;
  provider ← gets (λ s, Providers s !! provider_id);
  provider ← ok_or provider (err ProviderDNE);
  ensure (bool_decide (provider_owner provider = owner)) (err NotOwner);;
  ensure (bool_decide (provider_status provider = StatusRegistered))
    (err InvalidProviderStatus);;
  in_env (staking_register_provider owner provider_id deposit);;
  insert_status provider_id provider StatusActive;;
  deposit_event (ProviderActivated provider_id (provider_type provider)).

Definition unregister_provider (origin : Origin AccountId) (provider_id : MassbitId) :
    Handler unit :=
  account ← ensure_signed origin;
  provider ← gets (λ s, Providers s !! provider_id);
  provider ← ok_or provider (err ProviderDNE);
  ensure (bool_decide (provider_owner provider = account)) (err NotOwner);;
  ensure (bool_decide (provider_status provider = StatusActive))
    (err InvalidProviderStatus);;
  in_env (staking_unregister_provider (AccountId := AccountId) provider_id);;
  insert_status provider_id provider (StatusInActive UnRegistered);;
  deposit_event (ProviderDeactivated provider_id (provider_type provider) UnRegistered).

Definition report_provider_offence (origin : Origin AccountId) (provider_id : MassbitId)
    (reason : ProviderDeactivateReason) : Handler unit :=
  regulator ← ensure_signed origin;
  allowed ← gets (λ s, bool_decide (regulator ∈ Regulators s));
  ensure allowed (err PermissionDenied);;
  provider ← gets (λ s, Providers s !! provider_id);
  provider ← ok_or provider (err ProviderDNE);
  ensure (bool_decide (provider_status provider = StatusActive))
    (err InvalidProviderStatus);;
  in_env (staking_unregister_provider (AccountId := AccountId) provider_id);;
  insert_status provider_id provider (StatusInActive reason);;
  deposit_event (ProviderDeactivated provider_id (provider_type provider) reason).

Definition add_regulator (origin : Origin AccountId) (account_id : AccountId) :
    Handler unit :=
  ensure_root origin;;
  regulators ← gets Regulators;
  ensure (negb (bool_decide (account_id ∈ regulators))) (err AlreadyExist);;
  modify (set_Regulators ({[account_id]} ∪ regulators));;
  deposit_event (RegulatorAdded account_id).

Definition remove_regulator (origin : Origin AccountId) (account_id : AccountId) :
    Handler unit :=
  ensure_root origin;;
  regulators ← gets Regulators;
  ensure (bool_decide (account_id ∈ regulators)) (err PermissionDenied);;
  modify (set_Regulators (regulators ∖ {[account_id]}));;
  deposit_event (RegulatorRemoved account_id).

Definition add_chain_id (origin : Origin AccountId) (chain_id : Bytes) : Handler unit :=
  ensure_root origin;;
  bounded_chain_id ← ok_or (bounded chain_id) (err InvalidChainId);
  chain_ids ← gets ChainIds;
  ensure (negb (bool_decide (bounded_chain_id ∈ chain_ids))) (err AlreadyExist);;
  modify (set_ChainIds ({[bounded_chain_id]} ∪ chain_ids));;
  deposit_event (ChainIdAdded chain_id).

Definition remove_chain_id (origin : Origin AccountId) (chain_id : Bytes) : Handler unit :=
  ensure_root origin;;
  bounded_chain_id ← ok_or (bounded chain_id) (err InvalidChainId);
  chain_ids ← gets ChainIds;
  ensure (bool_decide (bounded_chain_id ∈ chain_ids)) (err InvalidChainId);;
  modify (set_ChainIds (chain_ids ∖ {[bounded_chain_id]}));;
  deposit_event (ChainIdRemoved chain_id).

Definition dispatch (c : DapiCall AccountId MassbitId) (origin : Origin AccountId) :
    Handler unit :=
  match c with
  | register_project_call p c d => register_project origin p c d
  | deposit_project_call p d => deposit_project origin p d
  | submit_project_usage_call p u => submit_project_usage origin p u
  | register_provider_call p t o c => register_provider origin p t o c
  | deposit_provider_call p d => deposit_provider origin p d
  | unregister_provider_call p => unregister_provider origin p
  | report_provider_offence_call p r => report_provider_offence origin p r
  | add_regulator_call a => add_regulator origin a
  | remove_regulator_call a => remove_regulator origin a
  | add_chain_id_call c => add_chain_id origin c
  | remove_chain_id_call c => remove_chain_id origin c
  end.

(** ** [PreValidateRegulatorCalls] *)

Inductive Validity : Type := ValidTransaction | BadSigner.

(** [local_call] is [call.is_sub_type()]. *)
Definition validate (who : AccountId) (local_call : option (DapiCall AccountId MassbitId))
    (s : State) : Validity :=
  match local_call with
  | Some (submit_project_usage_call _ _)
  | Some (register_provider_call _ _ _ _)
  | Some (report_provider_offence_call _ _) =>
      if bool_decide (who ∈ Regulators s) then ValidTransaction else BadSigner
  | _ => ValidTransaction
  end.

(** [self.validate(who, call, info, len).map(|_| ())] *)
Definition pre_dispatch (who : AccountId)
    (local_call : option (DapiCall AccountId MassbitId)) (s : State) : Validity :=
  validate who local_call s.

(** ** Genesis

    [None] is the panic of [unwrap] on a chain id that is too long. *)
Definition genesis_build (regulators : list AccountId) (chain_ids : list Bytes) (e : E) :
    option State :=
  match mapM bounded chain_ids with
  | Some ids => Some (mkState ∅ ∅ (list_to_set regulators) (list_to_set ids) e [])
  | None => None
  end.

End dapi.
Arguments State AccountId {_ _} MassbitId {_ _} E.
End Dapi.
