(* ===== verification/DapiTests.v ===== *)
(** * The mock and the benchmarks of the dAPI pallet, replayed

    pallets/dapi/src/mock.rs and benchmarks.rs: the pallet over the staking
    pallet and the ledger of [Ledger].  The repository has no other tests of the
    pallet. *)

From S2P Require Export Testing Dapi.
From Stdlib Require Import Strings.String.
Import Dapi DapiError.

(** ** The mock *)

Definition EXISTENTIAL_DEPOSIT : Z := 2.
Definition MIN_PROVIDER_STAKE : Z := 10.
Definition PROVIDER_REWARD_PERCENTAGE : Z := 80.
Definition MAX_NUMBER_OF_DELEGATORS : Z := 5.
Definition MIN_DELEGATOR_STAKE : Z := 10.
Definition MAX_UNLOCKING_CHUNKS : Z := 4.
Definition UNBONDING_PERIOD : Z := 3.
Definition MAX_ERA_STAKE_VALUES : Z := 8.
Definition BLOCKS_PER_ERA : Z := 3.

#[global] Instance dapi_mock_deposit : ExistentialDeposit :=
  {| ED := EXISTENTIAL_DEPOSIT; ED_nonneg := ltac:(done) |}.

(** [impl pallet_dapi_staking::Config for TestRuntime] *)
#[global] Instance dapi_mock_staking_config : StakingConfig Z := {|
  DefaultBlocksPerEra := BLOCKS_PER_ERA;
  ProviderRewardsPercentage := pb_from_percent PROVIDER_REWARD_PERCENTAGE;
  MinProviderStake := MIN_PROVIDER_STAKE;
  MaxDelegatorsPerProvider := MAX_NUMBER_OF_DELEGATORS;
  MinDelegatorStake := MIN_DELEGATOR_STAKE;
  MaxEraStakeValues := MAX_ERA_STAKE_VALUES;
  UnbondingPeriod := UNBONDING_PERIOD;
  MaxUnlockingChunks := MAX_UNLOCKING_CHUNKS;
  PalletAccount := 99
|}.

Abbreviation DapiStaking := (Staking.State Z MassbitId Ledger).

(** [impl pallet_dapi::Config for TestRuntime]; [OnProjectPayment = ()] drops the
    imbalance. *)
#[global] Instance dapi_mock_config : DapiConfig Z DapiStaking := {|
  MaxChainIdLength := 64;
  OnProjectPayment i s := set_ledger (drop_imbalance (AccountId := Z) i (ledger s)) s
|}.

Abbreviation DapiStorage := (State Z MassbitId DapiStaking).
Abbreviation DapiTest := (M Failure DapiStorage).

#[global] Instance dapi_mock_externalities : Externalities DapiStorage DapiStorage := {|
  storage s := s;
  with_storage v _ := v
|}.

(** [ExternalityBuilder::build]; the genesis of the pallet is empty. *)
Definition build : option DapiStorage :=
  genesis_build [] []
    (Staking.mkState (mkEraInfo 0 0 0) ∅ 0 ∅ ∅ ∅ ∅
       (endowed [(1, 9000); (2, 800); (3, 10000); (4, 4900); (5, 3800); (6, 10);
                 (7, 1000); (8, 2000); (9, 10000); (10, 300); (11, 400); (20, 10);
                 (540, EXISTENTIAL_DEPOSIT); (1337, 1_000_000_000_000)]) []).

(** ** The benchmarks *)

(** [frame_benchmarking::account] *)
Definition account (name : string) (n : Z) : Z :=
  if bool_decide (name = "owner"%string) then 2000000 + n else 3000000 + n.

Definition max_value : Z := u128_max.

(** [T::Currency::make_free_balance_be] *)
Definition make_free_balance_be (who v : Z) : DapiTest unit := modify (λ s,
  let l := ledger (env s) in
  set_env (set_ledger (set_issued (Z.min u128_max (issued l + v - free l who))
    (set_account who v (reserved l who) l)) (env s)) s).

(** ["eth.mainnet".into()] *)
Definition eth_mainnet : Bytes := String.list_byte_of_string "eth.mainnet".

Definition initialize : DapiTest unit :=
  modify (λ s, mkState ∅ ∅ ∅ ∅ (env s) (events s));;
  execute (add_chain_id Root eth_mainnet).

(** [ChainIds::<T>::kill()] *)
Definition kill_chain_ids : DapiTest unit := modify (set_ChainIds ∅).

Definition assert_last_event (event : DapiEvent Z MassbitId) : DapiTest unit :=
  assert_eq (λ s, last (events s)) (Some event).

Definition benchmark_register_project : DapiTest unit :=
  initialize;;
  let consumer := account "consumer" 10000 in
  make_free_balance_be consumer max_value;;
  let project_id := MassbitId_default in
  let amount := max_value / 2 in
  let quota := calculate_quota amount in
  let chain_id := eth_mainnet in
  assert_ok (register_project (Signed consumer) project_id chain_id amount);;
  assert_last_event (ProjectRegistered project_id consumer chain_id quota).

Definition benchmark_deposit_project : DapiTest unit :=
  initialize;;
  let consumer := account "consumer" 10000 in
  make_free_balance_be consumer max_value;;
  let project_id := MassbitId_default in
  let amount := max_value / 3 in
  execute (register_project (Signed consumer) project_id eth_mainnet amount);;
  assert_ok (deposit_project (Signed consumer) project_id amount).

(** The set-up of a registered provider. *)
Definition registered_provider : DapiTest Z :=
  initialize;;
  let regulator := account "regulator" 10000 in
  execute (add_regulator Root regulator);;
  let owner := account "owner" 20000 in
  make_free_balance_be owner max_value;;
  execute (register_provider (Signed regulator) MassbitId_default Gateway owner eth_mainnet);;
  mret owner.

Definition benchmark_deposit_provider : DapiTest unit :=
  owner ← registered_provider;
  let deposit_amount := max_value / 2 in
  assert_ok (deposit_provider (Signed owner) MassbitId_default deposit_amount);;
  assert_last_event (ProviderActivated MassbitId_default Gateway).

Definition benchmark_unregister_provider : DapiTest unit :=
  owner ← registered_provider;
  let deposit_amount := max_value / 2 in
  execute (deposit_provider (Signed owner) MassbitId_default deposit_amount);;
  assert_ok (unregister_provider (Signed owner) MassbitId_default);;
  assert_last_event (ProviderDeactivated MassbitId_default Gateway UnRegistered).

Definition benchmark_add_chain_id : DapiTest unit :=
  kill_chain_ids;;
  assert_ok (add_chain_id Root eth_mainnet).

Definition benchmark_remove_chain_id : DapiTest unit :=
  kill_chain_ids;;
  execute (add_chain_id Root eth_mainnet);;
  assert_ok (remove_chain_id Root eth_mainnet).

Definition benchmark_add_regulator : DapiTest unit :=
  initialize;;
  let regulator := account "regulator" 10000 in
  assert_ok (add_regulator Root regulator).

Definition benchmark_remove_regulator : DapiTest unit :=
  initialize;;
  let regulator := account "regulator" 10000 in
  execute (add_regulator Root regulator);;
  assert_ok (remove_regulator Root regulator).

Example dapi_benchmarks_pass :
  all_pass
    [benchmark_register_project; benchmark_deposit_project; benchmark_deposit_provider;
     benchmark_unregister_provider; benchmark_add_chain_id; benchmark_remove_chain_id;
     benchmark_add_regulator; benchmark_remove_regulator] build = true.
Proof. vm_compute. reflexivity. Qed.
