(* ===== verification/DapiLaws.v ===== *)
(** * The dAPI pallet: what its calls do and keep

    Atomicity, the lifecycle of providers in step with the staking pallet
    (through [RegistrationLaws] only), quota and usage, the access control of
    regulators and its transaction-pool filter, and the chain-id registry. *)

From S2P Require Export Dapi.
Import DapiError Dapi.

Section laws.
Context {AccountId : Type} `{Countable AccountId}.
Context {MassbitId : Type} `{Countable MassbitId}.
Context {Imb L E : Type} `{!Currency AccountId Imb L} `{!HasLedger E L}.
Context `{!DapiStakingRegistration AccountId MassbitId E} `{!DapiConfig Imb E}.
Context `{!RegistrationLaws AccountId MassbitId E L}.

Abbreviation State := (Dapi.State AccountId MassbitId E).
Abbreviation Call := (DapiCall AccountId MassbitId).
Implicit Types s : State.
Implicit Types origin : Origin AccountId.

(** ** Atomicity *)

Lemma atomic_in_env {A} (m : M DispatchError E A) :
  atomic m → atomic (in_env m : M _ State _).
Proof.
  intros Hm s e s'. unfold in_env. destruct (m (env s)) as [r e'] eqn:Hr.
  intros [= -> <-]. apply Hm in Hr as ->. by destruct s.
Qed.
Lemma dapi_atomic_currency_withdraw who v r :
  atomic (currency_withdraw who v r : M _ State _).
Proof. apply atomic_try_update. Qed.
Lemma infallible_on_project_payment i : infallible (on_project_payment i : M _ State _).
Proof. apply infallible_modify. Qed.
Lemma dapi_infallible_deposit_event e : infallible (deposit_event e : M _ State _).
Proof. apply infallible_modify. Qed.
Lemma infallible_insert_status p pr st : infallible (insert_status p pr st : M _ State _).
Proof. apply infallible_modify. Qed.
Lemma atomic_register a p v :
  atomic (in_env (staking_register_provider a p v) : M _ State _).
Proof. apply atomic_in_env, register_atomic. Qed.
Lemma atomic_unregister p :
  atomic (in_env (staking_unregister_provider (AccountId := AccountId) p) : M _ State _).
Proof. apply atomic_in_env, unregister_atomic. Qed.

Hint Resolve dapi_atomic_currency_withdraw infallible_on_project_payment
  dapi_infallible_deposit_event infallible_insert_status atomic_register
  atomic_unregister : frame.

Lemma dapi_dispatch_atomic (c : Call) origin :
  atomic (Dapi.dispatch c origin : M _ State _).
Proof.
  destruct c; simpl;
    [unfold register_project|unfold deposit_project|unfold submit_project_usage
    |unfold register_provider|unfold deposit_provider|unfold unregister_provider
    |unfold report_provider_offence|unfold add_regulator|unfold remove_regulator
    |unfold add_chain_id|unfold remove_chain_id]; solve_atomic.
Qed.

(** A failing call of the dAPI pallet has changed nothing: no project,
    provider, regulator or chain id, no balance, and nothing in the staking
    pallet it calls into. *)
Theorem dapi_failed_call_changes_nothing (c : Call) origin s e s' :
  Dapi.dispatch c origin s = (Err e, s') → s' = s.
Proof. apply dapi_dispatch_atomic. Qed.

(** ** Successful runs *)

Lemma dapi_deposit_event_Ok e s s' u :
  deposit_event e s = (Ok u, s') ↔ s' = set_events (events s ++ [e]) s.
Proof. unfold deposit_event. by rewrite modify_Ok. Qed.
Lemma insert_status_Ok p pr st s s' u :
  insert_status p pr st s = (Ok u, s') ↔
  s' = set_Providers (<[p:=mkProvider (provider_type pr) (provider_owner pr)
         (provider_chain_id pr) st]> (Providers s)) s.
Proof. unfold insert_status. by rewrite modify_Ok. Qed.
Lemma on_project_payment_Ok i s s' u :
  on_project_payment i s = (Ok u, s') ↔ s' = set_env (OnProjectPayment i (env s)) s.
Proof. unfold on_project_payment. by rewrite modify_Ok. Qed.
Lemma in_env_Ok {A} (m : M DispatchError E A) s s' a :
  in_env m s = (Ok a, s') ↔ ∃ e, m (env s) = (Ok a, e) ∧ s' = set_env e s.
Proof. unfold in_env. destruct (m (env s)); naive_solver. Qed.
Lemma dapi_currency_withdraw_Ok who v r s s' i :
  currency_withdraw who v r s = (Ok i, s') ↔
  ∃ l, withdraw who v r (get_ledger (env s)) = Ok (i, l) ∧
       s' = set_env (put_ledger l (env s)) s.
Proof.
  unfold currency_withdraw. rewrite try_update_Ok.
  destruct (withdraw _ _ _ _) as [[??]|]; naive_solver.
Qed.
Lemma bounded_Some b b' :
  bounded (Imb := Imb) (E := E) b = Some b' ↔
  b' = b ∧ Z.of_nat (length b) <= MaxChainIdLength.
Proof. unfold bounded. destruct (Z.leb_spec (Z.of_nat (length b)) MaxChainIdLength); naive_solver lia. Qed.

End laws.

#[export] Hint Resolve dapi_atomic_currency_withdraw infallible_on_project_payment
  dapi_infallible_deposit_event infallible_insert_status atomic_register
  atomic_unregister : frame.

Ltac dapi_prim :=
  match goal with
  | H : ensure_signed _ _ = (Ok _, _) |- _ => apply ensure_signed_Ok in H as [H ?]
  | H : ensure_root _ _ = (Ok _, _) |- _ => apply ensure_root_Ok in H as [H ?]
  | H : deposit_event _ _ = (Ok _, _) |- _ => apply dapi_deposit_event_Ok in H
  | H : insert_status _ _ _ _ = (Ok _, _) |- _ => apply insert_status_Ok in H
  | H : on_project_payment _ _ = (Ok _, _) |- _ => apply on_project_payment_Ok in H
  | H : in_env _ _ = (Ok _, _) |- _ =>
      let e := fresh "e" in apply in_env_Ok in H as (e & H & ?)
  | H : currency_withdraw _ _ _ _ = (Ok _, _) |- _ =>
      let l := fresh "l" in apply dapi_currency_withdraw_Ok in H as (l & H & ?)
  | H : bounded _ = Some _ |- _ => apply bounded_Some in H as [? H]
  end.

Ltac dapi_inv H :=
  run_step H; repeat dapi_prim; repeat (progress subst); simpl in *; propify;
  repeat dapi_prim; repeat (progress subst);
  repeat match goal with x : unit |- _ => destruct x end.

Section success.
Context {AccountId : Type} `{Countable AccountId}.
Context {MassbitId : Type} `{Countable MassbitId}.
Context {Imb L E : Type} `{!Currency AccountId Imb L} `{!HasLedger E L}.
Context `{!DapiStakingRegistration AccountId MassbitId E} `{!DapiConfig Imb E}.
Context `{!RegistrationLaws AccountId MassbitId E L}.

Abbreviation State := (Dapi.State AccountId MassbitId E).
Implicit Types s : State.
Implicit Types origin : Origin AccountId.

Lemma register_project_Ok origin p c d s s' :
  register_project origin p c d s = (Ok tt, s') →
  ∃ who i l,
    origin = Signed who ∧ Projects s !! p = None ∧
    Z.of_nat (length c) <= MaxChainIdLength ∧ c ∈ ChainIds s ∧
    withdraw who d KeepAlive (get_ledger (env s)) = Ok (i, l) ∧
    s' = mkState (<[p:=mkProject who c (calculate_quota d) 0]> (Projects s))
           (Providers s) (Regulators s) (ChainIds s)
           (OnProjectPayment i (put_ledger l (env s)))
           (events s ++ [ProjectRegistered p who c (calculate_quota d)]).
Proof.
  intros Hr. unfold register_project in Hr. dapi_inv Hr.
  repeat eexists; eauto. by apply eq_None_not_Some.
Qed.

Lemma deposit_project_Ok origin p d s s' :
  deposit_project origin p d s = (Ok tt, s') →
  ∃ who pr i l,
    let q := sat_add u128_max (quota pr) (calculate_quota d) in
    origin = Signed who ∧ Projects s !! p = Some pr ∧
    withdraw who d KeepAlive (get_ledger (env s)) = Ok (i, l) ∧
    s' = mkState (<[p:=mkProject (consumer pr) (chain_id pr) q (usage pr)]> (Projects s))
           (Providers s) (Regulators s) (ChainIds s)
           (OnProjectPayment i (put_ledger l (env s)))
           (events s ++ [ProjectDeposited p q]).
Proof.
  intros Hr. unfold deposit_project in Hr. dapi_inv Hr. repeat eexists; eauto.
Qed.

Lemma submit_project_usage_Ok origin p u s s' :
  submit_project_usage origin p u s = (Ok tt, s') →
  ∃ who pr,
    let u' := Z.min (sat_add u128_max (usage pr) u) (quota pr) in
    origin = Signed who ∧ who ∈ Regulators s ∧ Projects s !! p = Some pr ∧
    s' = mkState (<[p:=mkProject (consumer pr) (chain_id pr) (quota pr) u']> (Projects s))
           (Providers s) (Regulators s) (ChainIds s) (env s)
           (events s ++ [ProjectUsageUpdated p u']).
Proof.
  intros Hr. unfold submit_project_usage in Hr. dapi_inv Hr. repeat eexists; eauto.
Qed.

Lemma dapi_register_provider_Ok origin p t o c s s' :
  register_provider origin p t o c s = (Ok tt, s') →
  ∃ who,
    origin = Signed who ∧ who ∈ Regulators s ∧ Providers s !! p = None ∧
    Z.of_nat (length c) <= MaxChainIdLength ∧ c ∈ ChainIds s ∧
    s' = mkState (Projects s) (<[p:=mkProvider t o c StatusRegistered]> (Providers s))
           (Regulators s) (ChainIds s) (env s)
           (events s ++ [ProviderRegistered p t o c]).
Proof.
  intros Hr. unfold register_provider in Hr. dapi_inv Hr.
  repeat eexists; eauto. by apply eq_None_not_Some.
Qed.

(** A provider with another status. *)
Definition with_status (pr : Provider AccountId) (st : DapiProviderStatus) :=
  mkProvider (provider_type pr) (provider_owner pr) (provider_chain_id pr) st.

Lemma deposit_provider_Ok origin p d s s' :
  deposit_provider origin p d s = (Ok tt, s') →
  ∃ pr e,
    origin = Signed (provider_owner pr) ∧ Providers s !! p = Some pr ∧
    provider_status pr = StatusRegistered ∧
    staking_register_provider (provider_owner pr) p d (env s) = (Ok tt, e) ∧
    s' = mkState (Projects s) (<[p:=with_status pr StatusActive]> (Providers s))
           (Regulators s) (ChainIds s) e
           (events s ++ [ProviderActivated p (provider_type pr)]).
Proof.
  intros Hr. unfold deposit_provider in Hr. dapi_inv Hr. repeat eexists; eauto.
Qed.

Lemma dapi_unregister_provider_Ok origin p s s' :
  unregister_provider origin p s = (Ok tt, s') →
  ∃ pr e,
    origin = Signed (provider_owner pr) ∧ Providers s !! p = Some pr ∧
    provider_status pr = StatusActive ∧
    staking_unregister_provider (AccountId := AccountId) p (env s) = (Ok tt, e) ∧
    s' = mkState (Projects s)
           (<[p:=with_status pr (StatusInActive UnRegistered)]> (Providers s))
           (Regulators s) (ChainIds s) e
           (events s ++ [ProviderDeactivated p (provider_type pr) UnRegistered]).
Proof.
  intros Hr. unfold unregister_provider in Hr. dapi_inv Hr. repeat eexists; eauto.
Qed.

Lemma report_provider_offence_Ok origin p r s s' :
  report_provider_offence origin p r s = (Ok tt, s') →
  ∃ who pr e,
    origin = Signed who ∧ who ∈ Regulators s ∧ Providers s !! p = Some pr ∧
    provider_status pr = StatusActive ∧
    staking_unregister_provider (AccountId := AccountId) p (env s) = (Ok tt, e) ∧
    s' = mkState (Projects s) (<[p:=with_status pr (StatusInActive r)]> (Providers s))
           (Regulators s) (ChainIds s) e
           (events s ++ [ProviderDeactivated p (provider_type pr) r]).
Proof.
  intros Hr. unfold report_provider_offence in Hr. dapi_inv Hr. repeat eexists; eauto.
Qed.

Lemma add_regulator_Ok origin a s s' :
  add_regulator origin a s = (Ok tt, s') →
  origin = Root ∧ (a ∉ Regulators s) ∧
  s' = mkState (Projects s) (Providers s) ({[a]} ∪ Regulators s) (ChainIds s) (env s)
         (events s ++ [RegulatorAdded a]).
Proof. intros Hr. unfold add_regulator in Hr. dapi_inv Hr. eauto. Qed.

Lemma remove_regulator_Ok origin a s s' :
  remove_regulator origin a s = (Ok tt, s') →
  origin = Root ∧ a ∈ Regulators s ∧
  s' = mkState (Projects s) (Providers s) (Regulators s ∖ {[a]}) (ChainIds s) (env s)
         (events s ++ [RegulatorRemoved a]).
Proof. intros Hr. unfold remove_regulator in Hr. dapi_inv Hr. eauto. Qed.

Lemma add_chain_id_Ok origin c s s' :
  add_chain_id origin c s = (Ok tt, s') →
  origin = Root ∧ Z.of_nat (length c) <= MaxChainIdLength ∧ (c ∉ ChainIds s) ∧
  s' = mkState (Projects s) (Providers s) (Regulators s) ({[c]} ∪ ChainIds s) (env s)
         (events s ++ [ChainIdAdded c]).
Proof. intros Hr. unfold add_chain_id in Hr. dapi_inv Hr. eauto. Qed.

Lemma remove_chain_id_Ok origin c s s' :
  remove_chain_id origin c s = (Ok tt, s') →
  origin = Root ∧ Z.of_nat (length c) <= MaxChainIdLength ∧ c ∈ ChainIds s ∧
  s' = mkState (Projects s) (Providers s) (Regulators s) (ChainIds s ∖ {[c]}) (env s)
         (events s ++ [ChainIdRemoved c]).
Proof. intros Hr. unfold remove_chain_id in Hr. dapi_inv Hr. eauto. Qed.

End success.

Section invariants.
Context {AccountId : Type} `{Countable AccountId}.
Context {MassbitId : Type} `{Countable MassbitId}.
Context {Imb L E : Type} `{!Currency AccountId Imb L} `{!HasLedger E L}.
Context `{!DapiStakingRegistration AccountId MassbitId E} `{!DapiConfig Imb E}.
Context `{!RegistrationLaws AccountId MassbitId E L}.
(** Payments do not register or unregister providers. *)
Context (payment_view : ∀ (i : Imb) (e : E) (p : MassbitId),
  staking_view (OnProjectPayment i e) p = staking_view e p).

Abbreviation State := (Dapi.State AccountId MassbitId E).
Implicit Types s : State.

(** The amounts of a call are [u128]s. *)
Definition amounts_ok (c : DapiCall AccountId MassbitId) : Prop :=
  match c with
  | register_project_call _ _ d | deposit_project_call _ d => is_u128 d
  | submit_project_usage_call _ u => is_u128 u
  | _ => True
  end.

(** A successful call, or a step of the rest of the runtime that registers and
    unregisters no provider. *)
Inductive dapi_step s s' : Prop :=
| dapi_step_call c origin :
    amounts_ok c → Dapi.dispatch c origin s = (Ok tt, s') → dapi_step s s'
| dapi_step_env e :
    (∀ p, staking_view e p = staking_view (env s) p) → s' = set_env e s →
    dapi_step s s'.

(** A chain's genesis: the staking pallet knows no provider. *)
Definition dapi_reachable s : Prop :=
  ∃ rs cs e s0, genesis_build rs cs e = Some s0 ∧
    (∀ p, staking_view e p = Unknown) ∧ rtc dapi_step s0 s.

(** The staking pallet's view that goes with a provider's status. *)
Definition expected_view (pr : option (Provider AccountId)) : StakingView :=
  match pr with
  | None => Unknown
  | Some pr =>
      match provider_status pr with
      | StatusRegistered => Unknown
      | StatusActive => Staked
      | StatusInActive _ => Unregistered
      end
  end.

Record dapi_inv s : Prop := {
  inv_sync : ∀ p, staking_view (env s) p = expected_view (Providers s !! p);
  inv_projects : ∀ p pr, Projects s !! p = Some pr →
    0 <= usage pr <= quota pr ∧ quota pr <= u128_max ∧
    Z.of_nat (length (chain_id pr)) <= MaxChainIdLength;
  inv_provider_chain : ∀ p pr, Providers s !! p = Some pr →
    Z.of_nat (length (provider_chain_id pr)) <= MaxChainIdLength;
  inv_chain_ids : ∀ c, c ∈ ChainIds s → Z.of_nat (length c) <= MaxChainIdLength
}.

Lemma mapM_bounded cs ids :
  mapM bounded cs = Some ids →
  ids = cs ∧ ∀ c, c ∈ cs → Z.of_nat (length c) <= MaxChainIdLength.
Proof.
  revert ids. induction cs as [|c cs IH]; simpl; intros ids Hm.
  - injection Hm as <-. split; [done|]. by intros c ?%elem_of_nil.
  - apply bind_Some in Hm as (c' & [-> Hc]%bounded_Some & Hm).
    apply bind_Some in Hm as (ids' & Hids & [= <-]).
    destruct (IH _ Hids) as [-> Hle]. split; [done|].
    intros x [->|Hx]%elem_of_cons; auto.
Qed.

Lemma genesis_dapi_inv rs cs e s :
  genesis_build rs cs e = Some s → (∀ p, staking_view e p = Unknown) → dapi_inv s.
Proof.
  unfold genesis_build. intros Hg Hv. destruct (mapM bounded cs) as [ids|] eqn:Hm; [|done].
  apply mapM_bounded in Hm as [-> Hle]. simplify_eq. split; simpl.
  - intros p. by rewrite Hv, lookup_empty.
  - intros p pr. by rewrite lookup_empty.
  - intros p pr. by rewrite lookup_empty.
  - intros c Hc%elem_of_list_to_set. by apply Hle.
Qed.

Lemma calculate_quota_range d : is_u128 d → 0 <= calculate_quota d <= u128_max.
Proof.
  unfold calculate_quota, is_u128. intros [Hd Hm].
  pose proof (Z.div_pos d 1000000000000000 Hd ltac:(lia)).
  pose proof (Z.div_le_upper_bound d 1000000000000000 d ltac:(lia) ltac:(lia)). lia.
Qed.

(** A provider moves to a new status together with the staking pallet's view. *)
Lemma sync_insert s p pr e :
  (∀ p, staking_view (env s) p = expected_view (Providers s !! p)) →
  staking_view e p = expected_view (Some pr) →
  (∀ q, q ≠ p → staking_view e q = staking_view (env s) q) →
  ∀ q, staking_view e q = expected_view (<[p:=pr]> (Providers s) !! q).
Proof.
  intros Hs Hp Hq q. destruct (decide (q = p)) as [->|Hne].
  - by rewrite lookup_insert_eq.
  - rewrite lookup_insert_ne by done. rewrite Hq by done. apply Hs.
Qed.

Lemma dapi_call_inv c origin s s' :
  amounts_ok c → Dapi.dispatch c origin s = (Ok tt, s') → dapi_inv s → dapi_inv s'.
Proof.
  intros Hok Hd [Hsync Hproj Hprov Hids]. destruct c; simpl in *.
  - apply register_project_Ok in Hd as (who & i & l & _ & _ & Hc & _ & _ & ->).
    pose proof (calculate_quota_range _ Hok). split; simpl; try done.
    + intros p. by rewrite payment_view, view_put_ledger.
    + intros p pr [[<- <-]|[_ Hp]]%lookup_insert_Some; simpl; [lia|eauto].
  - apply deposit_project_Ok in Hd as (who & pr & i & l & _ & Hp & _ & ->).
    destruct (Hproj _ _ Hp) as (? & ? & ?). pose proof (calculate_quota_range _ Hok).
    split; simpl; try done.
    + intros p. by rewrite payment_view, view_put_ledger.
    + intros p pr' [[<- <-]|[_ Hp']]%lookup_insert_Some; simpl; [|eauto].
      unfold sat_add. lia.
  - apply submit_project_usage_Ok in Hd as (who & pr & _ & _ & Hp & ->).
    destruct (Hproj _ _ Hp) as (? & ? & ?). unfold is_u128 in Hok.
    split; simpl; try done.
    intros p pr' [[<- <-]|[_ Hp']]%lookup_insert_Some; simpl; [|eauto].
    unfold sat_add. lia.
  - apply dapi_register_provider_Ok in Hd as (who & _ & _ & Hp & Hc & _ & ->).
    split; simpl; try done.
    + apply sync_insert; [done| |done]. simpl. by rewrite Hsync, Hp.
    + intros p pr [[<- <-]|[_ Hp']]%lookup_insert_Some; simpl; eauto.
  - apply deposit_provider_Ok in Hd as (pr & e & _ & Hp & _ & Hreg & ->).
    apply register_spec in Hreg as (_ & Hv & Hq). split; simpl; try done.
    + by apply sync_insert.
    + intros p pr' [[<- <-]|[_ Hp']]%lookup_insert_Some; simpl; eauto.
  - apply dapi_unregister_provider_Ok in Hd as (pr & e & _ & Hp & _ & Hreg & ->).
    apply unregister_spec in Hreg as (Hv & Hq). split; simpl; try done.
    + by apply sync_insert.
    + intros p pr' [[<- <-]|[_ Hp']]%lookup_insert_Some; simpl; eauto.
  - apply report_provider_offence_Ok in Hd as (who & pr & e & _ & _ & Hp & _ & Hreg & ->).
    apply unregister_spec in Hreg as (Hv & Hq). split; simpl; try done.
    + by apply sync_insert.
    + intros p pr' [[<- <-]|[_ Hp']]%lookup_insert_Some; simpl; eauto.
  - by apply add_regulator_Ok in Hd as (_ & _ & ->).
  - by apply remove_regulator_Ok in Hd as (_ & _ & ->).
  - apply add_chain_id_Ok in Hd as (_ & Hc & _ & ->). split; simpl; try done.
    intros c [->%elem_of_singleton|?]%elem_of_union; eauto.
  - apply remove_chain_id_Ok in Hd as (_ & _ & _ & ->). split; simpl; try done.
    intros c [? _]%elem_of_difference; eauto.
Qed.

Lemma dapi_reachable_inv s : dapi_reachable s → dapi_inv s.
Proof.
  intros (rs & cs & e & s0 & Hg & Hv & Hs). pose proof (genesis_dapi_inv _ _ _ _ Hg Hv) as Hi.
  clear Hg. induction Hs as [|s1 s2 s3 Hstep _ IH]; [done|]. apply IH.
  destruct Hstep as [c origin Hok Hd|e' He ->]; [by eapply dapi_call_inv|].
  destruct Hi as [Hsync ? ? ?]. split; simpl; try done. intros p. by rewrite He.
Qed.

(** The dAPI pallet and the staking pallet never disagree about a provider:
    in every reachable state an id unknown or merely registered here is unknown
    to staking, an active one is staked, and an inactive one is unregistered
    there. *)
Theorem provider_status_in_sync s p :
  dapi_reachable s →
  match Providers s !! p with
  | None => staking_view (env s) p = Unknown
  | Some pr =>
      match provider_status pr with
      | StatusRegistered => staking_view (env s) p = Unknown
      | StatusActive => staking_view (env s) p = Staked
      | StatusInActive _ => staking_view (env s) p = Unregistered
      end
  end.
Proof.
  intros Hi%dapi_reachable_inv. pose proof (inv_sync _ Hi p) as Hs.
  unfold expected_view in Hs. destruct (Providers s !! p) as [pr|]; [|done].
  by destruct (provider_status pr).
Qed.

(** C26: In every reachable state the owner of an active provider can unregister
    it and a regulator can report it: the staking pallet never refuses, and the
    provider is inactive afterwards. *)
Theorem active_provider_can_leave s p pr :
  dapi_reachable s → Providers s !! p = Some pr → provider_status pr = StatusActive →
  (∃ s', unregister_provider (Signed (provider_owner pr)) p s = (Ok tt, s') ∧
     Providers s' !! p = Some (with_status pr (StatusInActive UnRegistered)) ∧
     staking_view (env s') p = Unregistered) ∧
  (∀ who reason, who ∈ Regulators s →
   ∃ s', report_provider_offence (Signed who) p reason s = (Ok tt, s') ∧
     Providers s' !! p = Some (with_status pr (StatusInActive reason)) ∧
     staking_view (env s') p = Unregistered).
Proof.
  intros Hi%dapi_reachable_inv Hp Ha. pose proof (inv_sync _ Hi p) as Hv.
  rewrite Hp in Hv. simpl in Hv. rewrite Ha in Hv.
  destruct (unregister_succeeds (AccountId := AccountId) p (env s) Hv) as [e He].
  destruct (unregister_spec p _ _ He) as [Hve _].
  set (left_as st := mkState (Projects s)
    (<[p:=with_status pr (StatusInActive st)]> (Providers s)) (Regulators s) (ChainIds s) e
    (events s ++ [ProviderDeactivated p (provider_type pr) st])).
  assert (∀ st, (in_env (staking_unregister_provider (AccountId := AccountId) p);;
    insert_status p pr (StatusInActive st);;
    deposit_event (ProviderDeactivated p (provider_type pr) st)) s =
    (Ok tt, left_as st)) as Hrun.
  { intros st. erewrite (bind_run_Ok _ _ _ tt) by (apply in_env_Ok; by eexists).
    erewrite (bind_run_Ok _ _ _ tt) by (by apply insert_status_Ok). done. }
  split.
  - exists (left_as UnRegistered).
    split; [|simpl; split; [apply lookup_insert_eq|exact Hve]].
    unfold unregister_provider. do 2 (erewrite bind_run_Ok by reflexivity).
    rewrite Hp. erewrite bind_run_Ok by reflexivity.
    rewrite !bool_decide_eq_true_2 by done. do 2 (erewrite bind_run_Ok by reflexivity).
    apply Hrun.
  - intros who reason Hw. exists (left_as reason).
    split; [|simpl; split; [apply lookup_insert_eq|exact Hve]].
    unfold report_provider_offence. do 2 (erewrite bind_run_Ok by reflexivity).
    rewrite bool_decide_eq_true_2 by done. do 2 (erewrite bind_run_Ok by reflexivity).
    rewrite Hp. erewrite bind_run_Ok by reflexivity.
    rewrite !bool_decide_eq_true_2 by done. erewrite bind_run_Ok by reflexivity.
    apply Hrun.
Qed.

(** C27: In every reachable state the recorded usage of a project is at most its
    quota, the quota fits [u128], and every stored chain id (of projects, of
    providers, in the registry) is within [MaxChainIdLength]. *)
Theorem usage_within_quota s :
  dapi_reachable s →
  (∀ p pr, Projects s !! p = Some pr → 0 <= usage pr <= quota pr ∧ quota pr <= u128_max) ∧
  (∀ p pr, Projects s !! p = Some pr → Z.of_nat (length (chain_id pr)) <= MaxChainIdLength) ∧
  (∀ p pr, Providers s !! p = Some pr →
     Z.of_nat (length (provider_chain_id pr)) <= MaxChainIdLength) ∧
  (∀ c, c ∈ ChainIds s → Z.of_nat (length c) <= MaxChainIdLength).
Proof.
  intros Hi%dapi_reachable_inv. pose proof (inv_projects _ Hi) as Hp. split_and!.
  - intros p pr Hpr. destruct (Hp p pr Hpr) as (? & ? & ?). done.
  - intros p pr Hpr. by destruct (Hp p pr Hpr) as (? & ? & ?).
  - apply Hi.
  - apply Hi.
Qed.

(** One step of a provider's lifecycle, or none. *)
Inductive moves : DapiProviderStatus → DapiProviderStatus → Prop :=
| moves_stay st : moves st st
| moves_activate : moves StatusRegistered StatusActive
| moves_deactivate r : moves StatusActive (StatusInActive r).

Definition provider_moves s s' (p : MassbitId) (pr : Provider AccountId) : Prop :=
  ∃ st, Providers s' !! p = Some (with_status pr st) ∧ moves (provider_status pr) st.

Lemma provider_stays s s' p pr :
  Providers s' !! p = Providers s !! p → Providers s !! p = Some pr →
  provider_moves s s' p pr.
Proof.
  intros Heq Hp. exists (provider_status pr). rewrite Heq, Hp.
  split; [by destruct pr|constructor].
Qed.

Lemma provider_moves_insert s s' p pr q pr0 st :
  Providers s !! p = Some pr → Providers s !! q = Some pr0 →
  Providers s' = <[q:=with_status pr0 st]> (Providers s) →
  moves (provider_status pr0) st → provider_moves s s' p pr.
Proof.
  intros Hp Hq Hs Hst. destruct (decide (q = p)) as [->|Hne].
  - exists st. rewrite Hs, lookup_insert_eq. simplify_eq. done.
  - apply provider_stays; [|done]. by rewrite Hs, lookup_insert_ne.
Qed.

(** A step never removes a provider, never changes its owner, type or chain,
    and moves its status only forward: registered to active (by its owner's
    deposit) and active to inactive. *)
Theorem provider_status_moves_forward s s' p pr :
  dapi_step s s' → Providers s !! p = Some pr →
  ∃ st, Providers s' !! p = Some (with_status pr st) ∧ moves (provider_status pr) st.
Proof.
  intros Hstep Hp. change (provider_moves s s' p pr).
  destruct Hstep as [c origin Hok Hd|e He ->]; [|by apply provider_stays].
  destruct c; simpl in Hd.
  - apply register_project_Ok in Hd as (? & ? & ? & _ & _ & _ & _ & _ & ->).
    by apply provider_stays.
  - apply deposit_project_Ok in Hd as (? & ? & ? & ? & _ & _ & _ & ->).
    by apply provider_stays.
  - apply submit_project_usage_Ok in Hd as (? & ? & _ & _ & _ & ->).
    by apply provider_stays.
  - apply dapi_register_provider_Ok in Hd as (? & _ & _ & Hnew & _ & _ & ->).
    apply provider_stays; [|done]. simpl. by rewrite lookup_insert_ne by congruence.
  - apply deposit_provider_Ok in Hd as (pr0 & ? & _ & Hq & Hst & _ & ->).
    eapply (provider_moves_insert s _ p pr _ pr0 _ Hp Hq); [done|]. rewrite Hst. constructor.
  - apply dapi_unregister_provider_Ok in Hd as (pr0 & ? & _ & Hq & Hst & _ & ->).
    eapply (provider_moves_insert s _ p pr _ pr0 _ Hp Hq); [done|]. rewrite Hst. constructor.
  - apply report_provider_offence_Ok in Hd as (? & pr0 & ? & _ & _ & Hq & Hst & _ & ->).
    eapply (provider_moves_insert s _ p pr _ pr0 _ Hp Hq); [done|]. rewrite Hst. constructor.
  - apply add_regulator_Ok in Hd as (_ & _ & ->). by apply provider_stays.
  - apply remove_regulator_Ok in Hd as (_ & _ & ->). by apply provider_stays.
  - apply add_chain_id_Ok in Hd as (_ & _ & _ & ->). by apply provider_stays.
  - apply remove_chain_id_Ok in Hd as (_ & _ & _ & ->). by apply provider_stays.
Qed.

End invariants.

Section access.
Context {AccountId : Type} `{Countable AccountId}.
Context {MassbitId : Type} `{Countable MassbitId}.
Context {Imb L E : Type} `{!Currency AccountId Imb L} `{!CurrencyLaws AccountId Imb L}.
Context `{!HasLedger E L} `{!DapiStakingRegistration AccountId MassbitId E}.
Context `{!DapiConfig Imb E} `{!RegistrationLaws AccountId MassbitId E L}.

Abbreviation State := (Dapi.State AccountId MassbitId E).
Implicit Types s : State.

(** ** Payments *)

(** A successful project payment of [d] takes exactly [d] from the payer's
    free balance (nobody else's balance moves, and the payer survives), hands an
    imbalance worth [d] to [OnProjectPayment], and buys one unit of quota per
    [10 ^ 15]: a new project starts with it unused; a deposit adds it,
    saturating, and leaves consumer, chain and usage alone. *)
Theorem project_payment_exact s s' who p d :
  is_u128 d →
  (∃ c, register_project (Signed who) p c d s = (Ok tt, s')) ∨
  deposit_project (Signed who) p d s = (Ok tt, s') →
  (∃ i l, peek i = d ∧ env s' = OnProjectPayment i (put_ledger l (env s)) ∧
    free_balance l who = free_balance (get_ledger (env s)) who - d ∧
    reserved_balance l who = reserved_balance (get_ledger (env s)) who ∧
    only_changes who (get_ledger (env s)) l) ∧
  ∃ pr', Projects s' = <[p:=pr']> (Projects s) ∧
    match Projects s !! p with
    | None => pr' = mkProject who (chain_id pr') (d / 10 ^ 15) 0
    | Some pr => pr' = mkProject (consumer pr) (chain_id pr)
                         (Z.min (quota pr + d / 10 ^ 15) u128_max) (usage pr)
    end.
Proof.
  intros [Hd _].
  assert (∀ i (l : L), withdraw who d KeepAlive (get_ledger (env s)) = Ok (i, l) →
    peek i = d ∧ free_balance l who = free_balance (get_ledger (env s)) who - d ∧
    reserved_balance l who = reserved_balance (get_ledger (env s)) who ∧
    only_changes who (get_ledger (env s)) l) as Hpay.
  { intros i l Hw. destruct (withdraw_Ok _ _ _ _ _ _ Hd Hw) as (Hi & Ho & Hk).
    destruct Hk as [Hf Hr]; [by left|]. done. }
  intros [[c Hr]|Hr].
  - apply register_project_Ok in Hr as (w & i & l & [= <-] & Hp & _ & _ & Hw & ->).
    destruct (Hpay _ _ Hw) as (? & ? & ? & ?). split; [by exists i, l|].
    eexists. split; [done|]. by rewrite Hp.
  - apply deposit_project_Ok in Hr as (w & pr & i & l & [= <-] & Hp & Hw & ->).
    destruct (Hpay _ _ Hw) as (? & ? & ? & ?). split; [by exists i, l|].
    eexists. split; [done|]. by rewrite Hp.
Qed.

(** ** Regulators *)

Definition is_regulator_call (c : DapiCall AccountId MassbitId) : bool :=
  match c with
  | submit_project_usage_call _ _ | register_provider_call _ _ _ _
  | report_provider_offence_call _ _ => true
  | _ => false
  end.

(** C28: The transaction-pool filter agrees with the dispatchables: it rejects a
    signed call exactly when the call is one of the three free regulator calls
    and the signer is no regulator; such a call would have failed with
    [PermissionDenied] and changed nothing, and a call of these three that the
    filter lets through never fails with that error (unless the staking pallet
    itself returned it). *)
Theorem prevalidation_matches_dispatch c who s :
  (validate who (Some c) s = BadSigner ↔ is_regulator_call c = true ∧ who ∉ Regulators s) ∧
  (validate who (Some c) s = BadSigner →
   Dapi.dispatch c (Signed who) s = (Err (DapiErr PermissionDenied), s)) ∧
  (is_regulator_call c = true → validate who (Some c) s = ValidTransaction →
   (∀ p, (staking_unregister_provider (AccountId := AccountId) p (env s)).1 ≠
         Err (DapiErr PermissionDenied)) →
   (Dapi.dispatch c (Signed who) s).1 ≠ Err (DapiErr PermissionDenied)).
Proof.
  assert (∀ {A} (m : M DispatchError State A),
    who ∉ Regulators s →
    (allowed ← gets (λ s, bool_decide (who ∈ Regulators s));
     ensure allowed (err PermissionDenied);; m) s = (Err (DapiErr PermissionDenied), s))
    as Hdeny.
  { intros A m Hw. erewrite bind_run_Ok by reflexivity.
    by rewrite bool_decide_eq_false_2. }
  split_and!.
  - destruct c; simpl; try (split; [done|by intros [? _]]);
      case_bool_decide; split; try done; by intros [_ ?].
  - destruct c; simpl; try done; case_bool_decide as Hw; try done; intros _;
      [unfold submit_project_usage|unfold register_provider|unfold report_provider_offence];
      (erewrite bind_run_Ok by reflexivity); by apply Hdeny.
  - intros Hc Hv Hst Herr.
    destruct (Dapi.dispatch c (Signed who) s) as [r s'] eqn:Hd. simpl in Herr. subst r.
    destruct c; simpl in *; try done; case_bool_decide as Hw; try done;
      [unfold submit_project_usage in Hd|unfold register_provider in Hd
      |unfold report_provider_offence in Hd];
      unfold mbind, M_bind, gets, ensure, ok_or, ensure_signed, insert_status,
        deposit_event, modify, throw, in_env, mret, M_ret in Hd;
      rewrite bool_decide_eq_true_2 in Hd by done; try specialize (Hst provider_id);
      repeat case_match; simplify_eq; try done.
    match goal with Hu : staking_unregister_provider _ _ = _ |- _ => by rewrite Hu in Hst end.
Qed.

(** The registries of chain ids and of regulators are under root's control:
    adding succeeds for root exactly when the entry is new (and a chain id is
    within the bound), and removing it again succeeds and restores the registry;
    any other origin is refused with [BadOrigin]. *)
Theorem registries_round_trip s c a :
  (Z.of_nat (length c) <= MaxChainIdLength ∧ (c ∉ ChainIds s) ↔
   ∃ s1 s2, add_chain_id Root c s = (Ok tt, s1) ∧ ChainIds s1 = {[c]} ∪ ChainIds s ∧
     remove_chain_id Root c s1 = (Ok tt, s2) ∧ ChainIds s2 = ChainIds s) ∧
  ((a ∉ Regulators s) ↔
   ∃ s1 s2, add_regulator Root a s = (Ok tt, s1) ∧ Regulators s1 = {[a]} ∪ Regulators s ∧
     remove_regulator Root a s1 = (Ok tt, s2) ∧ Regulators s2 = Regulators s) ∧
  (∀ origin, origin ≠ Root →
     add_chain_id origin c s = (Err BadOrigin, s) ∧
     remove_chain_id origin c s = (Err BadOrigin, s) ∧
     add_regulator origin a s = (Err BadOrigin, s) ∧
     remove_regulator origin a s = (Err BadOrigin, s)).
Proof.
  split_and!.
  - split.
    + intros [Hlen Hc]. assert (bounded (Imb := Imb) (E := E) c = Some c) as Hb
        by by apply bounded_Some.
      unfold add_chain_id, remove_chain_id.
      eexists _, _. split_and!.
      * erewrite bind_run_Ok by reflexivity. rewrite Hb.
        do 2 (erewrite bind_run_Ok by reflexivity).
        rewrite bool_decide_eq_false_2 by done.
        do 2 (erewrite bind_run_Ok by reflexivity). reflexivity.
      * done.
      * erewrite bind_run_Ok by reflexivity. rewrite Hb.
        do 2 (erewrite bind_run_Ok by reflexivity). simpl.
        rewrite bool_decide_eq_true_2 by set_solver.
        do 2 (erewrite bind_run_Ok by reflexivity). reflexivity.
      * simpl. set_solver.
    + intros (s1 & s2 & Hadd & _). by apply add_chain_id_Ok in Hadd as (_ & ? & ? & _).
  - split.
    + intros Ha. unfold add_regulator, remove_regulator. eexists _, _. split_and!.
      * do 2 (erewrite bind_run_Ok by reflexivity).
        rewrite bool_decide_eq_false_2 by done.
        do 2 (erewrite bind_run_Ok by reflexivity). reflexivity.
      * done.
      * do 2 (erewrite bind_run_Ok by reflexivity). simpl.
        rewrite bool_decide_eq_true_2 by set_solver.
        do 2 (erewrite bind_run_Ok by reflexivity). reflexivity.
      * simpl. set_solver.
    + intros (s1 & s2 & Hadd & _). by apply add_regulator_Ok in Hadd as (_ & ? & _).
  - intros [|who|] Ho; done.
Qed.

End access.
