(* ===== verification/ValidatorSet.v ===== *)
(** * The validator-set pallet

    pallets/validator-set/src/lib.rs: invulnerable validators, candidates with
    their deposits, the kicking of stale candidates at session changes and the
    author's reward. *)

From S2P Require Export Registration.
Import ValidatorSetError.

Record CandidateInfo (AccountId : Type) : Type := mkCandidateInfo {
  who : AccountId;
  deposit : Z
}.
Arguments mkCandidateInfo {AccountId} _ _.
Arguments who {AccountId} _.
Arguments deposit {AccountId} _.

#[global] Instance CandidateInfo_eq_dec `{EqDecision A} : EqDecision (CandidateInfo A).
Proof. solve_decision. Defined.

Inductive ValidatorSetEvent (AccountId : Type) : Type :=
| NewInvulnerables (new : list AccountId)
| NewDesiredCandidates (max : Z)
| NewCandidacyBond (bond : Z)
| CandidateAdded (who : AccountId) (deposit : Z)
| CandidateRemoved (who : AccountId)
| CandidateSlashed (who : AccountId).
Arguments NewInvulnerables {AccountId} _.
Arguments NewDesiredCandidates {AccountId} _.
Arguments NewCandidacyBond {AccountId} _.
Arguments CandidateAdded {AccountId} _ _.
Arguments CandidateRemoved {AccountId} _.
Arguments CandidateSlashed {AccountId} _.

#[global] Instance ValidatorSetEvent_eq_dec `{EqDecision A} : EqDecision (ValidatorSetEvent A).
Proof. solve_decision. Defined.

(** [#[pallet::call]] *)
Inductive ValidatorSetCall (AccountId : Type) : Type :=
| set_invulnerables_call (new : list AccountId)
| set_desired_candidates_call (max : Z)
| set_candidacy_bond_call (bond : Z)
| register_as_candidate_call
| leave_intent_call.
Arguments set_invulnerables_call {AccountId} _.
Arguments set_desired_candidates_call {AccountId} _.
Arguments set_candidacy_bond_call {AccountId} _.
Arguments register_as_candidate_call {AccountId}.
Arguments leave_intent_call {AccountId}.

(** [Config], and what the pallet uses of [frame_system] and [pallet_session]
    in the environment [E]. *)
Class ValidatorSetConfig (AccountId ValidatorId E : Type) `{PerbillOps} := {
  (** [UpdateOrigin::ensure_origin] *)
  update_origin : Origin AccountId → bool;
  MaxCandidates : Z;
  MinCandidates : Z;
  MaxInvulnerables : Z;
  KickThreshold : Z;
  SlashRatio : Perbill;
  PotAccount : AccountId;
  ValidatorIdOf : AccountId → option ValidatorId;
  is_registered : E → ValidatorId → bool;
  block_number : E → Z;
  register_extra_weight : Z → E → E;
  weight_note_author : Z;
  weight_new_session : Z → Z → Z
}.

Module ValidatorSet.
Section validator_set.
Context {AccountId : Type} `{Countable AccountId}.
Context {ValidatorId Imb L E : Type} `{!Currency AccountId Imb L} `{!HasLedger E L}.
Context `{!PerbillOps} `{!ValidatorSetConfig AccountId ValidatorId E}.

(** ** Storage *)
Record State : Type := mkState {
  Invulnerables : list AccountId;
  Candidates : list (CandidateInfo AccountId);
  LastAuthoredBlock : gmap AccountId Z;
  DesiredCandidates : Z;
  CandidacyBond : Z;
  SlashDestination : option AccountId;
  env : E;
  events : list (ValidatorSetEvent AccountId)
}.

#[global] Instance State_eq_dec `{!EqDecision E} : EqDecision State.
Proof. solve_decision. Defined.

Definition set_Invulnerables v (s : State) : State :=
  mkState v (Candidates s) (LastAuthoredBlock s) (DesiredCandidates s)
    (CandidacyBond s) (SlashDestination s) (env s) (events s).
Definition set_Candidates v (s : State) : State :=
  mkState (Invulnerables s) v (LastAuthoredBlock s) (DesiredCandidates s)
    (CandidacyBond s) (SlashDestination s) (env s) (events s).
Definition set_LastAuthoredBlock v (s : State) : State :=
  mkState (Invulnerables s) (Candidates s) v (DesiredCandidates s)
    (CandidacyBond s) (SlashDestination s) (env s) (events s).
Definition set_DesiredCandidates v (s : State) : State :=
  mkState (Invulnerables s) (Candidates s) (LastAuthoredBlock s) v
    (CandidacyBond s) (SlashDestination s) (env s) (events s).
Definition set_CandidacyBond v (s : State) : State :=
  mkState (Invulnerables s) (Candidates s) (LastAuthoredBlock s) (DesiredCandidates s)
    v (SlashDestination s) (env s) (events s).
Definition set_env v (s : State) : State :=
  mkState (Invulnerables s) (Candidates s) (LastAuthoredBlock s) (DesiredCandidates s)
    (CandidacyBond s) (SlashDestination s) v (events s).
Definition set_events v (s : State) : State :=
  mkState (Invulnerables s) (Candidates s) (LastAuthoredBlock s) (DesiredCandidates s)
    (CandidacyBond s) (SlashDestination s) (env s) v.

Abbreviation Handler := (M DispatchError State).

Definition err (e : Error) : DispatchError := ValidatorSetErr e.

Definition deposit_event (e : ValidatorSetEvent AccountId) : Handler unit :=
  modify (λ s, set_events (events s ++ [e]) s).

(** ** The environment *)

Definition state_ledger (s : State) : L := get_ledger (env s).
Definition set_state_ledger (l : L) (s : State) : State :=
  set_env (put_ledger l (env s)) s.

Definition currency_reserve (a : AccountId) (v : Z) : Handler unit :=
  try_update (λ s, match reserve a v (state_ledger s) with
                   | Ok (u, l) => Ok (u, set_state_ledger l s)
                   | Err e => Err e
                   end).
Definition currency_unreserve (a : AccountId) (v : Z) : Handler Z :=
  update (λ s, let '(rest, l) := unreserve a v (state_ledger s) in
               (rest, set_state_ledger l s)).
Definition currency_slash_reserved (a : AccountId) (v : Z) : Handler (Imb * Z) :=
  update (λ s, let '(r, l) := slash_reserved a v (state_ledger s) in
               (r, set_state_ledger l s)).
Definition currency_resolve_creating (a : AccountId) (i : Imb) : Handler unit :=
  modify (λ s, set_state_ledger (resolve_creating a i (state_ledger s)) s).
(** An imbalance that goes out of scope. *)
Definition currency_drop (i : Imb) : Handler unit :=
  modify (λ s, set_state_ledger (drop_imbalance i (state_ledger s)) s).
(** A transfer whose result is ignored. *)
Definition currency_transfer (from to : AccountId) (v : Z) (req : ExistenceRequirement) :
    Handler bool :=
  update (λ s, match transfer from to v req (state_ledger s) with
               | Ok (_, l) => (true, set_state_ledger l s)
               | Err _ => (false, s)
               end).
Definition extra_weight (w : Z) : Handler unit :=
  modify (λ s, set_env (register_extra_weight w (env s)) s).

Definition ensure_update_origin (o : Origin AccountId) : Handler unit :=
  ensure (update_origin o) BadOrigin.

Definition last_authored (s : State) (a : AccountId) : Z :=
  default 0 (LastAuthoredBlock s !! a).

(** ** [impl<T: Config> Pallet<T>] *)

Definition account_id : AccountId := PotAccount.

(** [candidates.iter().position(|candidate| candidate.who == *who)] *)
Definition position (a : AccountId) (l : list (CandidateInfo AccountId)) : option nat :=
  fst <$> list_find (λ c, who c = a) l.

Definition try_remove_candidate (a : AccountId) (slash : bool) : Handler Z :=
  candidates ← gets Candidates;
  index ← ok_or (position a candidates) (err NotCandidate);
  candidate ← ok_or (candidates !! index) (err NotCandidate);
  let deposit := deposit candidate in
  (if slash then
     let slash_amount := pb_mul SlashRatio deposit in
     let remain := u128_sub deposit slash_amount in
     slashed ← currency_slash_reserved a slash_amount;
     currency_unreserve a remain;;
     dest ← gets SlashDestination;
     (match dest with
      | Some dest => currency_resolve_creating dest slashed.1
      | None => currency_drop slashed.1
      end);;
     deposit_event (CandidateSlashed a)
   else currency_unreserve a deposit;; mret tt);;
  let candidates := delete index candidates in
  modify (set_Candidates candidates);;
  modify (λ s, set_LastAuthoredBlock (delete a (LastAuthoredBlock s)) s);;
  deposit_event (CandidateRemoved a);;
  mret (Z.of_nat (length candidates)).

Definition assemble_validators (candidates : list AccountId) (s : State) : list AccountId :=
  Invulnerables s ++ candidates.

(** A call whose result is ignored. *)
Definition ignore_result {A} (m : Handler A) : Handler unit := λ s, (Ok tt, (m s).2).

(** The closure of [filter_map]: [Some] keeps the candidate.  A failure of
    [try_remove_candidate] is ignored in a release build. *)
Definition kick_one (now : Z) (c : CandidateInfo AccountId) : Handler (option AccountId) :=
  last_block ← gets (λ s, last_authored s (who c));
  count ← gets (λ s, len_u32 (Candidates s));
  let since_last := sat_sub now last_block in
  if (since_last <? KickThreshold) || (count <=? MinCandidates)
  then mret (Some (who c))
  else ignore_result (try_remove_candidate (who c) true);; mret None.

Definition kick_stale_candidates (candidates : list (CandidateInfo AccountId)) :
    Handler (list AccountId) :=
  now ← gets (λ s, block_number (env s));
  foldM (λ kept c, kept' ← kick_one now c;
                   mret (kept ++ match kept' with Some a => [a] | None => [] end))
    [] candidates.

(** ** Dispatchables *)

(** The check of one account of [set_invulnerables]. *)
Definition ensure_registered (account_id : AccountId) : Handler unit :=
  validator_key ← ok_or (ValidatorIdOf account_id) (err NoAssociatedValidatorId);
  registered ← gets (λ s, is_registered (env s) validator_key);
  ensure registered (err ValidatorNotRegistered).

Definition set_invulnerables (origin : Origin AccountId) (new : list AccountId) :
    Handler unit :=
  ensure_update_origin origin;;
  mapM_ ensure_registered new;;
  modify (set_Invulnerables new);;
  deposit_event (NewInvulnerables new).

Definition set_desired_candidates (origin : Origin AccountId) (max : Z) : Handler unit :=
  ensure_update_origin origin;;
  modify (set_DesiredCandidates max);;
  deposit_event (NewDesiredCandidates max).

Definition set_candidacy_bond (origin : Origin AccountId) (bond : Z) : Handler unit :=
  ensure_update_origin origin;;
  modify (set_CandidacyBond bond);;
  deposit_event (NewCandidacyBond bond).

Definition register_as_candidate (origin : Origin AccountId) : Handler unit :=
  a ← ensure_signed origin;
  length ← gets (λ s, len_u32 (Candidates s));
  desired ← gets DesiredCandidates;
  ensure (length <? desired) (err TooManyCandidates);;
  invulnerable ← gets (λ s, bool_decide (a ∈ Invulnerables s));
  ensure (negb invulnerable) (err AlreadyInvulnerable);;
  ensure_registered a;;
  bond ← gets CandidacyBond;
  let new_candidate := mkCandidateInfo a bond in
  candidates ← gets Candidates;
  ensure (negb (bool_decide (a ∈ who <$> candidates))) (err AlreadyCandidate);;
  currency_reserve a bond;;
  modify (set_Candidates (candidates ++ [new_candidate]));;
  modify (λ s, set_LastAuthoredBlock
    (<[a:=u32_add (block_number (env s)) KickThreshold]> (LastAuthoredBlock s)) s);;
  deposit_event (CandidateAdded a bond).

Definition leave_intent (origin : Origin AccountId) : Handler unit :=
  a ← ensure_signed origin;
  count ← gets (λ s, len_u32 (Candidates s));
  ensure (MinCandidates <? count) (err TooFewCandidates);;
  try_remove_candidate a false;;
  mret tt.

Definition dispatch (c : ValidatorSetCall AccountId) (origin : Origin AccountId) :
    Handler unit :=
  match c with
  | set_invulnerables_call new => set_invulnerables origin new
  | set_desired_candidates_call max => set_desired_candidates origin max
  | set_candidacy_bond_call bond => set_candidacy_bond origin bond
  | register_as_candidate_call => register_as_candidate origin
  | leave_intent_call => leave_intent origin
  end.

(** ** [EventHandler] and [SessionManager] *)

Definition note_author (author : AccountId) : Handler unit :=
  let pot := account_id in
  reward ← gets (λ s, default 0
    (checked_sub (free_balance (state_ledger s) pot)
       (minimum_balance (AccountId := AccountId) (L := L))));
  currency_transfer pot author reward KeepAlive;;
  modify (λ s, set_LastAuthoredBlock
    (<[author:=block_number (env s)]> (LastAuthoredBlock s)) s);;
  extra_weight weight_note_author.

Definition note_uncle (author : AccountId) (age : Z) : Handler unit := mret tt.

Definition new_session (index : Z) : Handler (option (list AccountId)) :=
  candidates ← gets Candidates;
  active_candidates ← kick_stale_candidates candidates;
  result ← gets (assemble_validators active_candidates);
  let removed := (length candidates - length active_candidates)%nat in
  extra_weight (weight_new_session (len_u32 candidates)
                  (wrap 32 (Z.of_nat removed)));;
  mret (Some result).

Definition end_session (end_index : Z) : Handler unit := mret tt.
Definition start_session (start_index : Z) : Handler unit := mret tt.

(** ** Genesis

    [None] is a failing assertion. *)
Definition genesis_build (invulnerables : list AccountId) (candidacy_bond : Z)
    (desired_candidates : Z) (e : E) : option State :=
  if bool_decide (NoDup invulnerables) && (len_u32 invulnerables <=? MaxInvulnerables) &&
     (desired_candidates <=? MaxCandidates)
  then Some (mkState invulnerables [] ∅ desired_candidates candidacy_bond None e [])
  else None.

End validator_set.
Arguments State AccountId {_ _} E.
End ValidatorSet.
