(* ===== verification/ValidatorSetTests.v ===== *)
(** * The mock and the tests of the validator-set pallet, replayed

    pallets/validator-set/src/mock.rs and tests.rs over the ledger of [Ledger].
    [pallet_session] and [pallet_authorship] are Substrate's: the mock takes
    their hooks as parameters, and the tests run with stand-ins that follow the
    documented behaviour ([PeriodicSessions], a delay of one session, the author
    of [MockAuthorship]). *)

From S2P Require Export Testing ValidatorSet.
Import ValidatorSet ValidatorSetError.

(** ** The mock *)

Definition ExistentialDeposit : Z := 5.
Definition Offset : Z := 0.
Definition Period : Z := 10.
Definition RootAccount : Z := 777.
Definition MaxCandidates : Z := 20.
Definition MaxInvulnerables : Z := 20.
Definition MinCandidates : Z := 1.

#[global] Instance vs_mock_deposit : Ledger.ExistentialDeposit :=
  {| ED := ExistentialDeposit; ED_nonneg := ltac:(done) |}.

(** [MockAuthorship::find_author] *)
Definition find_author : option Z := Some 4.

(** [IsRegistered::is_registered] *)
Definition is_registered_mock (id : Z) : bool := if id =? 7 then false else true.

(** What the tests see of [pallet_session]: the current and the queued
    validators, and the two statics of [TestSessionHandler]. *)
Record Session : Type := mkSession {
  validators : list Z;
  queued : list Z;
  SessionHandlerValidators : list Z;
  SessionChangeBlock : Z
}.

Record Env : Type := mkEnv {
  mock_ledger : Ledger;
  number : Z;
  session : Session
}.

#[global] Instance Session_eq_dec : EqDecision Session.
Proof. solve_decision. Defined.
#[global] Instance Env_eq_dec : EqDecision Env.
Proof. solve_decision. Defined.

#[global] Instance env_has_ledger : HasLedger Env Ledger := {|
  get_ledger := mock_ledger;
  put_ledger l e := mkEnv l (number e) (session e)
|}.

(** [impl Config for TestRuntime]; 98 stands for the account of [PotId], and
    [WeightInfo = ()] has no use here. *)
#[global] Instance vs_mock_config : ValidatorSetConfig Z Z Env := {|
  update_origin o := match o with Signed who => who =? RootAccount | _ => false end;
  ValidatorSet.MaxCandidates := MaxCandidates;
  ValidatorSet.MinCandidates := MinCandidates;
  ValidatorSet.MaxInvulnerables := MaxInvulnerables;
  KickThreshold := Period;
  SlashRatio := pb_from_percent 10;
  PotAccount := 98;
  ValidatorIdOf := Some;
  is_registered _ := is_registered_mock;
  block_number := number;
  register_extra_weight _ e := e;
  weight_note_author := 0;
  weight_new_session _ _ := 0
|}.

Abbreviation VsStorage := (State Z Env).
Abbreviation VsTest := (M Failure VsStorage).

#[global] Instance vs_mock_externalities : Externalities VsStorage VsStorage := {|
  storage s := s;
  with_storage v _ := v
|}.

(** [on_genesis_session] *)
Definition on_genesis_session (validators : list Z) : Session :=
  mkSession validators validators validators 0.

(** [on_new_session] *)
Definition on_new_session (validators : list Z) (e : Env) : Env :=
  mkEnv (mock_ledger e) (number e)
    (mkSession (ValidatorSetTests.validators (session e)) (queued (session e)) validators
       (number e)).

(** [ExternalityBuilder::build] *)
Definition build : option VsStorage :=
  let invulnerables := [1; 2] in
  let balances := [(1, 100); (2, 100); (3, 100); (4, 100); (5, 100)] in
  genesis_build invulnerables 10 2
    (mkEnv (endowed balances) 0 (on_genesis_session invulnerables)).

Section blocks.
(** [on_initialize] of the pallets of Substrate, in the order of the runtime. *)
Context (session_on_initialize authorship_on_initialize : Z → M DispatchError VsStorage unit).

Definition set_block_number (n : Z) : VsTest unit :=
  modify (λ s, set_env (mkEnv (mock_ledger (env s)) n (session (env s))) s).

Definition initialize_to_block (n : Z) : VsTest unit :=
  first ← gets (λ s, number (env s) + 1);
  mapM_ (λ i,
      set_block_number i;;
      execute (session_on_initialize i);;
      execute (authorship_on_initialize i))
    (seqZ first (n - first + 1)).
End blocks.

(** *** The stand-ins *)

(** At the end of a session the queued validators take over and the next ones
    are queued. *)
Definition rotate_session : M DispatchError VsStorage unit :=
  e ← gets env;
  let changed := on_new_session (queued (session e)) e in
  modify (set_env (mkEnv (mock_ledger e) (number e)
    (mkSession (queued (session e)) (queued (session e))
       (SessionHandlerValidators (session changed)) (SessionChangeBlock (session changed)))));;
  next ← new_session 0;
  modify (λ s, let e := env s in
    set_env (mkEnv (mock_ledger e) (number e)
      (mkSession (validators (session e)) (default (queued (session e)) next)
         (SessionHandlerValidators (session e)) (SessionChangeBlock (session e)))) s).

Definition session_on_initialize (n : Z) : M DispatchError VsStorage unit :=
  if (Offset <=? n) && ((n - Offset) mod Period =? 0) then rotate_session else mret tt.

Definition authorship_on_initialize (_ : Z) : M DispatchError VsStorage unit :=
  match find_author with Some author => note_author author | None => mret tt end.

Definition run_to (n : Z) : VsTest unit :=
  initialize_to_block session_on_initialize authorship_on_initialize n.

(** ** The tests *)

Definition root : Origin Z := Signed RootAccount.
Definition free_balance_of (who : Z) (s : VsStorage) : Z := free (state_ledger s) who.
Definition candidates_len (s : VsStorage) : Z := Z.of_nat (length (Candidates s)).
Definition last_authored_block (who : Z) (s : VsStorage) : Z := last_authored s who.

(** [<DesiredCandidates<TestRuntime>>::put] *)
Definition put_desired_candidates (n : Z) : VsTest unit := modify (set_DesiredCandidates n).

(** [<SlashDestination<TestRuntime>>::put] *)
Definition put_slash_destination (who : Z) : VsTest unit := modify (λ s,
  mkState (Invulnerables s) (Candidates s) (LastAuthoredBlock s) (DesiredCandidates s)
    (CandidacyBond s) (Some who) (env s) (events s)).

(** [Balances::make_free_balance_be] *)
Definition make_free_balance_be (who v : Z) : VsTest unit := modify (λ s,
  let l := state_ledger s in
  set_state_ledger (set_issued (issued l + v - free l who)
    (set_account who v (reserved l who) l)) s).

Definition basic_setup_works : VsTest unit :=
  assert_eq DesiredCandidates 2;;
  assert_eq CandidacyBond 10;;
  assert (λ s, candidates_len s =? 0);;
  assert_eq Invulnerables [1; 2].

Definition test_set_invulnerables : VsTest unit :=
  let new_invulnerables := [1; 2; 3] in
  assert_ok (set_invulnerables root new_invulnerables);;
  assert_eq Invulnerables new_invulnerables;;
  assert_noop (set_invulnerables (Signed 1) new_invulnerables) BadOrigin;;
  assert_noop (set_invulnerables root [7]) (err ValidatorNotRegistered).

Definition test_set_desired_candidates : VsTest unit :=
  assert_eq DesiredCandidates 2;;
  assert_ok (set_desired_candidates root 7);;
  assert_eq DesiredCandidates 7;;
  assert_noop (set_desired_candidates (Signed 1) 8) BadOrigin.

Definition test_set_candidacy_bond : VsTest unit :=
  assert_eq CandidacyBond 10;;
  assert_ok (set_candidacy_bond root 7);;
  assert_eq CandidacyBond 7;;
  assert_noop (set_candidacy_bond (Signed 1) 8) BadOrigin.

Definition cannot_register_candidate_if_too_many : VsTest unit :=
  put_desired_candidates 0;;
  assert_noop (register_as_candidate (Signed 3)) (err TooManyCandidates);;
  put_desired_candidates 1;;
  assert_ok (register_as_candidate (Signed 4));;
  assert_noop (register_as_candidate (Signed 5)) (err TooManyCandidates).

Definition cannot_unregister_candidate_if_too_few : VsTest unit :=
  put_desired_candidates 1;;
  assert_ok (register_as_candidate (Signed 4));;
  assert_noop (leave_intent (Signed 4)) (err TooFewCandidates).

Definition cannot_register_as_candidate_if_already_invulnerable : VsTest unit :=
  assert_eq Invulnerables [1; 2];;
  assert_noop (register_as_candidate (Signed 1)) (err AlreadyInvulnerable).

Definition cannot_register_duplicate_candidate : VsTest unit :=
  assert_ok (register_as_candidate (Signed 3));;
  let addition := mkCandidateInfo 3 10 in
  assert_eq Candidates [addition];;
  assert_eq (last_authored_block 3) 10;;
  assert_eq (free_balance_of 3) 90;;
  assert_noop (register_as_candidate (Signed 3)) (err AlreadyCandidate).

Definition cannot_register_as_candidate_if_insufficient_fund : VsTest unit :=
  assert_eq (free_balance_of 3) 100;;
  assert_eq (free_balance_of 33) 0;;
  assert_ok (register_as_candidate (Signed 3));;
  assert_noop (register_as_candidate (Signed 33)) InsufficientBalance.

Definition register_as_candidate_successfully : VsTest unit :=
  assert_eq DesiredCandidates 2;;
  assert_eq CandidacyBond 10;;
  assert_eq Candidates [];;
  assert_eq Invulnerables [1; 2];;
  assert_eq (free_balance_of 3) 100;;
  assert_eq (free_balance_of 4) 100;;
  assert_ok (register_as_candidate (Signed 3));;
  assert_ok (register_as_candidate (Signed 4));;
  assert_eq (free_balance_of 3) 90;;
  assert_eq (free_balance_of 4) 90;;
  assert_eq candidates_len 2.

Definition test_leave_intent : VsTest unit :=
  assert_ok (register_as_candidate (Signed 3));;
  assert_eq (free_balance_of 3) 90;;
  assert_ok (register_as_candidate (Signed 5));;
  assert_eq (free_balance_of 5) 90;;
  assert_noop (leave_intent (Signed 4)) (err NotCandidate);;
  assert_ok (leave_intent (Signed 3));;
  assert_eq (free_balance_of 3) 100;;
  assert_eq (last_authored_block 3) 0.

Definition authorship_event_handler : VsTest unit :=
  make_free_balance_be account_id 105;;
  assert_eq (free_balance_of 4) 100;;
  assert_ok (register_as_candidate (Signed 4));;
  execute (authorship_on_initialize 1);;
  let validator := mkCandidateInfo 4 10 in
  assert_eq Candidates [validator];;
  assert_eq (last_authored_block 4) 0;;
  assert_eq (free_balance_of 4) 190;;
  assert_eq (free_balance_of account_id) 5.

Definition session_of (s : VsStorage) : Session := session (env s).

Definition session_management_works : VsTest unit :=
  run_to 1;;
  assert_eq (SessionChangeBlock ∘ session_of) 0;;
  assert_eq (SessionHandlerValidators ∘ session_of) [1; 2];;
  run_to 4;;
  assert_eq (SessionChangeBlock ∘ session_of) 0;;
  assert_eq (SessionHandlerValidators ∘ session_of) [1; 2];;
  assert_ok (register_as_candidate (Signed 3));;
  assert_eq (SessionHandlerValidators ∘ session_of) [1; 2];;
  assert_eq candidates_len 1;;
  run_to 10;;
  assert_eq (SessionChangeBlock ∘ session_of) 10;;
  assert_eq (validators ∘ session_of) [1; 2];;
  assert (λ s, bool_decide (length (queued (session_of s)) = 3%nat));;
  assert_eq (SessionHandlerValidators ∘ session_of) [1; 2];;
  run_to 20;;
  assert_eq (SessionChangeBlock ∘ session_of) 20;;
  assert_eq (SessionHandlerValidators ∘ session_of) [1; 2; 3].

Definition kick_and_slash_mechanism : VsTest unit :=
  put_slash_destination 5;;
  assert_ok (register_as_candidate (Signed 3));;
  assert_ok (register_as_candidate (Signed 4));;
  run_to 10;;
  assert_eq candidates_len 2;;
  run_to 20;;
  assert_eq (SessionChangeBlock ∘ session_of) 20;;
  assert_eq candidates_len 1;;
  assert_eq (SessionHandlerValidators ∘ session_of) [1; 2; 3; 4];;
  let validator := mkCandidateInfo 4 10 in
  assert_eq Candidates [validator];;
  assert_eq (last_authored_block 4) 20;;
  run_to 30;;
  assert_eq (SessionHandlerValidators ∘ session_of) [1; 2; 4];;
  assert_eq (free_balance_of 3) 99;;
  assert_eq (free_balance_of 5) 101.

(** All of them pass from the state of [build]. *)
Example vs_tests_pass :
  all_pass
      [basic_setup_works; test_set_invulnerables; test_set_desired_candidates;
       test_set_candidacy_bond; cannot_register_candidate_if_too_many;
       cannot_unregister_candidate_if_too_few;
       cannot_register_as_candidate_if_already_invulnerable;
       cannot_register_duplicate_candidate;
       cannot_register_as_candidate_if_insufficient_fund;
       register_as_candidate_successfully; test_leave_intent; authorship_event_handler;
       session_management_works; kick_and_slash_mechanism] build = true.
Proof. vm_compute. reflexivity. Qed.

(** [duplicate invulnerables in genesis] *)
Example cannot_set_genesis_value_twice :
  genesis_build [1; 1] 10 2 (mkEnv (endowed []) 0 (on_genesis_session [])) = None.
Proof. reflexivity. Qed.
