(* ===== verification/ValidatorSetBenchmarks.v ===== *)
(** * The benchmarks of the validator-set pallet, replayed

    pallets/validator-set/src/benchmarks.rs over the mock, for every value of
    the components [b], [c] and [r] in their ranges.  The session keys that the
    set-up registers with [pallet_session] are not part of the model. *)

From S2P Require Export ValidatorSetTests.
From Stdlib Require Import Strings.String.
Import ValidatorSet ValidatorSetError.

(** [frame_benchmarking::{account, whitelisted_caller}]: distinct accounts. *)
Definition account (name : string) (n : Z) : Z :=
  if bool_decide (name = "candidate"%string) then 1000 + n else 2000 + n.
Definition whitelisted_caller : Z := 100.

(** [T::UpdateOrigin::successful_origin()] *)
Definition successful_origin : Origin Z := root.

Definition minimum : Z := minimum_balance (AccountId := Z) (L := Ledger).

Definition assert_last_event (event : ValidatorSetEvent Z) : VsTest unit :=
  assert_eq (λ s, last (events s)) (Some event).

Definition create_funded_user (name : string) (n balance_factor : Z) : VsTest Z :=
  let user := account name n in
  let balance := minimum * balance_factor in
  make_free_balance_be user balance;;
  mret user.

(** The account of [validator]; its session keys are left out. *)
Definition validator (c : Z) : VsTest Z := create_funded_user "candidate" c 1000.

Definition register_validators (count : Z) : VsTest (list Z) :=
  foldM (λ l c, who ← validator c; mret (l ++ [who])) [] (seqZ 0 count).

Definition register_candidates (count : Z) : VsTest unit :=
  let candidates := account "candidate" <$> seqZ 0 count in
  assert (λ s, 0 <? CandidacyBond s);;
  mapM_ (λ who,
      bond ← gets CandidacyBond;
      make_free_balance_be who (bond * 2);;
      assert_ok (register_as_candidate (Signed who)))
    candidates.

Definition put_candidacy_bond (v : Z) : VsTest unit := modify (set_CandidacyBond v).
Definition put_last_authored_block (who n : Z) : VsTest unit :=
  modify (λ s, set_LastAuthoredBlock (<[who:=n]> (LastAuthoredBlock s)) s).

(** ** [benchmarks!] *)

Definition benchmark_set_invulnerables (b : Z) : VsTest unit :=
  new_invulnerables ← register_validators b;
  assert_ok (set_invulnerables successful_origin new_invulnerables);;
  assert_last_event (NewInvulnerables new_invulnerables).

Definition benchmark_set_desired_candidates : VsTest unit :=
  let max := 999 in
  assert_ok (set_desired_candidates successful_origin max);;
  assert_last_event (NewDesiredCandidates max).

Definition benchmark_set_candidacy_bond : VsTest unit :=
  let bond := minimum * 10 in
  assert_ok (set_candidacy_bond successful_origin bond);;
  assert_last_event (NewCandidacyBond bond).

Definition benchmark_register_as_candidate (c : Z) : VsTest unit :=
  put_candidacy_bond minimum;;
  put_desired_candidates (u32_add c 1);;
  register_validators c;;
  register_candidates c;;
  let caller := whitelisted_caller in
  let bond := minimum * 2 in
  make_free_balance_be caller bond;;
  assert_ok (register_as_candidate (Signed caller));;
  assert_last_event (CandidateAdded caller (bond / 2)).

Definition benchmark_leave_intent (c : Z) : VsTest unit :=
  put_candidacy_bond minimum;;
  put_desired_candidates c;;
  register_validators c;;
  register_candidates c;;
  leaving ← unwrap (λ s, who <$> last (Candidates s));
  assert_ok (leave_intent (Signed leaving));;
  assert_last_event (CandidateRemoved leaving).

Definition benchmark_note_author : VsTest unit :=
  put_candidacy_bond minimum;;
  make_free_balance_be account_id (minimum * 4);;
  let author := account "author" 0 in
  let new_block := 10 in
  set_block_number new_block;;
  assert (λ s, free_balance_of author s =? 0);;
  execute (note_author author);;
  assert (λ s, 0 <? free_balance_of author s);;
  assert (λ s, number (env s) =? new_block).

Definition benchmark_new_session (r c : Z) : VsTest unit :=
  put_candidacy_bond minimum;;
  put_desired_candidates c;;
  set_block_number 0;;
  register_validators c;;
  register_candidates c;;
  let new_block := 1800 in
  let zero_block := 0 in
  candidates ← gets Candidates;
  let non_removals := sat_sub c r in
  mapM_ (λ a, put_last_authored_block (who a) zero_block) candidates;;
  mapM_ (λ a, put_last_authored_block (who a) new_block)
    (if 0 <? non_removals then take (Z.to_nat non_removals) candidates else candidates);;
  pre_length ← gets candidates_len;
  set_block_number new_block;;
  assert (λ s, candidates_len s =? c);;
  execute (new_session 0);;
  if (r <? c) && (MinCandidates <=? non_removals)
  then assert (λ s, candidates_len s <? pre_length)
  else if (r <? c) && (non_removals <? MinCandidates)
  then assert (λ s, candidates_len s =? MinCandidates)
  else assert (λ s, candidates_len s =? pre_length).

(** [let c in a .. b] *)
Definition range (a b : Z) : list Z := seqZ a (b - a + 1).

Example vs_benchmarks_pass :
  all_pass
    ((benchmark_set_invulnerables <$> range 1 MaxInvulnerables) ++
     [benchmark_set_desired_candidates; benchmark_set_candidacy_bond] ++
     (benchmark_register_as_candidate <$> range 1 MaxCandidates) ++
     (benchmark_leave_intent <$> range (MinCandidates + 1) MaxCandidates) ++
     [benchmark_note_author]) build = true.
Proof. vm_compute. reflexivity. Qed.

Example vs_new_session_benchmark_passes :
  all_pass (r ← range 1 MaxCandidates; benchmark_new_session r <$> range 1 MaxCandidates)
    build = true.
Proof. vm_compute. reflexivity. Qed.
