(* ===== verification/ValidatorSetLaws.v ===== *)
(** * The validator-set pallet: what it keeps and what kicking does

    Atomicity, the deposits of the candidates, the refinement of
    [kick_stale_candidates] by a pure filter with a budget, the accounting of
    slashes, and the author's reward. *)

From S2P Require Export ValidatorSet.
Import ValidatorSetError ValidatorSet.

(** What the pallet needs of its environment: accounting weight leaves the
    ledger alone, and the constants have sensible ranges. *)
Class ValidatorSetLaws (AccountId ValidatorId L E : Type) `{!HasLedger E L, !PerbillOps}
    `{!ValidatorSetConfig AccountId ValidatorId E} : Prop := {
  weight_keeps_ledger : ∀ w (e : E), get_ledger (register_extra_weight w e) = get_ledger e;
  MinCandidates_range : 0 <= MinCandidates <= u32_max
}.

Section laws.
Context {AccountId : Type} `{Countable AccountId}.
Context {ValidatorId Imb L E : Type} `{!Currency AccountId Imb L} `{!CurrencyLaws AccountId Imb L}.
Context `{!HasLedger E L} `{!HasLedgerLaws E L} `{!PerbillOps} `{!PerbillLaws}.
Context `{!ValidatorSetConfig AccountId ValidatorId E}.
Context `{!ValidatorSetLaws AccountId ValidatorId L E}.

Abbreviation State := (ValidatorSet.State AccountId E).
Implicit Types s : State.
Implicit Types origin : Origin AccountId.
Implicit Types l k todo : list (CandidateInfo AccountId).
Implicit Types c : CandidateInfo AccountId.

(** ** Atomicity *)

Lemma vs_infallible_deposit_event e : infallible (deposit_event e : M _ State _).
Proof. apply infallible_modify. Qed.
Lemma vs_atomic_currency_reserve a v : atomic (currency_reserve a v : M _ State _).
Proof. apply atomic_try_update. Qed.
Lemma vs_infallible_currency_unreserve a v :
  infallible (currency_unreserve a v : M _ State _).
Proof. apply infallible_update. Qed.
Lemma infallible_currency_slash a v :
  infallible (currency_slash_reserved a v : M _ State _).
Proof. apply infallible_update. Qed.
Lemma infallible_currency_resolve a i :
  infallible (currency_resolve_creating a i : M _ State _).
Proof. apply infallible_modify. Qed.
Lemma infallible_currency_drop i : infallible (currency_drop i : M _ State _).
Proof. apply infallible_modify. Qed.
Lemma readonly_ensure_registered a : readonly (ensure_registered a : M _ State _).
Proof. unfold ensure_registered. solve_readonly. Qed.
Lemma readonly_ensure_update_origin o :
  readonly (ensure_update_origin o : M _ State _).
Proof. apply readonly_ensure. Qed.

Hint Resolve vs_infallible_deposit_event vs_atomic_currency_reserve
  vs_infallible_currency_unreserve infallible_currency_slash infallible_currency_resolve
  infallible_currency_drop readonly_ensure_registered
  readonly_ensure_update_origin : frame.

Lemma try_remove_candidate_atomic a slash :
  atomic (try_remove_candidate a slash : M _ State _).
Proof.
  unfold try_remove_candidate. do 3 (apply atomic_bind_readonly; [solve_readonly|intros]).
  apply infallible_atomic. solve_infallible.
Qed.

Lemma validator_set_dispatch_atomic (call : ValidatorSetCall AccountId) origin :
  atomic (ValidatorSet.dispatch call origin : M _ State _).
Proof.
  destruct call; simpl;
    [unfold set_invulnerables|unfold set_desired_candidates|unfold set_candidacy_bond
    |unfold register_as_candidate|unfold leave_intent]; try solve [solve_atomic].
  apply atomic_bind_readonly; [solve_readonly|intros a].
  do 2 (apply atomic_bind_readonly; [solve_readonly|intros]).
  apply atomic_bind_infallible; [apply try_remove_candidate_atomic|solve_infallible].
Qed.

(** A failing call of the validator-set pallet has changed nothing. *)
Theorem validator_set_failed_call_changes_nothing (call : ValidatorSetCall AccountId) origin s
    e s' :
  ValidatorSet.dispatch call origin s = (Err e, s') → s' = s.
Proof. apply validator_set_dispatch_atomic. Qed.

(** ** Removing one candidate *)

Lemma position_middle k c todo :
  who c ∉ who <$> k → position (who c) (k ++ c :: todo) = Some (length k).
Proof.
  intros Hk. unfold position.
  assert (list_find (λ c', who c' = who c) (k ++ c :: todo) = Some (length k, c)) as ->; [|done].
  apply list_find_Some. split_and!.
  - by apply list_lookup_middle.
  - done.
  - intros j y Hj Hlt. rewrite lookup_app_l in Hj by done. intros Heq. apply Hk.
    rewrite <-Heq. by eapply list_elem_of_fmap_2, list_elem_of_lookup_2.
Qed.

(** The ledger and the events after the deposit is released or slashed. *)
Definition release (slash : bool) (c : CandidateInfo AccountId) s : State :=
  if slash then
    let amount := pb_mul SlashRatio (deposit c) in
    let r := slash_reserved (who c) amount (state_ledger s) in
    let s1 := set_state_ledger r.2 s in
    let s2 := set_state_ledger
      (unreserve (who c) (u128_sub (deposit c) amount) (state_ledger s1)).2 s1 in
    let s3 := match SlashDestination s2 with
              | Some d => set_state_ledger (resolve_creating d r.1.1 (state_ledger s2)) s2
              | None => set_state_ledger (drop_imbalance r.1.1 (state_ledger s2)) s2
              end in
    set_events (events s3 ++ [CandidateSlashed (who c)]) s3
  else set_state_ledger (unreserve (who c) (deposit c) (state_ledger s)).2 s.

Definition removed_state (slash : bool) (c : CandidateInfo AccountId) l s : State :=
  let s1 := release slash c s in
  mkState (Invulnerables s1) l (delete (who c) (LastAuthoredBlock s1))
    (DesiredCandidates s1) (CandidacyBond s1) (SlashDestination s1) (env s1)
    (events s1 ++ [CandidateRemoved (who c)]).

Lemma try_remove_candidate_run k c todo slash s :
  Candidates s = k ++ c :: todo → who c ∉ who <$> k →
  try_remove_candidate (who c) slash s =
  (Ok (Z.of_nat (length (k ++ todo))), removed_state slash c (k ++ todo) s).
Proof.
  intros Hc Hk. unfold try_remove_candidate.
  erewrite bind_run_Ok by reflexivity. rewrite Hc, position_middle by done.
  erewrite bind_run_Ok by reflexivity. rewrite list_lookup_middle by done.
  erewrite bind_run_Ok by reflexivity. rewrite delete_middle.
  unfold removed_state, release. destruct slash.
  - unfold currency_slash_reserved, currency_unreserve.
    destruct (slash_reserved _ _ _) as [[i r] l1] eqn:Hs.
    erewrite (bind_run_Ok _ _ _ tt); [reflexivity|].
    erewrite bind_run_Ok by (unfold update; rewrite Hs; reflexivity).
    simpl. destruct (unreserve _ _ (state_ledger (set_state_ledger l1 s))) as [rest l2] eqn:Hu.
    erewrite bind_run_Ok by (unfold update; rewrite Hu; reflexivity).
    erewrite bind_run_Ok by reflexivity. simpl.
    by destruct (SlashDestination s).
  - unfold currency_unreserve.
    destruct (unreserve _ _ _) as [rest l2] eqn:Hu.
    erewrite (bind_run_Ok _ _ _ tt); [reflexivity|].
    erewrite bind_run_Ok by (unfold update; rewrite Hu; reflexivity). done.
Qed.

(** ** The invariant *)

Record vs_inv s : Prop := {
  vs_nodup : NoDup (who <$> Candidates s);
  vs_length : Z.of_nat (length (Candidates s)) <= u32_max;
  vs_desired : is_u32 (DesiredCandidates s);
  vs_bond : is_u128 (CandidacyBond s);
  vs_deposits : ∀ c, c ∈ Candidates s →
    0 <= deposit c <= reserved_balance (state_ledger s) (who c)
}.

Lemma len_u32_id {A} (l : list A) :
  Z.of_nat (length l) <= u32_max → len_u32 l = Z.of_nat (length l).
Proof. intros. unfold len_u32. apply wrap_small. unfold u32_max in *. lia. Qed.

Lemma state_ledger_set (l : L) s : state_ledger (set_state_ledger l s) = l.
Proof. unfold state_ledger. simpl. apply get_put_ledger. Qed.

Lemma state_ledger_events ev s : state_ledger (set_events ev s) = state_ledger s.
Proof. done. Qed.

Lemma slash_amount_range c :
  is_u128 (deposit c) →
  0 <= pb_mul SlashRatio (deposit c) <= deposit c ∧
  u128_sub (deposit c) (pb_mul SlashRatio (deposit c)) =
    deposit c - pb_mul SlashRatio (deposit c).
Proof.
  intros [Hd Hm]. pose proof (pb_mul_le SlashRatio _ Hd). split; [done|].
  apply wrap_small. unfold u128_max in *. lia.
Qed.

Lemma slash_reserved_others a v (l : L) x :
  0 <= v → x ≠ a →
  free_balance (slash_reserved a v l).2 x = free_balance l x ∧
  reserved_balance (slash_reserved a v l).2 x = reserved_balance l x.
Proof.
  intros Hv Hx. destruct (slash_reserved a v l) as [[i r] l'] eqn:Hs.
  destruct (slash_reserved_spec _ _ _ _ _ _ Hv Hs) as (_ & _ & Ho & _). by apply Ho.
Qed.

Lemma unreserve_others a v (l : L) x :
  0 <= v → x ≠ a →
  free_balance (unreserve a v l).2 x = free_balance l x ∧
  reserved_balance (unreserve a v l).2 x = reserved_balance l x.
Proof.
  intros Hv Hx. destruct (unreserve a v l) as [r l'] eqn:Hs.
  destruct (unreserve_spec _ _ _ _ _ Hv Hs) as (_ & _ & _ & Ho). by apply Ho.
Qed.

Lemma resolve_reserved a i (l : L) x :
  reserved_balance (resolve_creating a i l) x = reserved_balance l x.
Proof.
  destruct (resolve_creating_spec a i l) as (Hr & Ho & _).
  destruct (decide (x = a)) as [->|Hx]; [done|]. by apply Ho.
Qed.

(** Releasing one deposit leaves everyone else's reserves alone. *)
Lemma release_others slash c s x :
  is_u128 (deposit c) → x ≠ who c →
  reserved_balance (state_ledger (release slash c s)) x =
  reserved_balance (state_ledger s) x.
Proof.
  intros Hd Hx. destruct (slash_amount_range c Hd) as [Ha Hsub].
  assert (0 <= u128_sub (deposit c) (pb_mul SlashRatio (deposit c))) as Hrem
    by (rewrite Hsub; lia).
  unfold release. destruct slash.
  - destruct (SlashDestination _);
      rewrite ?state_ledger_set; unfold state_ledger; simpl; rewrite ?get_put_ledger.
    + rewrite resolve_reserved.
      rewrite (proj2 (unreserve_others _ _ _ _ Hrem Hx)).
      by rewrite (proj2 (slash_reserved_others _ _ _ _ (proj1 Ha) Hx)).
    + rewrite (proj2 (drop_imbalance_spec _ _ _)).
      rewrite (proj2 (unreserve_others _ _ _ _ Hrem Hx)).
      by rewrite (proj2 (slash_reserved_others _ _ _ _ (proj1 Ha) Hx)).
  - rewrite state_ledger_set. by apply unreserve_others; [apply Hd|].
Qed.

Lemma release_fields slash c s :
  let s' := release slash c s in
  Invulnerables s' = Invulnerables s ∧ LastAuthoredBlock s' = LastAuthoredBlock s ∧
  DesiredCandidates s' = DesiredCandidates s ∧ CandidacyBond s' = CandidacyBond s ∧
  SlashDestination s' = SlashDestination s.
Proof.
  unfold release. destruct slash; [|done]. cbn -[slash_reserved unreserve].
  destruct (SlashDestination s) eqn:Hd; repeat split; done.
Qed.

Lemma deposit_u128 s c : vs_inv s → c ∈ Candidates s → is_u128 (deposit c).
Proof.
  intros Hi Hc. destruct (vs_deposits _ Hi c Hc) as [Hd Hr]. split; [done|].
  pose proof (free_nonneg (state_ledger s) (who c)).
  pose proof (account_range (state_ledger s) (who c)). lia.
Qed.

(** Taking one candidate out keeps the invariant. *)
Lemma removed_state_inv slash k c todo s :
  vs_inv s → Candidates s = k ++ c :: todo →
  vs_inv (removed_state slash c (k ++ todo) s).
Proof.
  intros Hi Hc. pose proof (vs_nodup _ Hi) as Hnd. rewrite Hc, fmap_app, fmap_cons in Hnd.
  apply NoDup_app in Hnd as (Hk & Hdis & [Hcn Htodo]%NoDup_cons).
  assert (is_u128 (deposit c)) as Hd.
  { eapply deposit_u128; [done|]. rewrite Hc. set_solver. }
  destruct (release_fields slash c s) as (_ & _ & Hdes & Hbond & _).
  split; simpl; rewrite ?Hdes, ?Hbond; try apply Hi.
  - rewrite fmap_app. apply NoDup_app. split_and!; [done| |done]. set_solver.
  - pose proof (vs_length _ Hi) as Hl. rewrite Hc, length_app in Hl. simpl in Hl.
    rewrite length_app. lia.
  - intros c' Hin. assert (c' ∈ Candidates s) as Hin' by (rewrite Hc; set_solver).
    assert (who c' ≠ who c) as Hne.
    { intros Heq. apply elem_of_app in Hin as [Hin|Hin].
      - apply (Hdis (who c)); [|left]. rewrite <-Heq. by apply list_elem_of_fmap_2.
      - apply Hcn. rewrite <-Heq. by apply list_elem_of_fmap_2. }
    pose proof (vs_deposits _ Hi c' Hin').
    pose proof (release_others slash c s (who c') Hd Hne) as Hr.
    unfold state_ledger in *. simpl. lia.
Qed.

(** One candidate leaves, slashed or not. *)
Definition removal s s' : Prop :=
  ∃ slash k c todo, Candidates s = k ++ c :: todo ∧ s' = removed_state slash c (k ++ todo) s.

(** ** Kicking *)

(** The reference: walk the candidates in order and drop the stale ones as long
    as the budget lasts. *)
Fixpoint drop_stale (stale : CandidateInfo AccountId → bool) (budget : Z)
    (l : list (CandidateInfo AccountId)) : list (CandidateInfo AccountId) :=
  match l with
  | [] => []
  | c :: l' =>
      if stale c && (0 <? budget) then drop_stale stale (budget - 1) l'
      else c :: drop_stale stale budget l'
  end.

Definition stale s (now : Z) (c : CandidateInfo AccountId) : bool :=
  KickThreshold <=? sat_sub now (last_authored s (who c)).

Lemma drop_stale_ext f g b l :
  (∀ c, c ∈ l → f c = g c) → drop_stale f b l = drop_stale g b l.
Proof.
  revert b. induction l as [|c l IH]; intros b Hfg; [done|]. simpl.
  rewrite (Hfg c) by left. assert (∀ x, x ∈ l → f x = g x) by (intros; apply Hfg; by right).
  by destruct (g c && (0 <? b)); rewrite IH.
Qed.

Lemma last_authored_removed slash c l s x :
  x ≠ who c → last_authored (removed_state slash c l s) x = last_authored s x.
Proof.
  intros Hx. unfold last_authored, removed_state. cbn [LastAuthoredBlock].
  destruct (release_fields slash c s) as (_ & -> & _). by rewrite lookup_delete_ne.
Qed.

Lemma removed_invulnerables slash c l s :
  Invulnerables (removed_state slash c l s) = Invulnerables s.
Proof. unfold removed_state. cbn [Invulnerables]. by destruct (release_fields slash c s). Qed.

Lemma kick_one_run now k c todo s :
  vs_inv s → Candidates s = k ++ c :: todo →
  kick_one now c s =
  if stale s now c && (0 <? Z.of_nat (length (k ++ c :: todo)) - MinCandidates)
  then (Ok None, removed_state true c (k ++ todo) s)
  else (Ok (Some (who c)), s).
Proof.
  intros Hi Hc. unfold kick_one. do 2 (erewrite bind_run_Ok by reflexivity).
  pose proof (vs_length _ Hi) as Hl. rewrite len_u32_id by done. rewrite <-Hc.
  unfold stale.
  destruct (Z.ltb_spec (sat_sub now (last_authored s (who c))) KickThreshold),
    (Z.leb_spec KickThreshold (sat_sub now (last_authored s (who c))));
    destruct (Z.leb_spec (Z.of_nat (length (Candidates s))) MinCandidates),
      (Z.ltb_spec 0 (Z.of_nat (length (Candidates s)) - MinCandidates));
    try lia; try done. simpl.
  pose proof (vs_nodup _ Hi) as Hnd. rewrite Hc, fmap_app, fmap_cons in Hnd.
  apply NoDup_app in Hnd as (_ & Hdis & _).
  assert (who c ∉ who <$> k) as Hk by (intros Hin; apply (Hdis _ Hin); left).
  erewrite bind_run_Ok; [reflexivity|]. unfold ignore_result.
  by rewrite (try_remove_candidate_run k c todo).
Qed.

Lemma kick_loop now kept k todo s :
  vs_inv s → Candidates s = k ++ todo → kept = who <$> k →
  let rest := drop_stale (stale s now)
    (Z.of_nat (length (k ++ todo)) - MinCandidates) todo in
  ∃ s',
    foldM (λ kept c, kept' ← kick_one now c;
             mret (kept ++ match kept' with Some a => [a] | None => [] end)) kept todo s =
    (Ok (who <$> (k ++ rest)), s') ∧
    vs_inv s' ∧ Candidates s' = k ++ rest ∧ Invulnerables s' = Invulnerables s ∧
    rtc removal s s'.
Proof.
  revert kept k s. induction todo as [|c todo IH]; intros kept k s Hi Hc ->.
  { simpl. exists s. rewrite app_nil_r in *. done. }
  simpl. pose proof (kick_one_run now k c todo s Hi Hc) as Hrun.
  destruct (stale s now c && _) eqn:Hst.
  - erewrite bind_run_Ok by (erewrite bind_run_Ok by exact Hrun; reflexivity).
    pose proof (removed_state_inv true k c todo s Hi Hc) as Hi'.
    destruct (IH (who <$> k) k _ Hi' eq_refl eq_refl) as (s' & Hs' & Hinv & Hcand & Hinvul & Hrm).
    rewrite app_nil_r. exists s'.
    assert (drop_stale (stale (removed_state true c (k ++ todo) s) now)
      (Z.of_nat (length (k ++ todo)) - MinCandidates) todo =
      drop_stale (stale s now)
        (Z.of_nat (length (k ++ c :: todo)) - MinCandidates - 1) todo) as Heq.
    { rewrite !length_app. simpl.
      replace (Z.of_nat (length k + S (length todo)) - MinCandidates - 1) with
        (Z.of_nat (length k + length todo) - MinCandidates) by lia.
      apply drop_stale_ext. intros c' Hin. unfold stale.
      rewrite last_authored_removed; [done|]. intros Heq.
      pose proof (vs_nodup _ Hi) as Hnd. rewrite Hc, fmap_app, fmap_cons in Hnd.
      apply NoDup_app in Hnd as (_ & _ & [Hcn _]%NoDup_cons). apply Hcn.
      rewrite <-Heq. by apply list_elem_of_fmap_2. }
    rewrite Heq in *. split_and!; [done|done|done| |].
    + rewrite Hinvul. apply removed_invulnerables.
    + eapply rtc_l; [|done]. by exists true, k, c, todo.
  - erewrite bind_run_Ok by (erewrite bind_run_Ok by exact Hrun; reflexivity).
    assert (∀ x, k ++ c :: x = (k ++ [c]) ++ x) as Hassoc by (intros; by rewrite <-app_assoc).
    rewrite (Hassoc todo), (Hassoc (drop_stale _ _ _)). rewrite Hassoc in Hc.
    destruct (IH ((who <$> k) ++ [who c]) (k ++ [c]) s Hi Hc) as (s' & ?).
    { by rewrite fmap_app. }
    by exists s'.
Qed.

(** ** Successful calls *)

Lemma vs_currency_reserve_Ok a v s s' u :
  currency_reserve a v s = (Ok u, s') ↔
  ∃ lg : L, reserve a v (state_ledger s) = Ok (u, lg) ∧ s' = set_state_ledger lg s.
Proof.
  unfold currency_reserve. rewrite try_update_Ok.
  destruct (reserve _ _ _) as [[??]|]; naive_solver.
Qed.

Lemma ensure_registered_Ok a s s' u :
  ensure_registered a s = (Ok u, s') → s' = s.
Proof.
  intros Hr. pose proof (readonly_ensure_registered a s) as Hro. by rewrite Hr in Hro.
Qed.

(** A governance call: the origin check, one write and one event. *)
Lemma set_invulnerables_Ok origin new s s' :
  set_invulnerables origin new s = (Ok tt, s') →
  update_origin origin = true ∧
  s' = set_events (events s ++ [NewInvulnerables new]) (set_Invulnerables new s).
Proof.
  intros Hd. unfold set_invulnerables in Hd. run_step Hd.
  assert (readonly (mapM_ ensure_registered new : M _ State _)) as Hro.
  { apply readonly_mapM_. apply readonly_ensure_registered. }
  match goal with Hm : mapM_ _ _ ?w = (Ok _, ?w') |- _ =>
    specialize (Hro w); rewrite Hm in Hro; simpl in Hro; subst end.
  match goal with Ho : ensure_update_origin _ _ = _ |- _ =>
    apply ensure_Ok in Ho as [Ho ->] end.
  by match goal with Hx : deposit_event _ _ = _ |- _ => apply modify_Ok in Hx as -> end.
Qed.

Lemma set_desired_candidates_Ok origin max s s' :
  set_desired_candidates origin max s = (Ok tt, s') →
  update_origin origin = true ∧
  s' = set_events (events s ++ [NewDesiredCandidates max]) (set_DesiredCandidates max s).
Proof.
  intros Hd. unfold set_desired_candidates in Hd. run_step Hd.
  match goal with Ho : ensure_update_origin _ _ = _ |- _ =>
    apply ensure_Ok in Ho as [Ho ->] end.
  by match goal with Hx : deposit_event _ _ = _ |- _ => apply modify_Ok in Hx as -> end.
Qed.

Lemma set_candidacy_bond_Ok origin bond s s' :
  set_candidacy_bond origin bond s = (Ok tt, s') →
  update_origin origin = true ∧
  s' = set_events (events s ++ [NewCandidacyBond bond]) (set_CandidacyBond bond s).
Proof.
  intros Hd. unfold set_candidacy_bond in Hd. run_step Hd.
  match goal with Ho : ensure_update_origin _ _ = _ |- _ =>
    apply ensure_Ok in Ho as [Ho ->] end.
  by match goal with Hx : deposit_event _ _ = _ |- _ => apply modify_Ok in Hx as -> end.
Qed.

Lemma register_as_candidate_Ok origin s s' :
  register_as_candidate origin s = (Ok tt, s') →
  ∃ a (lg : L),
    origin = Signed a ∧ len_u32 (Candidates s) < DesiredCandidates s ∧
    (a ∉ Invulnerables s) ∧ (a ∉ who <$> Candidates s) ∧
    reserve a (CandidacyBond s) (state_ledger s) = Ok (tt, lg) ∧
    s' = mkState (Invulnerables s)
           (Candidates s ++ [mkCandidateInfo a (CandidacyBond s)])
           (<[a:=u32_add (block_number (put_ledger lg (env s))) KickThreshold]>
              (LastAuthoredBlock s))
           (DesiredCandidates s) (CandidacyBond s) (SlashDestination s)
           (put_ledger lg (env s)) (events s ++ [CandidateAdded a (CandidacyBond s)]).
Proof.
  intros Hr. unfold register_as_candidate in Hr. run_step Hr.
  repeat match goal with
  | Hx : ensure_signed _ _ = (Ok _, _) |- _ => apply ensure_signed_Ok in Hx as [Hx ?]
  | Hx : ensure_registered _ _ = (Ok _, _) |- _ => apply ensure_registered_Ok in Hx
  | Hx : currency_reserve _ _ _ = (Ok _, _) |- _ =>
      apply vs_currency_reserve_Ok in Hx as (lg & Hx & ?)
  | Hx : deposit_event _ _ = (Ok _, _) |- _ => apply modify_Ok in Hx
  end. subst. propify.
  repeat match goal with x : unit |- _ => destruct x end. subst.
  eexists _, lg. split_and!; eauto.
Qed.

Lemma position_Some a l i :
  position a l = Some i →
  ∃ k c todo, l = k ++ c :: todo ∧ who c = a ∧ (a ∉ who <$> k) ∧ i = length k.
Proof.
  unfold position. destruct (list_find _ l) as [[j c]|] eqn:Hf; [|done].
  intros [= <-]. apply list_find_Some in Hf as (Hj & Ha & Hbefore).
  exists (take j l), c, (drop (S j) l). split_and!.
  - symmetry. by apply take_drop_middle.
  - done.
  - intros (y & -> & Hy)%list_elem_of_fmap.
    apply list_elem_of_lookup in Hy as [n Hn].
    pose proof (lookup_lt_Some _ _ _ Hn) as Hlt. rewrite length_take in Hlt.
    rewrite lookup_take_lt in Hn by lia. by apply (Hbefore n y Hn); [lia|].
  - rewrite length_take. apply lookup_lt_Some in Hj. lia.
Qed.

Lemma try_remove_candidate_Ok a slash s s' n :
  try_remove_candidate a slash s = (Ok n, s') →
  ∃ k c todo,
    Candidates s = k ++ c :: todo ∧ who c = a ∧ (a ∉ who <$> k) ∧
    s' = removed_state slash c (k ++ todo) s.
Proof.
  intros Hr. pose proof Hr as Hr'. unfold try_remove_candidate in Hr'.
  apply bind_Ok in Hr' as (l & s1 & Hl & Hr'). apply gets_Ok in Hl as [-> ->].
  apply bind_Ok in Hr' as (i & s1 & Hp & _). apply ok_or_Ok in Hp as [Hp _].
  apply position_Some in Hp as (k & c & todo & Hc & <- & Hk & _).
  rewrite (try_remove_candidate_run k c todo) in Hr by done.
  exists k, c, todo. by simplify_eq.
Qed.

Lemma leave_intent_Ok origin s s' :
  leave_intent origin s = (Ok tt, s') →
  ∃ k c todo,
    origin = Signed (who c) ∧ MinCandidates < len_u32 (Candidates s) ∧
    Candidates s = k ++ c :: todo ∧ (who c ∉ who <$> k) ∧
    s' = removed_state false c (k ++ todo) s.
Proof.
  intros Hr. unfold leave_intent in Hr. run_step Hr.
  repeat match goal with
  | Hx : ensure_signed _ _ = (Ok _, _) |- _ => apply ensure_signed_Ok in Hx as [Hx ?]
  | Hx : try_remove_candidate _ _ _ = (Ok _, _) |- _ =>
      apply try_remove_candidate_Ok in Hx as (k & c & todo & ? & ? & ? & ?)
  end. subst. propify. by exists k, c, todo.
Qed.

(** ** The reachable states *)

Definition vs_call_ok (call : ValidatorSetCall AccountId) : Prop :=
  match call with
  | set_desired_candidates_call max => is_u32 max
  | set_candidacy_bond_call bond => is_u128 bond
  | _ => True
  end.

Inductive vs_step s s' : Prop :=
| vs_step_call call origin :
    vs_call_ok call → ValidatorSet.dispatch call origin s = (Ok tt, s') → vs_step s s'
| vs_step_author author :
    author ≠ PotAccount → note_author author s = (Ok tt, s') → vs_step s s'
| vs_step_session n r : new_session n s = (Ok r, s') → vs_step s s'
(** The rest of the runtime releases none of the deposits. *)
| vs_step_env e :
    (∀ c, c ∈ Candidates s → deposit c <= reserved_balance (get_ledger e) (who c)) →
    s' = set_env e s → vs_step s s'.

Definition vs_reachable s : Prop :=
  ∃ invulnerables bond desired e s0,
    is_u128 bond ∧ is_u32 desired ∧
    genesis_build invulnerables bond desired e = Some s0 ∧ rtc vs_step s0 s.

Lemma vs_inv_same s s' :
  vs_inv s → Candidates s' = Candidates s → is_u32 (DesiredCandidates s') →
  is_u128 (CandidacyBond s') →
  (∀ a, reserved_balance (state_ledger s) a <= reserved_balance (state_ledger s') a) →
  vs_inv s'.
Proof.
  intros Hi Hc Hd Hb Hr. split; rewrite ?Hc; try done; try apply Hi.
  intros c Hin. pose proof (vs_deposits _ Hi c Hin). pose proof (Hr (who c)). lia.
Qed.

Lemma note_author_run author s :
  let reward := default 0
    (checked_sub (free_balance (state_ledger s) PotAccount)
       (minimum_balance (AccountId := AccountId) (L := L))) in
  note_author author s =
  (Ok tt,
   let s1 := match transfer PotAccount author reward KeepAlive (state_ledger s) with
             | Ok (_, l) => set_state_ledger l s
             | Err _ => s
             end in
   mkState (Invulnerables s) (Candidates s)
     (<[author:=block_number (env s1)]> (LastAuthoredBlock s))
     (DesiredCandidates s) (CandidacyBond s) (SlashDestination s)
     (register_extra_weight weight_note_author (env s1)) (events s)).
Proof.
  unfold note_author. erewrite bind_run_Ok by reflexivity.
  unfold currency_transfer, account_id.
  destruct (transfer _ _ _ _ _) as [[u l]|e] eqn:Ht;
    (erewrite bind_run_Ok by (unfold update; rewrite Ht; reflexivity)); done.
Qed.

Lemma reward_nonneg s :
  0 <= default 0 (checked_sub (free_balance (state_ledger s) PotAccount)
         (minimum_balance (AccountId := AccountId) (L := L))).
Proof.
  destruct (checked_sub _ _) as [r|] eqn:Hr; simpl; [|done].
  apply checked_sub_Some in Hr. lia.
Qed.

Lemma note_author_inv author s s' :
  author ≠ PotAccount → note_author author s = (Ok tt, s') → vs_inv s → vs_inv s'.
Proof.
  intros Hne. rewrite note_author_run. intros [= <-] Hi.
  apply (vs_inv_same s); try done; try apply Hi. intros a.
  unfold state_ledger at 2. simpl. rewrite weight_keeps_ledger.
  destruct (transfer _ _ _ _ _) as [[[] l]|e] eqn:Ht; simpl; [|done].
  rewrite get_put_ledger.
  destruct (transfer_Ok _ _ _ _ _ _ (reward_nonneg s) (not_eq_sym Hne) Ht)
    as (_ & _ & Hr & _). by rewrite Hr.
Qed.

(** What a session change does, from the kicking loop. *)
Lemma new_session_run n s :
  vs_inv s →
  let now := block_number (env s) in
  let kept := drop_stale (stale s now)
    (Z.of_nat (length (Candidates s)) - MinCandidates) (Candidates s) in
  ∃ s', new_session n s = (Ok (Some (Invulnerables s ++ (who <$> kept))), s') ∧
    vs_inv s' ∧ Candidates s' = kept ∧ Invulnerables s' = Invulnerables s ∧
    ∃ s1 w, rtc removal s s1 ∧ s' = set_env (register_extra_weight w (env s1)) s1.
Proof.
  intros Hi now kept.
  destruct (kick_loop now [] [] (Candidates s) s Hi eq_refl eq_refl)
    as (s1 & Hrun & Hi1 & Hc1 & Hv1 & Hrm). simpl in *. fold kept in Hrun, Hc1.
  set (w := weight_new_session (len_u32 (Candidates s))
    (wrap 32 (Z.of_nat (length (Candidates s) - length (who <$> kept))))).
  exists (set_env (register_extra_weight w (env s1)) s1).
  split_and!; try done; [| |by exists s1, w].
  - unfold new_session. erewrite bind_run_Ok by reflexivity.
    erewrite bind_run_Ok.
    2:{ unfold kick_stale_candidates. erewrite bind_run_Ok by reflexivity. exact Hrun. }
    erewrite bind_run_Ok by reflexivity. erewrite bind_run_Ok by reflexivity.
    unfold assemble_validators. by rewrite Hv1.
  - apply (vs_inv_same s1); try done; try apply Hi1. intros a.
    unfold state_ledger. simpl. by rewrite weight_keeps_ledger.
Qed.

Lemma vs_step_inv s s' : vs_step s s' → vs_inv s → vs_inv s'.
Proof.
  intros [call origin Hok Hd|author Hne Hn|n r Hn|e He ->] Hi.
  - destruct call; simpl in *.
    + apply set_invulnerables_Ok in Hd as (_ & ->).
      apply (vs_inv_same s); try done; apply Hi.
    + apply set_desired_candidates_Ok in Hd as (_ & ->).
      apply (vs_inv_same s); try done; apply Hi.
    + apply set_candidacy_bond_Ok in Hd as (_ & ->).
      apply (vs_inv_same s); try done; apply Hi.
    + apply register_as_candidate_Ok in Hd as (a & l & _ & Hlen & _ & Ha & Hr & ->).
      pose proof (vs_desired _ Hi) as [_ Hdm]. destruct (vs_bond _ Hi) as [Hb _].
      rewrite len_u32_id in Hlen by apply Hi.
      destruct (reserve_Ok _ _ _ _ _ Hb Hr) as (_ & Hra & Ho).
      split; simpl; try apply Hi.
      * rewrite fmap_app. apply NoDup_app. split_and!; [apply Hi| |apply NoDup_singleton].
        intros x Hx Heq%list_elem_of_singleton. by subst x.
      * rewrite length_app. simpl. lia.
      * intros c [Hin|Hin%list_elem_of_singleton]%elem_of_app;
          [|subst c]; unfold state_ledger; simpl; rewrite get_put_ledger.
        -- destruct (Ho (who c)) as [_ ->]; [|by apply Hi].
           intros Heq. apply Ha. rewrite <-Heq. by apply list_elem_of_fmap_2.
        -- pose proof (reserved_nonneg (state_ledger s) a). simpl. lia.
    + apply leave_intent_Ok in Hd as (k & c & todo & _ & _ & Hc & _ & ->).
      by apply removed_state_inv.
  - by eapply note_author_inv.
  - destruct (new_session_run n s Hi) as (s1 & Hrun & Hi1 & _).
    rewrite Hn in Hrun. by simplify_eq.
  - destruct Hi as [? ? ? ? Hd]. split; try done. intros c Hc.
    split; [by apply Hd|by apply He].
Qed.

Lemma vs_reachable_inv s : vs_reachable s → vs_inv s.
Proof.
  intros (inv & bond & desired & e & s0 & Hb & Hd & Hg & Hs).
  assert (vs_inv s0) as Hi.
  { unfold genesis_build in Hg. case_match; [|done]. simplify_eq.
    split; simpl; [constructor|done|done|done|]. by intros c ?%elem_of_nil. }
  clear Hg. induction Hs; [done|]. eauto using vs_step_inv.
Qed.

(** ** Results *)

Lemma drop_stale_sublist f b l : drop_stale f b l `sublist_of` l.
Proof.
  revert b. induction l as [|c l IH]; intros b; simpl; [constructor|].
  destruct (f c && (0 <? b)); [by apply sublist_cons|by apply sublist_skip].
Qed.

Lemma drop_stale_length f b l :
  0 <= b → Z.of_nat (length l) - b <= Z.of_nat (length (drop_stale f b l)).
Proof.
  revert b. induction l as [|c l IH]; intros b Hb; simpl; [lia|].
  destruct (f c); simpl; [|specialize (IH b Hb); lia].
  destruct (Z.ltb_spec 0 b); [|specialize (IH b Hb); simpl; lia].
  specialize (IH (b - 1) ltac:(lia)). lia.
Qed.

Lemma drop_stale_none f b l : b <= 0 → drop_stale f b l = l.
Proof.
  intros Hb. induction l as [|c l IH]; simpl; [done|].
  destruct (Z.ltb_spec 0 b); [lia|]. by rewrite andb_false_r, IH.
Qed.

Lemma drop_stale_minimum f l :
  Z.min MinCandidates (Z.of_nat (length l)) <=
  Z.of_nat (length (drop_stale f (Z.of_nat (length l) - MinCandidates) l)).
Proof.
  destruct (Z.le_ge_cases 0 (Z.of_nat (length l) - MinCandidates)) as [Hb|Hb].
  - pose proof (drop_stale_length f _ l Hb). lia.
  - rewrite drop_stale_none by lia. lia.
Qed.

Lemma drop_stale_keeps f b l c : c ∈ l → f c = false → c ∈ drop_stale f b l.
Proof.
  intros Hc Hf. revert b. induction Hc as [l|c x l Hc IH]; intros b; simpl.
  - rewrite Hf. left.
  - destruct (f x && (0 <? b)); [by apply IH|right; by apply IH].
Qed.

(** Who is still a candidate after some removals was one before, and the last
    block authored is unchanged. *)
Lemma removals_keep s s' a :
  rtc removal s s' → vs_inv s → a ∈ who <$> Candidates s' →
  last_authored s' a = last_authored s a.
Proof.
  intros Hs Hi Ha. cut (a ∈ who <$> Candidates s ∧ last_authored s' a = last_authored s a).
  { by intros [_ ?]. }
  induction Hs as [s|s s1 s2 (slash & k & c & todo & Hc & ->) _ IH]; [done|].
  destruct (IH (removed_state_inv slash k c todo s Hi Hc) Ha) as [Hin ->]. simpl in Hin.
  pose proof (vs_nodup _ Hi) as Hnd. rewrite Hc, fmap_app, fmap_cons in Hnd.
  rewrite fmap_app in Hin.
  split; [rewrite Hc, fmap_app, fmap_cons; set_solver|]. apply last_authored_removed. intros ->.
  apply NoDup_app in Hnd as (_ & Hdis & [Hcn _]%NoDup_cons).
  apply elem_of_app in Hin as [Hin|Hin]; [|done]. apply (Hdis _ Hin). left.
Qed.

(** In every reachable state no account is a candidate twice and the deposit
    of every candidate is still reserved on its account, so that releasing or
    slashing it is always covered. *)
Theorem candidate_deposits_reserved s :
  vs_reachable s →
  NoDup (who <$> Candidates s) ∧
  ∀ c, c ∈ Candidates s → 0 <= deposit c <= reserved_balance (state_ledger s) (who c).
Proof. intros Hi%vs_reachable_inv. split; apply Hi. Qed.

(** C33: A session change in a reachable state implements the reference filter:
    walking the candidates in order, the stale ones (no block within the kick
    threshold) are removed while more than [MinCandidates] remain.  It always
    answers with the invulnerables followed by the remaining candidates; nobody
    who authored recently is kicked, everybody kicked was stale, and kicking
    never takes the number of candidates below [MinCandidates]. *)
Theorem session_change_kicks_stale s n :
  vs_reachable s →
  let now := block_number (env s) in
  let kept := drop_stale (stale s now)
    (Z.of_nat (length (Candidates s)) - MinCandidates) (Candidates s) in
  ∃ s', new_session n s = (Ok (Some (Invulnerables s ++ (who <$> kept))), s') ∧
    Candidates s' = kept ∧ Invulnerables s' = Invulnerables s ∧
    kept `sublist_of` Candidates s ∧
    (∀ c, c ∈ Candidates s → stale s now c = false → c ∈ kept) ∧
    Z.min MinCandidates (Z.of_nat (length (Candidates s))) <= Z.of_nat (length kept) ∧
    (NoDup (Invulnerables s) → (∀ c, c ∈ kept → who c ∉ Invulnerables s) →
     NoDup (Invulnerables s ++ (who <$> kept))).
Proof.
  intros Hi%vs_reachable_inv now kept.
  destruct (new_session_run n s Hi) as (s' & Hrun & Hi' & Hc & Hv & _).
  fold now in Hrun, Hc. fold kept in Hrun, Hc.
  exists s'. split_and!; try done.
  - apply drop_stale_sublist.
  - intros c Hin Hf. by apply drop_stale_keeps.
  - apply drop_stale_minimum.
  - intros Hnd Hdis. apply NoDup_app. split_and!; [done| |].
    + intros a Ha (c & -> & Hin)%list_elem_of_fmap. by apply (Hdis c Hin).
    + rewrite <-Hc. apply Hi'.
Qed.

(** No operation sets the destination of slashes, and genesis leaves it empty. *)
Lemma removals_destination s s' : rtc removal s s' → SlashDestination s' = SlashDestination s.
Proof.
  induction 1 as [|s s1 s2 (slash & k & c & todo & _ & ->) _ IH]; [done|]. rewrite IH.
  unfold removed_state. cbn [SlashDestination].
  by destruct (release_fields slash c s) as (_ & _ & _ & _ & ->).
Qed.

Lemma vs_step_destination s s' :
  vs_step s s' → vs_inv s → SlashDestination s' = SlashDestination s.
Proof.
  intros [call origin _ Hd|author _ Hn|n r Hn|e _ ->] Hi; [| | |done].
  - destruct call; simpl in *.
    + by apply set_invulnerables_Ok in Hd as (_ & ->).
    + by apply set_desired_candidates_Ok in Hd as (_ & ->).
    + by apply set_candidacy_bond_Ok in Hd as (_ & ->).
    + by apply register_as_candidate_Ok in Hd as (a & l & _ & _ & _ & _ & _ & ->).
    + apply leave_intent_Ok in Hd as (k & c & todo & _ & _ & _ & _ & ->).
      by destruct (release_fields false c s) as (_ & _ & _ & _ & <-).
  - rewrite note_author_run in Hn. apply (f_equal snd) in Hn. simpl in Hn. by subst s'.
  - destruct (new_session_run n s Hi) as (s1 & Hrun & _ & _ & _ & s2 & w & Hrm & ->).
    rewrite Hn in Hrun. injection Hrun as _ ->. exact (removals_destination _ _ Hrm).
Qed.

Lemma vs_reachable_destination s : vs_reachable s → SlashDestination s = None.
Proof.
  intros (inv & bond & desired & e & s0 & Hb & Hd & Hg & Hs).
  assert (SlashDestination s0 = None ∧ vs_inv s0) as [Hn Hi].
  { split; [unfold genesis_build in Hg; case_match; [by injection Hg as <-|done]|].
    apply vs_reachable_inv. exists inv, bond, desired, e, s0. by split_and!. }
  clear Hg. induction Hs as [|s s1 s2 Hst _ IH]; [done|].
  apply IH; [by rewrite (vs_step_destination s)|by eapply vs_step_inv].
Qed.

(** Kicking a candidate whose account survives: what happens to its balances
    before the slashed amount [i] goes to the destination. *)
Lemma kicked_ledger s k c todo :
  vs_inv s → Candidates s = k ++ c :: todo →
  let slashed := pb_mul SlashRatio (deposit c) in
  minimum_balance (AccountId := AccountId) (L := L) <=
    free_balance (state_ledger s) (who c) + reserved_balance (state_ledger s) (who c) - slashed →
  ∃ (i : Imb) (lg : L),
    try_remove_candidate (who c) true s =
      (Ok (Z.of_nat (length (k ++ todo))), removed_state true c (k ++ todo) s) ∧
    state_ledger (removed_state true c (k ++ todo) s) =
      match SlashDestination s with
      | Some d => resolve_creating d i lg
      | None => drop_imbalance (AccountId := AccountId) i lg
      end ∧
    0 <= slashed <= deposit c ∧ peek (AccountId := AccountId) (L := L) i = slashed ∧
    total_issuance (AccountId := AccountId) (Imb := Imb) lg =
      total_issuance (AccountId := AccountId) (Imb := Imb) (state_ledger s) ∧
    reserved_balance lg (who c) = reserved_balance (state_ledger s) (who c) - deposit c ∧
    free_balance lg (who c) = free_balance (state_ledger s) (who c) + (deposit c - slashed) ∧
    only_changes (Imb := Imb) (who c) (state_ledger s) lg.
Proof.
  intros Hi Hc slashed Hed. assert (c ∈ Candidates s) as Hin by (rewrite Hc; set_solver).
  destruct (slash_amount_range c (deposit_u128 _ _ Hi Hin)) as [Ha Hsub].
  fold slashed in Ha, Hsub. pose proof (vs_deposits _ Hi c Hin) as Hres.
  assert (who c ∉ who <$> k) as Hk.
  { pose proof (vs_nodup _ Hi) as Hnd. rewrite Hc, fmap_app, fmap_cons in Hnd.
    apply NoDup_app in Hnd as (_ & Hdis & _). intros Hx. apply (Hdis _ Hx). left. }
  destruct (slash_reserved (who c) slashed (state_ledger s)) as [[i r] l1] eqn:Hs.
  destruct (unreserve (who c) (deposit c - slashed) l1) as [rest l2] eqn:Hu.
  pose proof (slash_reserved_issuance _ _ _ _ _ _ (proj1 Ha) Hs) as Hiss.
  destruct (slash_reserved_spec _ _ _ _ _ _ (proj1 Ha) Hs) as (Hi1 & _ & Ho1 & Hex).
  rewrite Z.min_l in Hi1, Hex, Hiss by lia. destruct (Hex Hed) as [Hf1 Hr1]. clear Hex.
  assert (0 <= deposit c - slashed) as Hrem by lia.
  destruct (unreserve_spec _ _ _ _ _ Hrem Hu) as (_ & Hf2 & Hr2 & Ho2).
  pose proof (unreserve_issuance _ _ _ _ _ Hrem Hu) as Hiss2. rewrite Z.min_l in Hf2, Hr2 by lia.
  exists i, l2. split; [by apply try_remove_candidate_run|]. split.
  { change (state_ledger (removed_state true c (k ++ todo) s)) with
      (state_ledger (release true c s)).
    unfold release. fold slashed. rewrite Hs. cbn [fst snd].
    rewrite state_ledger_set, Hsub, Hu. cbn [fst snd].
    cbn [SlashDestination set_state_ledger set_env set_events].
    by destruct (SlashDestination s); rewrite state_ledger_events, !state_ledger_set. }
  rewrite Hiss2, (Hiss Hed). split_and!; try done; try lia.
  intros o Ho. destruct (Ho1 o Ho) as [<- <-]. by apply Ho2.
Qed.

(** C34: Kicking a candidate takes exactly its deposit apart, provided the account
    survives the slash: the reserve drops by the whole deposit, the deposit less
    [SlashRatio] of it becomes free, and the slashed part is burnt: the total
    issuance falls by it and nobody else's balance moves.  (The destination of
    slashes is empty in every reachable state.) *)
Theorem slash_moves_deposit s k c todo :
  vs_reachable s → Candidates s = k ++ c :: todo →
  let slashed := pb_mul SlashRatio (deposit c) in
  minimum_balance (AccountId := AccountId) (L := L) <=
    free_balance (state_ledger s) (who c) + reserved_balance (state_ledger s) (who c) - slashed →
  ∃ s' n, try_remove_candidate (who c) true s = (Ok n, s') ∧
    Candidates s' = k ++ todo ∧ 0 <= slashed <= deposit c ∧
    reserved_balance (state_ledger s') (who c) =
      reserved_balance (state_ledger s) (who c) - deposit c ∧
    free_balance (state_ledger s') (who c) =
      free_balance (state_ledger s) (who c) + (deposit c - slashed) ∧
    (∀ o, o ≠ who c →
       free_balance (state_ledger s') o = free_balance (state_ledger s) o ∧
       reserved_balance (state_ledger s') o = reserved_balance (state_ledger s) o) ∧
    total_issuance (AccountId := AccountId) (Imb := Imb) (state_ledger s') =
      sat_sub (total_issuance (AccountId := AccountId) (Imb := Imb) (state_ledger s)) slashed.
Proof.
  intros Hs Hc slashed Hed. pose proof (vs_reachable_destination s Hs) as Hdest.
  destruct (kicked_ledger s k c todo (vs_reachable_inv s Hs) Hc Hed)
    as (i & lg & Hrun & Hl & Hrange & Hi & Hiss & Hr & Hf & Ho).
  rewrite Hdest in Hl. eexists _, _. split; [exact Hrun|]. rewrite Hl. split; [done|].
  split; [done|]. rewrite drop_imbalance_issuance, Hi, Hiss.
  destruct (drop_imbalance_spec i lg (who c)) as [-> ->]. split_and!; try done.
  intros o Hne. destruct (drop_imbalance_spec i lg o) as [-> ->]. by apply Ho.
Qed.

(** Were there a destination, it would receive the slashed part. *)
Theorem slash_reaches_destination s k c todo d :
  vs_inv s → SlashDestination s = Some d → d ≠ who c → Candidates s = k ++ c :: todo →
  let slashed := pb_mul SlashRatio (deposit c) in
  minimum_balance (AccountId := AccountId) (L := L) <=
    free_balance (state_ledger s) (who c) + reserved_balance (state_ledger s) (who c) - slashed →
  minimum_balance (AccountId := AccountId) (L := L) <= free_balance (state_ledger s) d + slashed →
  free_balance (state_ledger s) d + reserved_balance (state_ledger s) d + slashed <= u128_max →
  ∃ s' n, try_remove_candidate (who c) true s = (Ok n, s') ∧
    reserved_balance (state_ledger s') (who c) =
      reserved_balance (state_ledger s) (who c) - deposit c ∧
    free_balance (state_ledger s') (who c) =
      free_balance (state_ledger s) (who c) + (deposit c - slashed) ∧
    free_balance (state_ledger s') d = free_balance (state_ledger s) d + slashed.
Proof.
  intros Hinv Hdest Hne Hc slashed Hed Hmin Hmax.
  destruct (kicked_ledger s k c todo Hinv Hc Hed)
    as (i & lg & Hrun & Hl & _ & Hi & _ & Hr & Hf & Ho).
  rewrite Hdest in Hl. eexists _, _. split; [exact Hrun|]. rewrite Hl.
  destruct (resolve_creating_spec d i lg) as (_ & Ho3 & Hf3).
  destruct (Ho3 (who c)) as [-> ->]; [done|]. split; [done|]. split; [done|].
  destruct (Ho d Hne) as [Hfd Hrd]. rewrite Hi, Hfd, Hrd in Hf3. by apply Hf3.
Qed.

(** C35: Registering as a candidate and leaving again is a round trip: when the
    registration succeeded and enough candidates are left, leaving succeeds and
    restores the candidate list and every account's free and reserved balance. *)
Theorem register_leave_round_trip s s1 a :
  vs_reachable s → register_as_candidate (Signed a) s = (Ok tt, s1) →
  MinCandidates <= Z.of_nat (length (Candidates s)) →
  Candidates s1 = Candidates s ++ [mkCandidateInfo a (CandidacyBond s)] ∧
  reserved_balance (state_ledger s1) a = reserved_balance (state_ledger s) a + CandidacyBond s ∧
  ∃ s2, leave_intent (Signed a) s1 = (Ok tt, s2) ∧ Candidates s2 = Candidates s ∧
    ∀ x, free_balance (state_ledger s2) x = free_balance (state_ledger s) x ∧
         reserved_balance (state_ledger s2) x = reserved_balance (state_ledger s) x.
Proof.
  intros Hi%vs_reachable_inv
    (? & lg & [= <-] & Hlen & Hinv & Ha & Hr & ->)%register_as_candidate_Ok Hmin.
  set (c := mkCandidateInfo a (CandidacyBond s)).
  destruct (vs_bond _ Hi) as [Hb Hbm].
  destruct (reserve_Ok _ _ _ _ _ Hb Hr) as (Hf1 & Hr1 & Ho1).
  split; [done|]. unfold state_ledger at 1. simpl. rewrite get_put_ledger.
  split; [done|]. set (s1 := mkState _ _ _ _ _ _ _ _).
  pose proof (vs_desired _ Hi) as [_ Hdm].
  rewrite len_u32_id in Hlen by apply Hi.
  exists (removed_state false c (Candidates s ++ []) s1). split_and!.
  - unfold leave_intent. do 2 (erewrite bind_run_Ok by reflexivity).
    rewrite len_u32_id by (simpl; rewrite length_app; simpl; lia).
    assert ((MinCandidates <? Z.of_nat (length (Candidates s1))) = true) as ->.
    { apply Z.ltb_lt. simpl. rewrite length_app. simpl. lia. }
    erewrite bind_run_Ok by reflexivity.
    change a with (who c) at 1.
    by erewrite bind_run_Ok by (by apply (try_remove_candidate_run (Candidates s) c [])).
  - simpl. apply app_nil_r.
  - intros x. change (state_ledger (removed_state false c (Candidates s ++ []) s1)) with
      (state_ledger (release false c s1)).
    unfold release. rewrite state_ledger_set. unfold state_ledger at 1 3. simpl.
    rewrite !get_put_ledger.
    destruct (unreserve a (CandidacyBond s) lg) as [rest l2] eqn:Hu.
    destruct (unreserve_spec _ _ _ _ _ Hb Hu) as (_ & Hf2 & Hr2 & Ho2). simpl.
    pose proof (reserved_nonneg (state_ledger s) a).
    destruct (decide (x = a)) as [->|Hne]; [lia|].
    destruct (Ho1 x Hne), (Ho2 x Hne). lia.
Qed.

(** The author of a block receives what the pot holds above the existential
    deposit (so the pot account survives), and is recorded as the author of the
    current block; reserves, candidates and everybody else's balance stay. *)
Theorem author_gets_pot s author (lg : L) :
  author ≠ PotAccount →
  minimum_balance (AccountId := AccountId) (L := L) <= free_balance (state_ledger s) PotAccount →
  let reward := free_balance (state_ledger s) PotAccount -
                minimum_balance (AccountId := AccountId) (L := L) in
  transfer PotAccount author reward KeepAlive (state_ledger s) = Ok (tt, lg) →
  ∃ s', note_author author s = (Ok tt, s') ∧
    free_balance (state_ledger s') PotAccount = minimum_balance (AccountId := AccountId) (L := L) ∧
    free_balance (state_ledger s') author = free_balance (state_ledger s) author + reward ∧
    (∀ x, x ≠ PotAccount → x ≠ author →
       free_balance (state_ledger s') x = free_balance (state_ledger s) x) ∧
    (∀ x, reserved_balance (state_ledger s') x = reserved_balance (state_ledger s) x) ∧
    LastAuthoredBlock s' !! author = Some (block_number (put_ledger lg (env s))) ∧
    Candidates s' = Candidates s.
Proof.
  intros Hne Hmin reward Ht. rewrite note_author_run.
  assert (checked_sub (free_balance (state_ledger s) PotAccount)
    (minimum_balance (AccountId := AccountId) (L := L)) = Some reward) as ->.
  { by apply checked_sub_Some. }
  simpl. rewrite Ht. eexists. split; [done|].
  set (s' := mkState _ _ _ _ _ _ _ _).
  assert (state_ledger s' = lg) as Hl.
  { unfold state_ledger. simpl. by rewrite weight_keeps_ledger, get_put_ledger. }
  assert (0 <= reward) as Hr by (unfold reward; lia).
  destruct (transfer_Ok _ _ _ _ _ _ Hr (not_eq_sym Hne) Ht) as (Hp & Ha & Hres & Hoth).
  rewrite !Hl. split_and!; try done.
  - rewrite Hp. unfold reward. lia.
  - apply lookup_insert_eq.
Qed.

(** No step takes the number of candidates below [MinCandidates] (or below
    what it was, when it was lower already), and it grows by at most one, only
    while it is below [DesiredCandidates]. *)
Theorem candidate_count_bounds s s' :
  vs_reachable s → vs_step s s' →
  let n := Z.of_nat (length (Candidates s)) in
  let n' := Z.of_nat (length (Candidates s')) in
  Z.min MinCandidates n <= n' ∧ (n' <= n ∨ n' = n + 1 ∧ n < DesiredCandidates s).
Proof.
  intros Hi%vs_reachable_inv [call origin Hok Hd|author Hne Hn|i r Hn|e He ->].
  - destruct call; simpl in *.
    + apply set_invulnerables_Ok in Hd as (_ & ->).
      simpl. lia.
    + apply set_desired_candidates_Ok in Hd as (_ & ->).
      simpl. lia.
    + apply set_candidacy_bond_Ok in Hd as (_ & ->).
      simpl. lia.
    + apply register_as_candidate_Ok in Hd as (a & lg & _ & Hlen & _ & _ & _ & ->).
      rewrite len_u32_id in Hlen by apply Hi. simpl. rewrite length_app. simpl. lia.
    + apply leave_intent_Ok in Hd as (k & c & todo & _ & Hmin & Hc & _ & ->).
      rewrite len_u32_id in Hmin by apply Hi. simpl. rewrite Hc in *.
      rewrite !length_app in *. simpl in *. lia.
  - rewrite note_author_run in Hn. injection Hn as <-. simpl. lia.
  - destruct (new_session_run i s Hi) as (s1 & Hrun & _ & Hc & _ & _).
    rewrite Hn in Hrun. simplify_eq. rewrite Hc.
    pose proof (drop_stale_minimum (stale s (block_number (env s))) (Candidates s)).
    pose proof (sublist_length _ _ (drop_stale_sublist (stale s (block_number (env s)))
      (Z.of_nat (length (Candidates s)) - MinCandidates) (Candidates s))). lia.
  - simpl. lia.
Qed.

End laws.
