(* ===== verification/ValidatorSetReserves.v ===== *)
(** * The validator set's part of the shared reserves

    The staking pallet and the validator set reserve the same accounts'
    balances.  This file shows that no operation of the validator set releases
    more than the deposits it drops, and that it touches the rest of the
    environment through the ledger and the registered weights only. *)

From S2P Require Export ValidatorSetLaws.
Import ValidatorSetError ValidatorSet.

Section reserves.
Context {AccountId : Type} `{Countable AccountId}.
Context {ValidatorId Imb L E : Type} `{!Currency AccountId Imb L} `{!CurrencyLaws AccountId Imb L}.
Context `{!HasLedger E L} `{!HasLedgerLaws E L} `{!PerbillOps} `{!PerbillLaws}.
Context `{!ValidatorSetConfig AccountId ValidatorId E}.
Context `{!ValidatorSetLaws AccountId ValidatorId L E}.

Abbreviation State := (ValidatorSet.State AccountId E).
Implicit Types s : State.
Implicit Types l k todo : list (CandidateInfo AccountId).
Implicit Types c : CandidateInfo AccountId.

(** What the candidates of a list have deposited on an account. *)
Definition deposits l (w : AccountId) : Z :=
  lsum ((λ c, if decide (who c = w) then deposit c else 0) <$> l).

Lemma deposits_app k l w : deposits (k ++ l) w = deposits k w + deposits l w.
Proof. unfold deposits. rewrite fmap_app. apply lsum_app. Qed.

Lemma deposits_cons c l w :
  deposits (c :: l) w = (if decide (who c = w) then deposit c else 0) + deposits l w.
Proof. done. Qed.

Lemma deposits_nonneg l w : (∀ c, c ∈ l → 0 <= deposit c) → 0 <= deposits l w.
Proof.
  intros Hl. apply lsum_nonneg, Forall_fmap, Forall_forall. intros c Hc.
  simpl. case_decide; [by apply Hl|done].
Qed.

Lemma deposits_absent l w : w ∉ who <$> l → deposits l w = 0.
Proof.
  induction l as [|c l IH]; [done|]. rewrite fmap_cons, not_elem_of_cons, deposits_cons.
  intros [Hne Hl]. rewrite decide_False by done. rewrite IH; done.
Qed.

(** A deposit that keeps its account alive when it is slashed. *)
Definition survives (v : Z) : Prop :=
  minimum_balance (AccountId := AccountId) (L := L) <= v - pb_mul SlashRatio v.

(** The invariant on the funds: deposits survive a slash, and the pallet
    account of the environment is no candidate. *)
Record vs_funded (excluded : AccountId) s : Prop := {
  funded_bond : survives (CandidacyBond s);
  funded_deposits : ∀ c, c ∈ Candidates s → survives (deposit c) ∧ who c ≠ excluded
}.

(** ** Releasing a deposit *)

Lemma slash_moves c (l0 l1 l2 : L) i r rest :
  is_u128 (deposit c) → deposit c <= reserved_balance l0 (who c) → survives (deposit c) →
  let amount := pb_mul SlashRatio (deposit c) in
  slash_reserved (who c) amount l0 = ((i, r), l1) →
  unreserve (who c) (u128_sub (deposit c) amount) l1 = (rest, l2) →
  ∀ w, reserved_balance l2 w =
       reserved_balance l0 w - (if decide (who c = w) then deposit c else 0).
Proof.
  intros Hd Hres Hsurv amount Hs Hu w. destruct (slash_amount_range c Hd) as [Ha Hsub].
  fold amount in Ha, Hsub. unfold survives in Hsurv. fold amount in Hsurv.
  rewrite Hsub in Hu. assert (0 <= deposit c - amount) as Hrem by lia.
  destruct (slash_reserved_spec _ _ _ _ _ _ (proj1 Ha) Hs) as (_ & _ & Ho1 & Hex).
  destruct (unreserve_spec _ _ _ _ _ Hrem Hu) as (_ & _ & Hr2 & Ho2).
  pose proof (free_nonneg l0 (who c)).
  case_decide as Hw; subst.
  - rewrite Z.min_l in Hex by lia. destruct Hex as [_ Hr1]; [lia|].
    rewrite Hr2, Hr1. lia.
  - destruct (Ho2 w) as [_ ->]; [congruence|].
    destruct (Ho1 w) as [_ ->]; [congruence|]. lia.
Qed.

Lemma release_moves slash c s :
  is_u128 (deposit c) → deposit c <= reserved_balance (state_ledger s) (who c) →
  survives (deposit c) →
  ∀ w, reserved_balance (state_ledger (release slash c s)) w =
       reserved_balance (state_ledger s) w - (if decide (who c = w) then deposit c else 0).
Proof.
  intros Hd Hres Hsurv w. unfold release. destruct slash.
  - destruct (slash_reserved _ _ (state_ledger s)) as [[i r] l1] eqn:Hs. cbn [fst snd].
    rewrite state_ledger_set.
    destruct (unreserve _ _ l1) as [rest l2] eqn:Hu. cbn [fst snd].
    rewrite <-(slash_moves c (state_ledger s) l1 l2 i r rest Hd Hres Hsurv Hs Hu w).
    destruct (SlashDestination _); rewrite state_ledger_events, !state_ledger_set.
    + apply resolve_reserved.
    + apply drop_imbalance_spec.
  - rewrite state_ledger_set.
    destruct (unreserve _ _ _) as [rest l2] eqn:Hu. simpl.
    destruct (unreserve_spec _ _ _ _ _ (proj1 Hd) Hu) as (_ & _ & Hr & Ho).
    case_decide; subst; [lia|]. destruct (Ho w) as [_ ->]; [congruence|lia].
Qed.

(** ** The effect of an operation *)

(** How the environment may change. *)
Inductive env_move (e e' : E) : Prop :=
| env_move_ledger (lg : L) : e' = put_ledger lg e → env_move e e'
| env_move_weight w : e' = register_extra_weight w e → env_move e e'.

Record vs_effect (excluded : AccountId) s s' : Prop := {
  effect_inv : vs_inv s';
  effect_funded : vs_funded excluded s';
  effect_env : rtc env_move (env s) (env s');
  effect_reserves : ∀ w,
    deposits (Candidates s') w - deposits (Candidates s) w <=
    reserved_balance (state_ledger s') w - reserved_balance (state_ledger s) w
}.

Lemma vs_effect_trans x s1 s2 s3 : vs_effect x s1 s2 → vs_effect x s2 s3 → vs_effect x s1 s3.
Proof.
  intros [_ _ He1 Hr1] [Hi Hf He2 Hr2]. split; [done|done|by etrans|].
  intros w. specialize (Hr1 w). specialize (Hr2 w). lia.
Qed.

Lemma release_env slash c s : rtc env_move (env s) (env (release slash c s)).
Proof.
  assert (∀ lg s, rtc env_move (env s) (env (set_state_ledger lg s))) as Hset.
  { intros lg s0. apply rtc_once. by econstructor. }
  unfold release. destruct slash; [|apply Hset].
  destruct (SlashDestination _); cbn [env set_events];
    (etrans; [|apply Hset]); (etrans; [|apply Hset]); apply Hset.
Qed.

Lemma removal_effect x s s' : vs_inv s → vs_funded x s → removal s s' → vs_effect x s s'.
Proof.
  intros Hi Hf (slash & k & c & todo & Hc & ->).
  assert (c ∈ Candidates s) as Hin by (rewrite Hc; set_solver).
  pose proof (deposit_u128 _ _ Hi Hin) as Hd.
  pose proof (vs_deposits _ Hi c Hin) as [_ Hres].
  destruct (funded_deposits _ _ Hf c Hin) as [Hsurv _].
  destruct (release_fields slash c s) as (_ & _ & _ & Hbond & _).
  split.
  - by apply removed_state_inv.
  - split; simpl.
    + rewrite Hbond. apply Hf.
    + intros c' Hin'. apply (funded_deposits _ _ Hf). rewrite Hc. set_solver.
  - simpl. apply release_env.
  - intros w. simpl.
    change (state_ledger (removed_state slash c (k ++ todo) s)) with
      (state_ledger (release slash c s)).
    rewrite (release_moves slash c s Hd Hres Hsurv w), Hc, !deposits_app, deposits_cons. lia.
Qed.

Lemma removals_effect x s s' : vs_inv s → vs_funded x s → rtc removal s s' → vs_effect x s s'.
Proof.
  intros Hi Hf Hs. induction Hs as [s|s1 s2 s3 Hr _ IH].
  - split; [done|done|done|lia].
  - pose proof (removal_effect x s1 s2 Hi Hf Hr) as He.
    eapply vs_effect_trans; [done|]. apply IH; apply He.
Qed.

(** An update that touches neither candidates nor reserves. *)
Lemma vs_effect_same x s s' :
  vs_inv s → vs_funded x s → Candidates s' = Candidates s → is_u32 (DesiredCandidates s') →
  is_u128 (CandidacyBond s') → survives (CandidacyBond s') →
  rtc env_move (env s) (env s') →
  (∀ a, reserved_balance (state_ledger s') a = reserved_balance (state_ledger s) a) →
  vs_effect x s s'.
Proof.
  intros Hi Hf Hc Hd Hb Hs He Hr. split; [|split|done|].
  - apply (vs_inv_same s); try done. intros a. by rewrite Hr.
  - done.
  - rewrite Hc. apply Hf.
  - intros w. rewrite Hc, Hr. lia.
Qed.

Lemma register_as_candidate_effect x a s s' :
  a ≠ x → register_as_candidate (Signed a) s = (Ok tt, s') → vs_inv s → vs_funded x s →
  vs_inv s' → vs_effect x s s'.
Proof.
  intros Hx (? & lg & [= <-] & Hlen & _ & Ha & Hr & ->)%register_as_candidate_Ok Hi Hf Hi'.
  destruct (vs_bond _ Hi) as [Hb _].
  destruct (reserve_Ok _ _ _ _ _ Hb Hr) as (_ & Hra & Ho).
  split; [done| |by apply rtc_once; econstructor|].
  - split; simpl; [apply Hf|]. intros c [Hin|Hin%list_elem_of_singleton]%elem_of_app.
    + by apply Hf.
    + subst c. split; [apply Hf|done].
  - intros w. unfold state_ledger. simpl. rewrite get_put_ledger, deposits_app, deposits_cons.
    simpl. change (deposits [] w) with 0. unfold state_ledger in *.
    case_decide; subst; [lia|]. destruct (Ho w) as [_ ->]; [congruence|lia].
Qed.

Lemma note_author_effect x author s s' :
  author ≠ PotAccount → note_author author s = (Ok tt, s') → vs_inv s → vs_funded x s →
  vs_effect x s s'.
Proof.
  intros Hne. rewrite note_author_run. intros [= <-] Hi Hf.
  destruct (transfer _ _ _ _ _) as [[[] lg]|e] eqn:Ht;
    apply vs_effect_same; try done; try apply Hi; try apply Hf.
  - simpl. eapply rtc_l; [|by apply rtc_once; eapply env_move_weight].
    by econstructor.
  - intros a. unfold state_ledger at 1. simpl. rewrite weight_keeps_ledger, get_put_ledger.
    destruct (transfer_Ok _ _ _ _ _ _ (reward_nonneg s) (not_eq_sym Hne) Ht)
      as (_ & _ & Hr & _). apply Hr.
  - simpl. apply rtc_once. by eapply env_move_weight.
  - intros a. unfold state_ledger at 1. simpl. by rewrite weight_keeps_ledger.
Qed.

Lemma new_session_effect x n r s s' :
  new_session n s = (Ok r, s') → vs_inv s → vs_funded x s → vs_effect x s s'.
Proof.
  intros Hn Hi Hf. destruct (new_session_run n s Hi)
    as (s2 & Hrun & Hi' & _ & _ & s1 & w & Hrm & Hs2).
  rewrite Hn in Hrun. injection Hrun as _ ->.
  pose proof (removals_effect x s s1 Hi Hf Hrm) as He.
  eapply vs_effect_trans; [done|]. rewrite Hs2. destruct He as [Hi1 Hf1 _ _].
  apply vs_effect_same; try done; try apply Hi1; try apply Hf1.
  - apply rtc_once. by eapply env_move_weight.
  - intros a. unfold state_ledger. simpl. by rewrite weight_keeps_ledger.
Qed.

(** A call by an account other than the excluded one. *)
Lemma vs_call_effect x (call : ValidatorSetCall AccountId) origin s s' :
  origin ≠ Signed x →
  match call with
  | set_desired_candidates_call max => is_u32 max
  | set_candidacy_bond_call bond => is_u128 bond ∧ survives bond
  | _ => True
  end →
  ValidatorSet.dispatch call origin s = (Ok tt, s') → vs_inv s → vs_funded x s →
  vs_effect x s s'.
Proof.
  intros Ho Hok Hd Hi Hf. destruct call; simpl in *.
  - apply set_invulnerables_Ok in Hd as (_ & ->).
    apply vs_effect_same; try done; try apply Hi; apply Hf.
  - apply set_desired_candidates_Ok in Hd as (_ & ->).
    apply vs_effect_same; try done; try apply Hi; apply Hf.
  - apply set_candidacy_bond_Ok in Hd as (_ & ->). destruct Hok.
    apply vs_effect_same; try done; try apply Hi; apply Hf.
  - assert (vs_inv s') as Hi'.
    { eapply vs_step_inv; [|done]. by apply (vs_step_call _ _ register_as_candidate_call origin). }
    pose proof Hd as Hd'. apply register_as_candidate_Ok in Hd' as (a & _ & -> & _).
    eapply register_as_candidate_effect; try done. congruence.
  - apply leave_intent_Ok in Hd as (k & c & todo & _ & _ & Hc & _ & ->).
    apply removal_effect; [done|done|]. by exists false, k, c, todo.
Qed.

End reserves.
