(* ===== verification/BlockReward.v ===== *)
(** * The block-reward pallet

    pallets/block-reward/src/lib.rs: the issuance of the block reward and its
    distribution between the providers' and the validators' side. *)

From S2P Require Export Registration.
Import BlockRewardError.

Section config.
Context `{!PerbillOps}.

Record DistributionConfig : Type := mkDistributionConfig {
  providers_percent : Perbill;
  validators_percent : Perbill
}.

(** [DistributionConfig::default] *)
Definition DistributionConfig_default : DistributionConfig :=
  mkDistributionConfig (pb_from_percent 50) (pb_from_percent 50).

(** The loop of [is_valid]: [None] is [return false]. *)
Fixpoint accumulate (accumulator : Perbill) (percentages : list Perbill) : option Perbill :=
  match percentages with
  | [] => Some accumulator
  | percentage :: rest =>
      match pb_checked_add accumulator percentage with
      | Some result => accumulate result rest
      | None => None
      end
  end.

Definition is_valid (config : DistributionConfig) : bool :=
  match accumulate pb_zero [providers_percent config; validators_percent config] with
  | Some accumulator => pb_eqb pb_one accumulator
  | None => false
  end.

Inductive BlockRewardEvent : Type :=
| DistributionConfigChanged (config : DistributionConfig).

End config.

(** [Config]; [payout_validators] and [payout_providers] are
    [BeneficiaryPayout::{validators, providers}]. *)
Class BlockRewardConfig (Imb E : Type) := {
  RewardAmount : Z;
  payout_validators : Imb → E → E;
  payout_providers : Imb → E → E
}.

Module BlockReward.
Section block_reward.
Context {AccountId Imb L E : Type} `{!Currency AccountId Imb L} `{!HasLedger E L}.
Context `{!PerbillOps} `{!BlockRewardConfig Imb E}.

Record State : Type := mkState {
  RewardConfig : DistributionConfig;
  env : E;
  events : list BlockRewardEvent
}.

Definition set_RewardConfig v (s : State) : State := mkState v (env s) (events s).
Definition set_env v (s : State) : State := mkState (RewardConfig s) v (events s).
Definition set_events v (s : State) : State := mkState (RewardConfig s) (env s) v.

Abbreviation Handler := (M DispatchError State).

Definition deposit_event (e : BlockRewardEvent) : Handler unit :=
  modify (λ s, set_events (events s ++ [e]) s).

Definition set_config (origin : Origin AccountId) (config : DistributionConfig) :
    Handler unit :=
  ensure_root origin;;
  ensure (is_valid config) (BlockRewardErr InvalidDistributionConfig);;
  modify (set_RewardConfig config);;
  deposit_event (DistributionConfigChanged config).

(** [T::BeneficiaryPayout] on the environment. *)
Definition payout (f : Imb → E → E) (i : Imb) : Handler unit :=
  modify (λ s, set_env (f i (env s)) s).

(** [block_reward.split(provider_balance)] *)
Definition distribute_rewards (block_reward : Imb) : Handler unit :=
  config ← gets RewardConfig;
  let provider_balance :=
    pb_mul (providers_percent config)
      (peek (AccountId := AccountId) (L := L) block_reward) in
  let '(providers_imbalance, validators_imbalance) :=
    Frame.split (AccountId := AccountId) (L := L) block_reward provider_balance in
  payout payout_validators validators_imbalance;;
  payout payout_providers providers_imbalance.

Definition currency_issue (amount : Z) : Handler Imb :=
  update (λ s, let '(i, l) := issue (AccountId := AccountId) amount (get_ledger (env s)) in
               (i, set_env (put_ledger l (env s)) s)).

(** [OnTimestampSet] *)
Definition on_timestamp_set : Handler unit :=
  inflation ← currency_issue RewardAmount;
  distribute_rewards inflation.

(** [None] is the failing assertion. *)
Definition genesis_build (reward_config : DistributionConfig) (e : E) : option State :=
  if is_valid reward_config then Some (mkState reward_config e []) else None.

(** ** Properties *)

Context `{!CurrencyLaws AccountId Imb L} `{!HasLedgerLaws E L} `{!PerbillLaws}.

Lemma is_valid_sum (config : DistributionConfig) :
  is_valid config = true ↔
  pb_deconstruct (providers_percent config) + pb_deconstruct (validators_percent config) =
  BILLION.
Proof.
  unfold is_valid. simpl.
  pose proof (pb_range (providers_percent config)).
  pose proof (pb_range (validators_percent config)).
  pose proof (pb_checked_add_spec pb_zero (providers_percent config)) as Hp.
  rewrite pb_zero_parts in Hp. destruct (pb_checked_add pb_zero _) as [a|]; [|lia].
  pose proof (pb_checked_add_spec a (validators_percent config)) as Hv.
  destruct (pb_checked_add a _) as [b|].
  - rewrite pb_eqb_spec, pb_one_parts. lia.
  - split; [done|lia].
Qed.

(** A distribution config is accepted exactly when its two percentages add
    up to 100% (one billion parts): the checked additions of the loop can
    neither accept a sum that overflows nor reject one that is exact; the
    default config is accepted. *)
Theorem is_valid_iff_whole (config : DistributionConfig) :
  (is_valid config = true ↔
   pb_deconstruct (providers_percent config) + pb_deconstruct (validators_percent config) =
   BILLION) ∧
  is_valid DistributionConfig_default = true.
Proof.
  split; [apply is_valid_sum|]. apply is_valid_sum. simpl.
  by rewrite !pb_from_percent_parts by lia.
Qed.

(** One step of the pallet in its environment. *)
Inductive reward_step (s s' : State) : Prop :=
| reward_step_set origin config : set_config origin config s = (Ok tt, s') → reward_step s s'
| reward_step_block : on_timestamp_set s = (Ok tt, s') → reward_step s s'
| reward_step_env e : s' = set_env e s → reward_step s s'.

Definition reward_reachable (s : State) : Prop :=
  ∃ config e s0, genesis_build config e = Some s0 ∧ rtc reward_step s0 s.

Lemma on_timestamp_set_run s :
  ∃ i l vi pi,
    issue (AccountId := AccountId) RewardAmount (get_ledger (env s)) = (i, l) ∧
    Frame.split (AccountId := AccountId) (L := L) i
      (pb_mul (providers_percent (RewardConfig s)) (peek (AccountId := AccountId) (L := L) i))
      = (pi, vi) ∧
    on_timestamp_set s =
      (Ok tt, mkState (RewardConfig s)
         (payout_providers pi (payout_validators vi (put_ledger l (env s)))) (events s)).
Proof.
  destruct (issue (AccountId := AccountId) RewardAmount (get_ledger (env s)))
    as [i l] eqn:Hi.
  destruct (Frame.split (AccountId := AccountId) (L := L) i (pb_mul
    (providers_percent (RewardConfig s)) (peek (AccountId := AccountId) (L := L) i)))
    as [pi vi] eqn:Hs.
  exists i, l, vi, pi. split_and!; [done|done|].
  unfold on_timestamp_set, currency_issue.
  erewrite bind_run_Ok by (unfold update; rewrite Hi; reflexivity).
  unfold distribute_rewards. erewrite bind_run_Ok by reflexivity. simpl.
  rewrite Hs. done.
Qed.

Lemma reward_config_valid s : reward_reachable s → is_valid (RewardConfig s) = true.
Proof.
  intros (config & e & s0 & Hg & Hs). assert (is_valid (RewardConfig s0) = true) as Hv.
  { unfold genesis_build in Hg. destruct (is_valid config) eqn:Hv; [|done].
    by simplify_eq. }
  clear Hg. induction Hs as [|s1 s2 s3 Hstep _ IH]; [done|]. apply IH.
  destruct Hstep as [origin c Hset|Hb|e' ->].
  - unfold set_config in Hset. run_step Hset.
    match goal with Hx : deposit_event _ _ = _ |- _ => apply modify_Ok in Hx as -> end.
    done.
  - destruct (on_timestamp_set_run s1) as (? & ? & ? & ? & _ & _ & Hr).
    rewrite Hr in Hb. by injection Hb as <-.
  - done.
Qed.

(** In every reachable state the stored config is valid, and each block
    issues exactly [RewardAmount] (total issuance grows by it) and hands out
    all of it: the validators' and the providers' imbalance add up to
    [RewardAmount], the providers' part being their percentage of it up to less
    than one unit of rounding; validators are paid first. *)
Theorem block_reward_conserved s :
  reward_reachable s → is_u128 RewardAmount →
  total_issuance (AccountId := AccountId) (Imb := Imb) (get_ledger (env s)) + RewardAmount
    <= u128_max →
  is_valid (RewardConfig s) = true ∧
  ∃ l vi pi,
    total_issuance (AccountId := AccountId) (Imb := Imb) l =
      total_issuance (AccountId := AccountId) (Imb := Imb) (get_ledger (env s)) + RewardAmount ∧
    on_timestamp_set s =
      (Ok tt, mkState (RewardConfig s)
         (payout_providers pi (payout_validators vi (put_ledger l (env s)))) (events s)) ∧
    peek (AccountId := AccountId) (L := L) vi + peek (AccountId := AccountId) (L := L) pi
      = RewardAmount ∧
    Z.abs (peek (AccountId := AccountId) (L := L) pi * BILLION -
           pb_deconstruct (providers_percent (RewardConfig s)) * RewardAmount) < BILLION.
Proof.
  intros Hv%reward_config_valid Hr Hmax. split; [done|].
  destruct (on_timestamp_set_run s) as (i & l & vi & pi & Hi & Hs & Hrun).
  destruct (issue_spec RewardAmount _ _ _ Hr Hi) as [Hiss _].
  destruct (Hiss Hmax) as [Hp Ht]. exists l, vi, pi.
  pose proof (pb_mul_le (providers_percent (RewardConfig s)) RewardAmount (proj1 Hr)) as Hle.
  rewrite Hp in Hs.
  destruct (Frame.split_spec (AccountId := AccountId) (L := L) i _ _ _ (proj1 Hle) Hs) as [Hpi Hvi].
  rewrite Hp in Hpi. rewrite Z.min_l in Hpi by lia.
  split_and!; [done|done|lia|]. rewrite Hpi. apply pb_mul_rounds, Hr.
Qed.

(** [set_config] stores the new config exactly for root and a valid config;
    otherwise it fails ([BadOrigin] or [InvalidDistributionConfig]) and changes
    nothing. *)
Theorem set_config_checked origin config s :
  set_config origin config s =
  match origin with
  | Root =>
      if is_valid config
      then (Ok tt, mkState config (env s) (events s ++ [DistributionConfigChanged config]))
      else (Err (BlockRewardErr InvalidDistributionConfig), s)
  | _ => (Err BadOrigin, s)
  end.
Proof. unfold set_config. destruct origin; [|done..]. by destruct (is_valid config). Qed.

End block_reward.
Arguments State E {_}.
End BlockReward.
