(* ===== verification/BlockRewardTests.v ===== *)
(** * The mock and the tests of the block-reward pallet, replayed

    pallets/block-reward/src/mock.rs, tests.rs and benchmarks.rs over the ledger and the
    percentages of [Ledger]. *)

From S2P Require Export Testing BlockReward.
Import BlockReward BlockRewardError.

(** ** The mock *)

Definition EXISTENTIAL_DEPOSIT : Z := 2.
Definition BLOCK_REWARD : Z := 1_000_000.

(** The accounts of the pallet ids [mokvaldt] and [mokprovd]. *)
Definition VALIDATOR_POT : Z := 98.
Definition PROVIDER_POT : Z := 99.

#[global] Instance br_mock_deposit : ExistentialDeposit :=
  {| ED := EXISTENTIAL_DEPOSIT; ED_nonneg := ltac:(done) |}.

#[global] Instance ledger_has_ledger : HasLedger Ledger Ledger := {|
  get_ledger l := l;
  put_ledger v _ := v
|}.

(** [BeneficiaryPayout::{validators, providers}] *)
Definition validators (reward : Z) (l : Ledger) : Ledger := resolve_creating VALIDATOR_POT reward l.
Definition providers (reward : Z) (l : Ledger) : Ledger := resolve_creating PROVIDER_POT reward l.

(** [impl pallet_block_reward::Config for TestRuntime] *)
#[global] Instance br_mock_config : BlockRewardConfig Z Ledger := {|
  RewardAmount := BLOCK_REWARD;
  payout_validators := validators;
  payout_providers := providers
|}.

Abbreviation BrStorage := (State Ledger).
Abbreviation BrTest := (M Failure BrStorage).

#[global] Instance DistributionConfig_eq_dec : EqDecision DistributionConfig.
Proof. intros [a b] [c d]. unfold Decision. pose proof (Z.eq_dec : EqDecision Perbill).
  destruct (decide (a = c)), (decide (b = d)); [left|right..]; congruence. Defined.
#[global] Instance BlockRewardEvent_eq_dec : EqDecision BlockRewardEvent.
Proof. solve_decision. Defined.
#[global] Instance br_state_eq_dec : EqDecision BrStorage.
Proof. solve_decision. Defined.

#[global] Instance br_mock_externalities : Externalities BrStorage BrStorage := {|
  storage s := s;
  with_storage v _ := v
|}.

(** [ExternalityBuilder::build]: the pallet's genesis config is the default. *)
Definition build : option BrStorage :=
  genesis_build DistributionConfig_default (endowed [(1, 9000); (2, 800); (3, 10000)]).

(** ** The tests *)

Definition config_of (providers_percent validators_percent : Z) : DistributionConfig :=
  mkDistributionConfig (pb_from_percent providers_percent) (pb_from_percent validators_percent).

Example default_distribution_config_is_valid : is_valid DistributionConfig_default = true.
Proof. reflexivity. Qed.

Example distribution_config_is_valid :
  is_valid (mkDistributionConfig (pb_from_percent 100) pb_zero) = true ∧
  is_valid (config_of 80 20) = true.
Proof. split; reflexivity. Qed.

Example distribution_config_is_invalid :
  is_valid (mkDistributionConfig (pb_from_percent 100)
              (validators_percent DistributionConfig_default)) = false ∧
  is_valid (config_of 80 19) = false.
Proof. split; reflexivity. Qed.

Definition set_configuration_fail : BrTest unit :=
  assert_noop (set_config (Signed 1) DistributionConfig_default) BadOrigin;;
  let config := mkDistributionConfig (pb_from_percent 100)
                  (validators_percent DistributionConfig_default) in
  assert (λ _, negb (is_valid config));;
  assert_noop (set_config (Root : Origin Z) config) (BlockRewardErr InvalidDistributionConfig).

Definition set_configuration_success : BrTest unit :=
  let config := config_of 50 50 in
  assert (λ _, is_valid config);;
  assert_ok (set_config (Root : Origin Z) config);;
  assert_eq (λ s, last (events s)) (Some (DistributionConfigChanged config));;
  assert_eq RewardConfig config.

Definition inflation_and_total_issuance_as_expected : BrTest unit :=
  init_issuance ← gets (λ s, issued (env s));
  mapM_ (λ block,
      assert (λ s, issued (env s) =? block * BLOCK_REWARD + init_issuance);;
      execute (on_timestamp_set (AccountId := Z));;
      assert (λ s, issued (env s) =? (block + 1) * BLOCK_REWARD + init_issuance))
    (seqZ 0 10).

(** [FreeBalanceSnapshot] and [Rewards] *)
Record FreeBalanceSnapshot : Type := mkFreeBalanceSnapshot {
  snapshot_validators : Z;
  snapshot_providers : Z
}.
Definition FreeBalanceSnapshot_new (s : BrStorage) : FreeBalanceSnapshot :=
  mkFreeBalanceSnapshot (free (env s) VALIDATOR_POT) (free (env s) PROVIDER_POT).

Definition calculate (config : DistributionConfig) : Z * Z :=
  (pb_mul (validators_percent config) BLOCK_REWARD,
   pb_mul (providers_percent config) BLOCK_REWARD).

Definition reward_distribution_as_expected : BrTest unit :=
  init ← gets FreeBalanceSnapshot_new;
  assert (λ _, snapshot_providers init =? 0);;
  let config := config_of 80 20 in
  assert (λ _, is_valid config);;
  assert_ok (set_config (Root : Origin Z) config);;
  mapM_ (λ _,
      init ← gets FreeBalanceSnapshot_new;
      let '(validators_reward, providers_reward) := calculate config in
      execute (on_timestamp_set (AccountId := Z));;
      final ← gets FreeBalanceSnapshot_new;
      assert (λ _, snapshot_validators init + validators_reward =? snapshot_validators final);;
      assert (λ _, snapshot_providers init + providers_reward =? snapshot_providers final))
    (seqZ 1 100).

(** ** [benchmarks!] of benchmarks.rs *)

Definition br_assert_last_event (event : BlockRewardEvent) : BrTest unit :=
  assert_eq (λ s, last (events s)) (Some event).

Definition benchmark_set_config : BrTest unit :=
  let reward_config := DistributionConfig_default in
  assert (λ _, is_valid reward_config);;
  assert_ok (set_config (Root : Origin Z) reward_config);;
  br_assert_last_event (DistributionConfigChanged reward_config).

Example br_tests_pass :
  all_pass
      [set_configuration_fail; set_configuration_success;
       inflation_and_total_issuance_as_expected; reward_distribution_as_expected;
       benchmark_set_config] build = true.
Proof. vm_compute. reflexivity. Qed.
