(* ===== verification/Weights.v ===== *)
(** * The weights of the calls

    The [weights.rs] file of each of the four pallets: the trait [WeightInfo] as
    a record, its two implementations, and the weight (and, in the dAPI pallet,
    the [Pays] flag) each call declares.  [SubstrateWeight] takes the runtime's
    database weights; the implementation for [()] uses [RocksDbWeight], a
    constant of Substrate and therefore an argument. *)

From S2P Require Export DapiLaws ValidatorSetLaws BlockReward.

(** [saturating_add] and [saturating_mul] on [Weight] (a [u64]) *)
Definition w_add (a b : Z) : Z := sat_add u64_max a b.
Definition w_mul (a b : Z) : Z := sat_mul u64_max a b.
Infix "⊞" := w_add (at level 50, left associativity) : Z_scope.

(** ** pallets/dapi-staking/src/weights.rs *)

Module StakingWeights.

Record WeightInfo : Type := mkWeightInfo {
  set_blocks_per_era : Z;
  provider_bond_more : Z;
  provider_bond_less : Z;
  delegate : Z;
  delegator_unstake : Z;
  withdraw_unbonded : Z;
  claim_provider : Z;
  claim_delegator : Z;
  provider_withdraw_unregistered : Z;
  delegator_withdraw_unregistered : Z
}.

Definition SubstrateWeight `{DbWeightOps} : WeightInfo := {|
  set_blocks_per_era := 10_000_000 ⊞ db_reads 1 ⊞ db_writes 1;
  provider_bond_more := 27_000_000 ⊞ db_reads 5 ⊞ db_writes 3;
  provider_bond_less := 21_000_000 ⊞ db_reads 5 ⊞ db_writes 3;
  delegate := 32_000_000 ⊞ db_reads 5 ⊞ db_writes 3;
  delegator_unstake := 27_000_000 ⊞ db_reads 6 ⊞ db_writes 4;
  withdraw_unbonded := 25_000_000 ⊞ db_reads 2 ⊞ db_writes 1;
  claim_provider := 20_000_000 ⊞ db_reads 4 ⊞ db_writes 1;
  claim_delegator := 23_000_000 ⊞ db_reads 5 ⊞ db_writes 1;
  provider_withdraw_unregistered := 27_000_000 ⊞ db_reads 4 ⊞ db_writes 2;
  delegator_withdraw_unregistered := 28_000_000 ⊞ db_reads 4 ⊞ db_writes 2
|}.

(** [impl WeightInfo for ()] *)
Definition UnitWeight (RocksDbWeight : DbWeightOps) : WeightInfo := {|
  set_blocks_per_era := 10_000_000 ⊞ db_reads 1 ⊞ db_writes 1;
  provider_bond_more := 27_000_000 ⊞ db_reads 5 ⊞ db_writes 3;
  provider_bond_less := 21_000_000 ⊞ db_reads 5 ⊞ db_writes 3;
  delegate := 32_000_000 ⊞ db_reads 5 ⊞ db_writes 3;
  delegator_unstake := 27_000_000 ⊞ db_reads 6 ⊞ db_writes 4;
  withdraw_unbonded := 25_000_000 ⊞ db_reads 2 ⊞ db_writes 1;
  claim_provider := 20_000_000 ⊞ db_reads 4 ⊞ db_writes 1;
  claim_delegator := 23_000_000 ⊞ db_reads 5 ⊞ db_writes 1;
  provider_withdraw_unregistered := 27_000_000 ⊞ db_reads 4 ⊞ db_writes 2;
  delegator_withdraw_unregistered := 28_000_000 ⊞ db_reads 4 ⊞ db_writes 2
|}.

(** The [#[pallet::weight]] attributes. *)
Definition call_weight {ProviderId} (w : WeightInfo) (c : StakingCall ProviderId) : Z :=
  match c with
  | set_blocks_per_era_call _ => set_blocks_per_era w
  | provider_bond_more_call _ _ => provider_bond_more w
  | provider_bond_less_call _ _ => provider_bond_less w
  | delegate_call _ _ => delegate w
  | delegator_unstake_call _ _ => delegator_unstake w
  | withdraw_unbonded_call => withdraw_unbonded w
  | claim_provider_call _ _ => claim_provider w
  | claim_delegator_call _ => claim_delegator w
  | provider_withdraw_unregistered_call _ => provider_withdraw_unregistered w
  | delegator_withdraw_unregistered_call _ => delegator_withdraw_unregistered w
  end.

End StakingWeights.

(** ** pallets/dapi/src/weights.rs *)

Module DapiWeights.

Record WeightInfo : Type := mkWeightInfo {
  register_project : Z;
  deposit_project : Z;
  deposit_provider : Z;
  unregister_provider : Z;
  add_chain_id : Z;
  remove_chain_id : Z;
  add_regulator : Z;
  remove_regulator : Z
}.

Definition SubstrateWeight `{DbWeightOps} : WeightInfo := {|
  register_project := 39_000_000 ⊞ db_reads 5 ⊞ db_writes 4;
  deposit_project := 30_000_000 ⊞ db_reads 4 ⊞ db_writes 4;
  deposit_provider := 29_000_000 ⊞ db_reads 5 ⊞ db_writes 5;
  unregister_provider := 22_000_000 ⊞ db_reads 5 ⊞ db_writes 3;
  add_chain_id := 10_000_000 ⊞ db_reads 1 ⊞ db_writes 1;
  remove_chain_id := 11_000_000 ⊞ db_reads 1 ⊞ db_writes 1;
  add_regulator := 10_000_000 ⊞ db_reads 1 ⊞ db_writes 1;
  remove_regulator := 11_000_000 ⊞ db_reads 1 ⊞ db_writes 1
|}.

Definition UnitWeight (RocksDbWeight : DbWeightOps) : WeightInfo := {|
  register_project := 39_000_000 ⊞ db_reads 5 ⊞ db_writes 4;
  deposit_project := 30_000_000 ⊞ db_reads 4 ⊞ db_writes 4;
  deposit_provider := 29_000_000 ⊞ db_reads 5 ⊞ db_writes 5;
  unregister_provider := 22_000_000 ⊞ db_reads 5 ⊞ db_writes 3;
  add_chain_id := 10_000_000 ⊞ db_reads 1 ⊞ db_writes 1;
  remove_chain_id := 11_000_000 ⊞ db_reads 1 ⊞ db_writes 1;
  add_regulator := 10_000_000 ⊞ db_reads 1 ⊞ db_writes 1;
  remove_regulator := 11_000_000 ⊞ db_reads 1 ⊞ db_writes 1
|}.

(** The [#[pallet::weight]] attributes: the weight, and whether a fee is paid
    ([Pays::Yes] is the default). *)
Definition call_weight {AccountId MassbitId} (w : WeightInfo)
    (c : DapiCall AccountId MassbitId) : Z * bool :=
  match c with
  | register_project_call _ _ _ => (register_project w, true)
  | deposit_project_call _ _ => (deposit_project w, true)
  | submit_project_usage_call _ _ => (0, false)
  | register_provider_call _ _ _ _ => (0, false)
  | deposit_provider_call _ _ => (deposit_provider w, true)
  | unregister_provider_call _ => (unregister_provider w, true)
  | report_provider_offence_call _ _ => (0, false)
  | add_regulator_call _ => (add_regulator w, true)
  | remove_regulator_call _ => (remove_regulator w, true)
  | add_chain_id_call _ => (add_chain_id w, true)
  | remove_chain_id_call _ => (remove_chain_id w, true)
  end.

End DapiWeights.

(** ** pallets/validator-set/src/weights.rs *)

Module ValidatorSetWeights.

Record WeightInfo : Type := mkWeightInfo {
  set_invulnerables : Z → Z;
  set_desired_candidates : Z;
  set_candidacy_bond : Z;
  register_as_candidate : Z → Z;
  leave_intent : Z → Z;
  note_author : Z;
  new_session : Z → Z → Z
}.

Definition SubstrateWeight `{DbWeightOps} : WeightInfo := {|
  set_invulnerables b :=
    8_432_000 ⊞ w_mul 3_302_000 b ⊞ db_reads (w_mul 1 b) ⊞ db_writes 1;
  set_desired_candidates := 8_000_000 ⊞ db_writes 1;
  set_candidacy_bond := 8_000_000 ⊞ db_writes 1;
  register_as_candidate c :=
    33_149_000 ⊞ w_mul 58_000 c ⊞ db_reads 5 ⊞ db_writes 2;
  leave_intent c :=
    22_624_000 ⊞ w_mul 62_000 c ⊞ db_reads 1 ⊞ db_writes 2;
  note_author := 30_000_000 ⊞ db_reads 3 ⊞ db_writes 4;
  new_session r c :=
    0 ⊞ w_mul 7_415_000 r ⊞ w_mul 25_726_000 c ⊞ db_reads (w_mul 2 c)
      ⊞ db_writes (w_mul 1 r) ⊞ db_writes (w_mul 1 c)
|}.

Definition UnitWeight (RocksDbWeight : DbWeightOps) : WeightInfo := {|
  set_invulnerables b :=
    8_432_000 ⊞ w_mul 3_302_000 b ⊞ db_reads (w_mul 1 b) ⊞ db_writes 1;
  set_desired_candidates := 8_000_000 ⊞ db_writes 1;
  set_candidacy_bond := 8_000_000 ⊞ db_writes 1;
  register_as_candidate c :=
    33_149_000 ⊞ w_mul 58_000 c ⊞ db_reads 5 ⊞ db_writes 2;
  leave_intent c :=
    22_624_000 ⊞ w_mul 62_000 c ⊞ db_reads 1 ⊞ db_writes 2;
  note_author := 30_000_000 ⊞ db_reads 3 ⊞ db_writes 4;
  new_session r c :=
    0 ⊞ w_mul 7_415_000 r ⊞ w_mul 25_726_000 c ⊞ db_reads (w_mul 2 c)
      ⊞ db_writes (w_mul 1 r) ⊞ db_writes (w_mul 1 c)
|}.

(** The [#[pallet::weight]] attributes; [max_candidates] is
    [T::MaxCandidates::get()]. *)
Definition call_weight {AccountId} (max_candidates : Z) (w : WeightInfo)
    (c : ValidatorSetCall AccountId) : Z :=
  match c with
  | set_invulnerables_call new => set_invulnerables w (wrap 32 (Z.of_nat (length new)))
  | set_desired_candidates_call _ => set_desired_candidates w
  | set_candidacy_bond_call _ => set_candidacy_bond w
  | register_as_candidate_call => register_as_candidate w max_candidates
  | leave_intent_call => leave_intent w max_candidates
  end.

End ValidatorSetWeights.

(** ** pallets/block-reward/src/weights.rs *)

Module BlockRewardWeights.

Record WeightInfo : Type := mkWeightInfo { set_config : Z }.

Definition SubstrateWeight `{DbWeightOps} : WeightInfo := {|
  set_config := 9_000_000 ⊞ db_writes 1
|}.

Definition UnitWeight (RocksDbWeight : DbWeightOps) : WeightInfo := {|
  set_config := 9_000_000 ⊞ db_writes 1
|}.

End BlockRewardWeights.

(** ** Properties *)

(** [RuntimeDbWeight { read, write }]: a number of reads or writes costs the
    saturating product, both together the saturating sum. *)
Class DbWeightLaws `{DbWeightOps} (read write : Z) : Prop := {
  db_read_range : 0 <= read <= 10 ^ 8;
  db_write_range : 0 <= write <= 10 ^ 8;
  db_reads_spec : ∀ n, db_reads n = sat_mul u64_max read n;
  db_writes_spec : ∀ n, db_writes n = sat_mul u64_max write n;
  db_reads_writes_spec : ∀ r w,
    db_reads_writes r w = sat_add u64_max (db_reads r) (db_writes w)
}.

Section weights.
Context `{DbWeightOps} {read write : Z} `{!DbWeightLaws read write}.

Lemma w_mul_small a b : a * b <= u64_max → w_mul a b = a * b.
Proof. apply sat_mul_small. Qed.

Lemma db_reads_small n : 0 <= n <= 2 ^ 33 → db_reads n = read * n ∧ read * n <= 10 ^ 8 * 2 ^ 33.
Proof.
  intros Hn. pose proof db_read_range. rewrite db_reads_spec.
  assert (read * n <= 10 ^ 8 * 2 ^ 33) by nia.
  rewrite sat_mul_small by (unfold u64_max; lia). done.
Qed.
Lemma db_writes_small n : 0 <= n <= 2 ^ 33 → db_writes n = write * n ∧ write * n <= 10 ^ 8 * 2 ^ 33.
Proof.
  intros Hn. pose proof db_write_range. rewrite db_writes_spec.
  assert (write * n <= 10 ^ 8 * 2 ^ 33) by nia.
  rewrite sat_mul_small by (unfold u64_max; lia). done.
Qed.

(** Unfolds a weight into an unsaturated sum. *)
Ltac exact_weight :=
  rewrite ?(w_mul_small 1), ?(w_mul_small 2) by (unfold u64_max; lia);
  repeat match goal with
  | |- context [db_reads ?n] =>
      let E := fresh in let B := fresh in
      destruct (db_reads_small n ltac:(lia)) as [E B]; rewrite E; clear E
  | |- context [db_writes ?n] =>
      let E := fresh in let B := fresh in
      destruct (db_writes_small n ltac:(lia)) as [E B]; rewrite E; clear E
  end;
  rewrite ?w_mul_small by (unfold u64_max; lia);
  unfold w_add, sat_add, u64_max; lia.

(** For every length a [u32] can express and database costs of at most
    [10 ^ 8] per access, no saturating operation of the validator-set weights
    saturates: each weight is the linear function its benchmark states, and it
    stays below the largest weight. *)
Theorem validator_set_weights_exact a b :
  is_u32 a → is_u32 b →
  let w := ValidatorSetWeights.SubstrateWeight in
  ValidatorSetWeights.set_invulnerables w a =
    8432000 + 3302000 * a + read * a + write ∧
  ValidatorSetWeights.register_as_candidate w a =
    33149000 + 58000 * a + 5 * read + 2 * write ∧
  ValidatorSetWeights.leave_intent w a = 22624000 + 62000 * a + read + 2 * write ∧
  ValidatorSetWeights.note_author w = 30000000 + 3 * read + 4 * write ∧
  ValidatorSetWeights.new_session w a b =
    7415000 * a + 25726000 * b + read * (2 * b) + write * a + write * b ∧
  ValidatorSetWeights.new_session w a b < u64_max.
Proof.
  unfold is_u32, u32_max. intros Ha Hb. pose proof db_read_range. pose proof db_write_range.
  simpl. split_and!; exact_weight.
Qed.

(** The session change charges [new_session(candidates, removed)] while the
    benchmark measured [new_session(removed, candidates)]: with nobody removed
    the charged weight contains no database read at all and is smaller than the
    measured one. *)
Theorem session_weight_swapped n :
  0 < n <= u32_max →
  let w := ValidatorSetWeights.SubstrateWeight in
  ValidatorSetWeights.new_session w n 0 = 7415000 * n + write * n ∧
  ValidatorSetWeights.new_session w n 0 < ValidatorSetWeights.new_session w 0 n.
Proof.
  unfold u32_max. intros Hn. pose proof db_read_range. pose proof db_write_range.
  simpl. assert (0 <= read * (2 * n)) by nia. split; exact_weight.
Qed.

End weights.

Section free_calls.
Context {AccountId : Type} `{Countable AccountId}.
Context {MassbitId : Type} `{Countable MassbitId} {E : Type}.

(** The calls of the dAPI pallet that pay no fee and weigh nothing are
    exactly the regulators' calls, and the transaction-pool filter lets such a
    call in exactly for regulators: nobody else can fill blocks for free. *)
Theorem free_calls_are_guarded (w : DapiWeights.WeightInfo)
    (c : DapiCall AccountId MassbitId) who (s : Dapi.State AccountId MassbitId E) :
  ((DapiWeights.call_weight w c).2 = false ↔ is_regulator_call c = true) ∧
  ((DapiWeights.call_weight w c).2 = false → (DapiWeights.call_weight w c).1 = 0 ∧
   (Dapi.validate who (Some c) s = Dapi.ValidTransaction ↔ who ∈ Dapi.Regulators s) ∧
   Dapi.pre_dispatch who (Some c) s = Dapi.validate who (Some c) s) ∧
  ((DapiWeights.call_weight w c).2 = true → Dapi.validate who (Some c) s = Dapi.ValidTransaction).
Proof.
  split; [by destruct c|].
  split; destruct c; simpl; try done; intros _; (split; [done|]); (split; [|done]);
    by case_bool_decide.
Qed.

End free_calls.
