(* ===== verification/Runtime.v ===== *)
(** * The runtimes: constants, wiring and dispatch

    runtime/keiko/src/lib.rs and runtime/local/src/lib.rs.  The two runtimes
    differ in constants and in the call filter only: [Module Keiko] and
    [Module Local] hold both sets, [RuntimeParams] is what the common wiring
    ([Module Runtime]) takes.  The wiring nests the pallets' environments: the
    staking pallet owns the ledger, the dAPI pallet calls it, the validator set
    and the block reward see both through [HasLedger]. *)

From S2P Require Export Weights.
From Stdlib Require Export Strings.String.

(** ** Calls *)

Section calls.
Context `{!PerbillOps} (AccountId MassbitId FrameCall : Type).

(** [pallet_block_reward::Call] *)
Inductive BlockRewardCall : Type :=
| set_config_call (config : DistributionConfig).

(** [construct_runtime!]: the calls of the repository's pallets; [FrameCall]
    stands for the calls of Substrate's pallets. *)
Inductive RuntimeCall : Type :=
| CallValidatorSet (c : ValidatorSetCall AccountId)
| CallDapi (c : DapiCall AccountId MassbitId)
| CallDapiStaking (c : StakingCall MassbitId)
| CallBlockReward (c : BlockRewardCall)
| CallFrame (c : FrameCall).
End calls.

Arguments CallValidatorSet {_ AccountId MassbitId FrameCall} c.
Arguments CallDapi {_ AccountId MassbitId FrameCall} c.
Arguments CallDapiStaking {_ AccountId MassbitId FrameCall} c.
Arguments CallBlockReward {_ AccountId MassbitId FrameCall} c.
Arguments CallFrame {_ AccountId MassbitId FrameCall} c.
Arguments set_config_call {_} config.

(** ** Constants *)

(** What the wiring takes of the [parameter_types!]. *)
Class RuntimeParams `{PerbillOps} := {
  rt_SessionPeriod : Z;
  rt_MaxCandidates : Z;
  rt_MinCandidates : Z;
  rt_MaxInvulnerables : Z;
  rt_SlashRatio : Perbill;
  rt_RewardAmount : Z;
  rt_RegisterDeposit : Z;
  rt_ProviderRewardsPercentage : Perbill;
  rt_MaxNumberOfStakersPerProvider : Z;
  rt_MinimumStakingAmount : Z;
  rt_MaxUnlockingChunks : Z;
  rt_UnbondingPeriod : Z;
  rt_MaxEraStakeValues : Z;
  rt_DefaultBlocksPerEra : Z;
  rt_MaxBytesInChainId : Z
}.

Module Keiko.

Definition MILLIKEI : Z := 1_000_000_000_000_000.
Definition KEI : Z := 1_000 * MILLIKEI.

Definition MILLISECS_PER_BLOCK : Z := 12000.
Definition MINUTES : Z := 60_000 / MILLISECS_PER_BLOCK.
Definition HOURS : Z := MINUTES * 60.
Definition DAYS : Z := HOURS * 24.

Definition ExistentialDeposit : Z := 500.

(** [parameter_types!] of the validator set and of the session *)
Definition SessionPeriod : Z := 1 * HOURS.
Definition MaxCandidates : Z := 200.
Definition MinCandidates : Z := 1.
Definition MaxInvulnerables : Z := 20.
Definition SlashRatio `{PerbillOps} : Perbill := pb_from_percent 1.

Definition RewardAmount : Z := 1_000 * MILLIKEI.

(** [parameter_types!] of the staking pallet *)
Definition RegisterDeposit : Z := 100 * KEI.
Definition ProviderRewardsPercentage `{PerbillOps} : Perbill := pb_from_percent 100.
Definition MaxNumberOfStakersPerProvider : Z := 10.
Definition MinimumStakingAmount : Z := 10 * KEI.
Definition MaxUnlockingChunks : Z := 2.
Definition UnbondingPeriod : Z := 2.
Definition MaxEraStakeValues : Z := 5.
Definition DefaultBlocksPerEra : Z := 7200.

Definition MaxBytesInChainId : Z := 64.

#[export] Instance params `{PerbillOps} : RuntimeParams := {|
  rt_SessionPeriod := SessionPeriod;
  rt_MaxCandidates := MaxCandidates;
  rt_MinCandidates := MinCandidates;
  rt_MaxInvulnerables := MaxInvulnerables;
  rt_SlashRatio := SlashRatio;
  rt_RewardAmount := RewardAmount;
  rt_RegisterDeposit := RegisterDeposit;
  rt_ProviderRewardsPercentage := ProviderRewardsPercentage;
  rt_MaxNumberOfStakersPerProvider := MaxNumberOfStakersPerProvider;
  rt_MinimumStakingAmount := MinimumStakingAmount;
  rt_MaxUnlockingChunks := MaxUnlockingChunks;
  rt_UnbondingPeriod := UnbondingPeriod;
  rt_MaxEraStakeValues := MaxEraStakeValues;
  rt_DefaultBlocksPerEra := DefaultBlocksPerEra;
  rt_MaxBytesInChainId := MaxBytesInChainId
|}.

(** [BaseFilter::contains] *)
Definition contains `{PerbillOps} {AccountId MassbitId FrameCall}
    (call : RuntimeCall AccountId MassbitId FrameCall) : bool :=
  match call with
  | CallValidatorSet register_as_candidate_call
  | CallValidatorSet leave_intent_call => false
  | _ => true
  end.

End Keiko.

Module Local.

Definition MILLIMBTL : Z := 1_000_000_000_000_000.
Definition MBTL : Z := 1_000 * MILLIMBTL.

Definition MILLISECS_PER_BLOCK : Z := 12000.
Definition MINUTES : Z := 60_000 / MILLISECS_PER_BLOCK.
Definition HOURS : Z := MINUTES * 60.
Definition DAYS : Z := HOURS * 24.

Definition ExistentialDeposit : Z := 500.

Definition SessionPeriod : Z := 2 * MINUTES.
Definition MaxCandidates : Z := 200.
Definition MinCandidates : Z := 1.
Definition MaxInvulnerables : Z := 20.
Definition SlashRatio `{PerbillOps} : Perbill := pb_from_percent 1.

Definition RewardAmount : Z := 1_000 * MILLIMBTL.

Definition RegisterDeposit : Z := 90 * MBTL.
Definition ProviderRewardsPercentage `{PerbillOps} : Perbill := pb_from_percent 80.
Definition MaxNumberOfStakersPerProvider : Z := 10.
Definition MinimumStakingAmount : Z := 10 * MBTL.
Definition MaxUnlockingChunks : Z := 2.
Definition UnbondingPeriod : Z := 2.
Definition MaxEraStakeValues : Z := 5.
Definition DefaultBlocksPerEra : Z := 7200.

Definition MaxBytesInChainId : Z := 64.

#[export] Instance params `{PerbillOps} : RuntimeParams := {|
  rt_SessionPeriod := SessionPeriod;
  rt_MaxCandidates := MaxCandidates;
  rt_MinCandidates := MinCandidates;
  rt_MaxInvulnerables := MaxInvulnerables;
  rt_SlashRatio := SlashRatio;
  rt_RewardAmount := RewardAmount;
  rt_RegisterDeposit := RegisterDeposit;
  rt_ProviderRewardsPercentage := ProviderRewardsPercentage;
  rt_MaxNumberOfStakersPerProvider := MaxNumberOfStakersPerProvider;
  rt_MinimumStakingAmount := MinimumStakingAmount;
  rt_MaxUnlockingChunks := MaxUnlockingChunks;
  rt_UnbondingPeriod := UnbondingPeriod;
  rt_MaxEraStakeValues := MaxEraStakeValues;
  rt_DefaultBlocksPerEra := DefaultBlocksPerEra;
  rt_MaxBytesInChainId := MaxBytesInChainId
|}.

Definition contains `{PerbillOps} {AccountId MassbitId FrameCall}
    (call : RuntimeCall AccountId MassbitId FrameCall) : bool :=
  match call with
  | CallValidatorSet leave_intent_call => false
  | _ => true
  end.

End Local.

(** [PalletId::into_account_truncating] of Substrate. *)
Class PalletAccounts (AccountId : Type) := into_account_truncating : string → AccountId.

(** ** Wiring *)

Module Runtime.
Section runtime.
Context {AccountId : Type} `{Countable AccountId}.
Context {MassbitId : Type} `{Countable MassbitId}.
Context {Imb L : Type} `{!Currency AccountId Imb L}.
Context `{!PerbillOps} `{!DbWeightOps} {params : RuntimeParams} `{!PalletAccounts AccountId}.

(** [OnUnbalanced::on_unbalanced] of Substrate: a zero imbalance is dropped, the
    handler sees the others. *)
Definition on_unbalanced {S} `{!HasLedger S L} (on_nonzero_unbalanced : Imb → S → S)
    (amount : Imb) (s : S) : S :=
  if peek (AccountId := AccountId) (L := L) amount =? 0
  then put_ledger (drop_imbalance (AccountId := AccountId) amount (get_ledger s)) s
  else on_nonzero_unbalanced amount s.

(** *** pallet_dapi_staking *)

#[global] Instance staking_config : StakingConfig AccountId := {|
  DefaultBlocksPerEra := rt_DefaultBlocksPerEra;
  ProviderRewardsPercentage := rt_ProviderRewardsPercentage;
  MinProviderStake := rt_RegisterDeposit;
  MaxDelegatorsPerProvider := rt_MaxNumberOfStakersPerProvider;
  MinDelegatorStake := rt_MinimumStakingAmount;
  MaxEraStakeValues := rt_MaxEraStakeValues;
  UnbondingPeriod := rt_UnbondingPeriod;
  MaxUnlockingChunks := rt_MaxUnlockingChunks;
  PalletAccount := into_account_truncating "dapistak"
|}.

Abbreviation StakingState := (Staking.State AccountId MassbitId L).

(** *** pallet_dapi *)

(** [OnProjectPayment::on_nonzero_unbalanced] *)
Definition on_project_payment (amount : Imb) (s : StakingState) : StakingState :=
  (handle_imbalance amount s).2.

#[global] Instance dapi_config : DapiConfig Imb StakingState := {|
  MaxChainIdLength := rt_MaxBytesInChainId;
  OnProjectPayment := on_unbalanced on_project_payment
|}.

Abbreviation DapiState := (Dapi.State AccountId MassbitId StakingState).

(** *** pallet_validator_set *)

(** [ValidatorPot::get().into_account_truncating()] *)
Definition validator_pot : AccountId := into_account_truncating "valdtset".

(** The rest of the chain the validator set reads: the block number, the
    registered session keys ([pallet_session]) and the extra weights registered
    with [frame_system], oldest first. *)
Record Chain : Type := mkChain {
  dapi : DapiState;
  number : Z;
  registered : AccountId → bool;
  extra_weights : list Z
}.

Definition set_dapi v (c : Chain) : Chain :=
  mkChain v (number c) (registered c) (extra_weights c).

#[global] Instance chain_has_ledger : HasLedger Chain L := {|
  get_ledger c := ledger (Dapi.env (dapi c));
  put_ledger l c :=
    set_dapi (Dapi.set_env (set_ledger l (Dapi.env (dapi c))) (dapi c)) c
|}.

(** [EnsureRoot] *)
Definition EnsureRoot (o : Origin AccountId) : bool :=
  match o with Root => true | _ => false end.

(** [IdentityValidator::convert] *)
Definition IdentityValidator (t : AccountId) : option AccountId := Some t.

#[global] Instance validator_set_config : ValidatorSetConfig AccountId AccountId Chain := {|
  update_origin := EnsureRoot;
  MaxCandidates := rt_MaxCandidates;
  MinCandidates := rt_MinCandidates;
  MaxInvulnerables := rt_MaxInvulnerables;
  KickThreshold := rt_SessionPeriod;
  SlashRatio := rt_SlashRatio;
  PotAccount := validator_pot;
  ValidatorIdOf := IdentityValidator;
  is_registered := registered;
  block_number := number;
  register_extra_weight w c :=
    mkChain (dapi c) (number c) (registered c) (extra_weights c ++ [w]);
  weight_note_author := ValidatorSetWeights.note_author ValidatorSetWeights.SubstrateWeight;
  weight_new_session := ValidatorSetWeights.new_session ValidatorSetWeights.SubstrateWeight
|}.

Abbreviation ValidatorState := (ValidatorSet.State AccountId Chain).

#[global] Instance validators_have_ledger : HasLedger ValidatorState L := {|
  get_ledger := ValidatorSet.state_ledger;
  put_ledger := ValidatorSet.set_state_ledger
|}.

(** *** pallet_block_reward *)

(** [ToValidatorPot::on_nonzero_unbalanced] *)
Definition to_validator_pot (amount : Imb) (e : ValidatorState) : ValidatorState :=
  put_ledger (resolve_creating validator_pot amount (get_ledger e)) e.

Definition set_staking (v : StakingState) (e : ValidatorState) : ValidatorState :=
  let c := ValidatorSet.env e in
  ValidatorSet.set_env (set_dapi (Dapi.set_env v (dapi c)) c) e.

(** [BeneficiaryPayout::{validators, providers}] *)
Definition payout_to_validators (reward : Imb) (e : ValidatorState) : ValidatorState :=
  on_unbalanced to_validator_pot reward e.
Definition payout_to_providers (reward : Imb) (e : ValidatorState) : ValidatorState :=
  set_staking (handle_imbalance reward (Dapi.env (dapi (ValidatorSet.env e)))).2 e.

#[global] Instance block_reward_config : BlockRewardConfig Imb ValidatorState := {|
  RewardAmount := rt_RewardAmount;
  payout_validators := payout_to_validators;
  payout_providers := payout_to_providers
|}.

(** ** The runtime's state and its calls *)

Abbreviation State := (BlockReward.State ValidatorState).
Implicit Types s : State.

Definition chain s : Chain := ValidatorSet.env (BlockReward.env s).
Definition dapi_of s : DapiState := dapi (chain s).
Definition staking_of s : StakingState := Dapi.env (dapi_of s).

Definition set_chain (v : Chain) s : State :=
  BlockReward.set_env (ValidatorSet.set_env v (BlockReward.env s)) s.
Definition set_dapi_of (v : DapiState) s : State := set_chain (set_dapi v (chain s)) s.
Definition set_staking_of (v : StakingState) s : State :=
  set_dapi_of (Dapi.set_env v (dapi_of s)) s.

(** Running an operation of a pallet in the runtime. *)
Definition zoom {S T A} (get : S → T) (put : T → S → S) (m : M DispatchError T A) :
    M DispatchError S A := λ w,
  let '(r, t) := m (get w) in (r, put t w).

Context {FrameCall : Type}.
Context (frame_dispatch : FrameCall → Origin AccountId → M DispatchError State unit).

Abbreviation Call := (RuntimeCall AccountId MassbitId FrameCall).

(** A call without the filter, Substrate's [dispatch_bypass_filter]: what root uses
    for its own calls and, with [sudo_as] and [dispatch_as], in the name of others. *)
Definition dispatch_call (c : Call) (origin : Origin AccountId) :
    M DispatchError State unit :=
  match c with
  | CallValidatorSet c =>
      zoom BlockReward.env BlockReward.set_env (ValidatorSet.dispatch c origin)
  | CallDapi c => zoom dapi_of set_dapi_of (Dapi.dispatch c origin)
  | CallDapiStaking c => zoom staking_of set_staking_of (Staking.dispatch c origin)
  | CallBlockReward (set_config_call config) => BlockReward.set_config origin config
  | CallFrame c => frame_dispatch c origin
  end.

(** [BaseCallFilter] applies to every origin but root. *)
Definition dispatch (contains : Call → bool) (c : Call) (origin : Origin AccountId) :
    M DispatchError State unit :=
  if EnsureRoot origin || contains c then dispatch_call c origin else throw CallFiltered.

(** The hooks of the pallets in the runtime. *)
Definition staking_on_initialize (n : Z) : M DispatchError State Z :=
  zoom staking_of set_staking_of (Staking.on_initialize n).
Definition note_author (author : AccountId) : M DispatchError State unit :=
  zoom BlockReward.env BlockReward.set_env (ValidatorSet.note_author author).
Definition new_session (index : Z) : M DispatchError State (option (list AccountId)) :=
  zoom BlockReward.env BlockReward.set_env (ValidatorSet.new_session index).
Definition on_timestamp_set : M DispatchError State unit := BlockReward.on_timestamp_set.

(** An imbalance that goes out of scope. *)
Definition drop_in (e : ValidatorState) (i : Imb) : ValidatorState :=
  put_ledger (drop_imbalance (AccountId := AccountId) i (get_ledger e)) e.

(** [DealWithFees::on_unbalanceds]: fees and tips go to the pot together; what
    the iterator still holds is dropped. *)
Definition deal_with_fees (fees_then_tips : list Imb) (e : ValidatorState) : ValidatorState :=
  match fees_then_tips with
  | [] => e
  | [fees] => on_unbalanced to_validator_pot fees e
  | fees :: tips :: rest =>
      let e := on_unbalanced to_validator_pot
                 (Frame.merge (AccountId := AccountId) (L := L) fees tips) e in
      foldl drop_in e rest
  end.

(** [WeightToFee::polynomial]: one coefficient of degree 1. *)
Record WeightToFeeCoefficient : Type := mkWeightToFeeCoefficient {
  degree : Z;
  negative : bool;
  coeff_frac : Perbill;
  coeff_integer : Z
}.

Definition weight_to_fee_polynomial (unit ExtrinsicBaseWeight : Z) :
    list WeightToFeeCoefficient :=
  let p := unit in
  let q := 10 * ExtrinsicBaseWeight in
  [mkWeightToFeeCoefficient 1 false (pb_from_rational (p mod q) q) (p / q)].

(** ** Genesis

    The parts of [GenesisConfig] that concern the repository's pallets. *)
Record GenesisConfig : Type := mkGenesisConfig {
  reward_config : DistributionConfig;
  desired_candidates : Z;
  candidacy_bond : Z;
  invulnerables : list AccountId;
  regulators : list AccountId;
  chain_ids : list Bytes
}.

(** The staking pallet has no genesis config: its storage starts empty. *)
Definition staking_genesis (l : L) : StakingState :=
  Staking.mkState (mkEraInfo 0 0 0) ∅ 0 ∅ ∅ ∅ ∅ l [].

(** [GenesisBuild::build] of the pallets, over the balances [l] and the session
    keys; [None] is a failing assertion. *)
Definition genesis_build (config : GenesisConfig) (l : L) (registered : AccountId → bool) :
    option State :=
  d ← Dapi.genesis_build (regulators config) (chain_ids config) (staking_genesis l);
  v ← ValidatorSet.genesis_build (invulnerables config) (candidacy_bond config)
        (desired_candidates config) (mkChain d 0 registered []);
  BlockReward.genesis_build (reward_config config) v.

End runtime.
Arguments GenesisConfig AccountId {_}.
End Runtime.
