(* ===== verification/RuntimeLaws.v ===== *)
(** * The pallets together

    The joint invariant of the runtime: the staking pallet's books, the dAPI
    pallet's view of them and the candidates' deposits, over one shared ledger.
    Each pallet's preservation lemmas are composed here; the step relation covers
    the calls, the hooks, the fees and whatever Substrate's own pallets do to the
    ledger without touching reserves. *)

From S2P Require Export Runtime ValidatorSetReserves StakingReach.
Import Runtime.

(** What the proofs need of the constants. *)
Class RuntimeParamsLaws `{!PerbillOps} {params : RuntimeParams} : Prop := {
  rt_MinimumStakingAmount_pos : 0 < rt_MinimumStakingAmount;
  rt_RegisterDeposit_nonneg : 0 <= rt_RegisterDeposit;
  rt_MaxNumberOfStakers_range : 0 <= rt_MaxNumberOfStakersPerProvider < u32_max;
  rt_MaxEraStakeValues_range : 0 < rt_MaxEraStakeValues <= u32_max;
  rt_MaxUnlockingChunks_range : 0 <= rt_MaxUnlockingChunks < u32_max;
  rt_MinCandidates_range : 0 <= rt_MinCandidates <= u32_max
}.

#[global] Instance keiko_params_laws `{PerbillOps} :
  RuntimeParamsLaws (params := Keiko.params).
Proof. split; vm_compute; try done; split; done. Qed.

#[global] Instance local_params_laws `{PerbillOps} :
  RuntimeParamsLaws (params := Local.params).
Proof. split; vm_compute; try done; split; done. Qed.

Section laws.
Context {AccountId : Type} `{Countable AccountId}.
Context {MassbitId : Type} `{Countable MassbitId}.
Context {Imb L : Type} `{!Currency AccountId Imb L} `{!CurrencyLaws AccountId Imb L}.
Context `{!PerbillOps} `{!PerbillLaws} `{!DbWeightOps}.
Context {params : RuntimeParams} `{!RuntimeParamsLaws} `{!PalletAccounts AccountId}.

Abbreviation StakingState := (Staking.State AccountId MassbitId L).
Abbreviation DapiState := (Dapi.State AccountId MassbitId StakingState).
Abbreviation Chain := (@Chain AccountId _ _ MassbitId _ _ L).
Abbreviation ValidatorState := (ValidatorSet.State AccountId Chain).
Abbreviation State := (BlockReward.State ValidatorState).
Implicit Types s : State.
Implicit Types st : StakingState.

(** ** The instances fulfil the components' laws *)

#[global] Instance staking_config_laws : StakingConfigLaws AccountId.
Proof.
  split; [apply rt_MinimumStakingAmount_pos|apply rt_RegisterDeposit_nonneg
    |apply rt_MaxNumberOfStakers_range|apply rt_MaxEraStakeValues_range
    |apply rt_MaxUnlockingChunks_range].
Qed.

#[global] Instance chain_ledger_laws : HasLedgerLaws Chain L.
Proof. done. Qed.

#[global] Instance validators_ledger_laws : HasLedgerLaws ValidatorState L.
Proof. done. Qed.

#[global] Instance validator_set_laws : ValidatorSetLaws AccountId AccountId L Chain.
Proof. split; [done|apply rt_MinCandidates_range]. Qed.

(** ** What the staking pallet's operations do to its view *)

Lemma staking_call_view c origin st st' :
  Staking.dispatch c origin st = (Ok tt, st') → ∀ p, view st' p = view st p.
Proof.
  intros Hd q. unfold view. destruct c; simpl in Hd;
    [apply set_blocks_per_era_Ok in Hd|apply provider_bond_more_Ok in Hd
    |apply provider_bond_less_Ok in Hd|apply delegate_Ok in Hd
    |apply delegator_unstake_Ok in Hd|apply withdraw_unbonded_Ok in Hd
    |apply claim_provider_Ok in Hd|apply claim_delegator_Ok in Hd
    |apply provider_withdraw_unregistered_Ok in Hd
    |apply delegator_withdraw_unregistered_Ok in Hd];
    cbn zeta in Hd; decompose [ex and] Hd; subst st'; try done.
  simpl. destruct (decide (q = provider_id)) as [->|Hne].
  - rewrite lookup_insert_eq.
    match goal with Hp : ProviderInfo st !! _ = Some _, Hs : status _ = _ |- _ =>
      by rewrite Hp, Hs end.
  - by rewrite lookup_insert_ne.
Qed.

Lemma on_initialize_view n st st' w :
  Staking.on_initialize n st = (Ok w, st') → ∀ p, view st' p = view st p.
Proof.
  intros Hr q. destruct (EraInfo.should_update (Era st) n) eqn:Hn.
  - destruct (on_initialize_new_era n st Hn) as [w' Hr']. rewrite Hr in Hr'.
    by injection Hr' as -> ->.
  - rewrite on_initialize_idle in Hr by done. by injection Hr as <- <-.
Qed.

(** Payments neither register nor unregister a provider. *)
Lemma payment_view (i : Imb) st p :
  staking_view (OnProjectPayment i st) p = staking_view st p.
Proof. unfold OnProjectPayment. simpl. unfold on_unbalanced. by case_match. Qed.

(** ** Frames of the components' invariants *)

Lemma dapi_inv_env (d : DapiState) e :
  dapi_inv d → (∀ p, view e p = view (Dapi.env d) p) → dapi_inv (Dapi.set_env e d).
Proof.
  intros [Hs ? ? ?] He. split; simpl; try done. intros p. rewrite He. apply Hs.
Qed.

Lemma inv_ledger (o o' : OtherReserves AccountId) st (lg : L) :
  inv (OtherReserves0 := o) st →
  (∀ w, o' w + obligations st w <= reserved_balance lg w) →
  inv (OtherReserves0 := o') (set_ledger lg st).
Proof. intros [? ? ? ? ? ? _] Hf. by split. Qed.

Lemma set_ledger_id st : set_ledger (ledger st) st = st.
Proof. by destruct st. Qed.

Lemma env_moves_chain (c c' : Chain) :
  rtc env_move c c' →
  dapi c' = Dapi.set_env (set_ledger (get_ledger c') (Dapi.env (dapi c))) (dapi c).
Proof.
  induction 1 as [c|c1 c2 c3 Hm _ IH].
  - destruct c as [d ? ? ?]. simpl. destruct d. simpl. by rewrite set_ledger_id.
  - rewrite IH. by destruct Hm as [lg ->|w ->].
Qed.

(** ** Payments and payouts leave reserves alone *)

Lemma on_unbalanced_reserved {S} `{!HasLedger S L, !HasLedgerLaws S L}
    (f : Imb → S → S) (i : Imb) (x : S) :
  (∀ w, reserved_balance (get_ledger (f i x)) w = reserved_balance (get_ledger x) w) →
  ∀ w, reserved_balance (get_ledger (on_unbalanced f i x)) w =
       reserved_balance (get_ledger x) w.
Proof.
  intros Hf w. unfold on_unbalanced. case_match; [|apply Hf].
  rewrite get_put_ledger. apply drop_imbalance_spec.
Qed.

Section staking_inv.
Context (o : OtherReserves AccountId) `{!OtherReservesLaws AccountId}.

Lemma inv_same_reserves st (lg : L) :
  inv (OtherReserves0 := o) st →
  (∀ w, reserved_balance lg w = reserved_balance (ledger st) w) →
  inv (OtherReserves0 := o) (set_ledger lg st).
Proof. intros Hi Hr. eapply inv_ledger; [done|]. intros w. rewrite Hr. apply Hi. Qed.

Lemma payment_inv (i : Imb) st :
  inv (OtherReserves0 := o) st → inv (OtherReserves0 := o) (OnProjectPayment i st).
Proof.
  intros Hi. unfold OnProjectPayment. simpl. unfold on_unbalanced. case_match.
  - apply inv_same_reserves; [done|]. intros w. apply drop_imbalance_spec.
  - by eapply handle_imbalance_inv.
Qed.

(** A call of the dAPI pallet, seen from the staking pallet. *)
Lemma dapi_call_staking_inv c origin (d d' : DapiState) :
  amounts_ok c → Dapi.dispatch c origin d = (Ok tt, d') →
  origin ≠ Signed account_id → supply_ok (ledger (Dapi.env d')) →
  inv (OtherReserves0 := o) (Dapi.env d) → inv (OtherReserves0 := o) (Dapi.env d').
Proof.
  intros Hok Hd Ho Hs Hi.
  assert (∀ who v i (lg : L), 0 <= v → withdraw who v KeepAlive (ledger (Dapi.env d)) = Ok (i, lg) →
    inv (OtherReserves0 := o) (OnProjectPayment i (set_ledger lg (Dapi.env d)))) as Hpay.
  { intros who v i lg Hv Hw. apply payment_inv, inv_same_reserves; [done|].
    destruct (withdraw_Ok _ _ _ _ _ _ Hv Hw) as (_ & Hoth & Hk). intros w.
    destruct (decide (w = who)) as [->|Hne]; [apply Hk; by left|by apply Hoth]. }
  destruct c; simpl in *.
  - apply register_project_Ok in Hd as (who & i & l & _ & _ & _ & _ & Hw & ->).
    apply (Hpay _ _ _ _ (proj1 Hok) Hw).
  - apply deposit_project_Ok in Hd as (who & pr & i & l & _ & _ & Hw & ->).
    apply (Hpay _ _ _ _ (proj1 Hok) Hw).
  - by apply submit_project_usage_Ok in Hd as (? & ? & _ & _ & _ & ->).
  - by apply dapi_register_provider_Ok in Hd as (? & _ & _ & _ & _ & _ & ->).
  - apply deposit_provider_Ok in Hd as (pr & e & -> & _ & _ & Hr & ->). simpl in *.
    eapply register_provider_inv; [exact Hr| |done|done]. intros Heq. by rewrite Heq in Ho.
  - apply dapi_unregister_provider_Ok in Hd as (pr & e & _ & _ & _ & Hr & ->).
    eapply unregister_provider_inv; [exact Hr|done].
  - apply report_provider_offence_Ok in Hd as (who & pr & e & _ & _ & _ & _ & Hr & ->).
    eapply unregister_provider_inv; [exact Hr|done].
  - by apply add_regulator_Ok in Hd as (_ & _ & ->).
  - by apply remove_regulator_Ok in Hd as (_ & _ & ->).
  - by apply add_chain_id_Ok in Hd as (_ & _ & _ & ->).
  - by apply remove_chain_id_Ok in Hd as (_ & _ & _ & ->).
Qed.
End staking_inv.

(** ** The joint invariant *)

Definition candidates s : list (CandidateInfo AccountId) :=
  ValidatorSet.Candidates (BlockReward.env s).

(** The staking pallet, with the candidates' deposits as foreign reserves. *)
Abbreviation candidate_reserves s := (deposits (candidates s) : OtherReserves AccountId).

Record runtime_inv s : Prop := {
  rt_staking : inv (OtherReserves0 := candidate_reserves s) (staking_of s);
  rt_dapi : dapi_inv (dapi_of s);
  rt_validators : vs_inv (BlockReward.env s);
  rt_funded : vs_funded account_id (BlockReward.env s);
  rt_config : is_valid (BlockReward.RewardConfig s) = true
}.

Lemma candidate_reserves_laws s :
  vs_inv (BlockReward.env s) → vs_funded account_id (BlockReward.env s) →
  OtherReservesLaws AccountId (OtherReserves0 := candidate_reserves s).
Proof.
  intros Hi Hf. split.
  - intros w. apply deposits_nonneg. intros c Hc. by apply (vs_deposits _ Hi).
  - apply deposits_absent. intros (c & Heq & Hc)%list_elem_of_fmap.
    by destruct (funded_deposits _ _ Hf c Hc) as [_ []].
Qed.

(** The validator set's own storage is as before. *)
Definition same_validators s s' : Prop :=
  ValidatorSet.Candidates (BlockReward.env s') = ValidatorSet.Candidates (BlockReward.env s) ∧
  ValidatorSet.DesiredCandidates (BlockReward.env s') =
    ValidatorSet.DesiredCandidates (BlockReward.env s) ∧
  ValidatorSet.CandidacyBond (BlockReward.env s') =
    ValidatorSet.CandidacyBond (BlockReward.env s).

Lemma deposit_le_deposits (l : list (CandidateInfo AccountId)) c :
  (∀ c, c ∈ l → 0 <= ValidatorSet.deposit c) → c ∈ l →
  ValidatorSet.deposit c <= deposits l (who c).
Proof.
  intros Hnn Hc. induction Hc as [c l|c c' l Hc IH]; rewrite deposits_cons.
  - rewrite decide_True by done. pose proof (deposits_nonneg l (who c)) as Hd.
    assert (∀ x, x ∈ l → 0 <= ValidatorSet.deposit x) by (intros; apply Hnn; by right).
    specialize (Hd ltac:(done)). lia.
  - assert (∀ x, x ∈ l → 0 <= ValidatorSet.deposit x) by (intros; apply Hnn; by right).
    specialize (IH ltac:(done)). pose proof (Hnn c' ltac:(left)).
    case_decide; lia.
Qed.

(** A step of the staking or the dAPI pallet, or of the fees: it is enough to
    look at these two. *)
Lemma runtime_inv_update s s' :
  runtime_inv s → same_validators s s' →
  BlockReward.RewardConfig s' = BlockReward.RewardConfig s →
  inv (OtherReserves0 := candidate_reserves s) (staking_of s') →
  dapi_inv (dapi_of s') → runtime_inv s'.
Proof.
  intros [Hst Hd Hv Hf Hcfg] (Hc & Hdes & Hb) Hcf Hst' Hd'.
  pose proof (candidate_reserves_laws s Hv Hf) as Hlaws.
  assert (candidates s' = candidates s) as Hcand by done.
  split; [by rewrite Hcand|done| | |by rewrite Hcf].
  - destruct Hv as [? ? ? ? Hdep]. split; rewrite ?Hc, ?Hdes, ?Hb; try done.
    intros c Hin. destruct (Hdep c Hin) as [Hnn _]. split; [done|].
    pose proof (deposit_le_deposits (candidates s) c) as Hle.
    assert (∀ c, c ∈ candidates s → 0 <= ValidatorSet.deposit c) as Hall
      by (intros; by apply Hdep).
    specialize (Hle Hall Hin).
    pose proof (inv_funds _ Hst' (who c)) as Hfu.
    pose proof (obligations_range (staking_of s') (who c) Hst') as [Hob _].
    change (others (who c)) with (deposits (candidates s) (who c)) in Hfu.
    change (ValidatorSet.state_ledger (BlockReward.env s')) with (ledger (staking_of s')).
    lia.
  - destruct Hf as [? ?]. split; rewrite ?Hc, ?Hb; done.
Qed.

(** A step of the validator set. *)
Lemma runtime_inv_validators s (e : ValidatorState) :
  runtime_inv s → vs_effect account_id (BlockReward.env s) e →
  runtime_inv (BlockReward.set_env e s).
Proof.
  intros [Hst Hd Hv Hf Hcfg] [Hv' Hf' Hmv Hres].
  apply env_moves_chain in Hmv.
  set (s' := BlockReward.set_env e s).
  assert (staking_of s' = set_ledger (ValidatorSet.state_ledger e) (staking_of s)) as Hst'.
  { unfold staking_of, dapi_of, chain. simpl. by rewrite Hmv. }
  split; [|..|done|done|done].
  - rewrite Hst'. apply (inv_ledger (candidate_reserves s)); [done|]. intros w.
    pose proof (inv_funds _ Hst w) as Hfu. specialize (Hres w).
    change (others w) with (deposits (candidates s) w) in Hfu.
    change (ledger (staking_of s)) with (ValidatorSet.state_ledger (BlockReward.env s)) in Hfu.
    unfold candidates, s' in *. cbn [BlockReward.env BlockReward.set_env]. lia.
  - unfold dapi_of, chain. simpl. rewrite Hmv. by apply dapi_inv_env.
Qed.

End laws.
