(* ===== verification/RuntimeReach.v ===== *)
(** * The reachable states of the runtime

    The step relation of the whole chain and the theorems about every state it
    reaches: the shared reserves cover what all pallets owe, and the dAPI pallet
    agrees with the staking pallet about every provider. *)

From S2P Require Export RuntimeLaws.
Import Runtime.

Section reach.
Context {AccountId : Type} `{Countable AccountId}.
Context {MassbitId : Type} `{Countable MassbitId}.
Context {Imb L : Type} `{!Currency AccountId Imb L} `{!CurrencyLaws AccountId Imb L}.
Context `{!PerbillOps} `{!PerbillLaws} `{!DbWeightOps}.
Context {params : RuntimeParams} `{!RuntimeParamsLaws} `{!PalletAccounts AccountId}.

Abbreviation StakingState := (Staking.State AccountId MassbitId L).
Abbreviation DapiState := (Dapi.State AccountId MassbitId StakingState).
Abbreviation Chain := (@Chain AccountId _ _ MassbitId _ _ L).
Abbreviation ValidatorState := (ValidatorSet.State AccountId Chain).
Abbreviation State := (BlockReward.State ValidatorState).
Implicit Types s : State.

Context {FrameCall : Type}.
Context (frame_dispatch : FrameCall → Origin AccountId → M DispatchError State unit).
Abbreviation Call := (RuntimeCall AccountId MassbitId FrameCall).
Context (contains : Call → bool).
(** The calls that root makes in the name of an origin: [pallet_sudo::sudo_as] and
    [pallet_utility::dispatch_as] dispatch them with [dispatch_bypass_filter].
    [False] everywhere is a chain on which root does not use these calls. *)
Context (past_filter : Call → Origin AccountId → Prop).

(** The arguments of a call: amounts are [u128]s, [provider_bond_less] does not
    overflow, a candidacy bond survives a slash. *)
Definition rt_call_ok (c : Call) : Prop :=
  match c with
  | CallValidatorSet (set_desired_candidates_call max) => is_u32 max
  | CallValidatorSet (set_candidacy_bond_call bond) => is_u128 bond ∧ survives (E := Chain) bond
  | CallValidatorSet _ => True
  | CallDapi c => amounts_ok c
  | CallDapiStaking c => call_ok c
  | CallBlockReward _ => True
  | CallFrame _ => False
  end.

Definition ledger_of s : L := ledger (staking_of s).

(** What Substrate's own pallets do: they move the clock, the session keys and
    the ledger, but touch no reserve downwards. *)
Definition frame_move (lg : L) (n : Z) (registered : AccountId → bool) (ws : list Z) s : State :=
  let d := dapi_of s in
  set_chain (mkChain (Dapi.set_env (set_ledger lg (Dapi.env d)) d) n registered ws) s.

(** A call that is run: dispatched behind the filter, or by root past it. *)
Definition call_runs (c : Call) (origin : Origin AccountId) s s' : Prop :=
  dispatch frame_dispatch contains c origin s = (Ok tt, s') ∨
  past_filter c origin ∧ dispatch_call frame_dispatch c origin s = (Ok tt, s').

(** One step of the chain: a call of a repository pallet, a hook, the fees, or
    a move of Substrate's pallets. *)
Inductive runtime_step s s' : Prop :=
| rt_step_call c origin :
    call_runs c origin s s' →
    rt_call_ok c → origin ≠ Signed account_id → supply_ok (ledger_of s') → runtime_step s s'
| rt_step_staking_hook n w :
    staking_on_initialize n s = (Ok w, s') → current (Era (staking_of s)) < u32_max →
    runtime_step s s'
| rt_step_author author :
    author ≠ validator_pot → note_author author s = (Ok tt, s') → runtime_step s s'
| rt_step_session n r : new_session n s = (Ok r, s') → runtime_step s s'
| rt_step_reward : on_timestamp_set s = (Ok tt, s') → is_u128 rt_RewardAmount → runtime_step s s'
| rt_step_fees fees_then_tips :
    s' = BlockReward.set_env (deal_with_fees fees_then_tips (BlockReward.env s)) s →
    runtime_step s s'
| rt_step_frame lg n registered ws :
    (∀ a, reserved_balance (ledger_of s) a <= reserved_balance lg a) →
    s' = frame_move lg n registered ws s → runtime_step s s'.

(** The values a genesis config may hold. *)
Definition genesis_ok (config : GenesisConfig AccountId) : Prop :=
  is_u32 (desired_candidates config) ∧ is_u128 (candidacy_bond config) ∧
  survives (E := Chain) (candidacy_bond config).

Definition runtime_reachable s : Prop :=
  ∃ config lg registered s0,
    genesis_ok config ∧ Runtime.genesis_build config lg registered = Some s0 ∧
    rtc runtime_step s0 s.

(** The filter, root, or a call of root's let a call through. *)
Lemma call_runs_Ok c origin s s' :
  call_runs c origin s s' ↔
  (EnsureRoot origin = true ∨ contains c = true ∨ past_filter c origin) ∧
  dispatch_call frame_dispatch c origin s = (Ok tt, s').
Proof.
  unfold call_runs, dispatch.
  destruct (EnsureRoot origin) eqn:?, (contains c) eqn:?; simpl; naive_solver.
Qed.

Lemma call_runs_dispatch c origin s s' :
  call_runs c origin s s' → dispatch_call frame_dispatch c origin s = (Ok tt, s').
Proof. by intros [_ Hd]%call_runs_Ok. Qed.

(** ** Every step keeps the joint invariant *)

Lemma zoom_Ok {S T A} (get : S → T) (put : T → S → S) (m : M DispatchError T A) x x' a :
  zoom get put m x = (Ok a, x') ↔ ∃ t, m (get x) = (Ok a, t) ∧ x' = put t x.
Proof. unfold zoom. destruct (m (get x)); naive_solver. Qed.

Lemma genesis_runtime_inv config lg registered s :
  genesis_ok config → Runtime.genesis_build config lg registered = Some s → runtime_inv s.
Proof.
  intros (Hdes & Hb & Hsurv) (d & Hd & (v & Hv & Hr)%bind_Some)%bind_Some.
  assert (dapi_inv d) as Hdi by (by eapply genesis_dapi_inv).
  assert (Dapi.env d = staking_genesis lg) as Henv.
  { unfold Dapi.genesis_build in Hd. case_match; [|done]. by injection Hd as <-. }
  unfold ValidatorSet.genesis_build in Hv. case_match; [|done]. injection Hv as <-.
  unfold BlockReward.genesis_build in Hr.
  destruct (is_valid (reward_config config)) eqn:Hvalid; [|done]. injection Hr as <-.
  split; [|done| | |done].
  - unfold staking_of, dapi_of, chain. simpl. rewrite Henv. by apply genesis_inv.
  - split; simpl; [constructor|done|done|done|]. by intros c ?%elem_of_nil.
  - split; simpl; [done|]. by intros c ?%elem_of_nil.
Qed.

Lemma dispatch_call_inv c origin s s' :
  dispatch_call frame_dispatch c origin s = (Ok tt, s') → rt_call_ok c →
  origin ≠ Signed account_id → supply_ok (ledger_of s') → runtime_inv s → runtime_inv s'.
Proof.
  intros Hd Hok Ho Hs Hi. pose proof Hi as [Hst Hda Hv Hf Hcfg].
  pose proof (candidate_reserves_laws s Hv Hf) as Hlaws.
  destruct c as [c|c|c|[config]|c]; simpl in Hd.
  - apply zoom_Ok in Hd as (e & Hd & ->). apply runtime_inv_validators; [done|].
    eapply vs_call_effect; [done| |exact Hd|done|done]. by destruct c; try exact Hok.
  - apply zoom_Ok in Hd as (d & Hd & ->). apply (runtime_inv_update s); try done.
    + by eapply (dapi_call_staking_inv _ c).
    + eapply dapi_call_inv; [apply payment_view|done..].
  - apply zoom_Ok in Hd as (st & Hd & ->). apply (runtime_inv_update s); try done.
    + by eapply dispatch_inv.
    + apply dapi_inv_env; [done|]. by eapply staking_call_view.
  - unfold BlockReward.set_config in Hd. run_step Hd.
    repeat match goal with
    | Hx : ensure_root _ _ = (Ok _, _) |- _ => apply ensure_root_Ok in Hx as [Hx ?]
    | Hx : BlockReward.deposit_event _ _ = _ |- _ => apply modify_Ok in Hx as ->
    end. subst. by split.
  - done.
Qed.

(** The block's reward, as updates of the two pallets. *)
Lemma on_timestamp_set_inv s s' :
  on_timestamp_set s = (Ok tt, s') → is_u128 rt_RewardAmount → runtime_inv s → runtime_inv s'.
Proof.
  intros Hr Hu Hi. destruct (BlockReward.on_timestamp_set_run s)
    as (i & l & vi & pi & Hiss & _ & Hrun).
  unfold on_timestamp_set in Hr. rewrite Hrun in Hr. apply (f_equal snd) in Hr.
  cbn [snd] in Hr. subst s'.
  pose proof Hi as [Hst Hda Hv Hf Hcfg]. pose proof (candidate_reserves_laws s Hv Hf) as Hlaws.
  destruct (issue_spec rt_RewardAmount _ _ _ Hu Hiss) as [_ Hbal].
  set (e1 := put_ledger l (BlockReward.env s)).
  assert (∀ w, reserved_balance (get_ledger (payout_validators vi e1)) w =
               reserved_balance (get_ledger (BlockReward.env s)) w) as Hres.
  { intros w. change (payout_validators vi e1) with (on_unbalanced to_validator_pot vi e1).
    etrans; [apply (on_unbalanced_reserved to_validator_pot vi e1)|apply Hbal].
    intros w'. apply reserved_resolve. }
  assert (∃ lg, payout_validators vi e1 = put_ledger lg (BlockReward.env s)) as [lg Hlg].
  { change (payout_validators vi e1) with (on_unbalanced to_validator_pot vi e1).
    unfold on_unbalanced. case_match; by eexists. }
  fold e1. rewrite Hlg in *. apply (runtime_inv_update s); try done.
  - apply (handle_imbalance_inv pi (set_ledger lg (staking_of s))
      (staking_of (BlockReward.mkState (BlockReward.RewardConfig s)
        (payout_providers pi (put_ledger lg (BlockReward.env s))) (BlockReward.events s)))).
    { done. }
    apply inv_same_reserves; [done|]. intros w. apply Hres.
  - apply (dapi_inv_env (dapi_of s)); [done|]. done.
Qed.

Lemma deal_with_fees_moves fees_then_tips (e : ValidatorState) :
  ∃ lg, deal_with_fees fees_then_tips e = put_ledger lg e ∧
    ∀ w, reserved_balance lg w = reserved_balance (get_ledger e) w.
Proof.
  assert (∀ i (e : ValidatorState), ∃ lg, on_unbalanced to_validator_pot i e = put_ledger lg e ∧
    ∀ w, reserved_balance lg w = reserved_balance (get_ledger e) w) as Hpot.
  { intros i e0. unfold on_unbalanced. case_match; eexists; (split; [done|]); intros w.
    - apply drop_imbalance_spec.
    - apply reserved_resolve. }
  destruct fees_then_tips as [|fees [|tips rest]]; simpl.
  - exists (get_ledger e). split; [|done].
    destruct e as [? ? ? ? ? ? [[? ? ? ? [] ?] ? ? ?] ?]. done.
  - apply Hpot.
  - destruct (Hpot (Frame.merge (AccountId := AccountId) (L := L) fees tips) e) as (lg & -> & Hlg).
    clear Hpot. revert lg Hlg. induction rest as [|i rest IH]; intros lg Hlg; simpl; [by eexists|].
    apply (IH (drop_imbalance (AccountId := AccountId) i lg)). intros w. rewrite <-Hlg.
    apply drop_imbalance_spec.
Qed.

Lemma runtime_step_inv s s' : runtime_step s s' → runtime_inv s → runtime_inv s'.
Proof.
  intros Hstep Hi. pose proof Hi as [Hst Hda Hv Hf Hcfg].
  pose proof (candidate_reserves_laws s Hv Hf) as Hlaws.
  destruct Hstep as [c origin Hd Hok Ho Hs|n w Hr He|author Hne Hn|n r Hn|Hr Hu|ft ->
    |lg n reg ws Hlg ->].
  - apply call_runs_dispatch in Hd. by eapply dispatch_call_inv.
  - apply zoom_Ok in Hr as (st & Hr & ->). apply (runtime_inv_update s); try done.
    + by eapply on_initialize_inv.
    + apply dapi_inv_env; [done|]. by eapply on_initialize_view.
  - apply zoom_Ok in Hn as (e & Hn & ->). apply runtime_inv_validators; [done|].
    by eapply note_author_effect.
  - apply zoom_Ok in Hn as (e & Hn & ->). apply runtime_inv_validators; [done|].
    by eapply new_session_effect.
  - by eapply on_timestamp_set_inv.
  - destruct (deal_with_fees_moves ft (BlockReward.env s)) as (lg & -> & Hlg).
    apply (runtime_inv_update s); try done.
    + apply (inv_same_reserves (deposits (candidates s))); [done|]. apply Hlg.
    + by apply (dapi_inv_env (dapi_of s)).
  - apply (runtime_inv_update s); try done.
    + apply (inv_ledger (deposits (candidates s))); [done|]. intros w.
      etrans; [apply (inv_funds _ Hst)|apply Hlg].
    + by apply (dapi_inv_env (dapi_of s)).
Qed.

Lemma runtime_reachable_inv s : runtime_reachable s → runtime_inv s.
Proof.
  intros (config & lg & reg & s0 & Hok & Hg & Hs).
  pose proof (genesis_runtime_inv _ _ _ _ Hok Hg) as Hi. clear Hok Hg.
  induction Hs; [done|]. eauto using runtime_step_inv.
Qed.

(** ** Results *)

(** C1: In every reachable state of the runtime the reserved balance of every
    account covers everything the pallets have reserved on it together: its
    candidacy deposits, the bonds of its providers, its stakes and its unbonding
    queue.  No interleaving of calls, era changes, session changes (with their
    slashes), rewards and fees lets one pallet release what another one holds. *)
Theorem shared_reserves_cover_all s w :
  runtime_reachable s →
  0 <= deposits (candidates s) w ∧ 0 <= obligations (staking_of s) w ∧
  deposits (candidates s) w + obligations (staking_of s) w
    <= reserved_balance (ledger_of s) w.
Proof.
  intros Hi%runtime_reachable_inv. pose proof (rt_staking _ Hi) as Hst.
  pose proof (candidate_reserves_laws s (rt_validators _ Hi) (rt_funded _ Hi)) as Hlaws.
  set (o := deposits (candidates s) : OtherReserves AccountId).
  split; [apply (others_nonneg (OtherReserves0 := o) w)|].
  split; [apply (obligations_range (OtherReserves0 := o) (staking_of s) w Hst)|].
  apply (inv_funds _ Hst).
Qed.

(** C25: In every reachable state of the runtime the dAPI pallet and the staking
    pallet agree about every provider: unknown or registered means unknown to
    staking, active means staked there, inactive means unregistered there. *)
Theorem runtime_providers_in_sync s p :
  runtime_reachable s →
  view (staking_of s) p =
  match Dapi.Providers (dapi_of s) !! p with
  | None => Unknown
  | Some pr => match provider_status pr with
               | StatusRegistered => Unknown
               | StatusActive => Staked
               | StatusInActive _ => Unregistered
               end
  end.
Proof. intros Hi%runtime_reachable_inv. apply (inv_sync _ (rt_dapi _ Hi)). Qed.

(** C29: A failing call of the repository's pallets, filtered or dispatched, has
    changed nothing anywhere in the runtime. *)
Theorem runtime_failed_call_changes_nothing c origin s e s' :
  (∀ f, c ≠ CallFrame f) → dispatch frame_dispatch contains c origin s = (Err e, s') → s' = s.
Proof.
  intros Hc. unfold dispatch. destruct (_ || _); [|by intros [= _ ->]].
  destruct c as [c|c|c|[config]|f]; simpl; [| | | |by destruct (Hc f)].
  - unfold zoom. destruct (ValidatorSet.dispatch c origin _) as [r e'] eqn:Hd.
    intros [= -> <-]. apply validator_set_dispatch_atomic in Hd as ->. by destruct s.
  - unfold zoom. destruct (Dapi.dispatch c origin _) as [r d] eqn:Hd.
    intros [= -> <-]. apply dapi_dispatch_atomic in Hd as ->.
    by destruct s as [? [? ? ? ? ? ? [] ?] ?].
  - unfold zoom. destruct (Staking.dispatch c origin _) as [r st] eqn:Hd.
    intros [= -> <-]. apply dispatch_atomic in Hd as ->.
    by destruct s as [? [? ? ? ? ? ? [[] ? ? ?] ?] ?].
  - unfold BlockReward.set_config. destruct origin; [|by intros [= _ ->]..].
    by destruct (is_valid config); intros [= _ ->].
Qed.

End reach.
