(* ===== verification/RuntimeRefines.v ===== *)
(** * The runtime refines the components

    Every step of the runtime is, for each pallet, a step (or a few) of the
    environment that pallet was verified in: what the other pallets do to the
    shared ledger is covered by the environment steps.  So every theorem about
    the reachable states of one pallet holds in the runtime. *)

From S2P Require Export RuntimeReach.
Import Runtime.

Section refines.
Context {AccountId : Type} `{Countable AccountId}.
Context {MassbitId : Type} `{Countable MassbitId}.
Context {Imb L : Type} `{!Currency AccountId Imb L} `{!CurrencyLaws AccountId Imb L}.
Context `{!PerbillOps} `{!PerbillLaws} `{!DbWeightOps}.
Context {params : RuntimeParams} `{!RuntimeParamsLaws} `{!PalletAccounts AccountId}.

Abbreviation StakingState := (Staking.State AccountId MassbitId L).
Abbreviation DapiState := (Dapi.State AccountId MassbitId StakingState).
Abbreviation Chain := (@Chain AccountId _ _ MassbitId _ _ L).
Abbreviation ValidatorState := (ValidatorSet.State AccountId Chain).
Abbreviation State := (BlockReward.State ValidatorState).
Implicit Types s : State.
Implicit Types st : StakingState.

Context {FrameCall : Type}.
Context (frame_dispatch : FrameCall → Origin AccountId → M DispatchError State unit).
Context (contains : RuntimeCall AccountId MassbitId FrameCall → bool).
Context (past_filter : RuntimeCall AccountId MassbitId FrameCall → Origin AccountId → Prop).

Abbreviation step := (StakingReach.step_from (Imb := Imb) (allowed := signer_ok)).
Abbreviation runtime_step := (runtime_step frame_dispatch contains past_filter).

(** ** Steps of the validator set and of the ledger *)

Lemma validators_move s (e : ValidatorState) :
  vs_effect account_id (BlockReward.env s) e →
  dapi_of (BlockReward.set_env e s) =
    Dapi.set_env (set_ledger (ValidatorSet.state_ledger e) (staking_of s)) (dapi_of s).
Proof. intros [_ _ Hmv _]. by apply env_moves_chain in Hmv. Qed.

Lemma obligations_covered s w :
  runtime_inv s → obligations (staking_of s) w <= reserved_balance (ledger_of s) w.
Proof.
  intros Hi. pose proof (rt_staking _ Hi) as Hst.
  pose proof (candidate_reserves_laws s (rt_validators _ Hi) (rt_funded _ Hi)) as Hlaws.
  set (o := deposits (candidates s) : OtherReserves AccountId).
  apply (obligations_range (OtherReserves0 := o) (staking_of s) w Hst).
Qed.

Lemma ledger_moves s s' (lg : L) :
  runtime_inv s' → staking_of s' = set_ledger lg (staking_of s) →
  rtc step (staking_of s) (staking_of s').
Proof.
  intros Hi Hs. apply rtc_once, (step_ledger _ _ lg); [|done]. intros w.
  pose proof (obligations_covered s' w Hi) as Ho. unfold ledger_of in Ho. by rewrite Hs in Ho.
Qed.

(** ** The staking pallet *)

Lemma staking_call_ok (c : StakingCall MassbitId) :
  rt_call_ok (L := L) (FrameCall := FrameCall) (CallDapiStaking c) → call_ok c.
Proof. done. Qed.

Lemma payment_steps (i : Imb) st (lg : L) :
  (∀ w, obligations st w <= reserved_balance lg w) →
  rtc step st (OnProjectPayment i (set_ledger lg st)).
Proof.
  intros Hob. unfold OnProjectPayment. simpl. unfold on_unbalanced. case_match.
  - apply rtc_once. eapply (step_ledger _ _ (drop_imbalance i lg)); [|done].
    intros w. rewrite (proj2 (drop_imbalance_spec _ _ _)). apply Hob.
  - eapply rtc_l; [by apply (step_ledger _ _ lg)|]. apply rtc_once. by apply (step_reward _ _ i).
Qed.

Lemma dapi_call_staking_steps c origin (d d' : DapiState) :
  amounts_ok c → Dapi.dispatch c origin d = (Ok tt, d') →
  origin ≠ Signed account_id → supply_ok (ledger (Dapi.env d')) →
  (∀ w, obligations (Dapi.env d) w <= reserved_balance (ledger (Dapi.env d)) w) →
  rtc step (Dapi.env d) (Dapi.env d').
Proof.
  intros Hok Hd Ho Hs Hob.
  assert (∀ who v i (lg : L), 0 <= v → withdraw who v KeepAlive (ledger (Dapi.env d)) = Ok (i, lg) →
    rtc step (Dapi.env d) (OnProjectPayment i (set_ledger lg (Dapi.env d)))) as Hpay.
  { intros who v i lg Hv Hw. apply payment_steps. intros w.
    destruct (withdraw_Ok _ _ _ _ _ _ Hv Hw) as (_ & Hoth & Hk).
    etrans; [apply Hob|]. destruct (decide (w = who)) as [->|Hne].
    - destruct Hk as [_ ->]; [by left|done].
    - by destruct (Hoth w Hne) as [_ ->]. }
  destruct c; simpl in *.
  - apply register_project_Ok in Hd as (who & i & l & _ & _ & _ & _ & Hw & ->).
    apply (Hpay _ _ _ _ (proj1 Hok) Hw).
  - apply deposit_project_Ok in Hd as (who & pr & i & l & _ & _ & Hw & ->).
    apply (Hpay _ _ _ _ (proj1 Hok) Hw).
  - by apply submit_project_usage_Ok in Hd as (? & ? & _ & _ & _ & ->).
  - by apply dapi_register_provider_Ok in Hd as (? & _ & _ & _ & _ & _ & ->).
  - apply deposit_provider_Ok in Hd as (pr & e & -> & _ & _ & Hr & ->). simpl in *.
    apply rtc_once. eapply step_register; [exact Hr| |done]. intros Heq. by rewrite Heq in Ho.
  - apply dapi_unregister_provider_Ok in Hd as (pr & e & _ & _ & _ & Hr & ->).
    apply rtc_once. eapply step_unregister; exact Hr.
  - apply report_provider_offence_Ok in Hd as (who & pr & e & _ & _ & _ & _ & Hr & ->).
    apply rtc_once. eapply step_unregister; exact Hr.
  - by apply add_regulator_Ok in Hd as (_ & _ & ->).
  - by apply remove_regulator_Ok in Hd as (_ & _ & ->).
  - by apply add_chain_id_Ok in Hd as (_ & _ & _ & ->).
  - by apply remove_chain_id_Ok in Hd as (_ & _ & _ & ->).
Qed.

(** The ledger between the two parts of a block reward. *)
Lemma on_timestamp_set_shape s s' :
  on_timestamp_set s = (Ok tt, s') → is_u128 rt_RewardAmount →
  ∃ (lg : L) i,
    (∀ w, reserved_balance lg w = reserved_balance (ledger_of s) w) ∧
    s' = set_staking_of (handle_imbalance i (set_ledger lg (staking_of s))).2 s.
Proof.
  intros Hr Hu. destruct (BlockReward.on_timestamp_set_run s)
    as (i & l & vi & pi & Hiss & _ & Hrun).
  unfold on_timestamp_set in Hr. rewrite Hrun in Hr. apply (f_equal snd) in Hr.
  cbn [snd] in Hr. subst s'.
  destruct (issue_spec rt_RewardAmount _ _ _ Hu Hiss) as [_ Hbal].
  assert (∃ lg, payout_validators vi (put_ledger l (BlockReward.env s)) =
      put_ledger lg (BlockReward.env s) ∧
    ∀ w, reserved_balance lg w = reserved_balance l w) as (lg & Hlg & Hres).
  { change (payout_validators vi ?e) with (on_unbalanced to_validator_pot vi e).
    unfold on_unbalanced. case_match; eexists; (split; [done|]); intros w.
    - apply drop_imbalance_spec.
    - apply reserved_resolve. }
  exists lg, pi. split.
  - intros w. rewrite Hres. apply Hbal.
  - rewrite Hlg. done.
Qed.

Lemma runtime_step_staking s s' :
  runtime_inv s → runtime_step s s' → rtc step (staking_of s) (staking_of s').
Proof.
  intros Hi Hstep. assert (runtime_inv s') as Hi' by by eapply runtime_step_inv.
  pose proof (rt_validators _ Hi) as Hv. pose proof (rt_funded _ Hi) as Hf.
  assert (∀ e, s' = BlockReward.set_env e s → vs_effect account_id (BlockReward.env s) e →
    rtc step (staking_of s) (staking_of s')) as Hvs.
  { intros e -> He. apply (ledger_moves _ _ (ValidatorSet.state_ledger e)); [done|].
    unfold staking_of at 1. by rewrite (validators_move s e He). }
  destruct Hstep as [c origin Hd Hok Ho Hs|n w Hr Hmax|author Hne Hn|n r Hn|Hr Hu|ft ->
    |lg n reg ws Hlg ->].
  - apply call_runs_dispatch in Hd.
    destruct c as [c|c|c|[config]|c]; simpl in Hd.
    + apply zoom_Ok in Hd as (e & Hd & ->). apply (Hvs e); [done|].
      eapply vs_call_effect; [done| |exact Hd|done|done]. by destruct c; try exact Hok.
    + apply zoom_Ok in Hd as (d & Hd & ->).
      eapply (dapi_call_staking_steps c origin (dapi_of s) d); try done.
      intros w. by apply (obligations_covered s).
    + apply zoom_Ok in Hd as (st & Hd & ->). apply rtc_once. by eapply step_call.
    + unfold BlockReward.set_config in Hd. destruct origin; [|done..].
      destruct (is_valid config); [|done]. apply (f_equal snd) in Hd. simpl in Hd. by subst s'.
    + done.
  - apply zoom_Ok in Hr as (st & Hr & ->). apply rtc_once. by eapply step_block.
  - apply zoom_Ok in Hn as (e & Hn & ->). apply (Hvs e); [done|]. by eapply note_author_effect.
  - apply zoom_Ok in Hn as (e & Hn & ->). apply (Hvs e); [done|]. by eapply new_session_effect.
  - destruct (on_timestamp_set_shape s s' Hr Hu) as (lg & i & Hres & ->).
    eapply rtc_l; [|by apply rtc_once; apply (step_reward _ _ i)].
    apply (step_ledger _ _ lg); [|done]. intros w. rewrite Hres.
    by apply (obligations_covered s).
  - destruct (deal_with_fees_moves ft (BlockReward.env s)) as (lg & Heq & _).
    rewrite Heq in *. by apply (ledger_moves _ _ lg).
  - by apply (ledger_moves _ _ lg).
Qed.

(** ** The dAPI pallet *)

Lemma runtime_step_dapi s s' :
  runtime_inv s → runtime_step s s' → rtc dapi_step (dapi_of s) (dapi_of s').
Proof.
  intros Hi Hstep. pose proof (rt_validators _ Hi) as Hv. pose proof (rt_funded _ Hi) as Hf.
  assert (∀ st, (∀ p, view st p = view (staking_of s) p) →
    rtc dapi_step (dapi_of s) (Dapi.set_env st (dapi_of s))) as Henv.
  { intros st Hst. apply rtc_once. by apply (dapi_step_env _ _ st). }
  assert (∀ e, vs_effect account_id (BlockReward.env s) e →
    rtc dapi_step (dapi_of s) (dapi_of (BlockReward.set_env e s))) as Hvs.
  { intros e He. rewrite (validators_move s e He). by apply Henv. }
  destruct Hstep as [c origin Hd Hok Ho Hs|n w Hr Hmax|author Hne Hn|n r Hn|Hr Hu|ft ->
    |lg n reg ws Hlg ->].
  - apply call_runs_dispatch in Hd.
    destruct c as [c|c|c|[config]|c]; simpl in Hd.
    + apply zoom_Ok in Hd as (e & Hd & ->). apply (Hvs e).
      eapply vs_call_effect; [done| |exact Hd|done|done]. by destruct c; try exact Hok.
    + apply zoom_Ok in Hd as (d & Hd & ->). apply rtc_once. by eapply dapi_step_call.
    + apply zoom_Ok in Hd as (st & Hd & ->). apply Henv. by eapply staking_call_view.
    + unfold BlockReward.set_config in Hd. destruct origin; [|done..].
      destruct (is_valid config); [|done]. apply (f_equal snd) in Hd. simpl in Hd. by subst s'.
    + done.
  - apply zoom_Ok in Hr as (st & Hr & ->). apply Henv. by eapply on_initialize_view.
  - apply zoom_Ok in Hn as (e & Hn & ->). apply (Hvs e). by eapply note_author_effect.
  - apply zoom_Ok in Hn as (e & Hn & ->). apply (Hvs e). by eapply new_session_effect.
  - destruct (on_timestamp_set_shape s s' Hr Hu) as (lg & i & _ & ->). by apply Henv.
  - destruct (deal_with_fees_moves ft (BlockReward.env s)) as (lg & -> & _).
    by apply (Henv (set_ledger lg (staking_of s))).
  - by apply Henv.
Qed.

(** ** The validator set *)

(** A step that only touches the validator set's environment. *)
Lemma environment_moves s s' (e : Chain) :
  runtime_inv s' → BlockReward.env s' = ValidatorSet.set_env e (BlockReward.env s) →
  rtc vs_step (BlockReward.env s) (BlockReward.env s').
Proof.
  intros Hi He. apply rtc_once, (vs_step_env _ _ e); [|done]. intros c Hc.
  pose proof (rt_validators _ Hi) as Hv. rewrite He in Hv.
  by destruct (vs_deposits _ Hv c Hc).
Qed.

Lemma runtime_step_validators s s' :
  runtime_inv s → runtime_step s s' →
  rtc vs_step (BlockReward.env s) (BlockReward.env s').
Proof.
  intros Hi Hstep. assert (runtime_inv s') as Hi' by by eapply runtime_step_inv.
  destruct Hstep as [c origin Hd Hok Ho Hs|n w Hr Hmax|author Hne Hn|n r Hn|Hr Hu|ft ->
    |lg n reg ws Hlg ->].
  - apply call_runs_dispatch in Hd.
    destruct c as [c|c|c|[config]|c]; simpl in Hd.
    + apply zoom_Ok in Hd as (e & Hd & ->). apply rtc_once.
      eapply vs_step_call; [|exact Hd]. destruct c; try exact Hok. apply Hok.
    + apply zoom_Ok in Hd as (d & Hd & ->). by eapply environment_moves.
    + apply zoom_Ok in Hd as (st & Hd & ->). by eapply environment_moves.
    + unfold BlockReward.set_config in Hd. destruct origin; [|done..].
      destruct (is_valid config); [|done]. apply (f_equal snd) in Hd. simpl in Hd. by subst s'.
    + done.
  - apply zoom_Ok in Hr as (st & Hr & ->). by eapply environment_moves.
  - apply zoom_Ok in Hn as (e & Hn & ->). apply rtc_once. by eapply vs_step_author.
  - apply zoom_Ok in Hn as (e & Hn & ->). apply rtc_once. by eapply vs_step_session.
  - destruct (on_timestamp_set_shape s s' Hr Hu) as (lg & i & _ & ->).
    by eapply environment_moves.
  - destruct (deal_with_fees_moves ft (BlockReward.env s)) as (lg & Heq & _).
    rewrite Heq in *. by eapply environment_moves.
  - by eapply environment_moves.
Qed.

(** ** Reachable states *)

Lemma genesis_components config lg registered s :
  genesis_ok (MassbitId := MassbitId) (L := L) config →
  Runtime.genesis_build config lg registered = Some s →
  reachable (staking_of s) ∧ dapi_reachable (dapi_of s) ∧ vs_reachable (BlockReward.env s).
Proof.
  intros (Hdes & Hb & _) (d & Hd & (v & Hv & Hr)%bind_Some)%bind_Some.
  assert (Dapi.env d = staking_genesis lg) as Henv.
  { unfold Dapi.genesis_build in Hd. case_match; [|done]. by injection Hd as <-. }
  assert (ValidatorSet.env v = mkChain d 0 registered []) as Hchain.
  { unfold ValidatorSet.genesis_build in Hv. case_match; [|done]. by injection Hv as <-. }
  unfold BlockReward.genesis_build in Hr. case_match; [|done]. injection Hr as <-.
  unfold staking_of, dapi_of, chain. simpl. rewrite Hchain. simpl. split_and!.
  - rewrite Henv. exists (staking_genesis lg). split; [by split|done].
  - exists (regulators config), (chain_ids config), (staking_genesis lg), d.
    split; [done|]. split; [|done]. intros p. done.
  - exists (invulnerables config), (candidacy_bond config), (desired_candidates config),
      (mkChain d 0 registered []), v. done.
Qed.

(** C2: The runtime refines each of its pallets: in every state the whole chain
    reaches, the staking pallet's state is one that pallet reaches on its own in
    its verified environment, and so are the dAPI pallet's and the validator
    set's.  Every theorem about the reachable states of one pallet therefore
    holds in the runtime, however calls, hooks and ledger moves of the other
    pallets interleave. *)
Theorem runtime_refines_pallets s :
  runtime_reachable frame_dispatch contains past_filter s →
  reachable (staking_of s) ∧ dapi_reachable (dapi_of s) ∧ vs_reachable (BlockReward.env s).
Proof.
  intros (config & lg & reg & s0 & Hok & Hg & Hs).
  pose proof (genesis_runtime_inv _ _ _ _ Hok Hg) as Hi.
  destruct (genesis_components _ _ _ _ Hok Hg) as (H1' & H2' & H3'). clear Hg.
  induction Hs as [|s1 s2 s3 Hst _ IH]; [done|].
  apply IH; [by eapply runtime_step_inv| | |].
  - destruct H1' as (g & ? & ?). exists g. split; [done|]. etrans; [done|].
    by apply runtime_step_staking.
  - destruct H2' as (rs & cs & e & d & ? & ? & ?). exists rs, cs, e, d.
    split; [done|]. split; [done|]. etrans; [done|]. by apply runtime_step_dapi.
  - destruct H3' as (iv & b & d & e & v & ? & ? & ? & ?). exists iv, b, d, e, v.
    split_and!; [done..|]. etrans; [done|]. by apply runtime_step_validators.
Qed.

End refines.
