(* ===== verification/PalletGenesis.v ===== *)
(** * Genesis configs and the signed extension of the pallets

    The [GenesisConfig] of each pallet with its default, as the pallet's own
    builder takes it, and what [PreValidateRegulatorCalls] is besides its two
    checks. *)

From S2P Require Export RuntimeReach.

Module DapiGenesis.
Section genesis.
Context {AccountId : Type} `{Countable AccountId}.
Context {MassbitId : Type} `{Countable MassbitId} {Imb E : Type} `{!DapiConfig Imb E}.

Record GenesisConfig : Type := mkGenesisConfig {
  regulators : list AccountId;
  chain_ids : list Bytes
}.

Definition GenesisConfig_default : GenesisConfig := mkGenesisConfig [] [].

Definition build (config : GenesisConfig) (e : E) : option (Dapi.State AccountId MassbitId E) :=
  Dapi.genesis_build (regulators config) (chain_ids config) e.

Lemma dapi_default_builds e :
  build GenesisConfig_default e = Some (Dapi.mkState ∅ ∅ ∅ ∅ e []).
Proof. reflexivity. Qed.
End genesis.
Arguments GenesisConfig AccountId : clear implicits.
End DapiGenesis.

Module ValidatorSetGenesis.
Section genesis.
Context {AccountId : Type} `{Countable AccountId} {Imb E : Type}.
Context `{!PerbillOps} `{!ValidatorSetConfig AccountId Imb E}.

Record GenesisConfig : Type := mkGenesisConfig {
  invulnerables : list AccountId;
  candidacy_bond : Z;
  desired_candidates : Z
}.

Definition GenesisConfig_default : GenesisConfig := mkGenesisConfig [] 0 0.

Definition build (config : GenesisConfig) (e : E) : option (ValidatorSet.State AccountId E) :=
  ValidatorSet.genesis_build (invulnerables config) (candidacy_bond config)
    (desired_candidates config) e.

Lemma validator_set_default_builds e :
  0 <= ValidatorSet.MaxInvulnerables → 0 <= ValidatorSet.MaxCandidates →
  build GenesisConfig_default e = Some (ValidatorSet.mkState [] [] ∅ 0 0 None e []).
Proof.
  intros Hi Hc. unfold build, ValidatorSet.genesis_build.
  rewrite bool_decide_eq_true_2 by constructor. cbn [invulnerables GenesisConfig_default].
  assert ((len_u32 ([] : list AccountId) <=? ValidatorSet.MaxInvulnerables) = true) as ->
    by by apply Z.leb_le.
  assert ((desired_candidates GenesisConfig_default <=? ValidatorSet.MaxCandidates) = true) as ->
    by by apply Z.leb_le.
  done.
Qed.
End genesis.
Arguments GenesisConfig AccountId : clear implicits.
End ValidatorSetGenesis.

Module BlockRewardGenesis.
Section genesis.
Context `{!PerbillOps} {E : Type}.

Record GenesisConfig : Type := mkGenesisConfig { reward_config : DistributionConfig }.

Definition GenesisConfig_default : GenesisConfig := mkGenesisConfig DistributionConfig_default.

Definition build (config : GenesisConfig) (e : E) : option (BlockReward.State E) :=
  BlockReward.genesis_build (reward_config config) e.
End genesis.
End BlockRewardGenesis.

(** The runtime's genesis is the pallets' builders, one over the other. *)
Section runtime.
Context {AccountId : Type} `{Countable AccountId}.
Context {MassbitId : Type} `{Countable MassbitId}.
Context {Imb L : Type} `{!Currency AccountId Imb L}.
Context `{!PerbillOps} `{!DbWeightOps} {params : RuntimeParams} `{!PalletAccounts AccountId}.

Lemma runtime_genesis_composes (dapi : DapiGenesis.GenesisConfig AccountId)
    (validator_set : ValidatorSetGenesis.GenesisConfig AccountId)
    (block_reward : BlockRewardGenesis.GenesisConfig) (lg : L) registered :
  Runtime.genesis_build (MassbitId := MassbitId)
    (Runtime.mkGenesisConfig (BlockRewardGenesis.reward_config block_reward)
       (ValidatorSetGenesis.desired_candidates validator_set)
       (ValidatorSetGenesis.candidacy_bond validator_set)
       (ValidatorSetGenesis.invulnerables validator_set)
       (DapiGenesis.regulators dapi) (DapiGenesis.chain_ids dapi)) lg registered =
  (d ← DapiGenesis.build dapi (Runtime.staking_genesis lg);
   v ← ValidatorSetGenesis.build validator_set (Runtime.mkChain d 0 registered []);
   BlockRewardGenesis.build block_reward v).
Proof. reflexivity. Qed.
End runtime.

(** ** The signed extension

    [PreValidateRegulatorCalls] carries no data and signs nothing in addition; its
    checks are [Dapi.validate] and [Dapi.pre_dispatch]. *)
Module PreValidateRegulatorCalls.
Inductive PreValidateRegulatorCalls : Type := PhantomData.

Definition new : PreValidateRegulatorCalls := PhantomData.
Definition IDENTIFIER : string := "PreValidateRegulatorCalls".
Definition additional_signed {Error} (_ : PreValidateRegulatorCalls) : result Error unit := Ok tt.

(** [Debug::fmt]: what is written with and without the [std] feature. *)
Definition fmt (std : bool) (_ : PreValidateRegulatorCalls) : string :=
  if std then "PreValidateRegulatorCalls" else "".
End PreValidateRegulatorCalls.
