(* ===== verification/ChainSpec.v ===== *)
(** * The chain specifications

    node/src/chain_spec/{keiko,local}.rs: the genesis config each chain starts
    from.  Keys derived from seeds and addresses decoded from SS58 text are the
    node's cryptography ([get_from_seed], [from_ss58check]) and parameters here;
    [None] is a panicking [unwrap]. *)

From S2P Require Export RuntimeReach.
Import Runtime.

Section specs.
Context `{!PerbillOps}.
Context {AccountId AuraId GrandpaId : Type}.

(** [GenesisConfig] of the runtimes, less the WASM code. *)
Record ChainGenesis : Type := mkChainGenesis {
  balances : list (AccountId * Z);
  pallets : GenesisConfig AccountId;
  session_keys : list (AccountId * AccountId * (AuraId * GrandpaId));
  aura_authorities : list AuraId;
  grandpa_authorities : list GrandpaId;
  sudo_key : option AccountId
}.

Context (get_account_id_from_seed : string → AccountId).
Context (aura_from_seed : string → AuraId) (grandpa_from_seed : string → GrandpaId).
Context (from_ss58check : string → option AccountId).

Definition authority_keys_from_seed (s : string) : AccountId * AuraId * GrandpaId :=
  (get_account_id_from_seed s, aura_from_seed s, grandpa_from_seed s).

Definition eth_mainnet : Bytes := list_byte_of_string "eth.mainnet".
Definition dot_mainnet : Bytes := list_byte_of_string "dot.mainnet".

Definition keiko_make_genesis (root_key : AccountId) (endowed_accounts : list AccountId)
    (initial_authorities : list (AccountId * AuraId * GrandpaId))
    (initial_regulators : list AccountId) : ChainGenesis := {|
  balances := (λ k, (k, 2_000_000_000 * Keiko.KEI)) <$> endowed_accounts;
  pallets := {|
    reward_config := mkDistributionConfig (pb_from_percent 100) (pb_from_percent 0);
    desired_candidates := 200;
    candidacy_bond := 20_000_000 * Keiko.KEI;
    invulnerables := (λ x, x.1.1) <$> initial_authorities;
    regulators := initial_regulators;
    chain_ids := [eth_mainnet; dot_mainnet]
  |};
  session_keys := (λ x, (x.1.1, x.1.1, (x.1.2, x.2))) <$> initial_authorities;
  aura_authorities := [];
  grandpa_authorities := [];
  sudo_key := Some root_key
|}.

Definition keiko_get_chain_spec : option ChainGenesis :=
  root_key ← from_ss58check "5GKjNtFNWpvqVCbD4dMXbTXCe31oFdZbLFivMZPvJgRZkjif";
  endowed ← mapM from_ss58check
    ["5GKjNtFNWpvqVCbD4dMXbTXCe31oFdZbLFivMZPvJgRZkjif"%string;
     "5Gp4aP3CVYWixaM4jq5RKRP1nkG87mmH7913UNLhjeWh28p3"%string;
     "5DZFPuBrY2zGPKk9xTV4GvErD86XqFFH3SMjLbrDfrZidsRW"%string;
     "5Cg132mksNV7ntfpKrFRJ1fcHrhqtEU9MKBXKV71LGCSwhBz"%string;
     "5CyqNYGeb51y4qPJsAVjkeP3BWGUEmEytTWNdMtzqapK2WcY"%string];
  Some (keiko_make_genesis root_key endowed [authority_keys_from_seed "Alice"] []).

Definition local_make_genesis (root_key : AccountId) (endowed_accounts : list AccountId)
    (initial_authorities : list (AccountId * AuraId * GrandpaId))
    (initial_regulators : list AccountId) : ChainGenesis := {|
  balances := (λ k, (k, 100_000 * Local.MBTL)) <$> endowed_accounts;
  pallets := {|
    reward_config := mkDistributionConfig (pb_from_percent 50) (pb_from_percent 50);
    desired_candidates := 200;
    candidacy_bond := 1_000 * Local.MBTL;
    invulnerables := (λ x, x.1.1) <$> initial_authorities;
    regulators := initial_regulators;
    chain_ids := [eth_mainnet; dot_mainnet]
  |};
  session_keys := (λ x, (x.1.1, x.1.1, (x.1.2, x.2))) <$> initial_authorities;
  aura_authorities := [];
  grandpa_authorities := [];
  sudo_key := Some root_key
|}.

Definition local_development_config : ChainGenesis :=
  local_make_genesis
    (get_account_id_from_seed "Alice")
    [get_account_id_from_seed "Alice"; get_account_id_from_seed "Bob";
     get_account_id_from_seed "Charlie"; get_account_id_from_seed "Dave";
     get_account_id_from_seed "Eve"; get_account_id_from_seed "Ferdie"]
    [authority_keys_from_seed "Alice"]
    [get_account_id_from_seed "Eve"; get_account_id_from_seed "Ferdie"].

End specs.
Arguments ChainGenesis {_} AccountId AuraId GrandpaId.

(** ** The specifications start a valid chain *)

Section genesis.
Context {AccountId : Type} `{Countable AccountId}.
Context {MassbitId : Type} `{Countable MassbitId}.
Context {Imb L : Type} `{!Currency AccountId Imb L} `{!CurrencyLaws AccountId Imb L}.
Context `{!PerbillOps} `{!PerbillLaws} `{!DbWeightOps} `{!PalletAccounts AccountId}.

(** Bounds that keep every assertion of the genesis builders true. *)
Lemma genesis_builds `{!RuntimeParams} (config : GenesisConfig AccountId) (lg : L) reg :
  (∀ c, c ∈ chain_ids config → Z.of_nat (length c) <= rt_MaxBytesInChainId) →
  NoDup (invulnerables config) → len_u32 (invulnerables config) <= rt_MaxInvulnerables →
  desired_candidates config <= rt_MaxCandidates → is_valid (reward_config config) = true →
  ∃ s, genesis_build (MassbitId := MassbitId) config lg reg = Some s.
Proof.
  intros Hids Hnd Hlen Hdes Hv. unfold genesis_build, Dapi.genesis_build.
  set (bounded := Dapi.bounded (Imb := Imb) (E := Staking.State AccountId MassbitId L)).
  assert (mapM bounded (chain_ids config) = Some (chain_ids config)) as ->.
  { induction (chain_ids config) as [|c cs IH]; [done|]. simpl.
    assert (bounded c = Some c) as ->.
    { apply bounded_Some. split; [done|]. apply Hids. left. }
    simpl. rewrite IH; [done|]. intros c' Hc. apply Hids. by right. }
  simpl. unfold ValidatorSet.genesis_build. rewrite bool_decide_eq_true_2 by done.
  assert ((len_u32 (invulnerables config) <=? MaxInvulnerables) = true) as ->
    by by apply Z.leb_le.
  assert ((desired_candidates config <=? MaxCandidates) = true) as -> by by apply Z.leb_le.
  simpl. unfold BlockReward.genesis_build. rewrite Hv. by eexists.
Qed.

(** One percent of a bond leaves more than the existential deposit. *)
Lemma one_percent_survives p v :
  pb_deconstruct p = 10000000 → 1000 <= v → 500 <= v - pb_mul p v.
Proof.
  intros Hp Hv. pose proof (pb_mul_rounds p v ltac:(lia)) as Hr.
  rewrite Hp in Hr. unfold BILLION in Hr. lia.
Qed.

Lemma percents_valid a b : 0 <= a → 0 <= b → a + b = 100 →
  is_valid (mkDistributionConfig (pb_from_percent a) (pb_from_percent b)) = true.
Proof.
  intros. apply BlockReward.is_valid_sum. simpl. rewrite !pb_from_percent_parts by lia.
  unfold BILLION. lia.
Qed.

Lemma mainnet_ids c : c ∈ [eth_mainnet; dot_mainnet] → Z.of_nat (length c) <= 64.
Proof.
  intros [->|[->|[]%elem_of_nil]%elem_of_cons]%elem_of_cons; by vm_compute.
Qed.

Context {AuraId GrandpaId : Type}.
Context (account_from_seed : string → AccountId).
Context (aura_from_seed : string → AuraId) (grandpa_from_seed : string → GrandpaId).
Context (from_ss58check : string → option AccountId).

(** C38: Both chain specifications start a valid chain: with the runtime's
    existential deposit every assertion of the pallets' genesis builders holds,
    the storage is built, and the candidacy bond and the other values are in the
    range from which all invariants are kept. *)
Theorem chain_specs_start_valid (lg : L) (reg : AccountId → bool) (g : ChainGenesis AccountId AuraId GrandpaId) :
  minimum_balance (AccountId := AccountId) (L := L) = Keiko.ExistentialDeposit →
  (keiko_get_chain_spec account_from_seed aura_from_seed grandpa_from_seed from_ss58check
     = Some g →
   genesis_ok (MassbitId := MassbitId) (L := L) (params := Keiko.params) (pallets g) ∧
   ∃ s, genesis_build (MassbitId := MassbitId) (params := Keiko.params)
          (pallets g) lg reg = Some s) ∧
  (local_development_config account_from_seed aura_from_seed grandpa_from_seed = g →
   genesis_ok (MassbitId := MassbitId) (L := L) (params := Local.params) (pallets g) ∧
   ∃ s, genesis_build (MassbitId := MassbitId) (params := Local.params)
          (pallets g) lg reg = Some s).
Proof.
  intros Hed. split.
  - intros (root & _ & (endowed & _ & [= <-])%bind_Some)%bind_Some. split.
    + split_and!; [done|done|]. unfold survives. rewrite Hed.
      apply one_percent_survives; [|done]. by apply pb_from_percent_parts.
    + apply genesis_builds; simpl; [apply mainnet_ids|apply NoDup_singleton|done|done|].
      by apply percents_valid.
  - intros <-. split.
    + split_and!; [done|done|]. unfold survives. rewrite Hed.
      apply one_percent_survives; [|done]. by apply pb_from_percent_parts.
    + apply genesis_builds; simpl; [apply mainnet_ids|apply NoDup_singleton|done|done|].
      by apply percents_valid.
Qed.

End genesis.
