(* ===== verification/RuntimeFlows.v ===== *)
(** * The flows of money between the pallets

    Where project payments, block rewards and fees go, what the Keiko runtime's
    constants make of the delegators' share, and who can become a candidate behind
    its call filter. *)

From S2P Require Export ChainSpec.
Import Runtime.

Section flows.
Context {AccountId : Type} `{Countable AccountId}.
Context {MassbitId : Type} `{Countable MassbitId}.
Context {Imb L : Type} `{!Currency AccountId Imb L} `{!CurrencyLaws AccountId Imb L}.
Context `{!PerbillOps} `{!PerbillLaws} `{!DbWeightOps}.
Context {params : RuntimeParams} `{!RuntimeParamsLaws} `{!PalletAccounts AccountId}.

Abbreviation StakingState := (Staking.State AccountId MassbitId L).
Abbreviation DapiState := (Dapi.State AccountId MassbitId StakingState).
Abbreviation Chain := (@Chain AccountId _ _ MassbitId _ _ L).
Abbreviation ValidatorState := (ValidatorSet.State AccountId Chain).
Abbreviation State := (BlockReward.State ValidatorState).
Implicit Types s : State.

(** An account that can receive [v] in full. *)
Definition can_receive (l : L) (who : AccountId) (v : Z) : Prop :=
  minimum_balance (AccountId := AccountId) (L := L) <= free_balance l who ∧
  free_balance l who + reserved_balance l who + v <= u128_max.

Lemma resolve_receives who i (l : L) :
  can_receive l who (peek i) →
  free_balance (resolve_creating who i l) who = free_balance l who + peek i ∧
  ∀ o, o ≠ who → free_balance (resolve_creating who i l) o = free_balance l o.
Proof.
  intros [Hmin Hmax]. destruct (resolve_creating_spec who i l) as (_ & Ho & Hf).
  pose proof (peek_range i) as [Hp _]. split; [apply Hf; lia|]. intros o Hne. by apply Ho.
Qed.

(** [ToValidatorPot], the zero imbalance included. *)
Lemma pot_receives (i : Imb) (e : ValidatorState) :
  can_receive (get_ledger e) validator_pot (peek i) →
  let e' := on_unbalanced to_validator_pot i e in
  free_balance (get_ledger e') validator_pot =
    free_balance (get_ledger e) validator_pot + peek i ∧
  ∀ o, o ≠ validator_pot → free_balance (get_ledger e') o = free_balance (get_ledger e) o.
Proof.
  intros Hr. unfold on_unbalanced. case_match eqn:Hz.
  - apply Z.eqb_eq in Hz. rewrite get_put_ledger, Hz. split.
    + rewrite (proj1 (drop_imbalance_spec i _ _)). lia.
    + intros o _. apply drop_imbalance_spec.
  - unfold to_validator_pot. rewrite get_put_ledger. by apply resolve_receives.
Qed.

(** The staking pallet's side of a payment. *)
Lemma payment_received (i : Imb) (st : StakingState) :
  0 < peek (AccountId := AccountId) (L := L) i →
  can_receive (ledger st) account_id (peek i) →
  let st' := OnProjectPayment i st in
  RewardAccumulator st' = sat_add u128_max (RewardAccumulator st) (peek i) ∧
  free_balance (ledger st') account_id = free_balance (ledger st) account_id + peek i ∧
  ∀ o, o ≠ account_id → free_balance (ledger st') o = free_balance (ledger st) o.
Proof.
  intros Hpos Hr. unfold OnProjectPayment. simpl. unfold on_unbalanced.
  assert ((peek (AccountId := AccountId) (L := L) i =? 0) = false) as -> by lia.
  unfold on_project_payment. rewrite handle_imbalance_run. simpl.
  split; [done|]. by apply resolve_receives.
Qed.

(** Dropping imbalances moves no balance. *)
Lemma drops_move_nothing (l : list Imb) (e : ValidatorState) o :
  free_balance (get_ledger (foldl drop_in e l)) o = free_balance (get_ledger e) o.
Proof.
  revert e. induction l as [|i l IH]; intros e; [done|]. cbn [foldl]. rewrite IH.
  unfold drop_in. rewrite get_put_ledger. apply drop_imbalance_spec.
Qed.

(** The fee and the tip of a transaction reach the validators' pot in full and
    move nobody else's balance; what is left in the iterator is dropped. *)
Theorem fees_reach_pot (fees_then_tips : list Imb) (e : ValidatorState) :
  let amount := lsum (peek (AccountId := AccountId) (L := L) <$> take 2 fees_then_tips) in
  can_receive (get_ledger e) validator_pot amount →
  let e' := deal_with_fees fees_then_tips e in
  free_balance (get_ledger e') validator_pot =
    free_balance (get_ledger e) validator_pot + amount ∧
  ∀ o, o ≠ validator_pot → free_balance (get_ledger e') o = free_balance (get_ledger e) o.
Proof.
  intros amount Hr. subst amount.
  destruct fees_then_tips as [|fees [|tips rest]]; cbn [fmap list_fmap take] in *;
    unfold lsum in *; cbn [foldr] in *.
  - cbn [deal_with_fees]. by rewrite Z.add_0_r.
  - rewrite Z.add_0_r in *. by apply pot_receives.
  - rewrite Z.add_0_r in *. pose proof (free_nonneg (get_ledger e) validator_pot).
    pose proof (reserved_nonneg (get_ledger e) validator_pot).
    assert (peek (AccountId := AccountId) (L := L) (Frame.merge (AccountId := AccountId)
      (L := L) fees tips) = peek (AccountId := AccountId) (L := L) fees +
      peek (AccountId := AccountId) (L := L) tips) as Hm.
    { rewrite merge_spec. apply sat_add_small. destruct Hr. lia. }
    rewrite <-Hm in Hr. destruct (pot_receives _ e Hr) as [Hpot Hoth]. rewrite Hm in Hpot.
    cbn [deal_with_fees]. split.
    + by rewrite drops_move_nothing.
    + intros o Ho. rewrite drops_move_nothing. by apply Hoth.
Qed.

(** C30: A project payment of [d] (a registration or a deposit), made by another
    account than the staking pallet's while that one exists and can hold [d], moves
    [d] from the payer's free balance to the staking pallet's account and adds it to the
    rewards of the running era: nothing is lost, nobody else's balance moves,
    and the validators get none of it. *)
Theorem project_payment_reaches_stakers s s' who p d :
  is_u128 d → 0 < d → who ≠ account_id →
  can_receive (ledger_of s) account_id d →
  (∃ c, zoom dapi_of set_dapi_of (Dapi.register_project (Signed who) p c d) s = (Ok tt, s')) ∨
  zoom dapi_of set_dapi_of (Dapi.deposit_project (Signed who) p d) s = (Ok tt, s') →
  RewardAccumulator (staking_of s') =
    sat_add u128_max (RewardAccumulator (staking_of s)) d ∧
  free_balance (ledger_of s') account_id = free_balance (ledger_of s) account_id + d ∧
  free_balance (ledger_of s') who = free_balance (ledger_of s) who - d ∧
  ∀ o, o ≠ who → o ≠ account_id → free_balance (ledger_of s') o = free_balance (ledger_of s) o.
Proof.
  intros [Hd _] Hpos Hne Hr Hrun.
  assert (∃ i l, withdraw who d KeepAlive (ledger_of s) = Ok (i, l) ∧
    staking_of s' = OnProjectPayment i (set_ledger l (staking_of s))) as (i & l & Hw & Hs').
  { destruct Hrun as [[c Hrun]|Hrun]; apply zoom_Ok in Hrun as (t & Hrun & ->).
    - apply register_project_Ok in Hrun as (w & i & l & [= <-] & _ & _ & _ & Hw & ->).
      by exists i, l.
    - apply deposit_project_Ok in Hrun as (w & pr & i & l & [= <-] & _ & Hw & ->).
      by exists i, l. }
  destruct (withdraw_Ok _ _ _ _ _ _ Hd Hw) as (Hi & Ho & Hk).
  destruct Hk as [Hf _]; [by left|]. destruct (Ho account_id) as [Hfa Hra]; [done|].
  destruct (payment_received i (set_ledger l (staking_of s))) as (Hacc & Hpot & Hoth).
  { by rewrite Hi. }
  { unfold can_receive in *. change (ledger (set_ledger l (staking_of s))) with l.
    by rewrite Hi, Hfa, Hra. }
  unfold ledger_of in *. rewrite Hs', Hi in *.
  change (ledger (set_ledger l (staking_of s))) with l in *.
  change (RewardAccumulator (set_ledger l (staking_of s))) with
    (RewardAccumulator (staking_of s)) in Hacc.
  split; [done|]. split; [by rewrite Hpot, Hfa|]. split.
  - by rewrite (Hoth who Hne).
  - intros o How Hoa. rewrite (Hoth o Hoa). by apply Ho.
Qed.

(** Paying [vi] to the validators and [pi] to the staking pallet from balances
    [l] that are those of [s]. *)
Lemma reward_parts_arrive s l vi pi :
  let s' := BlockReward.mkState (BlockReward.RewardConfig s)
    (payout_providers pi (payout_validators vi (put_ledger l (BlockReward.env s))))
    (BlockReward.events s) in
  (∀ o, free_balance l o = free_balance (ledger_of s) o ∧
        reserved_balance l o = reserved_balance (ledger_of s) o) →
  (account_id : AccountId) ≠ validator_pot →
  can_receive (ledger_of s) account_id (peek (AccountId := AccountId) (L := L) pi) →
  can_receive (ledger_of s) validator_pot (peek (AccountId := AccountId) (L := L) vi) →
  RewardAccumulator (staking_of s') = sat_add u128_max (RewardAccumulator (staking_of s))
    (peek (AccountId := AccountId) (L := L) pi) ∧
  free_balance (ledger_of s') account_id =
    free_balance (ledger_of s) account_id + peek (AccountId := AccountId) (L := L) pi ∧
  free_balance (ledger_of s') validator_pot =
    free_balance (ledger_of s) validator_pot + peek (AccountId := AccountId) (L := L) vi ∧
  ∀ o, o ≠ account_id → o ≠ validator_pot →
    free_balance (ledger_of s') o = free_balance (ledger_of s) o.
Proof.
  intros s' Hl Hne Ha Hv. set (e1 := put_ledger l (BlockReward.env s)) in *.
  set (e2 := on_unbalanced to_validator_pot vi e1).
  assert (can_receive (get_ledger e1) validator_pot (peek vi)) as Hr1.
  { unfold can_receive in *. change (get_ledger e1) with l.
    by destruct (Hl validator_pot) as [-> ->]. }
  destruct (pot_receives vi e1 Hr1) as [Hpot Hoth]. fold e2 in Hpot, Hoth.
  change (get_ledger e1) with l in Hpot, Hoth.
  set (st2 := Dapi.env (dapi (ValidatorSet.env e2))).
  assert (RewardAccumulator st2 = RewardAccumulator (staking_of s)) as Hacc.
  { unfold st2, e2, on_unbalanced. by case_match. }
  change (get_ledger e2) with (ledger st2) in Hpot, Hoth.
  assert (reserved_balance (ledger st2) account_id =
          reserved_balance (ledger_of s) account_id) as Hres.
  { rewrite <-(proj2 (Hl account_id)).
    change (reserved_balance (get_ledger e2) account_id =
            reserved_balance (get_ledger e1) account_id).
    apply (on_unbalanced_reserved to_validator_pot vi e1). intros w. apply reserved_resolve. }
  assert (can_receive (ledger st2) account_id (peek pi)) as Hr2.
  { unfold can_receive in *. rewrite Hres, (Hoth account_id Hne).
    by destruct (Hl account_id) as [-> _]. }
  destruct (resolve_receives account_id pi (ledger st2) Hr2) as [Hpay Hrest].
  change (ledger_of s') with (resolve_creating account_id pi (ledger st2)).
  change (RewardAccumulator (staking_of s')) with
    (sat_add u128_max (RewardAccumulator st2) (peek (AccountId := AccountId) (L := L) pi)).
  split_and!; [by rewrite Hacc| | |].
  - by rewrite Hpay, (Hoth account_id Hne), (proj1 (Hl _)).
  - rewrite (Hrest validator_pot) by done. by rewrite Hpot, (proj1 (Hl _)).
  - intros o Hoa Hov. by rewrite (Hrest o Hoa), (Hoth o Hov), (proj1 (Hl _)).
Qed.

(** C31: The reward of a block reaches the validators' pot and the staking
    pallet in full, when the issuance has room for it and the two pot accounts
    exist, differ and can hold it: their two parts add up to [RewardAmount], the providers' part
    is the configured percentage (up to less than one unit of rounding), it is
    added to the running era's rewards and to the pallet's account, the rest is
    added to the validators' pot, and nobody else's balance moves. *)
Theorem block_reward_reaches_pots s :
  is_u128 rt_RewardAmount →
  total_issuance (AccountId := AccountId) (Imb := Imb) (ledger_of s) + rt_RewardAmount <= u128_max →
  (account_id : AccountId) ≠ validator_pot →
  can_receive (ledger_of s) account_id rt_RewardAmount →
  can_receive (ledger_of s) validator_pot rt_RewardAmount →
  ∃ s' v p,
    on_timestamp_set s = (Ok tt, s') ∧ 0 <= v ∧ 0 <= p ∧ v + p = rt_RewardAmount ∧
    Z.abs (p * BILLION -
      pb_deconstruct (providers_percent (BlockReward.RewardConfig s)) * rt_RewardAmount)
      < BILLION ∧
    RewardAccumulator (staking_of s') =
      sat_add u128_max (RewardAccumulator (staking_of s)) p ∧
    free_balance (ledger_of s') account_id = free_balance (ledger_of s) account_id + p ∧
    free_balance (ledger_of s') validator_pot =
      free_balance (ledger_of s) validator_pot + v ∧
    ∀ o, o ≠ account_id → o ≠ validator_pot →
      free_balance (ledger_of s') o = free_balance (ledger_of s) o.
Proof.
  intros Hu Hmax Hne [Ha1 Ha2] [Hv1 Hv2].
  destruct (BlockReward.on_timestamp_set_run s) as (i & l & vi & pi & Hiss & Hsplit & Hrun).
  destruct (issue_spec rt_RewardAmount _ _ _ Hu Hiss) as [Hpk Hbal].
  destruct (Hpk Hmax) as [Hi _]. clear Hpk Hmax. rewrite Hi in Hsplit.
  set (config := providers_percent (BlockReward.RewardConfig s)) in *.
  pose proof (pb_mul_le config rt_RewardAmount (proj1 Hu)) as Hle.
  destruct (Frame.split_spec (AccountId := AccountId) (L := L) i _ _ _ (proj1 Hle) Hsplit)
    as [Hpi Hvi]. rewrite Hi in Hpi, Hvi. rewrite Z.min_l in Hpi by lia.
  destruct (reward_parts_arrive s l vi pi) as (Hacc & Hpay & Hpot & Hoth);
    [apply Hbal|done|unfold can_receive in *; lia..|].
  eexists _, (peek (AccountId := AccountId) (L := L) vi),
    (peek (AccountId := AccountId) (L := L) pi).
  split; [exact Hrun|]. split_and!; [lia|lia|lia| |done..].
  rewrite Hpi. apply pb_mul_rounds, Hu.
Qed.

End flows.

(** ** Keiko *)

Section keiko.
Context {AccountId : Type} `{Countable AccountId}.
Context {MassbitId : Type} `{Countable MassbitId}.
Context {Imb L : Type} `{!Currency AccountId Imb L} `{!CurrencyLaws AccountId Imb L}.
Context `{!PerbillOps} `{!PerbillLaws} `{!DbWeightOps} `{!PalletAccounts AccountId}.
#[local] Existing Instance Keiko.params.

Abbreviation StakingState := (Staking.State AccountId MassbitId L).
Abbreviation Chain := (@Chain AccountId _ _ MassbitId _ _ L).
Abbreviation State := (BlockReward.State (ValidatorSet.State AccountId Chain)).
Implicit Types s : State.
Context {FrameCall : Type}.
Context (frame_dispatch : FrameCall → Origin AccountId → M DispatchError State unit).

Context (past_filter : RuntimeCall AccountId MassbitId FrameCall → Origin AccountId → Prop).

Abbreviation keiko_reachable s := (runtime_reachable frame_dispatch Keiko.contains past_filter s).

(** On Keiko ([ProviderRewardsPercentage] is 100%) a delegator's claim never
    pays anything: in every reachable state a successful [claim_delegator]
    reports a payout of zero. *)
Theorem keiko_delegators_earn_nothing s origin p st' :
  keiko_reachable s →
  Staking.claim_delegator origin p (staking_of s) = (Ok tt, st') →
  ∃ who era, origin = Signed who ∧
    events st' = events (staking_of s) ++ [Payout who p era 0].
Proof.
  intros Hi%runtime_reachable_inv (who & era & staked & dl' & pm & es & i & l & -> & _ & _
    & _ & _ & _ & Hes & _ & ->)%claim_delegator_Ok.
  exists who, era. split; [done|]. simpl.
  destruct (inv_rewards _ (rt_staking _ Hi)) as [_ Hrew]. pose proof (Hrew _ _ Hes) as Hr.
  assert ((split_provider_delegators_rewards (provider_era_info (staking_of s) p era) es).2 = 0)
    as Hz.
  { unfold split_provider_delegators_rewards. cbn [snd].
    set (x := pb_mul (pb_from_rational _ _) (em_rewards es)).
    assert (0 <= x) as Hx by (by apply pb_mul_le).
    rewrite (pb_mul_one ProviderRewardsPercentage x Hx).
    - unfold sat_sub. lia.
    - by apply pb_from_percent_parts. }
  unfold delegator_reward. rewrite Hz.
  assert (∀ q, pb_mul q 0 = 0) as Hq.
  { intros q. pose proof (pb_mul_le q 0 (Z.le_refl 0)). lia. }
  by rewrite Hq.
Qed.

Lemma elem_of_fmap_sublist {A B} (f : A → B) k l x :
  sublist k l → x ∈ f <$> k → x ∈ f <$> l.
Proof.
  intros Hs (y & -> & Hy)%list_elem_of_fmap. apply list_elem_of_fmap_2.
  by eapply elem_of_sublist.
Qed.

(** Root registers [a], past the filter. *)
Definition root_registers (a : AccountId) : Prop :=
  past_filter (CallValidatorSet register_as_candidate_call) (Signed a).

Lemma keiko_call_candidates c origin s s' a :
  call_runs frame_dispatch Keiko.contains past_filter c origin s s' → rt_call_ok c →
  a ∈ who <$> candidates s' → a ∈ who <$> candidates s ∨ root_registers a.
Proof.
  unfold candidates. intros [Hadm Hd]%call_runs_Ok Hok.
  destruct c as [c|c|c|[config]|c]; simpl in Hd; [| | | |done].
  - apply zoom_Ok in Hd as (e & Hd & ->). simpl. destruct c; simpl in *.
    + apply set_invulnerables_Ok in Hd as (_ & ->). by left.
    + apply set_desired_candidates_Ok in Hd as (_ & ->). by left.
    + apply set_candidacy_bond_Ok in Hd as (_ & ->). by left.
    + apply register_as_candidate_Ok in Hd as (b & lg & -> & _ & _ & _ & _ & ->). simpl.
      rewrite fmap_app. intros [Ha| ->%list_elem_of_singleton]%elem_of_app; [by left|].
      right. by destruct Hadm as [?|[?|?]].
    + apply leave_intent_Ok in Hd as (k & c & todo & _ & _ & -> & _ & ->).
      cbn. rewrite !fmap_app, fmap_cons. set_solver.
  - apply zoom_Ok in Hd as (d & _ & ->). by left.
  - apply zoom_Ok in Hd as (st & _ & ->). by left.
  - unfold BlockReward.set_config in Hd. destruct origin; [|done..].
    destruct (is_valid config); [|done]. apply (f_equal snd) in Hd. simpl in Hd. subst s'.
    by left.
Qed.

(** Nothing but root's registration makes a candidate. *)
Lemma keiko_step_candidates s s' a :
  runtime_step frame_dispatch Keiko.contains past_filter s s' → runtime_inv s →
  a ∈ who <$> candidates s' → a ∈ who <$> candidates s ∨ root_registers a.
Proof.
  intros Hstep Hi.
  destruct Hstep as [c origin Hd Hok _ _|n w Hr _|author _ Hn|n r Hn|Hr _|ft ->|lg n reg ws _ ->];
    [by eapply keiko_call_candidates|unfold candidates; left..|by left].
  - by apply zoom_Ok in Hr as (st & _ & ->).
  - apply zoom_Ok in Hn as (e & Hn & ->). rewrite note_author_run in Hn.
    apply (f_equal snd) in Hn. simpl in Hn. by subst e.
  - apply zoom_Ok in Hn as (e & Hn & ->). simpl in *.
    destruct (new_session_run n _ (rt_validators _ Hi)) as (e' & Hrun & _ & Hc' & _).
    rewrite Hn in Hrun. injection Hrun as _ ->. rewrite Hc' in *.
    eapply elem_of_fmap_sublist; [apply drop_stale_sublist|done].
  - destruct (BlockReward.on_timestamp_set_run s) as (i & l & vi & pi & _ & _ & Hrun).
    unfold on_timestamp_set in Hr. rewrite Hrun in Hr. apply (f_equal snd) in Hr.
    cbn [snd] in Hr. subst s'. unfold payout_providers, payout_validators in *. simpl in *.
    unfold payout_to_validators, on_unbalanced in *. by case_match.
  - simpl in *. by destruct (deal_with_fees_moves ft (BlockReward.env s)) as (lg & Hlg & _);
      rewrite Hlg in *.
Qed.

Lemma keiko_candidates s a :
  keiko_reachable s → a ∈ who <$> candidates s → root_registers a.
Proof.
  intros (config & lg & reg & s0 & Hok & Hg & Hs).
  assert (candidates s0 = []) as Hc.
  { pose proof Hg as (d & _ & (v & Hv & Hr)%bind_Some)%bind_Some.
    unfold ValidatorSet.genesis_build in Hv. case_match; [|done]. injection Hv as <-.
    unfold BlockReward.genesis_build in Hr. case_match; [|done]. by injection Hr as <-. }
  pose proof (genesis_runtime_inv _ _ _ _ Hok Hg) as Hi. clear Hg.
  cut (runtime_inv s ∧ (a ∈ who <$> candidates s → a ∈ who <$> candidates s0 ∨ root_registers a)).
  { rewrite Hc. intros [_ Ha] [Hn|Hr]%Ha; [|done]. by apply elem_of_nil in Hn. }
  clear Hc. induction Hs as [|s1 s2 s3 Hst _ IH]; [by auto|].
  destruct IH as [Hi3 IH]; [by eapply runtime_step_inv|]. split; [done|].
  intros [Ha|Hr]%IH; [|by right]. by eapply keiko_step_candidates.
Qed.

(** C37: On Keiko nobody becomes a candidate by a call of its own: a signed
    [register_as_candidate] is refused, and root cannot make the call as root.
    In every reachable state every candidate is an account that root registered
    past the filter ([sudo_as], [dispatch_as]), and every session's validators
    are the invulnerables and such accounts.  If root registers nobody this way,
    the candidate list stays empty and every session's validators are exactly the
    invulnerables. *)
Theorem keiko_validators_are_invulnerables s n :
  keiko_reachable s →
  (∀ origin, (dispatch frame_dispatch Keiko.contains
     (CallValidatorSet register_as_candidate_call) origin s).1 ≠ Ok tt) ∧
  (∀ a, a ∈ who <$> candidates s → root_registers a) ∧
  ∃ validators s',
    new_session n s = (Ok (Some validators), s') ∧
    (∀ a, a ∈ validators →
       a ∈ ValidatorSet.Invulnerables (BlockReward.env s) ∨ root_registers a) ∧
    ((∀ a, ¬ root_registers a) →
       candidates s = [] ∧ candidates s' = [] ∧
       validators = ValidatorSet.Invulnerables (BlockReward.env s)).
Proof.
  intros Hs. pose proof (runtime_reachable_inv _ _ _ _ Hs) as Hi.
  pose proof (λ a, keiko_candidates s a Hs) as Hall. clear Hs.
  split; [by intros []|]. split; [done|].
  destruct (new_session_run n _ (rt_validators _ Hi)) as (e' & Hrun & _ & Hc' & _).
  unfold candidates in *. set (kept := drop_stale _ _ _) in *.
  assert (sublist kept (ValidatorSet.Candidates (BlockReward.env s))) as Hsub
    by apply drop_stale_sublist.
  eexists _, _. split; [unfold new_session, zoom; by rewrite Hrun|]. split.
  - intros a [Ha|Ha]%elem_of_app; [by left|right]. apply Hall.
    by eapply elem_of_fmap_sublist.
  - intros Hnone. assert (ValidatorSet.Candidates (BlockReward.env s) = []) as Hc.
    { destruct (ValidatorSet.Candidates _) as [|c l]; [done|].
      destruct (Hnone (who c)). apply Hall. left. }
    rewrite Hc in Hsub. apply sublist_nil_r in Hsub. simpl.
    by rewrite Hc', Hsub, app_nil_r.
Qed.

End keiko.
