(* ===== verification/RuntimeTx.v ===== *)
(** * Transactions, weights and fees of the runtimes

    runtime/{keiko,local}/src/lib.rs: the signed transaction an off-chain worker
    builds ([CreateSignedTransaction]), the limits of a block
    ([RuntimeBlockWeights]) and the fee of a weight ([WeightToFee]). *)

From S2P Require Export RuntimeFlows.
Import Runtime.

Definition BlockHashCount : Z := 2400.

(** ** [u32::checked_next_power_of_two] *)

Definition next_power_of_two (n : Z) : Z := 2 ^ Z.log2_up n.
Definition checked_next_power_of_two (n : Z) : option Z :=
  if next_power_of_two n <=? u32_max then Some (next_power_of_two n) else None.

Definition mortal_period (block_hash_count : Z) : Z :=
  default 2 ((λ c, c / 2) <$> checked_next_power_of_two block_hash_count).

(** The period of the mortal transactions is a power of two below the number
    of block hashes the chain keeps and at least half of it: the block a
    transaction refers to can still be looked up while the transaction is valid,
    and no longer validity would be possible with a power of two.  (Counts above
    [2 ^ 31], whose next power of two does not fit, get the period 2.) *)
Theorem mortal_period_known (count : Z) :
  2 <= count <= u32_max →
  let period := mortal_period count in
  (∃ k, 0 <= k ∧ period = 2 ^ k) ∧ period <= count ∧
  (count <= 2 ^ 31 → period < count <= 2 * period).
Proof.
  intros [Hlo Hhi]. unfold mortal_period, checked_next_power_of_two, next_power_of_two.
  pose proof (Z.log2_up_spec count ltac:(lia)) as [Hlt Hle].
  set (k := Z.log2_up count) in *. rewrite <-Z.sub_1_r in Hlt.
  assert (1 <= k) as Hk by (change 1 with (Z.log2_up 2); by apply Z.log2_up_le_mono).
  assert (2 ^ k = 2 * 2 ^ (k - 1)) as Hpow.
  { rewrite <-Z.pow_succ_r by lia. f_equal. lia. }
  destruct (Z.leb_spec (2 ^ k) u32_max) as [Hfit|Hfit]; simpl.
  - assert (2 ^ k / 2 = 2 ^ (k - 1)) as -> by (rewrite Hpow, Z.mul_comm; by apply Z.div_mul).
    split; [exists (k - 1); split; [lia|done]|]. lia.
  - split; [by exists 1|]. split; [lia|]. intros Hc. exfalso.
    assert (k <= 31) as Hk31.
    { change 31 with (Z.log2_up (2 ^ 31)). by apply Z.log2_up_le_mono. }
    assert (2 ^ k <= 2 ^ 31) by (apply Z.pow_le_mono_r; lia). unfold u32_max in *. lia.
Qed.

Lemma mortal_period_known_witness :
  mortal_period BlockHashCount = 2048 ∧ 2048 < BlockHashCount <= 2 * 2048.
Proof.
  split; [reflexivity|].
  apply (mortal_period_known BlockHashCount); [split; vm_compute; discriminate|].
  vm_compute. discriminate.
Defined.

(** ** [CreateSignedTransaction::create_transaction] *)

Section transaction.
Context {Call Public Account Signature Era Payload : Type}.

(** The members of [SignedExtra] that carry data: [CheckEra], [CheckNonce] and
    [ChargeTransactionPayment]. *)
Record SignedExtra : Type := mkSignedExtra {
  check_era : Era;
  check_nonce : Z;
  charge_tip : Z
}.

(** [generic::Era::mortal], [SignedPayload::{new, deconstruct}] and the signing
    of the encoded payload are Substrate's. *)
Context (Era_mortal : Z → Z → Era).
Context (SignedPayload_new : Call → SignedExtra → option Payload).
Context (deconstruct : Payload → Call * SignedExtra).
Context (sign : Payload → Public → option Signature).

Definition create_transaction (block_number : Z) (call : Call) (public : Public)
    (account : Account) (nonce : Z) : option (Call * (Account * Signature * SignedExtra)) :=
  let tip := 0 in
  let period := mortal_period BlockHashCount in
  let current_block := sat_sub block_number 1 in
  let era := Era_mortal period current_block in
  let extra := mkSignedExtra era nonce tip in
  raw_payload ← SignedPayload_new call extra;
  signature ← sign raw_payload public;
  let '(call, extra) := deconstruct raw_payload in
  Some (call, (account, signature, extra)).

(** A transaction is the given call, signed over exactly the extra it carries:
    the given nonce, no tip, and mortality from the block before. *)
Theorem create_transaction_signs block_number call public account nonce call' account'
    signature extra :
  (∀ c x p, SignedPayload_new c x = Some p → deconstruct p = (c, x)) →
  create_transaction block_number call public account nonce =
    Some (call', (account', signature, extra)) →
  call' = call ∧ account' = account ∧
  check_nonce extra = nonce ∧ charge_tip extra = 0 ∧
  check_era extra = Era_mortal 2048 (sat_sub block_number 1) ∧
  ∃ payload, SignedPayload_new call extra = Some payload ∧ sign payload public = Some signature.
Proof.
  intros Hnew. unfold create_transaction. change (mortal_period BlockHashCount) with 2048.
  set (x := mkSignedExtra _ _ _). cbv zeta.
  destruct (SignedPayload_new call x) as [p|] eqn:Hp; [|done]. simpl.
  destruct (sign p public) as [sig|] eqn:Hs; [|done]. simpl.
  rewrite (Hnew _ _ _ Hp). intros [= <- <- <- <-]. by eauto 10.
Qed.
End transaction.

(** ** [RuntimeBlockWeights] *)

Section weights.
Context `{!PerbillOps} `{!PerbillLaws}.

(** [frame_system::limits]: the builder and what it holds of a class. *)
Inductive DispatchClass : Type := Normal | Operational | Mandatory.

Record WeightsPerClass : Type := mkWeightsPerClass {
  base_extrinsic : Z;
  max_total : option Z;
  reserved : option Z
}.

Record BlockWeightsBuilder : Type := mkBlockWeightsBuilder {
  base_block : Z;
  per_class : DispatchClass → WeightsPerClass;
  init_cost : option Perbill
}.

Definition set_base_block (w : Z) (b : BlockWeightsBuilder) : BlockWeightsBuilder :=
  mkBlockWeightsBuilder w (per_class b) (init_cost b).
Definition for_class (classes : DispatchClass → bool)
    (action : WeightsPerClass → WeightsPerClass) (b : BlockWeightsBuilder) :
    BlockWeightsBuilder :=
  mkBlockWeightsBuilder (base_block b)
    (λ c, if classes c then action (per_class b c) else per_class b c) (init_cost b).
Definition avg_block_initialization (p : Perbill) (b : BlockWeightsBuilder) :
    BlockWeightsBuilder :=
  mkBlockWeightsBuilder (base_block b) (per_class b) (Some p).

Definition is_normal (c : DispatchClass) : bool := match c with Normal => true | _ => false end.
Definition is_operational (c : DispatchClass) : bool :=
  match c with Operational => true | _ => false end.

(** The weights of an empty block and of an empty extrinsic, and the weight of a
    second, are Substrate's; so is the initial builder. *)
Context (BlockExecutionWeight ExtrinsicBaseWeight WEIGHT_PER_SECOND : Z).
Context (builder : BlockWeightsBuilder).

Definition AVERAGE_ON_INITIALIZE_RATIO : Perbill := pb_from_percent 10.
Definition NORMAL_DISPATCH_RATIO : Perbill := pb_from_percent 75.
Definition MAXIMUM_BLOCK_WEIGHT : Z := WEIGHT_PER_SECOND / 2.

(** Everything up to [build_or_panic]. *)
Definition RuntimeBlockWeights : BlockWeightsBuilder :=
  avg_block_initialization AVERAGE_ON_INITIALIZE_RATIO
    (for_class is_operational (λ weights,
        mkWeightsPerClass (base_extrinsic weights) (Some MAXIMUM_BLOCK_WEIGHT)
          (Some (MAXIMUM_BLOCK_WEIGHT - pb_mul NORMAL_DISPATCH_RATIO MAXIMUM_BLOCK_WEIGHT)))
      (for_class is_normal (λ weights,
          mkWeightsPerClass (base_extrinsic weights)
            (Some (pb_mul NORMAL_DISPATCH_RATIO MAXIMUM_BLOCK_WEIGHT)) (reserved weights))
        (for_class (λ _, true) (λ weights,
            mkWeightsPerClass ExtrinsicBaseWeight (max_total weights) (reserved weights))
          (set_base_block BlockExecutionWeight builder)))).

(** The limits of the classes: normal extrinsics get three quarters of a block
    (up to the rounding of [Perbill]), and what is reserved for operational ones
    is exactly the rest; every extrinsic costs at least its base weight. *)
Theorem block_weights_split :
  0 <= WEIGHT_PER_SECOND →
  ∃ normal rest,
    max_total (per_class RuntimeBlockWeights Normal) = Some normal ∧
    max_total (per_class RuntimeBlockWeights Operational) = Some MAXIMUM_BLOCK_WEIGHT ∧
    reserved (per_class RuntimeBlockWeights Operational) = Some rest ∧
    0 <= normal ∧ 0 <= rest ∧ normal + rest = MAXIMUM_BLOCK_WEIGHT ∧
    Z.abs (4 * normal - 3 * MAXIMUM_BLOCK_WEIGHT) < 4 ∧
    ∀ c, base_extrinsic (per_class RuntimeBlockWeights c) = ExtrinsicBaseWeight.
Proof.
  intros Hw. assert (0 <= MAXIMUM_BLOCK_WEIGHT) as Hm by (by apply Z.div_pos).
  pose proof (pb_mul_le NORMAL_DISPATCH_RATIO _ Hm) as Hle.
  pose proof (pb_mul_rounds NORMAL_DISPATCH_RATIO _ Hm) as Hr.
  unfold NORMAL_DISPATCH_RATIO in Hr at 2. rewrite pb_from_percent_parts in Hr by lia.
  eexists _, _. split_and!; [reflexivity..|lia|lia|lia| |by intros []].
  unfold BILLION in Hr. lia.
Qed.

(** ** [WeightToFee] *)

(** The fee of an extrinsic of base weight is at most a tenth of the unit, up to
    one unit of the balance. *)
Theorem base_fee_at_most_tenth (unit : Z) c :
  0 <= unit → 0 < ExtrinsicBaseWeight →
  weight_to_fee_polynomial unit ExtrinsicBaseWeight = [c] →
  10 * (coeff_integer c * ExtrinsicBaseWeight + pb_mul (coeff_frac c) ExtrinsicBaseWeight)
    < unit + 10.
Proof.
  unfold weight_to_fee_polynomial. intros Hu Hw [= <-]. simpl.
  set (q := 10 * ExtrinsicBaseWeight).
  pose proof (Z.div_mod unit q ltac:(lia)) as Hdiv.
  pose proof (Z.mod_pos_bound unit q ltac:(lia)) as Hmod.
  pose proof (pb_from_rational_floor (unit mod q) q ltac:(lia) ltac:(lia)) as Hf.
  pose proof (pb_mul_rounds (pb_from_rational (unit mod q) q) ExtrinsicBaseWeight ltac:(lia)) as Hr.
  set (part := pb_deconstruct _) in *. set (f := pb_mul _ _) in *.
  assert (10 * (part * ExtrinsicBaseWeight) <= (unit mod q) * BILLION) by (unfold q in *; nia).
  unfold BILLION in *. assert (10 * f < unit mod q + 10) by lia. unfold q in *. nia.
Qed.

End weights.
