(* ===== verification/LocalRuntime.v ===== *)
(** * The local runtime

    runtime/local/src/lib.rs: the common wiring of [Runtime] with the constants
    and the call filter of [Local], and what the filter means there: a candidate
    cannot leave by its own call, and it stays a validator for a whole session
    period unless root withdraws it. *)

From S2P Require Export RuntimeTx.

Module LocalRuntime.
Section local.
Context {AccountId : Type} `{Countable AccountId}.
Context {MassbitId : Type} `{Countable MassbitId}.
Context {Imb L : Type} `{!Currency AccountId Imb L}.
Context `{!PerbillOps} `{!DbWeightOps} `{!PalletAccounts AccountId}.
#[local] Existing Instance Local.params.

Abbreviation StakingState := (Staking.State AccountId MassbitId L).
Abbreviation Chain := (@Runtime.Chain AccountId _ _ MassbitId _ _ L).
Abbreviation ValidatorState := (ValidatorSet.State AccountId Chain).
Abbreviation State := (BlockReward.State ValidatorState).

(** ** The pallets' configurations *)

Definition staking_config : StakingConfig AccountId := Runtime.staking_config.

Definition on_project_payment (amount : Imb) (s : StakingState) : StakingState :=
  Runtime.on_project_payment amount s.

Definition dapi_config : DapiConfig Imb StakingState := Runtime.dapi_config.

Definition validator_set_config : ValidatorSetConfig AccountId AccountId Chain :=
  Runtime.validator_set_config.

Definition to_validator_pot (amount : Imb) (e : ValidatorState) : ValidatorState :=
  Runtime.to_validator_pot amount e.

Definition payout_to_validators (reward : Imb) (e : ValidatorState) : ValidatorState :=
  Runtime.payout_to_validators reward e.
Definition payout_to_providers (reward : Imb) (e : ValidatorState) : ValidatorState :=
  Runtime.payout_to_providers reward e.

Definition block_reward_config : BlockRewardConfig Imb ValidatorState :=
  Runtime.block_reward_config.

(** ** Calls, hooks and genesis *)

Section calls.
Context {FrameCall : Type}.
Context (frame_dispatch : FrameCall → Origin AccountId → M DispatchError State unit).
Abbreviation Call := (RuntimeCall AccountId MassbitId FrameCall).

Definition dispatch_call (c : Call) (origin : Origin AccountId) : M DispatchError State unit :=
  Runtime.dispatch_call frame_dispatch c origin.
Definition dispatch (c : Call) (origin : Origin AccountId) : M DispatchError State unit :=
  Runtime.dispatch frame_dispatch Local.contains c origin.
End calls.

Definition staking_on_initialize (n : Z) : M DispatchError State Z :=
  Runtime.staking_on_initialize n.
Definition note_author (author : AccountId) : M DispatchError State unit :=
  Runtime.note_author author.
Definition new_session (index : Z) : M DispatchError State (option (list AccountId)) :=
  Runtime.new_session index.
Definition on_timestamp_set : M DispatchError State unit := Runtime.on_timestamp_set.

Definition genesis_build (config : Runtime.GenesisConfig AccountId) (l : L)
    (registered : AccountId → bool) : option State :=
  Runtime.genesis_build config l registered.

(** ** Fees *)

Definition deal_with_fees (fees_then_tips : list Imb) (e : ValidatorState) : ValidatorState :=
  Runtime.deal_with_fees fees_then_tips e.

Definition weight_to_fee_polynomial (ExtrinsicBaseWeight : Z) :
    list Runtime.WeightToFeeCoefficient :=
  Runtime.weight_to_fee_polynomial Local.MILLIMBTL ExtrinsicBaseWeight.

Definition AVERAGE_ON_INITIALIZE_RATIO : Perbill := RuntimeTx.AVERAGE_ON_INITIALIZE_RATIO.
Definition NORMAL_DISPATCH_RATIO : Perbill := RuntimeTx.NORMAL_DISPATCH_RATIO.
Definition MAXIMUM_BLOCK_WEIGHT (WEIGHT_PER_SECOND : Z) : Z :=
  RuntimeTx.MAXIMUM_BLOCK_WEIGHT WEIGHT_PER_SECOND.
Definition BlockHashCount : Z := RuntimeTx.BlockHashCount.

Definition RuntimeBlockWeights (BlockExecutionWeight ExtrinsicBaseWeight WEIGHT_PER_SECOND : Z)
    (builder : BlockWeightsBuilder) : BlockWeightsBuilder :=
  RuntimeTx.RuntimeBlockWeights BlockExecutionWeight ExtrinsicBaseWeight WEIGHT_PER_SECOND builder.

End local.

(** ** Transactions of off-chain workers *)

Definition create_transaction {Call Public Account Signature Era Payload : Type}
    (Era_mortal : Z → Z → Era) (SignedPayload_new : Call → SignedExtra → option Payload)
    (deconstruct : Payload → Call * SignedExtra) (sign : Payload → Public → option Signature)
    (block_number : Z) (call : Call) (public : Public) (account : Account) (nonce : Z) :
    option (Call * (Account * Signature * SignedExtra)) :=
  RuntimeTx.create_transaction Era_mortal SignedPayload_new deconstruct sign
    block_number call public account nonce.

End LocalRuntime.

(** ** Candidates on the local runtime *)

Section candidates.
Context {AccountId : Type} `{Countable AccountId}.
Context {MassbitId : Type} `{Countable MassbitId}.
Context {Imb L : Type} `{!Currency AccountId Imb L} `{!CurrencyLaws AccountId Imb L}.
Context `{!PerbillOps} `{!PerbillLaws} `{!DbWeightOps} `{!PalletAccounts AccountId}.
#[local] Existing Instance Local.params.
Import Runtime.

Abbreviation Chain := (@Chain AccountId _ _ MassbitId _ _ L).
Abbreviation State := (BlockReward.State (ValidatorSet.State AccountId Chain)).
Implicit Types s : State.
Context {FrameCall : Type}.
Context (frame_dispatch : FrameCall → Origin AccountId → M DispatchError State unit).

Context (past_filter : RuntimeCall AccountId MassbitId FrameCall → Origin AccountId → Prop).

Abbreviation local_reachable := (runtime_reachable frame_dispatch Local.contains past_filter).

(** A step within one session period after block [h]. *)
Definition period_step (h : Z) s s' : Prop :=
  runtime_step frame_dispatch Local.contains past_filter s s' ∧
  h <= number (chain s') < h + Local.SessionPeriod.

(** [a] is a candidate that is not stale before [h + SessionPeriod]. *)
Definition fresh_candidate (h : Z) (a : AccountId) s : Prop :=
  a ∈ who <$> candidates s ∧ h <= ValidatorSet.last_authored (BlockReward.env s) a.

Lemma fresh_same h a s s' :
  candidates s' = candidates s →
  ValidatorSet.LastAuthoredBlock (BlockReward.env s') =
    ValidatorSet.LastAuthoredBlock (BlockReward.env s) →
  fresh_candidate h a s → fresh_candidate h a s'.
Proof. unfold fresh_candidate, ValidatorSet.last_authored. by intros -> ->. Qed.

(** Within the period a session change keeps the candidate. *)
Lemma fresh_kept h a n s :
  runtime_inv s → h <= number (chain s) < h + Local.SessionPeriod → fresh_candidate h a s →
  ∃ validators s', new_session n s = (Ok (Some validators), s') ∧ a ∈ validators ∧
    fresh_candidate h a s'.
Proof.
  intros Hi Hn [Ha Hh]. pose proof (rt_validators _ Hi) as Hv.
  destruct (new_session_run n _ Hv) as (e' & Hrun & _ & Hc & _ & s1 & w & Hrm & ->).
  set (kept := drop_stale _ _ _) in *.
  assert (a ∈ who <$> kept) as Hkept.
  { apply list_elem_of_fmap in Ha as (c & -> & Hc'). apply list_elem_of_fmap_2.
    apply drop_stale_keeps; [done|]. unfold stale. apply Z.leb_gt.
    change KickThreshold with Local.SessionPeriod.
    change (block_number (ValidatorSet.env (BlockReward.env s))) with (number (chain s)).
    unfold sat_sub. lia. }
  eexists _, _. split; [unfold new_session, zoom; by rewrite Hrun|].
  split; [by apply elem_of_app; right|]. split; [unfold candidates; simpl in *; by rewrite Hc|].
  simpl in *. etrans; [exact Hh|]. apply Z.eq_le_incl. symmetry.
  apply (removals_keep _ s1); [done|done|by rewrite Hc].
Qed.

Lemma fresh_call h a c origin s s' :
  call_runs frame_dispatch Local.contains past_filter c origin s s' →
  ¬ past_filter (CallValidatorSet leave_intent_call) (Signed a) →
  rt_call_ok c → fresh_candidate h a s → fresh_candidate h a s'.
Proof.
  intros [Hadm Hd]%call_runs_Ok Hstay Hok. destruct c as [c|c|c|[config]|c]; simpl in Hd; [| | | |done].
  - apply zoom_Ok in Hd as (e & Hd & ->). destruct c; simpl in *.
    + apply set_invulnerables_Ok in Hd as (_ & ->). by apply fresh_same.
    + apply set_desired_candidates_Ok in Hd as (_ & ->). by apply fresh_same.
    + apply set_candidacy_bond_Ok in Hd as (_ & ->). by apply fresh_same.
    + apply register_as_candidate_Ok in Hd as (b & lg & -> & _ & _ & Hb & _ & ->).
      intros [Ha Hh]. split; [unfold candidates; simpl; rewrite fmap_app; by apply elem_of_app; left|].
      unfold ValidatorSet.last_authored. simpl. rewrite lookup_insert_ne; [done|].
      intros ->. by apply Hb.
    + apply leave_intent_Ok in Hd as (k & c & todo & -> & _ & Hc & _ & ->).
      intros [Ha Hh]. assert (a ≠ who c) as Hne by (intros ->; naive_solver).
      split; [|etrans; [exact Hh|]; apply Z.eq_le_incl; symmetry; by apply last_authored_removed].
      unfold candidates in *. rewrite Hc, fmap_app, fmap_cons in Ha. simpl. rewrite fmap_app.
      set_solver.
  - apply zoom_Ok in Hd as (d & _ & ->). by apply fresh_same.
  - apply zoom_Ok in Hd as (st & _ & ->). by apply fresh_same.
  - unfold BlockReward.set_config in Hd. destruct origin; [|done..].
    destruct (is_valid config); [|done]. apply (f_equal snd) in Hd. simpl in Hd. subst s'.
    by apply fresh_same.
Qed.

Lemma fresh_step h a s s' :
  period_step h s s' → ¬ past_filter (CallValidatorSet leave_intent_call) (Signed a) →
  runtime_inv s → h <= number (chain s) < h + Local.SessionPeriod →
  fresh_candidate h a s → fresh_candidate h a s'.
Proof.
  intros [Hstep _] Hstay Hi Hn Hfr.
  destruct Hstep as [c origin Hd Hok _ _|n w Hr _|author _ Hr|n r Hr|Hr _|ft ->|lg n reg ws _ ->].
  - by eapply fresh_call.
  - apply zoom_Ok in Hr as (st & _ & ->). by apply (fresh_same _ _ s).
  - apply zoom_Ok in Hr as (e & Hr & ->). rewrite note_author_run in Hr.
    apply (f_equal snd) in Hr. simpl in Hr. subst e. destruct Hfr as [Ha Hh].
    split; [done|]. unfold ValidatorSet.last_authored in *. simpl.
    destruct (decide (author = a)) as [->|Hne].
    + rewrite lookup_insert_eq. simpl. destruct (transfer _ _ _ _ _) as [[[] l]|]; apply Hn.
    + by rewrite lookup_insert_ne.
  - destruct (fresh_kept h a n s Hi Hn Hfr) as (v & s1 & Hrun & _ & Hfr').
    rewrite Hr in Hrun. by simplify_eq.
  - destruct (BlockReward.on_timestamp_set_run s) as (i & l & vi & pi & _ & _ & Hrun).
    unfold on_timestamp_set in Hr. rewrite Hrun in Hr. apply (f_equal snd) in Hr.
    cbn [snd] in Hr. subst s'. apply (fresh_same _ _ s); [| |done];
      unfold payout_providers, payout_validators; simpl;
      unfold payout_to_validators, on_unbalanced; by case_match.
  - apply (fresh_same _ _ s); [| |done]; simpl;
      by destruct (deal_with_fees_moves ft (BlockReward.env s)) as (lg & -> & _).
  - by apply (fresh_same _ _ s).
Qed.

(** C36: On the local runtime a candidacy lasts: an account that has registered
    as a candidate is a validator of every session that changes in the blocks of
    the following session period, and is still a candidate after each of these
    changes: its deposit is not released.  In between anything may happen, root's
    calls included (its own and those it makes in other accounts' names past the
    call filter), slashing session changes, rewards, fees, except that root calls
    [leave_intent] in the name of this very account; the account's own
    [leave_intent] is refused by the filter. *)
Theorem local_candidate_validates s s1 s2 a n :
  local_reachable s → a ≠ account_id → supply_ok (ledger_of s1) →
  ¬ past_filter (CallValidatorSet leave_intent_call) (Signed a) →
  LocalRuntime.dispatch frame_dispatch (CallValidatorSet register_as_candidate_call)
    (Signed a) s = (Ok tt, s1) →
  0 <= number (chain s) <= u32_max - Local.SessionPeriod →
  rtc (period_step (number (chain s))) s1 s2 →
  LocalRuntime.dispatch frame_dispatch (CallValidatorSet leave_intent_call) (Signed a) s2 =
    (Err CallFiltered, s2) ∧
  ∃ validators s3, LocalRuntime.new_session n s2 = (Ok (Some validators), s3) ∧
    a ∈ validators ∧ a ∈ who <$> candidates s3.
Proof.
  intros Hs Hne Hsup Hstay Hd Hn Hrtc. split; [done|].
  apply runtime_reachable_inv in Hs as Hi.
  assert (runtime_inv s1) as Hi1.
  { eapply (runtime_step_inv _ _ past_filter); [|exact Hi]. eapply rt_step_call; [left; exact Hd|done| |done].
    by intros [= ->]. }
  unfold LocalRuntime.dispatch, Runtime.dispatch in Hd. simpl in Hd.
  apply zoom_Ok in Hd as (e & (b & lg & [= <-] & _ & _ & _ & _ & ->)%register_as_candidate_Ok & ->).
  set (h := number (chain s)) in *. assert (Local.SessionPeriod = 10) as Hp by done.
  set (s1 := BlockReward.set_env _ s) in *.
  assert (fresh_candidate h a s1) as Hf1.
  { split; [unfold candidates; simpl; rewrite fmap_app; by apply elem_of_app; right; left|].
    unfold ValidatorSet.last_authored. simpl. rewrite lookup_insert_eq. simpl.
    rewrite u32_add_small; change (rt_SessionPeriod) with Local.SessionPeriod;
      change (number (ValidatorSet.env (BlockReward.env s))) with h; lia. }
  assert (h <= number (chain s1) < h + Local.SessionPeriod) as Hn1.
  { change (number (chain s1)) with h. lia. }
  clearbody s1. clear Hsup. induction Hrtc as [s'|s' s2 s3 Hst _ IH].
  - destruct (fresh_kept h a n s' Hi1 Hn1 Hf1) as (v & s3 & Hrun & Hin & [Hc _]). by eauto.
  - apply IH.
    + by eapply runtime_step_inv; [apply Hst|].
    + by eapply fresh_step.
    + apply Hst.
Qed.

End candidates.
