(* ===== verification/NodeCli.v ===== *)
(** * The node's choice of a runtime

    node/src/command.rs and node/src/cli.rs: which chain specification an id
    loads, which native runtime version is reported for it and which runtime a
    subcommand runs.  Parsing a specification file is [sc_service]'s and a
    parameter. *)

From S2P Require Export ChainSpec.

Module NodeCli.

(** [sc_service::ChainType], the cases the specifications use. *)
Inductive ChainType : Type := Development | Live | OtherType (name : string).

(** What the command line looks at of a [Box<dyn ChainSpec>]. *)
Record Spec : Type := mkSpec {
  name : string;
  id : string;
  chain_type : ChainType
}.

Definition local_spec : Spec := mkSpec "Development" "dev" Development.
Definition keiko_spec : Spec := mkSpec "Keiko" "keiko" Live.

(** [IdentifyChain]; [starts_with] is [String.prefix]. *)
Definition is_dev (spec : Spec) : bool := String.prefix "dev" (id spec).
Definition is_keiko (spec : Spec) : bool := String.prefix "keiko" (id spec).

(** [KeikoChainSpec::from_json_bytes] on res/keiko.raw.json, and
    [KeikoChainSpec::from_json_file]. *)
Section load.
Context (embedded : result string Spec) (from_json_file : string → result string Spec).

Definition load_spec (chain : string) : result string Spec :=
  if (chain =? "dev")%string then Ok local_spec
  else if (chain =? "keiko-dev")%string then Ok keiko_spec
  else if (chain =? "keiko")%string then embedded
  else from_json_file chain.
End load.

(** The two runtimes, and [VERSION] of each. *)
Inductive RuntimeKind : Type := KeikoRuntime | LocalRuntime.

Record RuntimeVersion : Type := mkRuntimeVersion {
  spec_name : string;
  impl_name : string;
  authoring_version : Z;
  spec_version : Z;
  impl_version : Z;
  transaction_version : Z;
  state_version : Z
}.

Definition keiko_VERSION : RuntimeVersion := mkRuntimeVersion "keiko" "keiko" 1 1 1 1 1.
Definition local_VERSION : RuntimeVersion :=
  mkRuntimeVersion "massbit-local" "massbit-local" 1 1 1 1 1.

Definition version_of (r : RuntimeKind) : RuntimeVersion :=
  match r with KeikoRuntime => keiko_VERSION | LocalRuntime => local_VERSION end.

Definition native_runtime_version (spec : Spec) : RuntimeVersion :=
  if is_dev spec then local_VERSION else keiko_VERSION.

(** [Subcommand] of node/src/cli.rs, and the cases of [BenchmarkCmd]. *)
Inductive BenchmarkCmd : Type := Pallet | Block | Storage | Overhead | Machine.
Inductive Subcommand : Type :=
| BuildSpec | CheckBlock | Key | Sign | Verify | Vanity | Benchmark (cmd : BenchmarkCmd).

(** What [run] does: work on the specification or the keys only, run a command
    or a node with one of the runtimes, or refuse. *)
Inductive Outcome : Type :=
| WithoutRuntime
| CommandWith (r : RuntimeKind)
| NodeWith (r : RuntimeKind)
| Refused (message : string).

Definition run (subcommand : option Subcommand) (spec : Spec) : Outcome :=
  match subcommand with
  | Some BuildSpec => WithoutRuntime
  | Some CheckBlock => if is_keiko spec then CommandWith KeikoRuntime else CommandWith LocalRuntime
  | Some Key | Some Sign | Some Verify | Some Vanity => WithoutRuntime
  | Some (Benchmark cmd) =>
      match cmd with
      | Pallet => if is_keiko spec then CommandWith KeikoRuntime else CommandWith LocalRuntime
      | Block => Refused "Benchmark block not supported."
      | Storage => Refused "Benchmark storage not supported."
      | Overhead => Refused "Benchmark overhead not supported."
      | Machine => WithoutRuntime
      end
  | None => if is_keiko spec then NodeWith KeikoRuntime else NodeWith LocalRuntime
  end.

(** The runtime an outcome executes. *)
Definition executes (o : Outcome) : option RuntimeKind :=
  match o with CommandWith r | NodeWith r => Some r | _ => None end.

(** ** Properties *)

Lemma dev_not_keiko spec : is_dev spec = true → is_keiko spec = false.
Proof.
  unfold is_dev, is_keiko. destruct (id spec) as [|c s]; [done|]. simpl.
  case_match; [by subst|done].
Qed.

(** The node starts and the native version it reports belong to one runtime
    exactly for the chains whose id begins with "dev" or "keiko" (any other
    custom id is reported as Keiko and run with the local runtime); every
    subcommand that executes a runtime executes the one the node would start;
    and all built-in specifications, the embedded one under its own id
    included, are consistent. *)
Theorem reported_version_is_executed :
  (∀ spec sub r, executes (run sub spec) = Some r →
     run None spec = NodeWith r ∧
     (native_runtime_version spec = version_of r ↔ is_dev spec = true ∨ is_keiko spec = true)) ∧
  (∀ embedded from_json_file chain spec,
     chain ∈ ["dev"%string; "keiko-dev"%string] ∨
       chain = "keiko"%string ∧ (∀ e, embedded = Ok e → id e = "keiko"%string) →
     load_spec embedded from_json_file chain = Ok spec →
     ∃ r, run None spec = NodeWith r ∧ native_runtime_version spec = version_of r).
Proof.
  assert (∀ spec r, run None spec = NodeWith r →
    (native_runtime_version spec = version_of r ↔ is_dev spec = true ∨ is_keiko spec = true))
    as Hnode.
  { intros spec r. simpl. unfold native_runtime_version. pose proof (dev_not_keiko spec) as Hdk.
    destruct (is_keiko spec); intros [= <-]; simpl.
    - destruct (is_dev spec); [by specialize (Hdk eq_refl)|]. naive_solver.
    - destruct (is_dev spec); naive_solver. }
  split.
  - intros spec sub r Hr. assert (run None spec = NodeWith r) as Hrun.
    { destruct sub as [[| | | | | |[]]|]; simpl in *; try done;
        destruct (is_keiko spec); simpl in Hr; by injection Hr as ->. }
    split; [done|by apply Hnode].
  - intros embedded file chain spec Hchain Hload.
    assert (is_dev spec = true ∨ is_keiko spec = true) as Hid.
    { unfold load_spec in Hload.
      destruct Hchain as [[->|[->|[]%elem_of_nil]%elem_of_cons]%elem_of_cons|[-> Hemb]];
        simpl in Hload.
      - injection Hload as <-. by left.
      - injection Hload as <-. by right.
      - right. unfold is_keiko. by rewrite (Hemb spec). }
    destruct (run None spec) eqn:Hrun; simpl in Hrun; try (by destruct (is_keiko spec)).
    exists r. split; [done|]. by apply Hnode.
Qed.

(** A custom chain: reported as Keiko, run with the local runtime. *)
Example custom_chain_mismatch :
  let spec := mkSpec "My chain" "my-chain" Live in
  native_runtime_version spec = keiko_VERSION ∧ run None spec = NodeWith LocalRuntime.
Proof. by vm_compute. Qed.

End NodeCli.
