(* ===== verification/RuntimeConfig.v ===== *)
(** * The configurations of Substrate's pallets

    runtime/{keiko,local}/src/lib.rs: what the runtimes give to the pallets of
    Substrate ([impl pallet_x::Config for Runtime]).  [Module pallet_x] holds the
    members that are values or handlers, under their own names; members that
    only name types ([Event], [Hash], the weights, ...) are left out.  The
    definitions of [Module KeikoConfig] and [Module LocalConfig] are the two
    runtimes' implementations. *)

From S2P Require Export LocalRuntime NodeCli.

(** ** The traits *)

Module frame_system.
Record Config {Call AccountId S BlockLength Version : Type} `{PerbillOps} : Type := mkConfig {
  BaseCallFilter : Call → bool;
  BlockWeights : BlockWeightsBuilder;
  BlockLength_ : BlockLength;
  BlockHashCount : Z;
  Version_ : Version;
  OnNewAccount : AccountId → S → S;
  OnKilledAccount : AccountId → S → S;
  SS58Prefix : Z;
  MaxConsumers : Z
}.
Arguments Config Call AccountId S BlockLength Version {_}.
End frame_system.

Module pallet_timestamp.
Record Config {S : Type} : Type := mkConfig {
  OnTimestampSet : M DispatchError S unit;
  MinimumPeriod : Z
}.
Arguments Config S : clear implicits.
End pallet_timestamp.

Module pallet_identity.
Record Config {AccountId Imb S : Type} : Type := mkConfig {
  BasicDeposit : Z;
  FieldDeposit : Z;
  SubAccountDeposit : Z;
  MaxSubAccounts : Z;
  MaxAdditionalFields : Z;
  MaxRegistrars : Z;
  Slashed : Imb → S → S;
  ForceOrigin : Origin AccountId → bool;
  RegistrarOrigin : Origin AccountId → bool
}.
Arguments Config AccountId Imb S : clear implicits.
End pallet_identity.

Module pallet_balances.
Record Config {Imb S : Type} : Type := mkConfig {
  DustRemoval : Imb → S → S;
  ExistentialDeposit : Z;
  MaxLocks : Z;
  MaxReserves : Z
}.
Arguments Config Imb S : clear implicits.
End pallet_balances.

Module pallet_transaction_payment.
Record Config {Imb S Multiplier Perquintill : Type} `{PerbillOps} : Type := mkConfig {
  (** [CurrencyAdapter<Balances, OU>]: the handler [OU] of fees and tips *)
  OnChargeTransaction : list Imb → S → S;
  OperationalFeeMultiplier : Z;
  WeightToFee : list Runtime.WeightToFeeCoefficient;
  (** [ConstantMultiplier<Balance, M>]: the factor [M] *)
  LengthToFee : Z;
  (** [TargetedFeeAdjustment<Self, S, V, M>]: the arguments [S], [V] and [M] *)
  FeeMultiplierUpdate : Perquintill * Multiplier * Multiplier
}.
Arguments Config Imb S Multiplier Perquintill {_}.
End pallet_transaction_payment.

Module pallet_aura.
Record Config : Type := mkConfig {
  MaxAuthorities : Z;
  (** [DisabledValidators::is_disabled] *)
  DisabledValidators : Z → bool
}.
End pallet_aura.

Module pallet_authorship.
Record Config {AccountId S : Type} : Type := mkConfig {
  UncleGenerations : Z;
  (** [EventHandler::{note_author, note_uncle}] *)
  note_author : AccountId → M DispatchError S unit;
  note_uncle : AccountId → Z → M DispatchError S unit
}.
Arguments Config AccountId S : clear implicits.
End pallet_authorship.

Module pallet_grandpa.
Record Config {Proof : Type} : Type := mkConfig {
  (** [KeyOwnerProofSystem::prove] *)
  prove : Z → option Proof;
  MaxAuthorities : Z
}.
Arguments Config Proof : clear implicits.
End pallet_grandpa.

Module pallet_session.
Record Config {AccountId S : Type} : Type := mkConfig {
  ValidatorIdOf : AccountId → option AccountId;
  (** [PeriodicSessions<Period, Offset>], for [ShouldEndSession] and
      [NextSessionRotation] *)
  Period : Z;
  Offset : Z;
  (** [SessionManager::{new_session, end_session, start_session}] *)
  new_session : Z → M DispatchError S (option (list AccountId));
  end_session : Z → M DispatchError S unit;
  start_session : Z → M DispatchError S unit
}.
Arguments Config AccountId S : clear implicits.
End pallet_session.

(** [()] as a handler: an imbalance is dropped, an event is ignored; as a
    number it is the default, zero; as a key owner proof system it proves
    nothing. *)
Definition drops {AccountId Imb L S : Type} `{!Currency AccountId Imb L} `{!HasLedger S L}
    (i : Imb) (s : S) : S :=
  put_ledger (drop_imbalance (AccountId := AccountId) i (get_ledger s)) s.
Definition ignores {A S : Type} (_ : A) (s : S) : S := s.
Definition no_number : Z := 0.
Definition proves_nothing {Proof : Type} (_ : Z) : option Proof := None.
Definition none_disabled (_ : Z) : bool := false.

(** ** The runtimes

    Generators and number formats of Substrate are parameters: the limits of a
    block built from a maximal length and a ratio, fixed point numbers. *)

Module KeikoConfig.
Import Keiko.
Section config.
Context {AccountId : Type} `{Countable AccountId}.
Context {MassbitId : Type} `{Countable MassbitId}.
Context {Imb L : Type} `{!Currency AccountId Imb L}.
Context `{!PerbillOps} `{!DbWeightOps} `{!PalletAccounts AccountId}.
#[local] Existing Instance Keiko.params.
Context {FrameCall BlockLength Multiplier Perquintill : Type}.
Context (max_with_normal_ratio : Z → Perbill → BlockLength).
Context (saturating_from_rational : Z → Z → Multiplier) (from_percent : Z → Perquintill).
Context (ExtrinsicBaseWeight BlockExecutionWeight WEIGHT_PER_SECOND : Z).
Context (builder : BlockWeightsBuilder).

Abbreviation Chain := (@Runtime.Chain AccountId _ _ MassbitId _ _ L).
Abbreviation ValidatorState := (ValidatorSet.State AccountId Chain).
Abbreviation State := (BlockReward.State ValidatorState).
Abbreviation Call := (RuntimeCall AccountId MassbitId FrameCall).

(** [RuntimeBlockLength]: five megabytes *)
Definition RuntimeBlockLength : BlockLength :=
  max_with_normal_ratio (5 * 1024 * 1024) NORMAL_DISPATCH_RATIO.
Definition SS58Prefix : Z := 42.

Definition system_config :
    frame_system.Config Call AccountId State BlockLength NodeCli.RuntimeVersion :=
  frame_system.mkConfig _ _ _ _ _ _
    Keiko.contains
    (RuntimeBlockWeights BlockExecutionWeight ExtrinsicBaseWeight WEIGHT_PER_SECOND builder)
    RuntimeBlockLength BlockHashCount NodeCli.keiko_VERSION ignores ignores SS58Prefix 16.

Definition MinimumPeriod : Z := MILLISECS_PER_BLOCK / 2.

Definition timestamp_config : pallet_timestamp.Config State :=
  pallet_timestamp.mkConfig _ Runtime.on_timestamp_set MinimumPeriod.

Definition BasicDeposit : Z := 10 * KEI.
Definition FieldDeposit : Z := 25 * MILLIKEI.
Definition SubAccountDeposit : Z := 2 * KEI.
Definition MaxSubAccounts : Z := 100.
Definition MaxAdditionalFields : Z := 100.
Definition MaxRegistrars : Z := 20.

Definition identity_config : pallet_identity.Config AccountId Imb ValidatorState :=
  pallet_identity.mkConfig _ _ _ BasicDeposit FieldDeposit SubAccountDeposit MaxSubAccounts
    MaxAdditionalFields MaxRegistrars
    (drops (AccountId := AccountId)) Runtime.EnsureRoot Runtime.EnsureRoot.

Definition MaxLocks : Z := 50.

Definition balances_config : pallet_balances.Config Imb ValidatorState :=
  pallet_balances.mkConfig _ _ (drops (AccountId := AccountId)) ExistentialDeposit MaxLocks
    no_number.

Definition TransactionByteFee : Z := MILLIKEI / 100.
Definition TargetBlockFullness : Perquintill := from_percent 25.
Definition OperationalFeeMultiplier : Z := 5.
Definition AdjustmentVariable : Multiplier := saturating_from_rational 1 100_000.
Definition MinimumMultiplier : Multiplier := saturating_from_rational 1 1_000_000_000.

Definition transaction_payment_config :
    pallet_transaction_payment.Config Imb ValidatorState Multiplier Perquintill :=
  pallet_transaction_payment.mkConfig _ _ _ _ _ Runtime.deal_with_fees OperationalFeeMultiplier
    (Runtime.weight_to_fee_polynomial MILLIKEI ExtrinsicBaseWeight) TransactionByteFee
    (TargetBlockFullness, AdjustmentVariable, MinimumMultiplier).

Definition MaxAuthorities : Z := 250.

Definition aura_config : pallet_aura.Config :=
  pallet_aura.mkConfig MaxAuthorities none_disabled.

Definition UncleGenerations : Z := 5.

Definition authorship_config : pallet_authorship.Config AccountId State :=
  pallet_authorship.mkConfig _ _ UncleGenerations Runtime.note_author
    (λ author age, Runtime.zoom BlockReward.env BlockReward.set_env
                     (ValidatorSet.note_uncle author age)).

Definition grandpa_config {Proof} : pallet_grandpa.Config Proof :=
  pallet_grandpa.mkConfig _ proves_nothing MaxAuthorities.

Definition SessionOffset : Z := 0.

Definition session_config : pallet_session.Config AccountId State :=
  pallet_session.mkConfig _ _ Runtime.IdentityValidator SessionPeriod SessionOffset
    Runtime.new_session
    (λ i, Runtime.zoom BlockReward.env BlockReward.set_env (ValidatorSet.end_session i))
    (λ i, Runtime.zoom BlockReward.env BlockReward.set_env (ValidatorSet.start_session i)).

End config.
End KeikoConfig.

Module LocalConfig.
Import Local.
Section config.
Context {AccountId : Type} `{Countable AccountId}.
Context {MassbitId : Type} `{Countable MassbitId}.
Context {Imb L : Type} `{!Currency AccountId Imb L}.
Context `{!PerbillOps} `{!DbWeightOps} `{!PalletAccounts AccountId}.
#[local] Existing Instance Local.params.
Context {FrameCall BlockLength Multiplier Perquintill : Type}.
Context (max_with_normal_ratio : Z → Perbill → BlockLength).
Context (saturating_from_rational : Z → Z → Multiplier) (from_percent : Z → Perquintill).
Context (ExtrinsicBaseWeight BlockExecutionWeight WEIGHT_PER_SECOND : Z).
Context (builder : BlockWeightsBuilder).

Abbreviation Chain := (@Runtime.Chain AccountId _ _ MassbitId _ _ L).
Abbreviation ValidatorState := (ValidatorSet.State AccountId Chain).
Abbreviation State := (BlockReward.State ValidatorState).
Abbreviation Call := (RuntimeCall AccountId MassbitId FrameCall).

(** [RuntimeBlockLength]: five megabytes *)
Definition RuntimeBlockLength : BlockLength :=
  max_with_normal_ratio (5 * 1024 * 1024) NORMAL_DISPATCH_RATIO.
Definition SS58Prefix : Z := 42.

Definition system_config :
    frame_system.Config Call AccountId State BlockLength NodeCli.RuntimeVersion :=
  frame_system.mkConfig _ _ _ _ _ _
    Local.contains
    (RuntimeBlockWeights BlockExecutionWeight ExtrinsicBaseWeight WEIGHT_PER_SECOND builder)
    RuntimeBlockLength BlockHashCount NodeCli.local_VERSION ignores ignores SS58Prefix 16.

Definition MinimumPeriod : Z := MILLISECS_PER_BLOCK / 2.

Definition timestamp_config : pallet_timestamp.Config State :=
  pallet_timestamp.mkConfig _ Runtime.on_timestamp_set MinimumPeriod.

Definition BasicDeposit : Z := 10 * MBTL.
Definition FieldDeposit : Z := 25 * MILLIMBTL.
Definition SubAccountDeposit : Z := 2 * MBTL.
Definition MaxSubAccounts : Z := 100.
Definition MaxAdditionalFields : Z := 100.
Definition MaxRegistrars : Z := 20.

Definition identity_config : pallet_identity.Config AccountId Imb ValidatorState :=
  pallet_identity.mkConfig _ _ _ BasicDeposit FieldDeposit SubAccountDeposit MaxSubAccounts
    MaxAdditionalFields MaxRegistrars
    (drops (AccountId := AccountId)) Runtime.EnsureRoot Runtime.EnsureRoot.

Definition MaxLocks : Z := 50.

Definition balances_config : pallet_balances.Config Imb ValidatorState :=
  pallet_balances.mkConfig _ _ (drops (AccountId := AccountId)) ExistentialDeposit MaxLocks
    no_number.

Definition TransactionByteFee : Z := MILLIMBTL / 100.
Definition TargetBlockFullness : Perquintill := from_percent 25.
Definition OperationalFeeMultiplier : Z := 5.
Definition AdjustmentVariable : Multiplier := saturating_from_rational 1 100_000.
Definition MinimumMultiplier : Multiplier := saturating_from_rational 1 1_000_000_000.

Definition transaction_payment_config :
    pallet_transaction_payment.Config Imb ValidatorState Multiplier Perquintill :=
  pallet_transaction_payment.mkConfig _ _ _ _ _ Runtime.deal_with_fees OperationalFeeMultiplier
    (Runtime.weight_to_fee_polynomial MILLIMBTL ExtrinsicBaseWeight) TransactionByteFee
    (TargetBlockFullness, AdjustmentVariable, MinimumMultiplier).

Definition MaxAuthorities : Z := 250.

Definition aura_config : pallet_aura.Config :=
  pallet_aura.mkConfig MaxAuthorities none_disabled.

Definition UncleGenerations : Z := 5.

Definition authorship_config : pallet_authorship.Config AccountId State :=
  pallet_authorship.mkConfig _ _ UncleGenerations Runtime.note_author
    (λ author age, Runtime.zoom BlockReward.env BlockReward.set_env
                     (ValidatorSet.note_uncle author age)).

Definition grandpa_config {Proof} : pallet_grandpa.Config Proof :=
  pallet_grandpa.mkConfig _ proves_nothing MaxAuthorities.

Definition SessionOffset : Z := 0.

Definition session_config : pallet_session.Config AccountId State :=
  pallet_session.mkConfig _ _ Runtime.IdentityValidator SessionPeriod SessionOffset
    Runtime.new_session
    (λ i, Runtime.zoom BlockReward.env BlockReward.set_env (ValidatorSet.end_session i))
    (λ i, Runtime.zoom BlockReward.env BlockReward.set_env (ValidatorSet.start_session i)).

End config.
End LocalConfig.
