(* ===== verification/RuntimeApi.v ===== *)
(** * The runtime APIs

    runtime/{keiko,local}/src/lib.rs, [impl_runtime_apis!]: what the node can ask
    the runtime.  The functions of Substrate behind the methods ([Executive],
    [Aura], [Grandpa], ...) are parameters, as runs over the storage; the table
    of methods and the benchmark dispatcher are the repository's. *)

From S2P Require Export RuntimeConfig.

Section api.
(** The storage, and the data of Substrate the methods exchange. *)
Context {St Block Header Extrinsic Hash Source Validity ApplyResult : Type}.
Context {InherentData CheckResult Metadata AuraId GrandpaId KeyTypeId : Type}.
Context {EquivocationProof OwnershipProof AccountId DispatchInfo FeeDetails : Type}.

Definition Run (A : Type) : Type := St → A * St.
Definition pure {A} (x : A) : Run A := λ s, (x, s).

(** What the methods call. *)
Record Substrate : Type := mkSubstrate {
  Executive_execute_block : Block → Run unit;
  Executive_initialize_block : Header → Run unit;
  Executive_apply_extrinsic : Extrinsic → Run ApplyResult;
  Executive_finalize_block : Run Header;
  Executive_validate_transaction : Source → Extrinsic → Hash → Run Validity;
  Executive_offchain_worker : Header → Run unit;
  Runtime_metadata : Run Metadata;
  create_extrinsics : InherentData → Run (list Extrinsic);
  check_extrinsics : InherentData → Block → Run CheckResult;
  Aura_slot_duration : Run Z;
  Aura_authorities : Run (list AuraId);
  SessionKeys_generate : option Bytes → Run Bytes;
  SessionKeys_decode_into_raw_public_keys : Bytes → Run (option (list (Bytes * KeyTypeId)));
  Grandpa_authorities : Run (list (GrandpaId * Z));
  Grandpa_current_set_id : Run Z;
  System_account_nonce : AccountId → Run Z;
  TransactionPayment_query_info : Extrinsic → Z → Run DispatchInfo;
  TransactionPayment_query_fee_details : Extrinsic → Z → Run FeeDetails
}.

(** The methods, trait by trait. *)
Record Apis : Type := mkApis {
  (** [Core] *)
  version : Run NodeCli.RuntimeVersion;
  execute_block : Block → Run unit;
  initialize_block : Header → Run unit;
  (** [Metadata] *)
  metadata : Run Metadata;
  (** [BlockBuilder] *)
  apply_extrinsic : Extrinsic → Run ApplyResult;
  finalize_block : Run Header;
  inherent_extrinsics : InherentData → Run (list Extrinsic);
  check_inherents : Block → InherentData → Run CheckResult;
  (** [TaggedTransactionQueue] *)
  validate_transaction : Source → Extrinsic → Hash → Run Validity;
  (** [OffchainWorkerApi] *)
  offchain_worker : Header → Run unit;
  (** [AuraApi]; a slot duration is its milliseconds *)
  slot_duration : Run Z;
  authorities : Run (list AuraId);
  (** [SessionKeys] *)
  generate_session_keys : option Bytes → Run Bytes;
  decode_session_keys : Bytes → Run (option (list (Bytes * KeyTypeId)));
  (** [GrandpaApi] *)
  grandpa_authorities : Run (list (GrandpaId * Z));
  current_set_id : Run Z;
  submit_report_equivocation_unsigned_extrinsic :
    EquivocationProof → OwnershipProof → Run (option unit);
  generate_key_ownership_proof : Z → GrandpaId → Run (option OwnershipProof);
  (** [AccountNonceApi] *)
  account_nonce : AccountId → Run Z;
  (** [TransactionPaymentApi] *)
  query_info : Extrinsic → Z → Run DispatchInfo;
  query_fee_details : Extrinsic → Z → Run FeeDetails
}.

Context (substrate : Substrate).

(** The key owner proof is a type without values ([KeyOwnerProofSystem = ()]),
    so no equivocation is ever reported. *)
Definition impl_runtime_apis (VERSION : NodeCli.RuntimeVersion) : Apis := {|
  version := pure VERSION;
  execute_block block := Executive_execute_block substrate block;
  initialize_block header := Executive_initialize_block substrate header;
  metadata := Runtime_metadata substrate;
  apply_extrinsic extrinsic := Executive_apply_extrinsic substrate extrinsic;
  finalize_block := Executive_finalize_block substrate;
  inherent_extrinsics data := create_extrinsics substrate data;
  check_inherents block data := check_extrinsics substrate data block;
  validate_transaction source tx block_hash :=
    Executive_validate_transaction substrate source tx block_hash;
  offchain_worker header := Executive_offchain_worker substrate header;
  slot_duration := Aura_slot_duration substrate;
  authorities := Aura_authorities substrate;
  generate_session_keys seed := SessionKeys_generate substrate seed;
  decode_session_keys encoded := SessionKeys_decode_into_raw_public_keys substrate encoded;
  grandpa_authorities := Grandpa_authorities substrate;
  current_set_id := Grandpa_current_set_id substrate;
  submit_report_equivocation_unsigned_extrinsic _ _ := pure None;
  generate_key_ownership_proof _ _ := pure None;
  account_nonce account := System_account_nonce substrate account;
  query_info uxt len := TransactionPayment_query_info substrate uxt len;
  query_fee_details uxt len := TransactionPayment_query_fee_details substrate uxt len
|}.

Definition keiko_apis : Apis := impl_runtime_apis NodeCli.keiko_VERSION.
Definition local_apis : Apis := impl_runtime_apis NodeCli.local_VERSION.

(** ** Benchmarks *)

Context {Config List Storage Batch : Type}.

(** [frame_benchmarking]: [list_benchmark!], [add_benchmark!] (which runs the
    benchmarks of a pallet and appends their batches, or stops with an error)
    and [storage_info]. *)
Context (list_benchmark : list List → bool → string → string → list List).
Context (add_benchmark : Config * list string → list Batch → string → string →
                         result string (list Batch)).
Context (storage_info : list Storage).

Definition benchmark_metadata (extra : bool) : list List * list Storage :=
  let l := list_benchmark [] extra "pallet_block_reward" "BlockReward" in
  let l := list_benchmark l extra "pallet_dapi" "Dapi" in
  let l := list_benchmark l extra "pallet_dapi_staking" "DapiStaking" in
  let l := list_benchmark l extra "pallet_validator_set" "ValidatorSet" in
  (l, storage_info).

(** The storage keys that are not counted: block number, execution phase, event
    count and events of [frame_system]. *)
Definition whitelist : list string := [
  "26aa394eea5630e07c48ae0c9558cef702a5c1b19ab7a04f536c519aca4983ac";
  "26aa394eea5630e07c48ae0c9558cef7ff553b5a9862a516939d82b3d3d8661a";
  "26aa394eea5630e07c48ae0c9558cef70a98fdbe9ce6c55837576c60c7af3850";
  "26aa394eea5630e07c48ae0c9558cef780d41e5e16056765bc8461851072c9d7"
]%string.

(** The pallets with benchmarks, in the order they are tried. *)
Definition benchmarked : list (string * string) := [
  ("frame_system", "SystemBench::<Runtime>");
  ("pallet_block_reward", "BlockReward");
  ("pallet_dapi", "Dapi");
  ("pallet_dapi_staking", "DapiStaking");
  ("pallet_validator_set", "ValidatorSet")
]%string.

Fixpoint add_benchmarks (params : Config * list string) (batches : list Batch)
    (pallets : list (string * string)) : result string (list Batch) :=
  match pallets with
  | [] => Ok batches
  | (name, location) :: rest =>
      match add_benchmark params batches name location with
      | Ok batches => add_benchmarks params batches rest
      | Err e => Err e
      end
  end.

Definition not_found : string := "Benchmark not found for this pallet.".

Definition dispatch_benchmark (config : Config) : result string (list Batch) :=
  match add_benchmarks (config, whitelist) [] benchmarked with
  | Ok [] => Err not_found
  | Ok batches => Ok batches
  | Err e => Err e
  end.

(** The local runtime has the same benchmarks. *)
Definition local_benchmark_metadata (extra : bool) : list List * list Storage :=
  benchmark_metadata extra.
Definition local_dispatch_benchmark (config : Config) : result string (list Batch) :=
  dispatch_benchmark config.

(** ** Properties *)

(** [add_benchmark!] looks at the configured pallet only. *)
Context (pallet : Config → string).
Definition add_selects : Prop :=
  ∀ params batches name location,
    pallet params.1 ≠ name → add_benchmark params batches name location = Ok batches.

Lemma add_benchmarks_others params batches pallets :
  add_selects → pallet params.1 ∉ pallets.*1 → add_benchmarks params batches pallets = Ok batches.
Proof.
  intros Hsel. induction pallets as [|[name location] rest IH]; [done|]. simpl.
  intros [Hne Hin]%not_elem_of_cons. by rewrite Hsel, IH.
Qed.

(** The benchmarks of exactly one pallet are run: those of the configured one,
    when it is one of the five; a pallet that is not listed, or one without
    results, is an error, never an empty success. *)
Theorem dispatch_benchmark_selects config :
  add_selects →
  (∀ location, (pallet config, location) ∈ benchmarked →
     dispatch_benchmark config =
     match add_benchmark (config, whitelist) [] (pallet config) location with
     | Ok [] => Err not_found
     | r => r
     end) ∧
  (pallet config ∉ benchmarked.*1 → dispatch_benchmark config = Err not_found).
Proof.
  intros Hsel. split; last first.
  { intros Hn. unfold dispatch_benchmark. by rewrite (add_benchmarks_others (config, _)). }
  intros location (k1 & k2 & Hb)%list_elem_of_split. unfold dispatch_benchmark.
  assert (NoDup benchmarked.*1) as Hnd by (apply (bool_decide_unpack _); vm_compute; done).
  rewrite Hb, fmap_app, fmap_cons in *. apply NoDup_app in Hnd as (_ & Hk1 & [Hk2 _]%NoDup_cons).
  assert (∀ batches, add_benchmarks (config, whitelist) batches
    (k1 ++ (pallet config, location) :: k2) =
    add_benchmark (config, whitelist) batches (pallet config) location) as ->.
  { assert (pallet config ∉ k1.*1) as Hk by (intros Hin; by apply (Hk1 _ Hin), elem_of_cons; left).
    clear Hb Hk1. induction k1 as [|[name loc] k1 IH]; intros batches; simpl.
    - destruct (add_benchmark _ _ _ _); [|done]. by apply add_benchmarks_others.
    - apply not_elem_of_cons in Hk as [Hne Hk]. rewrite Hsel by done. by apply IH. }
  by destruct (add_benchmark _ _ _ _) as [[]|].
Qed.

(** Aura's slots are twice the minimum period between timestamps (the behaviour
    [pallet_aura] documents), so the node is told to author a block every
    [MILLISECS_PER_BLOCK]: the halving in the configuration loses nothing. *)
Theorem slot_duration_is_block_time s :
  ((Aura_slot_duration substrate s).1 = 2 * KeikoConfig.MinimumPeriod →
   (slot_duration keiko_apis s).1 = Keiko.MILLISECS_PER_BLOCK) ∧
  ((Aura_slot_duration substrate s).1 = 2 * LocalConfig.MinimumPeriod →
   (slot_duration local_apis s).1 = Local.MILLISECS_PER_BLOCK).
Proof. by split; intros Ha; simpl; rewrite Ha. Qed.

End api.
