(* ===== verification/RuntimeAuthorities.v ===== *)
(** * The validators fit into the consensus pallets

    Aura and GRANDPA keep at most [MaxAuthorities] authorities.  The validator
    set does not enforce [MaxInvulnerables] and [MaxCandidates] after genesis (a
    warning is logged); when root respects them, every session's validators
    fit. *)

From S2P Require Export RuntimeConfig.
Import Runtime.

(** What the declared maxima must be for that. *)
Class AuthorityRoom `{PerbillOps} {params : RuntimeParams} (aura : pallet_aura.Config) : Prop := {
  room : rt_MaxInvulnerables + rt_MaxCandidates <= pallet_aura.MaxAuthorities aura;
  room_candidates : 0 <= rt_MaxCandidates;
  room_invulnerables : rt_MaxInvulnerables <= u32_max
}.

#[global] Instance keiko_room `{PerbillOps} :
  AuthorityRoom (params := Keiko.params) KeikoConfig.aura_config.
Proof. by split. Qed.

#[global] Instance local_room `{PerbillOps} :
  AuthorityRoom (params := Local.params) LocalConfig.aura_config.
Proof. by split. Qed.

Section authorities.
Context {AccountId : Type} `{Countable AccountId}.
Context {MassbitId : Type} `{Countable MassbitId}.
Context {Imb L : Type} `{!Currency AccountId Imb L} `{!CurrencyLaws AccountId Imb L}.
Context `{!PerbillOps} `{!PerbillLaws} `{!DbWeightOps}.
Context {params : RuntimeParams} `{!RuntimeParamsLaws} `{!PalletAccounts AccountId}.
Context (aura : pallet_aura.Config) `{!AuthorityRoom aura}.

Abbreviation Chain := (@Runtime.Chain AccountId _ _ MassbitId _ _ L).
Abbreviation State := (BlockReward.State (ValidatorSet.State AccountId Chain)).
Implicit Types s : State.
Context {FrameCall : Type}.
Context (frame_dispatch : FrameCall → Origin AccountId → M DispatchError State unit).
Context (contains : RuntimeCall AccountId MassbitId FrameCall → bool).
Context (past_filter : RuntimeCall AccountId MassbitId FrameCall → Origin AccountId → Prop).
Abbreviation runtime_step := (runtime_step frame_dispatch contains past_filter).

(** What root decides: the invulnerables and the number of candidates. *)
Definition root_limits s : Prop :=
  Z.of_nat (length (ValidatorSet.Invulnerables (BlockReward.env s))) <= rt_MaxInvulnerables ∧
  ValidatorSet.DesiredCandidates (BlockReward.env s) <= rt_MaxCandidates.

(** A step after which root's decisions are within the declared limits. *)
Definition modest_step s s' : Prop := runtime_step s s' ∧ root_limits s'.

(** The candidates grow by one at a time, and only below the desired number. *)
Lemma step_candidates s s' :
  runtime_step s s' → runtime_inv s →
  (length (candidates s') <= length (candidates s))%nat ∨
  length (candidates s') = S (length (candidates s)) ∧
  Z.of_nat (length (candidates s)) < ValidatorSet.DesiredCandidates (BlockReward.env s).
Proof.
  unfold candidates. intros Hstep Hi. pose proof (rt_validators _ Hi) as Hv.
  destruct Hstep as [c origin Hd Hok _ _|n w Hr _|author _ Hn|n r Hn|Hr _|ft ->|lg n reg ws _ ->].
  - apply call_runs_dispatch in Hd.
    destruct c as [c|c|c|[config]|c]; simpl in Hd.
    + apply zoom_Ok in Hd as (e & Hd & ->). destruct c; simpl in *.
      * apply set_invulnerables_Ok in Hd as (_ & ->). by left.
      * apply set_desired_candidates_Ok in Hd as (_ & ->). by left.
      * apply set_candidacy_bond_Ok in Hd as (_ & ->). by left.
      * apply register_as_candidate_Ok in Hd as (a & lg & _ & Hlen & _ & _ & _ & ->).
        rewrite len_u32_id in Hlen by apply Hv. right. simpl. rewrite length_app. simpl. lia.
      * apply leave_intent_Ok in Hd as (k & c & todo & _ & _ & Hc & _ & ->).
        left. simpl. rewrite Hc, !length_app. simpl. lia.
    + apply zoom_Ok in Hd as (d & _ & ->). by left.
    + apply zoom_Ok in Hd as (st & _ & ->). by left.
    + unfold BlockReward.set_config in Hd. destruct origin; [|done..].
      destruct (is_valid config); [|done]. apply (f_equal snd) in Hd. simpl in Hd. subst s'.
      by left.
    + done.
  - apply zoom_Ok in Hr as (st & _ & ->). by left.
  - apply zoom_Ok in Hn as (e & Hn & ->). rewrite note_author_run in Hn.
    apply (f_equal snd) in Hn. simpl in Hn. subst e. by left.
  - apply zoom_Ok in Hn as (e & Hn & ->). simpl.
    destruct (new_session_run n _ Hv) as (e' & Hrun & _ & Hc' & _).
    rewrite Hn in Hrun. injection Hrun as _ ->. rewrite Hc'. left.
    by apply sublist_length, drop_stale_sublist.
  - destruct (BlockReward.on_timestamp_set_run s) as (i & l & vi & pi & _ & _ & Hrun).
    unfold on_timestamp_set in Hr. rewrite Hrun in Hr. apply (f_equal snd) in Hr.
    cbn [snd] in Hr. subst s'. unfold payout_providers, payout_validators. simpl.
    unfold payout_to_validators, on_unbalanced. left. by case_match.
  - simpl. destruct (deal_with_fees_moves ft (BlockReward.env s)) as (lg & -> & _). by left.
  - by left.
Qed.

(** The candidates stay below the declared maximum. *)
Definition limited s : Prop :=
  runtime_inv s ∧ root_limits s ∧ Z.of_nat (length (candidates s)) <= rt_MaxCandidates.

Lemma modest_limited s s' : modest_step s s' → limited s → limited s'.
Proof.
  intros [Hstep Hroot] (Hi & [_ Hdes] & Hc). split; [by eapply runtime_step_inv|].
  split; [done|]. destruct (step_candidates s s' Hstep Hi); lia.
Qed.

Lemma genesis_limited config lg registered s :
  Z.of_nat (length (invulnerables config)) <= u32_max →
  genesis_ok (MassbitId := MassbitId) (L := L) config →
  genesis_build config lg registered = Some s → limited s.
Proof.
  intros Hlen Hok Hg. split; [by eapply genesis_runtime_inv|].
  apply bind_Some in Hg as (d & _ & (v & Hv & Hr)%bind_Some).
  unfold ValidatorSet.genesis_build in Hv.
  destruct (_ && _) eqn:Hc in Hv; [|done]. injection Hv as <-.
  apply andb_true_iff in Hc as [[_ Hinv%Z.leb_le]%andb_true_iff Hdes%Z.leb_le].
  unfold BlockReward.genesis_build in Hr. case_match; [|done]. injection Hr as <-.
  unfold root_limits, candidates. simpl. rewrite len_u32_id in Hinv by done.
  split; [by split|]. apply room_candidates.
Qed.

(** C32: The validators of every session fit into Aura's and GRANDPA's bounded
    lists of authorities: from a genesis config, as long as root leaves the
    invulnerables and the desired number of candidates within the declared
    maxima, the list that a session change returns, at whatever state calls,
    kicks, rewards and fees have led to, has at most [MaxAuthorities] entries. *)
Theorem validators_fit_authorities config lg registered s0 s n :
  Z.of_nat (length (invulnerables config)) <= u32_max →
  genesis_ok (MassbitId := MassbitId) (L := L) config →
  genesis_build config lg registered = Some s0 → rtc modest_step s0 s →
  ∃ validators s', new_session n s = (Ok (Some validators), s') ∧
    Z.of_nat (length validators) <= pallet_aura.MaxAuthorities aura ∧
    Z.of_nat (length (candidates s')) <= rt_MaxCandidates.
Proof.
  intros Hlen Hok Hg Hsteps. pose proof room.
  assert (limited s) as (Hi & [Hinv _] & Hc).
  { assert (limited s0) as Hl by by eapply genesis_limited.
    clear Hg. induction Hsteps as [|s1 s2 s3 Hst _ IH]; [done|].
    by apply IH, (modest_limited s1). }
  destruct (new_session_run n _ (rt_validators _ Hi)) as (e' & Hrun & _ & Hc' & _).
  unfold candidates in *. set (kept := drop_stale _ _ _) in *.
  assert (length kept <= length (ValidatorSet.Candidates (BlockReward.env s)))%nat as Hle
    by apply sublist_length, drop_stale_sublist.
  eexists _, _. split; [unfold new_session, zoom; by rewrite Hrun|].
  rewrite length_app, length_fmap. simpl. rewrite Hc'. lia.
Qed.

End authorities.
