(* ===== verification/RuntimeBlocks.v ===== *)
(** * Blocks

    The composition of a block from the runtime's handlers.  Substrate's
    executive sets the block number and runs the hooks of the pallets in the
    order of [construct_runtime!]: the author of the block is noted
    ([pallet_authorship]), then the session changes ([pallet_session]), then the
    staking pallet moves its clock; the timestamp inherent, the first extrinsic,
    issues the block's reward; the other extrinsics follow.  Over a chain of such
    blocks every era collects the rewards of all of its blocks. *)

From S2P Require Export RuntimeConfig RuntimeRefines StakingClock StakingSolvency.
Import Runtime.

Section blocks.
Context {AccountId : Type} `{Countable AccountId}.
Context {MassbitId : Type} `{Countable MassbitId}.
Context {Imb L : Type} `{!Currency AccountId Imb L}.
Context `{!PerbillOps} `{!DbWeightOps}.
Context {params : RuntimeParams} `{!PalletAccounts AccountId}.

Abbreviation Chain := (@Chain AccountId _ _ MassbitId _ _ L).
Abbreviation State := (BlockReward.State (ValidatorSet.State AccountId Chain)).
Implicit Types s : State.

Context (authorship : pallet_authorship.Config AccountId State).
Context (session : pallet_session.Config AccountId State).
Context (timestamp : pallet_timestamp.Config State).

Definition set_block_number (n : Z) s : State :=
  frame_move (ledger_of s) n (registered (chain s)) (extra_weights (chain s)) s.

(** A rotation as [pallet_session] documents it: the session [index] ends, the
    next one starts and the validators of the one after it are asked for. *)
Definition rotate_session (index : Z) : M DispatchError State unit :=
  pallet_session.end_session session index;;
  pallet_session.start_session session (index + 1);;
  validators ← pallet_session.new_session session (index + 2);
  mret tt.

(** What happens before the staking pallet's hook: the number of the block, its
    author if the digest names one, and the rotation of the session if it ends
    here ([Session] comes before [DapiStaking] in [construct_runtime!]). *)
Definition open_block (n : Z) (author : option AccountId) (rotation : option Z) :
    M DispatchError State unit :=
  modify (set_block_number n);;
  from_option (pallet_authorship.note_author authorship) (mret tt) author;;
  from_option rotate_session (mret tt) rotation.

(** The hooks of block [n]. *)
Definition initialize_block (n : Z) (author : option AccountId) (rotation : option Z) :
    M DispatchError State unit :=
  open_block n author rotation;;
  w ← staking_on_initialize n;
  mret tt.

Context {FrameCall : Type}.
Context (frame_dispatch : FrameCall → Origin AccountId → M DispatchError State unit).
Context (contains : RuntimeCall AccountId MassbitId FrameCall → bool).
Context (past_filter : RuntimeCall AccountId MassbitId FrameCall → Origin AccountId → Prop).

(** The rest of a block: calls, fees and whatever Substrate's pallets do. *)
Inductive extrinsic s s' : Prop :=
| extrinsic_call c origin :
    call_runs frame_dispatch contains past_filter c origin s s' →
    rt_call_ok c → origin ≠ Signed account_id → supply_ok (ledger_of s') → extrinsic s s'
| extrinsic_fees fees_then_tips :
    s' = BlockReward.set_env (deal_with_fees fees_then_tips (BlockReward.env s)) s →
    extrinsic s s'
| extrinsic_frame lg ws :
    (∀ a, reserved_balance (ledger_of s) a <= reserved_balance lg a) →
    s' = frame_move lg (number (chain s)) (registered (chain s)) ws s → extrinsic s s'.

(** An extrinsic by which root changes neither the length of the eras nor the
    distribution of the reward. *)
Definition settled s s' : Prop :=
  extrinsic s s' ∧ Era (staking_of s') = Era (staking_of s) ∧
  BlockReward.RewardConfig s' = BlockReward.RewardConfig s.

(** Block [n]; its reward can be issued. *)
Inductive chain_block (n : Z) s s' : Prop :=
| chain_block_intro author rotation s1 s2 :
    initialize_block n author rotation s = (Ok tt, s1) → author ≠ Some validator_pot →
    total_issuance (AccountId := AccountId) (Imb := Imb) (ledger_of s1) + rt_RewardAmount
      <= u128_max →
    pallet_timestamp.OnTimestampSet timestamp s1 = (Ok tt, s2) →
    rtc settled s2 s' → chain_block n s s'.

(** The states after block [m], from the state after block [n]. *)
Inductive chain_of (n : Z) s : Z → State → Prop :=
| chain_none : chain_of n s n s
| chain_next m s1 s2 : chain_of n s m s1 → chain_block (m + 1) s1 s2 → chain_of n s (m + 1) s2.

Lemma chain_of_le n s m s' : chain_of n s m s' → n <= m.
Proof. induction 1; lia. Qed.

(** The handlers are the repository's. *)
Class RepositoryHandlers : Prop := {
  handler_note_author : pallet_authorship.note_author authorship = note_author;
  handler_new_session : pallet_session.new_session session = new_session;
  handler_end_session i s : pallet_session.end_session session i s = (Ok tt, s);
  handler_start_session i s : pallet_session.start_session session i s = (Ok tt, s);
  handler_timestamp : pallet_timestamp.OnTimestampSet timestamp = on_timestamp_set
}.
End blocks.

Section handlers.
Context {AccountId : Type} `{Countable AccountId}.
Context {MassbitId : Type} `{Countable MassbitId}.
Context {Imb L : Type} `{!Currency AccountId Imb L}.
Context `{!PerbillOps} `{!DbWeightOps} `{!PalletAccounts AccountId}.

Lemma zoom_nothing {params : RuntimeParams} (m : M DispatchError _ unit)
    (s : BlockReward.State (ValidatorSet.State AccountId
           (@Chain AccountId _ _ MassbitId _ _ L))) :
  m (BlockReward.env s) = (Ok tt, BlockReward.env s) →
  zoom BlockReward.env BlockReward.set_env m s = (Ok tt, s).
Proof. unfold zoom. intros ->. by destruct s. Qed.

#[global] Instance keiko_handlers :
  RepositoryHandlers (L := L) (MassbitId := MassbitId) (params := Keiko.params)
    KeikoConfig.authorship_config KeikoConfig.session_config KeikoConfig.timestamp_config.
Proof. split; try done; intros i s; by apply (zoom_nothing (params := Keiko.params)). Qed.

#[global] Instance local_handlers :
  RepositoryHandlers (L := L) (MassbitId := MassbitId) (params := Local.params)
    LocalConfig.authorship_config LocalConfig.session_config LocalConfig.timestamp_config.
Proof. split; try done; intros i s; by apply (zoom_nothing (params := Local.params)). Qed.
End handlers.

(** ** What an era collects, in the staking pallet *)

Lemma quotient_range a b : 0 <= a → 0 < b → 0 <= a / b <= a.
Proof. intros Ha Hb. split; [by apply Z.div_pos|]. apply Z.div_le_upper_bound; nia. Qed.

Section accrual.
Context {AccountId : Type} `{Countable AccountId}.
Context {ProviderId : Type} `{Countable ProviderId}.
Context {Imb L : Type} `{!Currency AccountId Imb L} `{!CurrencyLaws AccountId Imb L}.
Context `{!PerbillOps} `{!PerbillLaws} `{!DbWeightOps} `{!StakingConfig AccountId}.
Context `{!StakingConfigLaws AccountId}.
Implicit Types st : (Staking.State AccountId ProviderId L).

(** Within an era rewards are only added, and closed eras are final. *)
Record accrues st st' : Prop := {
  accrues_rewards : Z.min u128_max (RewardAccumulator st) <= RewardAccumulator st';
  accrues_closed e : e < current (Era st) → EraState st' !! e = EraState st !! e
}.

#[export] Instance accrues_refl : Reflexive accrues.
Proof. intros st. split; [lia|done]. Qed.

Lemma accrues_trans st1 st2 st3 :
  accrues st1 st2 → current (Era st1) <= current (Era st2) → accrues st2 st3 → accrues st1 st3.
Proof.
  intros [Ha Hc] Hle [Ha' Hc']. split; [lia|].
  intros e He. rewrite Hc' by lia. by apply Hc.
Qed.

Lemma step_accrues st st' :
  step st st' → inv st → current (Era st') = current (Era st) → accrues st st'.
Proof.
  intros Hstep Hi Hcur. split; [|intros e He; by apply step_past_era].
  step_cases Hstep; simpl; try lia.
  - destruct (on_initialize_outcome _ _ _ _ Hd Hi Hmax) as [->| ->]; simpl in *; lia.
  - rewrite handle_imbalance_run in Hd. injection Hd as <-. simpl. unfold sat_add.
    pose proof (peek_range (AccountId := AccountId) (L := L) i) as [? _]. lia.
Qed.

Lemma steps_era st st' : rtc step st st' → inv st → current (Era st) <= current (Era st').
Proof.
  induction 1 as [|st st1 st' Hstep _ IH]; intros Hi; [lia|].
  etrans; [by apply step_era|]. apply IH. by eapply step_inv.
Qed.

Lemma steps_accrue st st' :
  rtc step st st' → inv st → current (Era st') = current (Era st) → accrues st st'.
Proof.
  induction 1 as [|st st1 st' Hstep Hsteps IH]; intros Hi Hera; [done|].
  assert (inv st1) as Hi1 by by eapply step_inv.
  pose proof (step_era st st1 Hstep Hi). pose proof (steps_era st1 st' Hsteps Hi1).
  eapply (accrues_trans st st1); [apply step_accrues| |apply IH]; try done; lia.
Qed.

(** After block [m], with [count] rewards of [share] in the running era: the
    clock, the rewards of the running era and those of the closed ones. *)
Record collects (share count m : Z) st : Prop := {
  collects_clock : Era st = scheduled 1 DefaultBlocksPerEra m;
  collects_running : Z.min u128_max (count * share) <= RewardAccumulator st;
  collects_closed e : 1 <= e < current (Era st) →
    ∃ em, EraState st !! e = Some em ∧
      Z.min u128_max (DefaultBlocksPerEra * share) <= em_rewards em
}.

Lemma collects_accrues share count m st st' :
  accrues st st' → Era st' = Era st → collects share count m st → collects share count m st'.
Proof.
  intros [Ha Hc] He [Hclock Hr Hcl]. split; [congruence|lia|].
  rewrite He. intros e Hrange. rewrite Hc by lia. by apply Hcl.
Qed.

(** The clock after the hook of block [m + 1]. *)
Lemma hook_clock share count m st :
  0 < DefaultBlocksPerEra → 1 <= m < u32_max → collects share count m st →
  (on_initialize (m + 1) st).2.(Era) = scheduled 1 DefaultBlocksPerEra (m + 1).
Proof.
  intros Hlen Hm [Hclock _ _]. rewrite on_initialize_clock, Hclock. apply scheduled_next; lia.
Qed.

Lemma hook_collects share m w st st' :
  0 < DefaultBlocksPerEra → 1 <= m < u32_max →
  collects share ((m - 1) mod DefaultBlocksPerEra + 1) m st →
  on_initialize (m + 1) st = (Ok w, st') →
  collects share (m mod DefaultBlocksPerEra) (m + 1) st'.
Proof.
  intros Hlen Hm Hcol Hr. pose proof (hook_clock _ _ _ _ Hlen Hm Hcol) as Hclock'.
  pose proof Hcol as [Hclock Hrun Hcl]. set (len := DefaultBlocksPerEra) in *.
  pose proof (Z.div_mod (m - 1) len ltac:(lia)) as Hd1.
  pose proof (Z.div_mod m len ltac:(lia)) as Hd2.
  pose proof (Z.mod_pos_bound (m - 1) len Hlen). pose proof (Z.mod_pos_bound m len Hlen).
  pose proof (quotient_range (m - 1) len ltac:(lia) Hlen) as Hk.
  rewrite Hr in Hclock'. simpl in Hclock'.
  destruct (EraInfo.should_update (Era st) (m + 1)) eqn:Hn.
  - destruct (on_initialize_new_era (m + 1) st Hn) as [w' Hr']. rewrite Hr in Hr'.
    injection Hr' as -> ->. cbn [Era] in Hclock'.
    assert (1 + m / len = 1 + (m - 1) / len + 1) as Hnext.
    { apply (f_equal current) in Hclock'. simpl in Hclock'. rewrite Hclock in Hclock'.
      simpl in Hclock'. fold len in Hclock'. rewrite sat_add_small in Hclock' by lia.
      replace (m + 1 - 1) with m in Hclock' by lia. lia. }
    assert (m mod len = 0 ∧ (m - 1) mod len + 1 = len) as [Hz Hfull] by nia.
    split; [done|simpl; rewrite Hz; lia|]. cbn [Era EraState]. intros e He.
    rewrite Hclock' in He. rewrite Hclock. simpl in He |- *. fold len in He |- *.
    replace (m + 1 - 1) with m in He by lia. rewrite u32_add_small by lia.
    destruct (decide (e = 1 + (m - 1) / len)) as [->|Hne].
    + rewrite lookup_insert_eq. eexists. split; [done|]. simpl. by rewrite <-Hfull.
    + rewrite !lookup_insert_ne by lia. apply Hcl. rewrite Hclock. simpl. fold len. lia.
  - rewrite (on_initialize_idle _ _ Hn) in Hr. injection Hr as <- <-.
    assert (m / len = (m - 1) / len) as Hsame.
    { rewrite Hclock in Hclock'. apply (f_equal current) in Hclock'. simpl in Hclock'.
      fold len in Hclock'. replace (m + 1 - 1) with m in Hclock' by lia. lia. }
    split; [done| |done]. assert (m mod len = (m - 1) mod len + 1) as -> by nia. done.
Qed.

(** The first hook opens era 1. *)
Lemma first_hook_collects share w st st' :
  0 < DefaultBlocksPerEra → current (Era st) = 0 → on_initialize 1 st = (Ok w, st') →
  collects share 0 1 st'.
Proof.
  intros Hlen Hz Hr. assert (EraInfo.should_update (Era st) 1 = true) as Hn.
  { unfold EraInfo.should_update. by rewrite Hz, orb_true_r. }
  destruct (on_initialize_new_era 1 st Hn) as [w' Hr']. rewrite Hr in Hr'.
  injection Hr' as -> ->. split; simpl; [|lia|]; unfold next_clock; rewrite Hz; simpl.
  - unfold scheduled. rewrite Z.div_0_l by lia. f_equal. lia.
  - intros e He. replace (sat_add u32_max 0 1) with 1 in He by done. lia.
Qed.

Lemma reward_collects share count m st st' :
  0 <= share → 0 <= count → Era st' = Era st → EraState st' = EraState st →
  RewardAccumulator st' = sat_add u128_max (RewardAccumulator st) share →
  collects share count m st → collects share (count + 1) m st'.
Proof.
  intros Hs Hc He Hes Ha [Hclock Hr Hcl]. split; [congruence| |by rewrite He, Hes].
  rewrite Ha. unfold sat_add. lia.
Qed.
End accrual.

(** ** The rewards of an era, in the runtime *)

Section chain.
Context {AccountId : Type} `{Countable AccountId}.
Context {MassbitId : Type} `{Countable MassbitId}.
Context {Imb L : Type} `{!Currency AccountId Imb L} `{!CurrencyLaws AccountId Imb L}.
Context `{!PerbillOps} `{!PerbillLaws} `{!DbWeightOps}.
Context {params : RuntimeParams} `{!RuntimeParamsLaws} `{!PalletAccounts AccountId}.

Abbreviation Chain := (@Runtime.Chain AccountId _ _ MassbitId _ _ L).
Abbreviation State := (BlockReward.State (ValidatorSet.State AccountId Chain)).
Implicit Types s : State.

Context (authorship : pallet_authorship.Config AccountId State).
Context (session : pallet_session.Config AccountId State).
Context (timestamp : pallet_timestamp.Config State).
Context `{!RepositoryHandlers authorship session timestamp}.
Context {FrameCall : Type}.
Context (frame_dispatch : FrameCall → Origin AccountId → M DispatchError State unit).
Context (contains : RuntimeCall AccountId MassbitId FrameCall → bool).
Context (past_filter : RuntimeCall AccountId MassbitId FrameCall → Origin AccountId → Prop).

Abbreviation runtime_step := (runtime_step frame_dispatch contains past_filter).
Abbreviation settled := (settled frame_dispatch contains past_filter).
Abbreviation open_block := (open_block authorship session).
Abbreviation initialize_block := (initialize_block authorship session).
Abbreviation chain_block := (chain_block authorship session timestamp frame_dispatch contains past_filter).
Abbreviation chain_of := (chain_of authorship session timestamp frame_dispatch contains past_filter).

Lemma staking_inv s : runtime_inv s → inv (staking_of s).
Proof.
  intros Hi. pose proof (inv_ledger _ (no_others AccountId) _ (ledger_of s) (rt_staking _ Hi)) as Hl.
  unfold ledger_of in Hl. rewrite set_ledger_id in Hl. apply Hl.
  intros w. by apply obligations_covered.
Qed.

(** A step that leaves the era and the distribution alone. *)
Definition calm s s' : Prop :=
  runtime_step s s' ∧ Era (staking_of s') = Era (staking_of s) ∧
  BlockReward.RewardConfig s' = BlockReward.RewardConfig s.

Lemma settled_calm s s' : settled s s' → calm s s'.
Proof.
  intros [Hx Hq]. split; [|done].
  destruct Hx as [c origin|ft|lg ws];
    [by eapply rt_step_call|by eapply rt_step_fees|by eapply rt_step_frame].
Qed.

(** What a run of calm steps keeps. *)
Record kept s s' : Prop := {
  kept_inv : runtime_inv s';
  kept_era : Era (staking_of s') = Era (staking_of s);
  kept_config : BlockReward.RewardConfig s' = BlockReward.RewardConfig s;
  kept_accrues : accrues (staking_of s) (staking_of s')
}.

Lemma kept_refl s : runtime_inv s → kept s s.
Proof. by split. Qed.

Lemma kept_trans s1 s2 s3 : kept s1 s2 → kept s2 s3 → kept s1 s3.
Proof.
  intros [_ He Hc Ha] [Hi He' Hc' Ha']. split; [done|congruence|congruence|].
  eapply accrues_trans; [done|rewrite He; lia|done].
Qed.

Lemma calm_kept s s' : calm s s' → runtime_inv s → kept s s'.
Proof.
  intros (Hstep & He & Hc) Hi. split; [by eapply runtime_step_inv|done|done|].
  apply steps_accrue; [by eapply runtime_step_staking|by apply staking_inv|by rewrite He].
Qed.

Lemma settled_kept s s' : rtc settled s s' → runtime_inv s → kept s s'.
Proof.
  induction 1 as [|s s1 s' Hst _ IH]; intros Hi; [by apply kept_refl|].
  assert (kept s s1) as Hk by (by apply calm_kept; [apply settled_calm|]).
  eapply kept_trans; [done|]. apply IH, Hk.
Qed.

(** *** The hooks of the other pallets *)

Lemma validators_kept s (e : ValidatorSet.State AccountId Chain) :
  runtime_step s (BlockReward.set_env e s) → vs_effect account_id (BlockReward.env s) e →
  runtime_inv s → kept s (BlockReward.set_env e s).
Proof.
  intros Hstep He. apply calm_kept. split; [done|]. split; [|done].
  unfold staking_of. by rewrite (validators_move s e He).
Qed.

Lemma note_author_kept s s' author :
  author ≠ validator_pot → note_author author s = (Ok tt, s') → runtime_inv s → kept s s'.
Proof.
  intros Hne Hn Hi. assert (runtime_step s s') as Hstep by by eapply rt_step_author.
  apply zoom_Ok in Hn as (e & Hn & ->). apply validators_kept; [done| |done].
  eapply note_author_effect; [exact Hne|exact Hn|apply Hi|apply (rt_funded _ Hi)].
Qed.

Lemma new_session_kept s s' n r : new_session n s = (Ok r, s') → runtime_inv s → kept s s'.
Proof.
  intros Hn Hi. assert (runtime_step s s') as Hstep by by eapply rt_step_session.
  apply zoom_Ok in Hn as (e & Hn & ->). apply validators_kept; [done| |done].
  eapply new_session_effect; [exact Hn|apply Hi|apply (rt_funded _ Hi)].
Qed.

Lemma rotate_session_kept s s' i :
  rotate_session session i s = (Ok tt, s') → runtime_inv s → kept s s'.
Proof.
  unfold rotate_session. erewrite bind_run_Ok by apply (handler_end_session authorship session timestamp).
  erewrite bind_run_Ok by apply (handler_start_session authorship session timestamp).
  rewrite (handler_new_session authorship session timestamp). intros (r & s1 & Hn & [_ ->]%mret_Ok)%bind_Ok.
  by eapply new_session_kept.
Qed.

Lemma set_block_number_kept s n : runtime_inv s → kept s (set_block_number n s).
Proof.
  apply calm_kept. split; [|done]. eapply rt_step_frame; [|reflexivity]. intros a. lia.
Qed.

Lemma open_block_kept s s' n author rotation :
  open_block n author rotation s = (Ok tt, s') → author ≠ Some validator_pot →
  runtime_inv s → kept s s'.
Proof.
  unfold open_block. intros Hb Hne Hi. pose proof (set_block_number_kept s n Hi) as Hk.
  erewrite bind_run_Ok in Hb by reflexivity.
  apply bind_Ok in Hb as ([] & s1 & Ha & Hr).
  assert (kept s s1) as Hk1.
  { eapply kept_trans; [exact Hk|]. destruct author as [a|]; simpl in Ha.
    - rewrite (handler_note_author authorship session timestamp) in Ha. eapply note_author_kept; [|exact Ha|apply Hk].
      congruence.
    - apply mret_Ok in Ha as [_ ->]. apply kept_refl, Hk. }
  eapply kept_trans; [exact Hk1|]. destruct rotation as [i|]; simpl in Hr.
  - eapply rotate_session_kept; [exact Hr|apply Hk1].
  - apply mret_Ok in Hr as [_ ->]. apply kept_refl, Hk1.
Qed.

(** *** The reward of a block *)

(** The providers' part of a block's reward. *)
Definition provider_share (config : DistributionConfig) : Z :=
  pb_mul (providers_percent config) rt_RewardAmount.

Lemma reward_arrives s s' :
  on_timestamp_set s = (Ok tt, s') → is_u128 rt_RewardAmount → runtime_inv s →
  total_issuance (AccountId := AccountId) (Imb := Imb) (ledger_of s) + rt_RewardAmount
    <= u128_max →
  runtime_inv s' ∧ BlockReward.RewardConfig s' = BlockReward.RewardConfig s ∧
  Era (staking_of s') = Era (staking_of s) ∧
  EraState (staking_of s') = EraState (staking_of s) ∧
  RewardAccumulator (staking_of s') =
    sat_add u128_max (RewardAccumulator (staking_of s))
      (provider_share (BlockReward.RewardConfig s)).
Proof.
  intros Hr Hu Hi Hmax. split; [by apply (on_timestamp_set_inv s)|].
  destruct (BlockReward.on_timestamp_set_run s) as (i & l & vi & pi & Hiss & Hsplit & Hrun).
  unfold on_timestamp_set in Hr. rewrite Hrun in Hr. apply (f_equal snd) in Hr.
  cbn [snd] in Hr. subst s'.
  destruct (issue_spec rt_RewardAmount _ _ _ Hu Hiss) as [Hpk _].
  destruct (Hpk Hmax) as [Hpeek _]. rewrite Hpeek in Hsplit.
  pose proof (pb_mul_le (providers_percent (BlockReward.RewardConfig s)) _ (proj1 Hu)) as Hle.
  destruct (Frame.split_spec (AccountId := AccountId) (L := L) i _ _ _ (proj1 Hle) Hsplit)
    as [Hpi _]. rewrite Hpeek, Z.min_l in Hpi by lia.
  assert (∃ lg, payout_validators vi (put_ledger l (BlockReward.env s)) =
      put_ledger lg (BlockReward.env s)) as [lg Hlg].
  { change (payout_validators vi ?e) with (on_unbalanced to_validator_pot vi e).
    unfold on_unbalanced. case_match; by eexists. }
  rewrite Hlg. unfold provider_share. rewrite <-Hpi. done.
Qed.

(** *** Blocks *)

(** The state after block [m] of a chain whose reward was never redistributed. *)
Definition on_track (config : DistributionConfig) (m : Z) s : Prop :=
  runtime_inv s ∧ BlockReward.RewardConfig s = config ∧
  collects (provider_share config) ((m - 1) mod DefaultBlocksPerEra + 1) m (staking_of s).

Lemma after_hook config count m s1 s2 s' :
  is_u128 rt_RewardAmount → 0 <= count →
  total_issuance (AccountId := AccountId) (Imb := Imb) (ledger_of s1) + rt_RewardAmount
    <= u128_max →
  runtime_inv s1 → BlockReward.RewardConfig s1 = config →
  collects (provider_share config) count m (staking_of s1) →
  pallet_timestamp.OnTimestampSet timestamp s1 = (Ok tt, s2) → rtc settled s2 s' →
  count = (m - 1) mod DefaultBlocksPerEra → on_track config m s'.
Proof.
  intros Hu Hcount Hmax Hi <- Hcol Hr Hset ->.
  rewrite (handler_timestamp authorship session timestamp) in Hr.
  destruct (reward_arrives s1 s2 Hr Hu Hi Hmax) as (Hi2 & Hc2 & He2 & Hes2 & Ha2).
  destruct (settled_kept s2 s' Hset Hi2) as [Hi' He' Hc' Hacc].
  split; [done|]. split; [congruence|]. eapply collects_accrues; [done|done|].
  eapply reward_collects; try done. by apply pb_mul_le; [apply Hu].
Qed.

Lemma block_on_track config m s s' :
  0 < DefaultBlocksPerEra → is_u128 rt_RewardAmount → 1 <= m < u32_max →
  on_track config m s → chain_block (m + 1) s s' → on_track config (m + 1) s'.
Proof.
  intros Hlen Hu Hm (Hi & Hc & Hcol) [author rotation s1 s2 Hb Hne Hmax Hr Hset].
  apply bind_Ok in Hb as ([] & s0 & Hopen & (w & s0' & Hhook & [_ ->]%mret_Ok)%bind_Ok).
  destruct (open_block_kept s s0 _ _ _ Hopen Hne Hi) as [Hi0 He0 Hc0 Hacc].
  assert (runtime_step s0 s0') as Hstep.
  { eapply rt_step_staking_hook; [exact Hhook|]. rewrite He0, (collects_clock _ _ _ _ Hcol).
    change (1 + (m - 1) / DefaultBlocksPerEra < u32_max).
    pose proof (quotient_range (m - 1) DefaultBlocksPerEra ltac:(lia) Hlen). lia. }
  apply zoom_Ok in Hhook as (st & Hhook & ->).
  apply (after_hook config (m mod DefaultBlocksPerEra) (m + 1)
    (set_staking_of st s0) s2 s'); try done.
  - by apply Z.mod_pos_bound.
  - by eapply runtime_step_inv.
  - simpl. congruence.
  - eapply hook_collects; [done|done| |exact Hhook]. by eapply collects_accrues.
  - f_equal. lia.
Qed.

Lemma first_on_track s s' :
  0 < DefaultBlocksPerEra → is_u128 rt_RewardAmount → runtime_inv s →
  current (Era (staking_of s)) = 0 → chain_block 1 s s' →
  on_track (BlockReward.RewardConfig s) 1 s'.
Proof.
  intros Hlen Hu Hi Hz [author rotation s1 s2 Hb Hne Hmax Hr Hset].
  apply bind_Ok in Hb as ([] & s0 & Hopen & (w & s0' & Hhook & [_ ->]%mret_Ok)%bind_Ok).
  destruct (open_block_kept s s0 _ _ _ Hopen Hne Hi) as [Hi0 He0 Hc0 Hacc].
  assert (runtime_step s0 s0') as Hstep.
  { eapply rt_step_staking_hook; [exact Hhook|]. by rewrite He0, Hz. }
  apply zoom_Ok in Hhook as (st & Hhook & ->).
  apply (after_hook _ 0 1 (set_staking_of st s0) s2 s'); try done.
  - by eapply runtime_step_inv.
  - eapply first_hook_collects; [done| |exact Hhook]. by rewrite <-Hz, <-He0.
Qed.

Lemma chain_on_track s m s' :
  0 < DefaultBlocksPerEra → is_u128 rt_RewardAmount → runtime_inv s →
  current (Era (staking_of s)) = 0 → chain_of 0 s m s' → 1 <= m <= u32_max →
  on_track (BlockReward.RewardConfig s) m s'.
Proof.
  intros Hlen Hu Hi Hz Hch Hm. induction Hch as [|m s1 s2 Hch IH Hb]; [lia|].
  pose proof (chain_of_le _ _ _ _ _ _ _ _ _ _ Hch).
  destruct (Z.eq_dec m 0) as [->|Hne].
  - inversion Hch; [subst|pose proof (chain_of_le _ _ _ _ _ _ _ _ _ _ ltac:(eassumption)); lia].
    by apply first_on_track.
  - apply (block_on_track _ m s1); [done|done|lia| |done]. apply IH. lia.
Qed.

Lemma genesis_start config lg registered s :
  genesis_build config lg registered = Some s →
  staking_of s = staking_genesis lg ∧ BlockReward.RewardConfig s = reward_config config.
Proof.
  intros (d & Hd & (v & Hv & Hr)%bind_Some)%bind_Some.
  unfold Dapi.genesis_build in Hd. case_match; [|done]. injection Hd as <-.
  unfold ValidatorSet.genesis_build in Hv. case_match; [|done]. injection Hv as <-.
  unfold BlockReward.genesis_build in Hr. case_match; [|done]. by injection Hr as <-.
Qed.

(** C10: Every era collects the rewards of all its blocks.  Over a chain of blocks
    (hooks in the order of the runtime, one reward per block, any extrinsics and
    any session changes) that starts from a genesis config, while root changes
    neither the length of an era nor the distribution, an era that is closed in
    block [m] has collected at least the providers' part of the rewards of
    [DefaultBlocksPerEra] blocks: neither the block that opens an era nor the one
    that closes it loses its reward, and project payments only add. *)
Theorem era_collects_block_rewards config lg registered s0 m s e :
  genesis_ok (MassbitId := MassbitId) (L := L) config →
  genesis_build config lg registered = Some s0 →
  chain_of 0 s0 m s → 1 <= m <= u32_max →
  is_u128 rt_RewardAmount → 0 < rt_DefaultBlocksPerEra →
  1 <= e <= (m - 1) / rt_DefaultBlocksPerEra →
  ∃ em, EraState (staking_of s) !! e = Some em ∧
    Z.min u128_max (rt_DefaultBlocksPerEra * provider_share (reward_config config))
      <= em_rewards em.
Proof.
  intros Hok Hg Hch Hm Hu Hlen He.
  destruct (genesis_start _ _ _ _ Hg) as [Hst <-].
  destruct (chain_on_track s0 m s) as (_ & _ & Hcol); try done.
  - by eapply genesis_runtime_inv.
  - by rewrite Hst.
  - apply Hcol. rewrite (collects_clock _ _ _ _ Hcol). simpl. lia.
Qed.

End chain.
