(* ===== verification/NodeService.v ===== *)
(** * The assembly of a node

    node/src/service.rs and node/src/rpc.rs: which services of Substrate are
    created, with which parts of the configuration, in which order, and what
    happens when one of them fails.  A program is a tree of calls to Substrate;
    running it against any answers gives the trace of the calls and the result. *)

From S2P Require Export NodeCli.

(** ** Programs over calls *)

(** [call] is one call to Substrate with its arguments, [ret c] the type of its
    answer, [E] the errors a program can stop with. *)
Section programs.
Context {call : Type} {ret : call → Type} {E : Type}.

Inductive Prog (A : Type) : Type :=
| Done (r : result E A)
| Call (c : call) (k : ret c → Prog A).
Arguments Done {A} r.
Arguments Call {A} c k.

#[export] Instance Prog_ret : MRet Prog := λ A a, Done (Ok a).
#[export] Instance Prog_bind : MBind Prog :=
  fix bind {A B} (f : A → Prog B) (p : Prog A) : Prog B :=
    match p with
    | Done (Ok a) => f a
    | Done (Err e) => Done (Err e)
    | Call c k => Call c (λ x, @bind A B f (k x))
    end.

Definition do_call (c : call) : Prog (ret c) := Call c (λ x, mret x).

(** [r?] *)
Definition lift {A} (r : result E A) : Prog A := Done r.

(** The trace and the result; an answer may depend on the calls before it. *)
Context (answer : list call → ∀ c : call, ret c).

Fixpoint run_prog {A} (trace : list call) (p : Prog A) : list call * result E A :=
  match p with
  | Done r => (trace, r)
  | Call c k => run_prog (trace ++ [c]) (k (answer trace c))
  end.

Lemma run_prog_bind {A B} (f : A → Prog B) (p : Prog A) trace :
  run_prog trace (p ≫= f) =
  let '(trace', r) := run_prog trace p in
  match r with Ok a => run_prog trace' (f a) | Err e => (trace', Err e) end.
Proof.
  revert trace. induction p as [[a|e]|c k IH]; intros trace; [done|done|]. apply IH.
Qed.

End programs.
Arguments Prog {call} ret E A.
Arguments Done {call ret E A} r.
Arguments Call {call ret E A} c k.

Section emits.
Context {call : Type} {ret : call → Type} {E : Type}.
Abbreviation Prog := (Prog ret E).

(** [p] makes only calls in [I], whatever the answers. *)
Definition emits {A} (I : call → Prop) (p : Prog A) : Prop :=
  ∀ answer trace, ∃ l, (run_prog answer trace p).1 = trace ++ l ∧ Forall I l.

Lemma emits_done {A} (I : call → Prop) (r : result E A) : emits I (Done r : Prog A).
Proof. intros answer trace. exists []. by rewrite app_nil_r. Qed.

Lemma emits_bind {A B} (I : call → Prop) (f : A → Prog B) (p : Prog A) :
  emits I p → (∀ a, emits I (f a)) → emits I (p ≫= f).
Proof.
  intros Hp Hf answer trace. rewrite run_prog_bind.
  destruct (Hp answer trace) as (l & Htr & Hl).
  destruct (run_prog answer trace p) as [trace' [a|e]]; simpl in *; subst; [|by exists l].
  destruct (Hf a answer (trace ++ l)) as (l' & -> & Hl'). exists (l ++ l').
  by rewrite app_assoc, Forall_app.
Qed.

Lemma emits_call (I : call → Prop) c : I c → emits I (do_call c : Prog _).
Proof. intros Hc answer trace. exists [c]. simpl. by split; [|constructor]. Qed.

Lemma emits_mono {A} (I J : call → Prop) (p : Prog A) :
  (∀ c, I c → J c) → emits I p → emits J p.
Proof.
  intros HIJ Hp answer trace. destruct (Hp answer trace) as (l & Htr & Hl).
  exists l. split; [done|]. by eapply Forall_impl.
Qed.

End emits.

(** ** What the command line asks of the services

    The programs of service.rs over some calls, which runtime a call executes
    and whether it starts the network. *)

Class NodeServices (call : Type) (ret : call → Type) (Stop Configuration Parts : Type) := {
  config_spec : Configuration → NodeCli.Spec;
  new_partial_with : NodeCli.RuntimeKind → Configuration → Prog ret Stop Parts;
  start_node_with : NodeCli.RuntimeKind → Configuration → Prog ret Stop unit;
  call_executes : call → option NodeCli.RuntimeKind;
  call_starts_network : call → bool
}.

Definition executes_only `{NodeServices call ret Stop Configuration Parts}
    (r : NodeCli.RuntimeKind) (c : call) : Prop :=
  ∀ r', call_executes c = Some r' → r' = r.

Class NodeServicesLaws `{NodeServices call ret Stop Configuration Parts} : Prop := {
  new_partial_emits : ∀ r config,
    emits (λ c, executes_only r c ∧ call_starts_network c = false) (new_partial_with r config);
  start_node_emits : ∀ r config, emits (executes_only r) (start_node_with r config)
}.

Module NodeService.
Section service.

(** The types of Substrate that the code only passes on. *)
Context {ServiceError Endpoint Worker Telemetry ExecutorConfig Executor PoolOptions : Type}.
Context {Client Backend Keystore Pool SelectChain BlockImport Link ImportQueue : Type}.
Context {Role Registry Hash Protocol PeersSet WarpSync Network RpcTx Starter : Type}.
Context {Proposer Aura Voter DenyUnsafe RpcModule RpcMethods RpcError : Type}.
Context (is_authority : Role → bool).
Context (protocol_standard_name : Hash → NodeCli.Spec → Protocol).
Context (grandpa_peers_set_config : Protocol → PeersSet).

(** [jsonrpsee] and the two RPC extensions. *)
Context (RpcModule_new : RpcModule) (merge : RpcModule → RpcMethods → result RpcError RpcModule).
Context (System_new : Client → Pool → DenyUnsafe → RpcMethods).
Context (TransactionPayment_new : Client → RpcMethods).

(** [crate::rpc::create_full] *)
Definition create_full (client : Client) (pool : Pool) (deny_unsafe : DenyUnsafe) :
    result RpcError RpcModule :=
  match merge RpcModule_new (System_new client pool deny_unsafe) with
  | Ok module => merge module (TransactionPayment_new client)
  | Err e => Err e
  end.

(** The parts of [Configuration] the code reads. *)
Record Configuration : Type := mkConfiguration {
  telemetry_endpoints : option (list Endpoint);
  executor_config : ExecutorConfig;
  transaction_pool : PoolOptions;
  role : Role;
  prometheus_registry : option Registry;
  node_name : string;
  extra_sets : list PeersSet;
  chain_spec : NodeCli.Spec;
  offchain_worker_enabled : bool;
  force_authoring : bool;
  disable_grandpa : bool
}.

(** [config.network.extra_sets.push(set)] *)
Definition push_extra_set (set : PeersSet) (c : Configuration) : Configuration :=
  mkConfiguration (telemetry_endpoints c) (executor_config c) (transaction_pool c) (role c)
    (prometheus_registry c) (node_name c) (extra_sets c ++ [set]) (chain_spec c)
    (offchain_worker_enabled c) (force_authoring c) (disable_grandpa c).

(** [sc_finality_grandpa::Config] *)
Record GrandpaConfig : Type := mkGrandpaConfig {
  gossip_duration : Z;
  justification_period : Z;
  grandpa_name : option string;
  observer_enabled : bool;
  keystore : option Keystore;
  local_role : Role;
  grandpa_telemetry : option Telemetry;
  protocol_name : Protocol
}.

(** The tasks the node spawns on its task manager. *)
Inductive Task : Type :=
| TelemetryTask (w : Worker)
| AuraTask (a : Aura)
| GrandpaVoterTask (v : Voter).

(** The calls to Substrate; arguments that are fixed (the slot portion, the
    inherent data providers, the task manager's handles) are left out. *)
Inductive ServiceCall : Type :=
| TelemetryWorker_new (buffer : Z)
| new_telemetry (w : Worker) (endpoints : list Endpoint)
| NativeElseWasmExecutor_new (r : NodeCli.RuntimeKind) (c : ExecutorConfig)
| new_full_parts (r : NodeCli.RuntimeKind) (c : Configuration) (t : option Telemetry) (e : Executor)
| spawn (name : string) (task : Task)
| spawn_essential_blocking (name : string) (group : option string) (task : Task)
| LongestChain_new (b : Backend)
| BasicPool_new_full (options : PoolOptions) (is_authority : bool) (r : option Registry)
    (c : Client)
| grandpa_block_import (c : Client) (s : SelectChain) (t : option Telemetry)
| aura_slot_duration (c : Client)
| aura_import_queue (block_import justification_import : BlockImport) (c : Client)
    (slot_duration : Z) (r : option Registry) (t : option Telemetry)
| block_hash (c : Client) (n : Z)
| WarpSync_new (b : Backend) (l : Link)
| build_network (c : Configuration) (client : Client) (p : Pool) (q : ImportQueue)
    (w : WarpSync)
| build_offchain_workers (c : Configuration) (client : Client) (n : Network)
| spawn_tasks (c : Configuration) (n : Network) (client : Client) (k : Keystore) (p : Pool)
    (rpc_builder : DenyUnsafe → result RpcError RpcModule) (b : Backend) (tx : RpcTx)
    (t : option Telemetry)
| ProposerFactory_new (c : Client) (p : Pool) (r : option Registry) (t : option Telemetry)
| start_aura (slot_duration : Z) (c : Client) (s : SelectChain) (b : BlockImport)
    (p : Proposer) (force_authoring : bool) (k : Keystore) (n : Network)
    (t : option Telemetry)
| run_grandpa_voter (c : GrandpaConfig) (l : Link) (n : Network) (r : option Registry)
    (t : option Telemetry)
| start_network (s : Starter).

(** Their answers; what Substrate may refuse is a [result]. *)
Definition answer_type (c : ServiceCall) : Type :=
  match c with
  | TelemetryWorker_new _ => result ServiceError Worker
  | new_telemetry _ _ => Telemetry
  | NativeElseWasmExecutor_new _ _ => Executor
  | new_full_parts _ _ _ _ => result ServiceError (Client * Backend * Keystore)
  | spawn _ _ => unit
  | spawn_essential_blocking _ _ _ => unit
  | LongestChain_new _ => SelectChain
  | BasicPool_new_full _ _ _ _ => Pool
  | grandpa_block_import _ _ _ => result ServiceError (BlockImport * Link)
  | aura_slot_duration _ => result ServiceError Z
  | aura_import_queue _ _ _ _ _ _ => result ServiceError ImportQueue
  | block_hash _ _ => option Hash
  | WarpSync_new _ _ => WarpSync
  | build_network _ _ _ _ _ => result ServiceError (Network * RpcTx * Starter)
  | build_offchain_workers _ _ _ => unit
  | spawn_tasks _ _ _ _ _ _ _ _ _ => result ServiceError unit
  | ProposerFactory_new _ _ _ _ => Proposer
  | start_aura _ _ _ _ _ _ _ _ _ => result ServiceError Aura
  | run_grandpa_voter _ _ _ _ _ => result ServiceError Voter
  | start_network _ => unit
  end.

(** How a program stops early: an error that [?] returns, or a panic. *)
Inductive Stop : Type :=
| Failed (e : ServiceError)
| Panicked.

Abbreviation Service := (Prog answer_type Stop).

Definition try {A} (r : result ServiceError A) : Service A :=
  lift (match r with Ok a => Ok a | Err e => Err (Failed e) end).

(** One call. *)
Definition ask (c : ServiceCall) : Service (answer_type c) := do_call c.

(** A call that may fail: [call?]. *)
Definition attempt {A} (p : Service (result ServiceError A)) : Service A :=
  r ← p; try r.

(** [expect]: [None] is a panic. *)
Definition expect {A} (p : Service (option A)) : Service A :=
  o ← p; lift (match o with Some a => Ok a | None => Err Panicked end).

(** ** [new_partial] *)

Record PartialComponents : Type := mkPartialComponents {
  client : Client;
  backend : Backend;
  import_queue : ImportQueue;
  keystore_container : Keystore;
  select_chain : SelectChain;
  pool : Pool;
  block_import : BlockImport;
  grandpa_link : Link;
  telemetry : option Telemetry
}.

(** The telemetry worker, when there are endpoints. *)
Definition new_worker (config : Configuration) : Service (option (Worker * Telemetry)) :=
  match telemetry_endpoints config with
  | Some (e :: es) =>
      worker ← attempt (ask (TelemetryWorker_new 16));
      telemetry ← ask (new_telemetry worker (e :: es));
      mret (Some (worker, telemetry))
  | _ => mret None
  end.

Definition spawn_worker (worker : option (Worker * Telemetry)) : Service (option Telemetry) :=
  match worker with
  | Some (worker, telemetry) =>
      ask (spawn "telemetry" (TelemetryTask worker));;
      mret (Some telemetry)
  | None => mret None
  end.

Definition new_partial (r : NodeCli.RuntimeKind) (config : Configuration) : Service PartialComponents :=
  worker ← new_worker config;
  executor ← ask (NativeElseWasmExecutor_new r (executor_config config));
  parts ← attempt (ask (new_full_parts r config (snd <$> worker) executor));
  let '(client, backend, keystore_container) := parts in
  telemetry ← spawn_worker worker;
  select_chain ← ask (LongestChain_new backend);
  pool ← ask (BasicPool_new_full (transaction_pool config) (is_authority (role config))
                    (prometheus_registry config) client);
  grandpa ← attempt (ask (grandpa_block_import client select_chain telemetry));
  let '(block_import, grandpa_link) := grandpa in
  slot_duration ← attempt (ask (aura_slot_duration client));
  import_queue ← attempt (ask (aura_import_queue block_import block_import client
                            slot_duration (prometheus_registry config) telemetry));
  mret (mkPartialComponents client backend import_queue keystore_container select_chain pool
          block_import grandpa_link telemetry).

(** ** [start_node_impl] *)

(** [if role.is_authority()]: block authoring. *)
Definition start_authoring (config : Configuration) (parts : PartialComponents)
    (network : Network) : Service unit :=
  proposer_factory ← ask (ProposerFactory_new (client parts) (pool parts)
                                (prometheus_registry config) (telemetry parts));
  slot_duration ← attempt (ask (aura_slot_duration (client parts)));
  aura ← attempt (ask (start_aura slot_duration (client parts) (select_chain parts)
                    (block_import parts) proposer_factory (force_authoring config)
                    (keystore_container parts) network (telemetry parts)));
  ask (spawn_essential_blocking "aura" (Some "block-authoring"%string) (AuraTask aura)).

(** [if enable_grandpa]: the full GRANDPA voter. *)
Definition start_grandpa (config : Configuration) (parts : PartialComponents)
    (network : Network) (grandpa_config : GrandpaConfig) : Service unit :=
  voter ← attempt (ask (run_grandpa_voter grandpa_config (grandpa_link parts) network
                     (prometheus_registry config) (telemetry parts)));
  ask (spawn_essential_blocking "grandpa-voter" None (GrandpaVoterTask voter)).

Definition start_node_impl (r : NodeCli.RuntimeKind) (config : Configuration) : Service unit :=
  parts ← new_partial r config;
  genesis ← expect (ask (block_hash (client parts) 0));
  let protocol_name := protocol_standard_name genesis (chain_spec config) in
  let config := push_extra_set (grandpa_peers_set_config protocol_name) config in
  warp_sync ← ask (WarpSync_new (backend parts) (grandpa_link parts));
  net ← attempt (ask (build_network config (client parts) (pool parts) (import_queue parts)
                   warp_sync));
  let '(network, system_rpc_tx, network_starter) := net in
  (if offchain_worker_enabled config
   then ask (build_offchain_workers config (client parts) network)
   else mret tt);;
  let enable_grandpa := negb (disable_grandpa config) in
  attempt (ask (spawn_tasks config network (client parts) (keystore_container parts)
                      (pool parts) (create_full (client parts) (pool parts)) (backend parts)
                      system_rpc_tx (telemetry parts)));;
  (if is_authority (role config) then start_authoring config parts network else mret tt);;
  let keystore :=
    if is_authority (role config) then Some (keystore_container parts) else None in
  let grandpa_config := mkGrandpaConfig 333 512 (Some (node_name config)) false keystore
                          (role config) (telemetry parts) protocol_name in
  (if enable_grandpa then start_grandpa config parts network grandpa_config else mret tt);;
  ask (start_network network_starter).

Definition start_local_node : Configuration → Service unit :=
  start_node_impl NodeCli.LocalRuntime.
Definition start_keiko_node : Configuration → Service unit :=
  start_node_impl NodeCli.KeikoRuntime.

(** The node that [NodeCli.run] starts. *)
Definition run_node (config : Configuration) : Service unit :=
  match NodeCli.run None (chain_spec config) with
  | NodeCli.NodeWith NodeCli.KeikoRuntime => start_keiko_node config
  | _ => start_local_node config
  end.

(** ** A program logic for the start-up *)

(** The answer that stops the program. *)
Definition refused (c : ServiceCall) : answer_type c → option Stop :=
  match c with
  | TelemetryWorker_new _ | new_full_parts _ _ _ _ | grandpa_block_import _ _ _
  | aura_slot_duration _ | aura_import_queue _ _ _ _ _ _ | build_network _ _ _ _ _
  | spawn_tasks _ _ _ _ _ _ _ _ _ | start_aura _ _ _ _ _ _ _ _ _
  | run_grandpa_voter _ _ _ _ _ =>
      λ a, match a with Ok _ => None | Err e => Some (Failed e) end
  | block_hash _ _ => λ a, match a with Some _ => None | None => Some Panicked end
  | _ => λ _, None
  end.

(** The tasks spawned by a trace, and whether they are essential. *)
Definition spawned_by (c : ServiceCall) : list (string * bool) :=
  match c with
  | spawn name _ => [(name, false)]
  | spawn_essential_blocking name _ _ => [(name, true)]
  | _ => []
  end.
Definition spawned (l : list ServiceCall) : list (string * bool) := l ≫= spawned_by.

Abbreviation Answers := (list ServiceCall → ∀ c, answer_type c).

(** All calls of [l], made after [trace], were answered; the last one was not. *)
Definition accepted (answer : Answers) (trace l : list ServiceCall) : Prop :=
  ∀ l1 c l2, l = l1 ++ c :: l2 → refused c (answer (trace ++ l1) c) = None.
Definition stopped (answer : Answers) (trace l : list ServiceCall) (e : Stop) : Prop :=
  ∃ l' c, l = l' ++ [c] ∧ accepted answer trace l' ∧
    refused c (answer (trace ++ l') c) = Some e.

(** [p] makes only calls in [I]; when it returns, no call was refused, the value
    is in [P] and the tasks are [tasks]; otherwise it stops at the first refusal. *)
Definition triple {A} (I : ServiceCall → Prop) (tasks : list (string * bool))
    (P : A → Prop) (p : Service A) : Prop :=
  ∀ answer trace, ∃ l,
    (run_prog answer trace p).1 = trace ++ l ∧ Forall I l ∧
    match (run_prog answer trace p).2 with
    | Ok a => P a ∧ spawned l = tasks ∧ accepted answer trace l
    | Err e => stopped answer trace l e
    end.

Lemma accepted_nil answer trace : accepted answer trace [].
Proof. by intros [] ?. Qed.

Lemma accepted_app answer trace l k :
  accepted answer trace l → accepted answer (trace ++ l) k → accepted answer trace (l ++ k).
Proof.
  intros Hl Hk l1 c l2 Heq.
  apply app_eq_inv in Heq as [(m & -> & Hm)|(m & -> & ->)].
  - destruct m as [|c' m]; simplify_eq/=.
    + rewrite app_nil_r in Hk. specialize (Hk [] c l2 eq_refl). by rewrite app_nil_r in Hk.
    + by eapply Hl.
  - rewrite app_assoc. by eapply Hk.
Qed.

Lemma accepted_snoc answer trace c :
  refused c (answer trace c) = None → accepted answer trace [c].
Proof.
  intros Hr [|x l1] c' l2 Heq; simplify_eq/=; [by rewrite app_nil_r|].
  by destruct l1.
Qed.

Lemma triple_ret {A} (I : ServiceCall → Prop) (P : A → Prop) a :
  P a → triple I [] P (mret a).
Proof.
  intros HP answer trace. exists []. simpl. rewrite app_nil_r.
  split_and!; try done. apply accepted_nil.
Qed.

Lemma triple_bind {A B} I tasks tasks' (P : A → Prop) (Q : B → Prop) p (f : A → Service B) :
  triple I tasks P p → (∀ a, P a → triple I tasks' Q (f a)) →
  triple I (tasks ++ tasks') Q (p ≫= f).
Proof.
  intros Hp Hf answer trace. specialize (Hp answer trace) as (l & Htr & Hl & Hres).
  rewrite run_prog_bind. destruct (run_prog answer trace p) as [tr [a|e]]; simpl in *.
  - destruct Hres as (HP & Hsp & Hacc). subst tr.
    destruct (Hf a HP answer (trace ++ l)) as (k & -> & Hk & Hres).
    exists (l ++ k). rewrite app_assoc. split_and!; [done|by apply Forall_app|].
    destruct (run_prog answer (trace ++ l) (f a)).2 as [b|e].
    + destruct Hres as (HQ & Hsp' & Hacc'). split_and!; [done| |by apply accepted_app].
      unfold spawned in *. by rewrite bind_app, Hsp, Hsp'.
    + destruct Hres as (k' & c & -> & Hacc' & Href). exists (l ++ k'), c.
      split_and!; [by rewrite app_assoc|by apply accepted_app|by rewrite app_assoc].
  - exists l. by split_and!.
Qed.

Lemma triple_ask (I : ServiceCall → Prop) c :
  I c → (∀ a, refused c a = None) → triple I (spawned_by c) (λ _, True) (ask c).
Proof.
  intros HI Href answer trace. exists [c]. simpl.
  split_and!; [done|by constructor|done|by apply app_nil_r|by apply accepted_snoc].
Qed.

(** A call whose answer [to] may stop the program. *)
Lemma triple_fallible {A} (I : ServiceCall → Prop) c (to : answer_type c → result Stop A)
    (p : Service A) :
  (∀ answer trace, run_prog answer trace p = (trace ++ [c], to (answer trace c))) →
  (∀ a, refused c a = match to a with Ok _ => None | Err e => Some e end) →
  spawned_by c = [] → I c → triple I [] (λ _, True) p.
Proof.
  intros Hrun Href Hsp HI answer trace. exists [c]. rewrite Hrun. simpl.
  split_and!; [done|by constructor|]. specialize (Href (answer trace c)).
  destruct (to _) as [a|e].
  - split_and!; [done|unfold spawned; simpl; by rewrite Hsp|by apply accepted_snoc].
  - exists [], c. split_and!; [done|apply accepted_nil|by rewrite app_nil_r].
Qed.

Definition to_stop {A} (r : result ServiceError A) : result Stop A :=
  match r with Ok a => Ok a | Err e => Err (Failed e) end.

(** *** What the start-up may call *)

Context (r : NodeCli.RuntimeKind) (config : Configuration).

(** The GRANDPA voter has the keystore exactly on an authority. *)
Definition voter_config_ok (g : GrandpaConfig) : Prop :=
  is_Some (keystore g) ↔ is_authority (role config) = true.

(** Every call but the start of the network: one runtime throughout, authoring only on an authority,
    GRANDPA and the off-chain workers only when enabled, the network with the
    GRANDPA protocol. *)
Definition permitted (c : ServiceCall) : Prop :=
  match c with
  | NativeElseWasmExecutor_new r' _ | new_full_parts r' _ _ _ => r' = r
  | BasicPool_new_full _ a _ _ => a = is_authority (role config)
  | build_network c _ _ _ _ =>
      ∃ h, extra_sets c = extra_sets config ++
        [grandpa_peers_set_config (protocol_standard_name h (chain_spec config))]
  | build_offchain_workers _ _ _ => offchain_worker_enabled config = true
  | ProposerFactory_new _ _ _ _ | start_aura _ _ _ _ _ _ _ _ _ =>
      is_authority (role config) = true
  | run_grandpa_voter g _ _ _ _ => disable_grandpa config = false ∧ voter_config_ok g
  | start_network _ => False
  | _ => True
  end.

(** The tasks of a node. *)
Definition has_telemetry : bool :=
  match telemetry_endpoints config with Some (_ :: _) => true | _ => false end.
Definition telemetry_tasks : list (string * bool) :=
  if has_telemetry then [("telemetry"%string, false)] else [].
Definition consensus_tasks : list (string * bool) :=
  (if is_authority (role config) then [("aura"%string, true)] else []) ++
  (if disable_grandpa config then [] else [("grandpa-voter"%string, true)]).

Ltac call :=
  match goal with
  | |- triple _ _ _ (attempt (ask ?c)) =>
      apply (triple_fallible _ c to_stop);
        [intros ans tr; cbn; by destruct (ans tr _)|by intros []|reflexivity|simpl]
  | |- triple _ _ _ (expect (ask ?c)) =>
      apply (triple_fallible _ c (λ o, match o with Some a => Ok a | None => Err Panicked end));
        [intros ans tr; cbn; by destruct (ans tr _)|by intros []|reflexivity|simpl]
  | |- triple _ _ _ (ask ?c) => apply (triple_ask _ c); [simpl|done]
  end.

Lemma triple_new_worker :
  triple permitted [] (λ w, is_Some w ↔ has_telemetry = true) (new_worker config).
Proof.
  unfold new_worker, has_telemetry.
  destruct (telemetry_endpoints config) as [[|e es]|];
    [apply triple_ret; split; [by intros [? [=]]|done]| |apply triple_ret; split;
      [by intros [? [=]]|done]].
  eapply (triple_bind _ [] []); [by call|]. intros w _.
  eapply (triple_bind _ [] []); [by call|]. intros t _.
  by apply triple_ret.
Qed.

Lemma triple_spawn_worker w :
  (is_Some w ↔ has_telemetry = true) →
  triple permitted telemetry_tasks (λ _, True) (spawn_worker w).
Proof.
  unfold telemetry_tasks. intros Hw. destruct w as [[w t]|]; cbn [spawn_worker].
  - rewrite (proj1 Hw) by by eexists.
    eapply (triple_bind _ [("telemetry"%string, false)] []); [by call|]. intros ? _. by apply triple_ret.
  - destruct has_telemetry; [by destruct (proj2 Hw eq_refl)|]. by apply triple_ret.
Qed.

Lemma triple_new_partial :
  triple permitted telemetry_tasks (λ _, True) (new_partial r config).
Proof.
  unfold new_partial.
  eapply (triple_bind _ [] telemetry_tasks); [apply triple_new_worker|]. intros w Hw.
  eapply (triple_bind _ [] telemetry_tasks); [by call|]. intros e _.
  eapply (triple_bind _ [] telemetry_tasks); [by call|]. intros [[c b] k] _.
  rewrite <-(app_nil_r telemetry_tasks).
  eapply triple_bind; [by apply triple_spawn_worker|]. intros t _.
  eapply (triple_bind _ [] []); [by call|]. intros sc _.
  eapply (triple_bind _ [] []); [by call|]. intros pl _.
  eapply (triple_bind _ [] []); [by call|]. intros [bi l] _.
  eapply (triple_bind _ [] []); [by call|]. intros sd _.
  eapply (triple_bind _ [] []); [by call|]. intros q _.
  by apply triple_ret.
Qed.

Lemma triple_start_authoring parts n :
  is_authority (role config) = true →
  triple permitted [("aura"%string, true)] (λ _, True) (start_authoring config parts n).
Proof.
  intros Ha. unfold start_authoring.
  eapply (triple_bind _ [] [_]); [by call|]. intros pf _.
  eapply (triple_bind _ [] [_]); [by call|]. intros sd _.
  eapply (triple_bind _ [] [_]); [by call|]. intros a _. by call.
Qed.

Lemma triple_start_grandpa parts n g :
  disable_grandpa config = false → voter_config_ok g →
  triple permitted [("grandpa-voter"%string, true)] (λ _, True)
    (start_grandpa config parts n g).
Proof.
  intros Hd Hg. unfold start_grandpa.
  eapply (triple_bind _ [] [_]); [by call|]. intros v _. by call.
Qed.

(** A program that starts the network last, and only when nothing was refused. *)
Definition starts (tasks : list (string * bool)) (p : Service unit) : Prop :=
  ∀ answer trace, ∃ l,
    (run_prog answer trace p).1 = trace ++ l ∧
    match (run_prog answer trace p).2 with
    | Ok _ => ∃ l' s, l = l' ++ [start_network s] ∧ Forall permitted l' ∧
        spawned l = tasks ∧ accepted answer trace l
    | Err e => Forall permitted l ∧ stopped answer trace l e
    end.

Lemma starts_network s : starts [] (ask (start_network s)).
Proof.
  intros answer trace. exists [start_network s]. simpl. split; [done|].
  exists [], s. split_and!; [done|done|done|by apply accepted_snoc].
Qed.

Lemma starts_bind {A} tasks tasks' (P : A → Prop) p (f : A → Service unit) :
  triple permitted tasks P p → (∀ a, P a → starts tasks' (f a)) →
  starts (tasks ++ tasks') (p ≫= f).
Proof.
  intros Hp Hf answer trace. specialize (Hp answer trace) as (l & Htr & Hl & Hres).
  rewrite run_prog_bind. destruct (run_prog answer trace p) as [tr [a|e]]; simpl in *.
  - destruct Hres as (HP & Hsp & Hacc). subst tr.
    destruct (Hf a HP answer (trace ++ l)) as (k & -> & Hres).
    exists (l ++ k). rewrite app_assoc. split; [done|].
    destruct (run_prog answer (trace ++ l) (f a)).2 as [b|e].
    + destruct Hres as (k' & s & -> & Hk & Hsp' & Hacc'). exists (l ++ k'), s.
      split_and!; [by rewrite app_assoc|by apply Forall_app| |by apply accepted_app].
      unfold spawned in *. by rewrite bind_app, Hsp, Hsp'.
    + destruct Hres as (Hk & k' & c & -> & Hacc' & Href). split; [by apply Forall_app|].
      exists (l ++ k'), c.
      split_and!; [by rewrite app_assoc|by apply accepted_app|by rewrite app_assoc].
  - exists l. by split_and!.
Qed.

Lemma triple_when (b : bool) t (p : Service unit) :
  (b = true → triple permitted [t] (λ _, True) p) →
  triple permitted (if b then [t] else []) (λ _, True) (if b then p else mret tt).
Proof. destruct b; intros Hp; [by apply Hp|by apply triple_ret]. Qed.

Lemma start_node_starts :
  starts (telemetry_tasks ++ consensus_tasks) (start_node_impl r config).
Proof.
  unfold start_node_impl, consensus_tasks.
  eapply starts_bind; [apply triple_new_partial|]. intros parts _.
  eapply (starts_bind [] _); [by call|]. intros h _. cbv zeta.
  eapply (starts_bind [] _); [by call|]. intros w _.
  eapply (starts_bind [] _); [by call; exists h|]. intros [[n tx] s] _.
  eapply (starts_bind [] _ (λ _, True)).
  { cbn [push_extra_set offchain_worker_enabled].
    destruct (offchain_worker_enabled config) eqn:Ho; [by call|by apply triple_ret]. }
  intros _ _. eapply (starts_bind [] _); [by call|]. intros _ _.
  eapply (starts_bind _ _ (λ _, True)).
  { apply triple_when. intros Ha. by apply (triple_start_authoring parts n). }
  intros _ _. rewrite <-(app_nil_r (if disable_grandpa config then _ else _)).
  eapply (starts_bind _ _ (λ _, True)); [|intros _ _; apply starts_network].
  cbn [push_extra_set disable_grandpa]. destruct (disable_grandpa config) eqn:Hd.
  - by apply triple_ret.
  - apply (triple_start_grandpa parts n); [done|]. unfold voter_config_ok. simpl.
    destruct (is_authority (role config)); [by eauto|]. split; [by intros [? [=]]|done].
Qed.

(** C39: Starting a node with a runtime: the network is started exactly once, as
    the last call, and only when nothing before it was refused; then the tasks on
    the task manager are exactly those the configuration asks for (telemetry when
    there are endpoints, the essential authoring task on an authority only, the
    essential GRANDPA voter unless disabled).  Otherwise the start-up stops at
    the first refusal with that error and the network is not started.  In every
    case the executor and the client are that runtime's, authoring is set up on
    authorities only, the voter holds the keystore on authorities only, and the
    network is built with the GRANDPA protocol. *)
Theorem node_start_up (answer : Answers) :
  let '(trace, res) := run_prog answer [] (start_node_impl r config) in
  match res with
  | Ok _ =>
      ∃ before s, trace = before ++ [start_network s] ∧ Forall permitted before ∧
        spawned trace = telemetry_tasks ++ consensus_tasks ∧ accepted answer [] trace
  | Err e => Forall permitted trace ∧ stopped answer [] trace e
  end.
Proof.
  destruct (start_node_starts answer []) as (l & Htr & Hres).
  destruct (run_prog answer [] (start_node_impl r config)) as [trace res]. simpl in *.
  by subst l.
Qed.

(** When Substrate refuses nothing the node starts. *)
Theorem node_starts (answer : Answers) :
  (∀ trace c, refused c (answer trace c) = None) →
  (run_prog answer [] (start_node_impl r config)).2 = Ok tt.
Proof.
  intros Hall. destruct (start_node_starts answer []) as (l & Htr & Hres).
  destruct (run_prog answer [] (start_node_impl r config)).2 as [[]|e]; [done|].
  destruct Hres as (_ & l' & c & _ & _ & Hr). by rewrite Hall in Hr.
Qed.

End service.

(** *** The interface of the command line *)

Section interface.
Context {ServiceError Endpoint Worker Telemetry ExecutorConfig Executor PoolOptions : Type}.
Context {Client Backend Keystore Pool SelectChain BlockImport Link ImportQueue : Type}.
Context {Role Registry Hash Protocol PeersSet WarpSync Network RpcTx Starter : Type}.
Context {Proposer Aura Voter DenyUnsafe RpcModule RpcMethods RpcError : Type}.
Context (is_authority : Role → bool).
Context (protocol_standard_name : Hash → NodeCli.Spec → Protocol).
Context (grandpa_peers_set_config : Protocol → PeersSet).
Context (RpcModule_new : RpcModule) (merge : RpcModule → RpcMethods → result RpcError RpcModule).
Context (System_new : Client → Pool → DenyUnsafe → RpcMethods).
Context (TransactionPayment_new : Client → RpcMethods).

Abbreviation Call := (@ServiceCall Endpoint Worker Telemetry ExecutorConfig Executor PoolOptions
  Client Backend Keystore Pool SelectChain BlockImport Link ImportQueue Role Registry Protocol
  PeersSet WarpSync Network RpcTx Starter Proposer Aura Voter DenyUnsafe RpcModule RpcError).
Abbreviation answers := (@answer_type ServiceError Endpoint Worker Telemetry ExecutorConfig
  Executor PoolOptions Client Backend Keystore Pool SelectChain BlockImport Link ImportQueue
  Role Registry Hash Protocol PeersSet WarpSync Network RpcTx Starter Proposer Aura Voter
  DenyUnsafe RpcModule RpcError).

Definition executor_of (c : Call) : option NodeCli.RuntimeKind :=
  match c with
  | NativeElseWasmExecutor_new r _ | new_full_parts r _ _ _ => Some r
  | _ => None
  end.
Definition is_start_network (c : Call) : bool :=
  match c with start_network _ => true | _ => false end.

#[export] Instance services :
    NodeServices Call answers Stop Configuration PartialComponents := {|
  config_spec := chain_spec;
  new_partial_with := new_partial is_authority;
  start_node_with r config :=
    match r with
    | NodeCli.KeikoRuntime =>
        start_keiko_node is_authority protocol_standard_name grandpa_peers_set_config
          RpcModule_new merge System_new TransactionPayment_new config
    | NodeCli.LocalRuntime =>
        start_local_node is_authority protocol_standard_name grandpa_peers_set_config
          RpcModule_new merge System_new TransactionPayment_new config
    end;
  call_executes := executor_of;
  call_starts_network := is_start_network
|}.

#[export] Instance services_laws : NodeServicesLaws.
Proof.
  split; simpl.
  - intros r config answer trace.
    destruct (triple_new_partial is_authority protocol_standard_name grandpa_peers_set_config
      r config answer trace) as (l & Htr & Hl & _).
    exists l. split; [done|]. eapply Forall_impl; [exact Hl|]. unfold executes_only. simpl.
    by intros [] Hp; simpl in *; (split; [intros ? [= <-]|]).
  - intros r config answer trace.
    destruct (start_node_starts is_authority protocol_standard_name grandpa_peers_set_config
      RpcModule_new merge System_new TransactionPayment_new r config answer trace)
      as (l & Htr & Hres).
    assert (Forall (executes_only r) l) as Hl.
    { assert (∀ l', Forall (permitted is_authority protocol_standard_name
        grandpa_peers_set_config r config) l' → Forall (executes_only r) l') as Himpl.
      { intros l' Hl'. eapply Forall_impl; [exact Hl'|]. unfold executes_only. simpl.
        by intros [] Hp; simpl in *; intros ? [= <-]. }
      destruct (run_prog answer trace _).2 as [?|e].
      - destruct Hres as (l' & s & -> & Hl' & _). apply Forall_app. split; [by apply Himpl|].
        by constructor.
      - by apply Himpl, Hres. }
    exists l. split; [|done]. by destruct r.
Qed.

End interface.

(** *** A run

    Every opaque type is [unit], a role is [true] for an authority. *)
Abbreviation DemoServiceCall := (@ServiceCall
  unit unit unit unit unit unit unit unit unit unit unit unit unit unit
  bool unit unit unit unit unit unit unit unit unit unit unit unit unit).
Abbreviation demo_answer_type := (@answer_type unit
  unit unit unit unit unit unit unit unit unit unit unit unit unit unit
  bool unit unit unit unit unit unit unit unit unit unit unit unit unit unit).

Definition demo_answer (_ : list DemoServiceCall) (c : DemoServiceCall) : demo_answer_type c :=
  match c with
  | TelemetryWorker_new _ => Ok tt
  | new_full_parts _ _ _ _ => Ok (tt, tt, tt)
  | grandpa_block_import _ _ _ => Ok (tt, tt)
  | aura_slot_duration _ => Ok 12000
  | aura_import_queue _ _ _ _ _ _ => Ok tt
  | block_hash _ _ => Some tt
  | build_network _ _ _ _ _ => Ok (tt, tt, tt)
  | spawn_tasks _ _ _ _ _ _ _ _ _ => Ok tt
  | start_aura _ _ _ _ _ _ _ _ _ => Ok tt
  | run_grandpa_voter _ _ _ _ _ => Ok tt
  | _ => tt
  end.

(** An authority with a telemetry endpoint. *)
Definition demo_config : Configuration (Registry := unit) (PeersSet := unit) :=
  mkConfiguration (Some [tt]) tt tt true None "node" [] NodeCli.keiko_spec false false false.

Abbreviation demo_start := (start_node_impl (RpcMethods := unit) (λ a : bool, a)
  (λ _ _, tt) (λ _, tt) tt (λ _ _, Ok tt) (λ _ _ _, tt) (λ _, tt)).

Lemma node_starts_witness :
  spawned (run_prog demo_answer [] (demo_start NodeCli.KeikoRuntime demo_config)).1 =
    [("telemetry"%string, false); ("aura"%string, true); ("grandpa-voter"%string, true)] ∧
  (run_prog demo_answer [] (demo_start NodeCli.KeikoRuntime demo_config)).2 = Ok tt.
Proof.
  split; [vm_compute; reflexivity|].
  apply (node_starts (λ a : bool, a) (λ _ _, tt) (λ _, tt) tt (λ _ _, Ok tt) (λ _ _ _, tt)
    (λ _, tt) NodeCli.KeikoRuntime demo_config demo_answer).
  intros trace []; reflexivity.
Defined.

End NodeService.
