(* ===== verification/NodeMain.v ===== *)
(** * The command line as a program

    node/bin/main.rs and [run] of node/src/command.rs: which calls a subcommand
    makes, with which runtime, and what happens when one of them fails.  The
    services are known through their interface [NodeServices]; the decision which
    runtime a subcommand executes is the table [NodeCli.run]. *)

From S2P Require Export NodeService.

Module NodeMain.

(** ** Native executors

    [NativeVersion] without its authoring set, and
    [sc_executor::NativeExecutionDispatch]; [api::dispatch] is what
    [impl_runtime_apis!] generates. *)
Section executors.
Context {CanAuthorWith : Type} (default_can_author_with : CanAuthorWith).
Context (api_dispatch : NodeCli.RuntimeKind → string → Bytes → option Bytes).

Record NativeVersion : Type := mkNativeVersion {
  runtime_version : NodeCli.RuntimeVersion;
  can_author_with : CanAuthorWith
}.

Definition keiko_native_version : NativeVersion :=
  mkNativeVersion NodeCli.keiko_VERSION default_can_author_with.
Definition local_native_version : NativeVersion :=
  mkNativeVersion NodeCli.local_VERSION default_can_author_with.

Record NativeExecutionDispatch : Type := mkDispatch {
  dispatch : string → Bytes → option Bytes;
  native_version : NativeVersion
}.

Definition local_Executor : NativeExecutionDispatch :=
  mkDispatch (api_dispatch NodeCli.LocalRuntime) local_native_version.
Definition keiko_Executor : NativeExecutionDispatch :=
  mkDispatch (api_dispatch NodeCli.KeikoRuntime) keiko_native_version.

Definition Executor (r : NodeCli.RuntimeKind) : NativeExecutionDispatch :=
  match r with
  | NodeCli.KeikoRuntime => keiko_Executor
  | NodeCli.LocalRuntime => local_Executor
  end.

(** An executor announces the version of the runtime it runs. *)
Lemma executor_version r : runtime_version (native_version (Executor r)) = NodeCli.version_of r.
Proof. by destruct r. Qed.

End executors.

(** ** [impl SubstrateCli for Cli]

    The values the build script puts into the environment are parameters. *)
Section cli.
Context (SUBSTRATE_CLI_IMPL_VERSION CARGO_PKG_DESCRIPTION CARGO_PKG_AUTHORS : string).
Context (embedded : result string NodeCli.Spec)
        (from_json_file : string → result string NodeCli.Spec).

Record SubstrateCli : Type := mkSubstrateCli {
  impl_name : string;
  impl_version : string;
  description : string;
  author : string;
  support_url : string;
  copyright_start_year : Z;
  load_spec : string → result string NodeCli.Spec;
  native_runtime_version : NodeCli.Spec → NodeCli.RuntimeVersion
}.

Definition Cli : SubstrateCli := {|
  impl_name := "MassbitChain Node";
  impl_version := SUBSTRATE_CLI_IMPL_VERSION;
  description := CARGO_PKG_DESCRIPTION;
  author := CARGO_PKG_AUTHORS;
  support_url := "https://github.com/massbitprotocol/massbitchain/issue/new";
  copyright_start_year := 2022;
  load_spec := NodeCli.load_spec embedded from_json_file;
  native_runtime_version := NodeCli.native_runtime_version
|}.
End cli.

(** ** [run] *)

Section run.
Context {SC : Type} {SR : SC → Type} {Stop Configuration Parts : Type}.
Context `{!NodeServices SC SR Stop Configuration Parts}.
(** [sc_cli::Error] as far as [sc_cli] itself raises it. *)
Context {Error : Type}.

(** The calls to [clap] and [sc_cli]; [None] for [from_args] is a command line
    that does not parse, which ends the process. *)
Inductive CliCall : Type :=
| from_args
| create_runner (sub : option NodeCli.Subcommand)
| BuildSpecCmd_run (config : Configuration)
| CheckBlockCmd_run (parts : Parts)
| KeySubcommand_run
| SignCmd_run
| VerifyCmd_run
| VanityCmd_run
| PalletCmd_run (r : NodeCli.RuntimeKind) (config : Configuration)
| MachineCmd_run (config : Configuration)
| wait_until_exit
| service (c : SC).

Definition CliRet (c : CliCall) : Type :=
  match c with
  | from_args => option (option NodeCli.Subcommand)
  | create_runner _ => result Error Configuration
  | service c => SR c
  | _ => result Error unit
  end.

(** How [run] fails. *)
Inductive CliError : Type :=
| Exited
| Cli_error (e : Error)
| Input (message : string)
| Service (e : Stop).

Abbreviation CliProg := (Prog CliRet CliError).

(** A program of the services, its errors as [sc_cli::Error::Service]. *)
Fixpoint embed {A} (p : Prog SR Stop A) : CliProg A :=
  match p with
  | Done (Ok a) => Done (Ok a)
  | Done (Err e) => Done (Err (Service e))
  | Call c k => Call (service c : CliCall) (λ x, embed (k x))
  end.

(** [call?] *)
Definition attempt {A} (p : CliProg (result Error A)) : CliProg A :=
  r ← p; Done (match r with Ok a => Ok a | Err e => Err (Cli_error e) end).

Definition parse : CliProg (option NodeCli.Subcommand) :=
  cli ← do_call from_args;
  Done (match cli with Some sub => Ok sub | None => Err Exited end).

Definition runner (sub : option NodeCli.Subcommand) : CliProg Configuration :=
  attempt (do_call (create_runner sub)).

Definition is_keiko (config : Configuration) : bool := NodeCli.is_keiko (config_spec config).

Definition run : CliProg unit :=
  sub ← parse;
  match sub with
  | Some NodeCli.BuildSpec =>
      config ← runner sub;
      attempt (do_call (BuildSpecCmd_run config))
  | Some NodeCli.CheckBlock =>
      config ← runner sub;
      if is_keiko config
      then parts ← embed (new_partial_with NodeCli.KeikoRuntime config);
           attempt (do_call (CheckBlockCmd_run parts))
      else parts ← embed (new_partial_with NodeCli.LocalRuntime config);
           attempt (do_call (CheckBlockCmd_run parts))
  | Some NodeCli.Key => attempt (do_call KeySubcommand_run)
  | Some NodeCli.Sign => attempt (do_call SignCmd_run)
  | Some NodeCli.Verify => attempt (do_call VerifyCmd_run)
  | Some NodeCli.Vanity => attempt (do_call VanityCmd_run)
  | Some (NodeCli.Benchmark cmd) =>
      config ← runner sub;
      match cmd with
      | NodeCli.Pallet =>
          if is_keiko config
          then attempt (do_call (PalletCmd_run NodeCli.KeikoRuntime config))
          else attempt (do_call (PalletCmd_run NodeCli.LocalRuntime config))
      | NodeCli.Block => Done (Err (Input "Benchmark block not supported."))
      | NodeCli.Storage => Done (Err (Input "Benchmark storage not supported."))
      | NodeCli.Overhead => Done (Err (Input "Benchmark overhead not supported."))
      | NodeCli.Machine => attempt (do_call (MachineCmd_run config))
      end
  | None =>
      config ← runner sub;
      (if is_keiko config
       then embed (start_node_with NodeCli.KeikoRuntime config)
       else embed (start_node_with NodeCli.LocalRuntime config));;
      attempt (do_call wait_until_exit)
  end.

(** node/bin/main.rs *)
Definition main : CliProg unit := run.

(** ** What a run does *)

Abbreviation CliAnswers := (list CliCall → ∀ c, CliRet c).

(** The runtime a call executes. *)
Definition runtime_of (c : CliCall) : option NodeCli.RuntimeKind :=
  match c with
  | PalletCmd_run r _ => Some r
  | service c => call_executes c
  | _ => None
  end.
Definition starts_network (c : CliCall) : bool :=
  match c with service c => call_starts_network c | _ => false end.

(** A call that the decision [o] allows: it executes the runtime of [o], and it
    starts the network only when [o] is to run a node. *)
Definition allowed (o : NodeCli.Outcome) (c : CliCall) : Prop :=
  (∀ r, runtime_of c = Some r → NodeCli.executes o = Some r) ∧
  (starts_network c = true → ∃ r, o = NodeCli.NodeWith r).

(** The answers as the services see them after the calls [trace]. *)
Definition service_answers (answer : CliAnswers) (trace : list CliCall) :
    list SC → ∀ c, SR c :=
  λ l c, answer (trace ++ (service <$> l)) (service c).

(** Running an embedded program. *)
Lemma run_embed {A} (answer : CliAnswers) trace (p : Prog SR Stop A) l :
  run_prog answer (trace ++ (service <$> l)) (embed p) =
  let '(l', r) := run_prog (service_answers answer trace) l p in
  (trace ++ (service <$> l'), match r with Ok a => Ok a | Err e => Err (Service e) end).
Proof.
  revert l. induction p as [[a|e]|c k IH]; intros l; [done|done|]. simpl.
  change [service c] with (service <$> [c] : list CliCall).
  rewrite <-app_assoc, <-fmap_app. apply IH.
Qed.

Lemma emits_embed {A} I (p : Prog SR Stop A) (J : CliCall → Prop) :
  emits I p → (∀ c, I c → J (service c)) → emits J (embed p).
Proof.
  intros Hp HIJ answer trace. pose proof (run_embed answer trace p []) as Hr.
  rewrite app_nil_r in Hr. rewrite Hr.
  destruct (Hp (service_answers answer trace) []) as (l & Htr & Hl).
  destruct (run_prog _ [] p) as [l' r]. simpl in *. subst l'.
  exists (service <$> l). split; [done|]. apply Forall_fmap.
  by eapply Forall_impl; [exact Hl|].
Qed.

Lemma emits_attempt {A} (I : CliCall → Prop) (p : CliProg (result Error A)) :
  emits I p → emits I (attempt p).
Proof. intros Hp. apply emits_bind; [done|]. intros a. apply emits_done. Qed.

Lemma emits_attempt_call (I : CliCall → Prop) (c : CliCall) (p : CliProg (result Error unit)) :
  (∀ answer trace, (run_prog answer trace p).1 = trace ++ [c]) → I c → emits I (attempt p).
Proof.
  intros Hp Hc. apply emits_attempt. intros answer trace. exists [c].
  by split; [|constructor].
Qed.

Context `{!NodeServicesLaws}.

(** A runner was created: what is left of [run]. *)
Definition rest (sub : option NodeCli.Subcommand) (config : Configuration) : CliProg unit :=
  match sub with
  | Some NodeCli.BuildSpec => attempt (do_call (BuildSpecCmd_run config))
  | Some NodeCli.CheckBlock =>
      parts ← embed (new_partial_with
        (if is_keiko config then NodeCli.KeikoRuntime else NodeCli.LocalRuntime) config);
      attempt (do_call (CheckBlockCmd_run parts))
  | Some (NodeCli.Benchmark NodeCli.Pallet) =>
      attempt (do_call (PalletCmd_run
        (if is_keiko config then NodeCli.KeikoRuntime else NodeCli.LocalRuntime) config))
  | Some (NodeCli.Benchmark NodeCli.Block) => Done (Err (Input "Benchmark block not supported."))
  | Some (NodeCli.Benchmark NodeCli.Storage) =>
      Done (Err (Input "Benchmark storage not supported."))
  | Some (NodeCli.Benchmark NodeCli.Overhead) =>
      Done (Err (Input "Benchmark overhead not supported."))
  | Some (NodeCli.Benchmark NodeCli.Machine) => attempt (do_call (MachineCmd_run config))
  | Some NodeCli.Key => attempt (do_call KeySubcommand_run)
  | Some NodeCli.Sign => attempt (do_call SignCmd_run)
  | Some NodeCli.Verify => attempt (do_call VerifyCmd_run)
  | Some NodeCli.Vanity => attempt (do_call VanityCmd_run)
  | None =>
      embed (start_node_with
        (if is_keiko config then NodeCli.KeikoRuntime else NodeCli.LocalRuntime) config);;
      attempt (do_call wait_until_exit)
  end.

Definition needs_runner (sub : option NodeCli.Subcommand) : bool :=
  match sub with
  | Some (NodeCli.Key | NodeCli.Sign | NodeCli.Verify | NodeCli.Vanity) => false
  | _ => true
  end.

Lemma rest_allowed sub config :
  emits (allowed (NodeCli.run sub (config_spec config))) (rest sub config).
Proof.
  set (r := if is_keiko config then NodeCli.KeikoRuntime else NodeCli.LocalRuntime).
  assert (∀ o c, runtime_of c = None → starts_network c = false → allowed o c) as Hplain.
  { intros o c Hr Hn. split; [rewrite Hr|rewrite Hn]; done. }
  assert (∀ o, o = NodeCli.NodeWith r →
    emits (allowed o) (rest None config)) as Hnode.
  { intros o ->. apply emits_bind.
    - eapply emits_embed; [apply start_node_emits|]. intros c Hc.
      split; simpl; [|by exists r]. intros r' Hr'. by rewrite (Hc r' Hr').
    - intros _. apply (emits_attempt_call _ wait_until_exit); [done|by apply Hplain]. }
  assert (∀ o, o = NodeCli.CommandWith r →
    emits (allowed o) (rest (Some NodeCli.CheckBlock) config)) as Hcheck.
  { intros o ->. apply emits_bind.
    - eapply emits_embed; [apply new_partial_emits|]. intros c [Hc Hn].
      split; simpl; [|by rewrite Hn]. intros r' Hr'. by rewrite (Hc r' Hr').
    - intros parts. apply (emits_attempt_call _ (CheckBlockCmd_run parts));
        [done|by apply Hplain]. }
  assert (∀ o, o = NodeCli.CommandWith r →
    emits (allowed o) (rest (Some (NodeCli.Benchmark NodeCli.Pallet)) config)) as Hpallet.
  { intros o ->. apply (emits_attempt_call _ (PalletCmd_run r config)); [done|].
    by split; simpl; [intros ? [= <-]|]. }
  destruct sub as [[| | | | | |[]]|]; simpl;
    try (eapply emits_attempt_call; [done|by apply Hplain]); try apply emits_done.
  - apply Hcheck. unfold r, is_keiko. by destruct (NodeCli.is_keiko _).
  - apply Hpallet. unfold r, is_keiko. by destruct (NodeCli.is_keiko _).
  - apply Hnode. unfold r, is_keiko. by destruct (NodeCli.is_keiko _).
Qed.

(** [run] parses the command line, and goes on when that succeeds. *)
Lemma run_main (answer : CliAnswers) :
  run_prog answer [] main =
  match answer [] from_args with
  | None => ([from_args], Err Exited)
  | Some sub =>
      if needs_runner sub then
        match answer [from_args] (create_runner sub) with
        | Ok config => run_prog answer [from_args; create_runner sub] (rest sub config)
        | Err e => ([from_args; create_runner sub], Err (Cli_error e))
        end
      else run_prog answer [] main
  end.
Proof.
  unfold main, run, parse. rewrite !run_prog_bind. simpl.
  destruct (answer [] from_args) as [sub|]; [|done].
  destruct sub as [[| | | | | |[]]|]; simpl; try done;
    destruct (answer [from_args] _) as [config|e]; try done;
    simpl; by destruct (is_keiko config).
Qed.

(** The subcommands on keys and signatures: the call they make, with its answer. *)
Definition tool (answer : CliAnswers) (sub : option NodeCli.Subcommand) :
    option (CliCall * result Error unit) :=
  match sub with
  | Some NodeCli.Key => Some (KeySubcommand_run, answer [from_args] KeySubcommand_run)
  | Some NodeCli.Sign => Some (SignCmd_run, answer [from_args] SignCmd_run)
  | Some NodeCli.Verify => Some (VerifyCmd_run, answer [from_args] VerifyCmd_run)
  | Some NodeCli.Vanity => Some (VanityCmd_run, answer [from_args] VanityCmd_run)
  | _ => None
  end.

Definition lift_error {A} (r : result Error A) : result CliError A :=
  match r with Ok a => Ok a | Err e => Err (Cli_error e) end.

Lemma run_tool (answer : CliAnswers) sub c r :
  answer [] from_args = Some sub → tool answer sub = Some (c, r) →
  run_prog answer [] main = ([from_args; c], lift_error r).
Proof.
  intros Hsub Htool. unfold main, run, parse. rewrite !run_prog_bind. simpl. rewrite Hsub.
  destruct sub as [[| | | | | |]|]; try done; simpl in *; injection Htool as <- <-; reflexivity.
Qed.

Lemma tool_needs_no_runner (answer : CliAnswers) sub :
  needs_runner sub = match tool answer sub with Some _ => false | None => true end.
Proof. by destruct sub as [[]|]. Qed.

(** The run after a runner was created. *)
Lemma created_runs_the_table (answer : CliAnswers) sub config :
  tool answer sub = None →
  let created := [from_args; create_runner sub] in
  let outcome := NodeCli.run sub (config_spec config) in
  let '(trace, res) := run_prog answer created (rest sub config) in
  Forall (allowed outcome) trace ∧
  (∀ m, outcome = NodeCli.Refused m → trace = created ∧ res = Err (Input m)) ∧
  (∀ r, outcome = NodeCli.CommandWith r → sub = Some (NodeCli.Benchmark NodeCli.Pallet) →
     trace = created ++ [PalletCmd_run r config] ∧
     res = lift_error (answer created (PalletCmd_run r config))) ∧
  (∀ r, outcome = NodeCli.NodeWith r →
     let '(calls, started) :=
       run_prog (service_answers answer created) [] (start_node_with r config) in
     let before := created ++ (service <$> calls) in
     match started with
     | Ok _ => trace = before ++ [wait_until_exit] ∧
               res = lift_error (answer before wait_until_exit)
     | Err e => trace = before ∧ res = Err (Service e)
     end).
Proof.
  intros Htool created outcome.
  assert (∀ c, runtime_of c = None → starts_network c = false → allowed outcome c) as Hplain.
  { intros c Hr Hn. split; [rewrite Hr|rewrite Hn]; done. }
  destruct (rest_allowed sub config answer created) as (l & Htr & Hl). fold outcome in Hl.
  assert (outcome = NodeCli.run sub (config_spec config)) as Ho by done. clearbody outcome.
  destruct (run_prog answer created (rest sub config)) as [trace res] eqn:Hrun.
  simpl in Htr. subst trace. split.
  { constructor; [by apply Hplain|]. constructor; [by apply Hplain|done]. }
  subst outcome. set (r0 := if is_keiko config then NodeCli.KeikoRuntime else NodeCli.LocalRuntime).
  split_and!.
  - intros m Hm. destruct sub as [[| | | | | |[]]|]; simpl in Hm; try done;
      try (by destruct (NodeCli.is_keiko _)); injection Hm as <-; cbn in Hrun;
      injection Hrun as Hl' <-; split; [|done| |done| |done];
      unfold created; by rewrite <-Hl'.
  - intros r Hr ->. assert (r0 = r) as <-.
    { unfold r0, is_keiko. simpl in Hr. by destruct (NodeCli.is_keiko _); injection Hr. }
    cbn in Hrun. injection Hrun as Htr <-. split; [by rewrite <-Htr|].
    unfold lift_error, created, r0. reflexivity.
  - intros r Hr. assert (sub = None) as ->.
    { destruct sub as [[| | | | | |[]]|]; simpl in Hr; try done;
        by destruct (NodeCli.is_keiko _). }
    assert (r0 = r) as <-.
    { unfold r0, is_keiko. simpl in Hr. by destruct (NodeCli.is_keiko _); injection Hr. }
    unfold rest in Hrun. fold r0 in Hrun. rewrite run_prog_bind in Hrun.
    pose proof (run_embed answer created (start_node_with r0 config) []) as He.
    rewrite app_nil_r in He. rewrite He in Hrun.
    destruct (run_prog (service_answers answer created) [] (start_node_with r0 config))
      as [calls [u|e]].
    + unfold attempt in Hrun. rewrite run_prog_bind in Hrun. simpl in Hrun.
      injection Hrun as <- <-. split; [done|]. by destruct (answer _ wait_until_exit).
    + by injection Hrun as <- <-.
Qed.

(** C40: The program does what the decision table says, whatever the operating
    system, the libraries and the services answer.  A command line that does not
    parse ends the process; a subcommand on keys or signatures makes its own call
    only, and the run ends as that call does; a runner that cannot be created ends
    the run; nothing is executed in these cases.  With a runner, every call
    executes the runtime that [NodeCli.run] chooses for the chain, or none when it
    chooses none, and the network is started only to run a node; a refused
    subcommand reports its message and executes nothing; the pallet benchmarks are
    exactly one call with the chosen runtime; and a node is started by exactly the
    calls of that runtime's [start_node], whose failure is the failure of the run,
    and after whose success the run ends as the wait for the exit does. *)
Theorem main_runs_the_table (answer : CliAnswers) :
  let '(trace, res) := run_prog answer [] main in
  match answer [] from_args with
  | None => trace = [from_args] ∧ res = Err Exited
  | Some sub =>
      match tool answer sub with
      | Some (c, r) =>
          trace = [from_args; c] ∧ runtime_of c = None ∧ starts_network c = false ∧
          res = lift_error r
      | None =>
          let created := [from_args; create_runner sub] in
          match answer [from_args] (create_runner sub) with
          | Err e => trace = created ∧ res = Err (Cli_error e)
          | Ok config =>
              let outcome := NodeCli.run sub (config_spec config) in
              Forall (allowed outcome) trace ∧
              (∀ m, outcome = NodeCli.Refused m → trace = created ∧ res = Err (Input m)) ∧
              (∀ r, outcome = NodeCli.CommandWith r →
                 sub = Some (NodeCli.Benchmark NodeCli.Pallet) →
                 trace = created ++ [PalletCmd_run r config] ∧
                 res = lift_error (answer created (PalletCmd_run r config))) ∧
              (∀ r, outcome = NodeCli.NodeWith r →
                 let '(calls, started) :=
                   run_prog (service_answers answer created) [] (start_node_with r config) in
                 let before := created ++ (service <$> calls) in
                 match started with
                 | Ok _ => trace = before ++ [wait_until_exit] ∧
                           res = lift_error (answer before wait_until_exit)
                 | Err e => trace = before ∧ res = Err (Service e)
                 end)
          end
      end
  end.
Proof.
  destruct (answer [] from_args) as [sub|] eqn:Hsub; last first.
  { by rewrite run_main, Hsub. }
  destruct (tool answer sub) as [[c r]|] eqn:Htool.
  { rewrite (run_tool answer sub c r Hsub Htool). split; [done|].
    destruct sub as [[]|]; simpl in Htool; simplify_eq; done. }
  rewrite run_main, Hsub, (tool_needs_no_runner answer), Htool.
  destruct (answer [from_args] (create_runner sub)) as [config|e]; [|done].
  exact (created_runs_the_table answer sub config Htool).
Qed.

End run.

(** ** A run

    The Keiko node of [NodeService.demo_config], and a refused benchmark. *)

Abbreviation demo_Call := NodeService.DemoServiceCall.
Abbreviation demo_ret := NodeService.demo_answer_type.
Abbreviation demo_Configuration := (NodeService.Configuration (Endpoint := unit)
  (ExecutorConfig := unit) (PoolOptions := unit) (Role := bool) (Registry := unit)
  (PeersSet := unit)).
Abbreviation demo_Parts := (NodeService.PartialComponents (Telemetry := unit) (Client := unit)
  (Backend := unit) (Keystore := unit) (Pool := unit) (SelectChain := unit)
  (BlockImport := unit) (Link := unit) (ImportQueue := unit)).

#[local] Instance demo_services :
    NodeServices demo_Call demo_ret (NodeService.Stop (ServiceError := unit))
      demo_Configuration demo_Parts :=
  NodeService.services (RpcMethods := unit) (λ a : bool, a) (λ _ _, tt) (λ _, tt) tt
    (λ _ _, Ok tt) (λ _ _ _, tt) (λ _, tt).

#[local] Instance demo_services_laws : NodeServicesLaws := NodeService.services_laws _ _ _ _ _ _ _.

Abbreviation demo_CliCall :=
  (CliCall (SC := demo_Call) (Configuration := demo_Configuration) (Parts := demo_Parts)).

Definition demo_cli (cli : option (option NodeCli.Subcommand))
    (_ : list demo_CliCall) (c : demo_CliCall) : CliRet (SR := demo_ret) (Error := string) c :=
  match c with
  | from_args => cli
  | KeySubcommand_run => Err "no such key"%string
  | create_runner _ => Ok NodeService.demo_config
  | service c => NodeService.demo_answer [] c
  | _ => Ok tt
  end.

Lemma main_runs_the_table_witness :
  last (run_prog (demo_cli (Some None)) [] main).1 = Some wait_until_exit ∧
  (run_prog (demo_cli (Some None)) [] main).2 = Ok tt ∧
  Forall (allowed (NodeCli.NodeWith NodeCli.KeikoRuntime))
    (run_prog (demo_cli (Some None)) [] main).1 ∧
  (run_prog (demo_cli None) [] main).2 = Err Exited ∧
  run_prog (demo_cli (Some (Some NodeCli.Key))) [] main =
    ([from_args; KeySubcommand_run], Err (Cli_error "no such key"%string)) ∧
  (run_prog (demo_cli (Some (Some (NodeCli.Benchmark NodeCli.Block)))) [] main).2 =
    Err (Input "Benchmark block not supported.").
Proof.
  split; [vm_compute; reflexivity|]. split; [vm_compute; reflexivity|].
  pose proof (main_runs_the_table (demo_cli (Some None))) as Hm.
  split; [|by split_and!].
  destruct (run_prog (demo_cli (Some None)) [] main) as [trace res]. exact (proj1 Hm).
Defined.

End NodeMain.
