(* ===== verification/RuntimeScenarios.v ===== *)
(** * Executing the runtime

    Both runtimes over the concrete ledger of [Ledger], started from their chain
    specifications.  A scenario whose actions succeed and meet the side conditions
    of [runtime_step] leads to a reachable state; the theorems about the pallets
    in the runtime are evaluated there. *)

From S2P Require Export Ledger Supply LocalRuntime RuntimeRefines NodeCli.
Import Runtime.

(** The pallet accounts, and the well-known accounts of the specifications. *)
#[global] Instance demo_accounts : PalletAccounts Z :=
  λ name, if (name =? "dapistak")%string then 99 else 98.

Definition seed (name : string) : Z :=
  if (name =? "Alice")%string then 1 else if (name =? "Bob")%string then 2
  else if (name =? "Charlie")%string then 3 else if (name =? "Dave")%string then 4
  else if (name =? "Eve")%string then 5 else if (name =? "Ferdie")%string then 6 else 7.

(** [ExistentialDeposit] of both runtimes *)
#[global] Instance demo_deposit : ExistentialDeposit :=
  {| ED := Keiko.ExistentialDeposit; ED_nonneg := ltac:(done) |}.

(** Every account is endowed, the two pots with the existential deposit. *)
Definition demo_ledger : Ledger :=
  mkLedger (list_to_map ([(98, (ED, 0)); (99, (ED, 0))] ++
    ((λ who, (who, (10 ^ 27, 0))) <$> [1; 2; 3; 4; 5; 6]))) (6 * 10 ^ 27 + 2 * ED).

Abbreviation DemoCall := (RuntimeCall Z Z Empty_set).
Abbreviation DemoState :=
  (BlockReward.State (ValidatorSet.State Z (@Chain Z _ _ Z _ _ Ledger))).

Definition no_frame_call (f : Empty_set) (_ : Origin Z) : M DispatchError DemoState unit :=
  match f with end.

(** What root may dispatch past the filter: anything, nothing, or what a test
    admits. *)
Definition admits (past : DemoCall → Origin Z → bool) (c : DemoCall) (origin : Origin Z) : Prop :=
  past c origin = true.
Definition anything (c : DemoCall) (origin : Origin Z) : bool := true.
Definition nothing (c : DemoCall) (origin : Origin Z) : bool := false.

Section demo.
Context {params : RuntimeParams} `{!RuntimeParamsLaws}.
Context (contains : DemoCall → bool) (past : DemoCall → Origin Z → bool).
Context (config : GenesisConfig Z).

Abbreviation runtime_step := (runtime_step no_frame_call contains (admits past)).

(** The actions of a scenario. *)
Inductive Move : Type :=
| MCall (origin : Origin Z) (c : DemoCall)
| MRootAs (origin : Origin Z) (c : DemoCall)
| MBlock (n : Z)
| MAuthor (author : Z)
| MSession (n : Z)
| MReward
| MFees (fees_then_tips : list Z)
| MNumber (n : Z).

Definition move (m : Move) (s : DemoState) : result DispatchError unit * DemoState :=
  match m with
  | MCall origin c => dispatch no_frame_call contains c origin s
  | MRootAs origin c => dispatch_call no_frame_call c origin s
  | MBlock n => (staking_on_initialize n;; mret tt) s
  | MAuthor author => note_author author s
  | MSession n => (new_session n;; mret tt) s
  | MReward => on_timestamp_set s
  | MFees l => (Ok tt, BlockReward.set_env (deal_with_fees l (BlockReward.env s)) s)
  | MNumber n =>
      (Ok tt, frame_move (ledger_of s) n (registered (chain s)) (extra_weights (chain s)) s)
  end.

Definition u32_ok (z : Z) : bool := (0 <=? z) && (z <=? u32_max).
Definition u128_ok (z : Z) : bool := (0 <=? z) && (z <=? u128_max).

Definition survives_ok (v : Z) : bool := ED <=? v - pb_mul rt_SlashRatio v.

(** The side conditions of a step. *)
Definition call_checks (origin : Origin Z) (c : DemoCall) (s' : DemoState) : bool :=
  (total_reserved (ledger_of s') <=? u128_max) &&
  match origin with Signed who => negb (who =? 99) | _ => true end &&
  match c with
  | CallValidatorSet (set_desired_candidates_call max) => u32_ok max
  | CallValidatorSet (set_candidacy_bond_call bond) => u128_ok bond && survives_ok bond
  | CallDapi (register_project_call _ _ d) | CallDapi (deposit_project_call _ d)
  | CallDapi (submit_project_usage_call _ d) => u128_ok d
  | CallDapiStaking (provider_bond_less_call _ v) => v + rt_RegisterDeposit <=? u128_max
  | _ => true
  end.

Definition move_ok (m : Move) (s s' : DemoState) : bool :=
  match m with
  | MCall origin c => call_checks origin c s'
  | MRootAs origin c => past c origin && call_checks origin c s'
  | MBlock _ => current (Era (staking_of s)) <? u32_max
  | MAuthor author => negb (author =? 98)
  | MReward => u128_ok rt_RewardAmount
  | _ => true
  end.

Fixpoint moves_ok (l : list Move) (s : DemoState) : option DemoState :=
  match l with
  | [] => Some s
  | m :: l' =>
      match move m s with
      | (Ok _, s') => if move_ok m s s' then moves_ok l' s' else None
      | (Err _, _) => None
      end
  end.

Lemma u128_ok_spec z : u128_ok z = true → is_u128 z.
Proof. unfold u128_ok, is_u128. intros. propify. lia. Qed.

Lemma u32_ok_spec z : u32_ok z = true → is_u32 z.
Proof. unfold u32_ok, is_u32. intros. propify. lia. Qed.

Lemma call_checked origin c s' :
  call_checks origin c s' = true →
  rt_call_ok (L := Ledger) c ∧ origin ≠ Signed account_id ∧ supply_ok (ledger_of s').
Proof.
  intros [[Hs Ho]%andb_true_iff Hc]%andb_true_iff. split_and!; [| |by apply supply_check].
  - destruct c as [[]|[]|[]|[]|[]]; simpl in *; try done;
      repeat match goal with Hx : _ && _ = true |- _ => apply andb_true_iff in Hx as [??] end;
      try (by apply u128_ok_spec); try (by apply u32_ok_spec).
    + split; [by apply u128_ok_spec|by apply Z.leb_le].
    + by apply Z.leb_le.
  - destruct origin; try done. intros [= ->]. done.
Qed.

Lemma move_step m s s' :
  move m s = (Ok tt, s') → move_ok m s s' = true → runtime_step s s'.
Proof.
  intros Hm Hok. destruct m as [origin c|origin c|n|author|n| |l|n]; simpl in Hm.
  1: { destruct (call_checked _ _ _ Hok) as (? & ? & ?). eapply rt_step_call; [by left|done..]. }
  1: { apply andb_true_iff in Hok as [Hp (? & ? & ?)%call_checked].
       eapply rt_step_call; [by right|done..]. }
  all: simpl in Hok.
  - apply bind_Ok in Hm as (w & s1 & Hi & Hr). apply mret_Ok in Hr as [_ ->].
    eapply rt_step_staking_hook; [exact Hi|]. by apply Z.ltb_lt.
  - eapply rt_step_author; [|exact Hm]. intros ->. done.
  - apply bind_Ok in Hm as (r & s1 & Hi & Hr). apply mret_Ok in Hr as [_ ->].
    by eapply rt_step_session.
  - apply rt_step_reward; [exact Hm|by apply u128_ok_spec].
  - injection Hm as <-. by eapply rt_step_fees.
  - injection Hm as <-. eapply rt_step_frame; [|done]. done.
Qed.

Lemma moves_ok_steps l s s' : moves_ok l s = Some s' → rtc runtime_step s s'.
Proof.
  revert s. induction l as [|m l IH]; simpl; intros s Hr; [by simplify_eq|].
  destruct (move m s) as [[[]|] s1] eqn:Hm; [|done].
  destruct (move_ok m s s1) eqn:Hok; [|done].
  eapply rtc_l; [by eapply move_step|by apply IH].
Qed.

(** The state a scenario leads to from the genesis of [config]; every account
    has registered session keys. *)
Definition start : option DemoState := genesis_build config demo_ledger (λ _, true).

Definition reach (l : list Move) : option DemoState := start ≫= moves_ok l.

Definition blank : DemoState :=
  BlockReward.mkState DistributionConfig_default
    (ValidatorSet.mkState [] [] ∅ 0 0 None
       (mkChain (Dapi.mkState ∅ ∅ ∅ ∅ (staking_genesis demo_ledger) []) 0 (λ _, true) []) [])
    [].

Definition reached (l : list Move) : DemoState := default blank (reach l).

Lemma reached_reachable l :
  genesis_ok (MassbitId := Z) (L := Ledger) config →
  (if reach l is Some _ then true else false) = true →
  runtime_reachable no_frame_call contains (admits past) (reached l).
Proof.
  unfold reached. destruct (reach l) as [s|] eqn:Hr; [|done]. intros Hg _. simpl.
  apply bind_Some in Hr as (s0 & Hs & Hm). exists config, demo_ledger, (λ _, true), s0.
  split; [done|]. split; [done|]. by apply (moves_ok_steps l).
Qed.

End demo.

(** ** A busy day on the local chain *)

Definition local_config : GenesisConfig Z :=
  pallets (local_development_config seed (λ _, tt) (λ _, tt)).

Definition MBTL : Z := Local.MBTL.

(** Eve is a regulator; Bob's node 50 is registered, funded and delegated to by
    Charlie; Dave pays for project 7 and also stands as a candidate, as do Bob and
    Charlie; a block reward is issued. *)
Definition local_day : list Move := [
  MNumber 1; MBlock 1; MReward; MAuthor 1;
  MCall (Signed 5) (CallDapi (register_provider_call 50 Node 2 eth_mainnet));
  MCall (Signed 2) (CallDapi (deposit_provider_call 50 (100 * MBTL)));
  MCall (Signed 5) (CallDapi (register_provider_call 51 Gateway 2 dot_mainnet));
  MCall (Signed 3) (CallDapiStaking (delegate_call 50 (30 * MBTL)));
  MCall (Signed 4) (CallDapi (register_project_call 7 eth_mainnet (5 * MBTL)));
  MCall (Signed 6) (CallDapi (submit_project_usage_call 7 1200));
  MCall (Signed 2) (CallValidatorSet register_as_candidate_call);
  MCall (Signed 3) (CallValidatorSet register_as_candidate_call);
  MCall (Signed 4) (CallValidatorSet register_as_candidate_call);
  MFees [1000; 50]; MReward; MNumber 6; MAuthor 4
].

Section local_chain.
#[local] Existing Instance Local.params.

Definition local_state : DemoState := reached Local.contains anything local_config local_day.

Lemma local_reachable : runtime_reachable no_frame_call Local.contains (admits anything) local_state.
Proof.
  apply reached_reachable; [|vm_compute; reflexivity].
  split_and!; vm_compute; done.
Qed.

Lemma local_refines :
  reachable (staking_of local_state) ∧ dapi_reachable (dapi_of local_state) ∧
  vs_reachable (BlockReward.env local_state).
Proof. exact (runtime_refines_pallets _ _ _ _ local_reachable). Qed.
End local_chain.

(** ** The theorems about the dAPI pallet at the local chain *)

Section dapi_witnesses.
#[local] Existing Instance Local.params.

Definition local_dapi := dapi_of local_state.

#[local] Opaque local_state.

Lemma local_dapi_reachable : dapi_reachable local_dapi.
Proof. apply local_refines. Qed.

Definition node50 : Provider Z := mkProvider Node 2 eth_mainnet StatusActive.

Lemma provider_status_in_sync_witness :
  provider_status <$> (Dapi.Providers local_dapi !! 50) = Some StatusActive ∧
  match Dapi.Providers local_dapi !! 50 with
  | None => staking_view (Dapi.env local_dapi) 50 = Unknown
  | Some pr =>
      match provider_status pr with
      | StatusRegistered => staking_view (Dapi.env local_dapi) 50 = Unknown
      | StatusActive => staking_view (Dapi.env local_dapi) 50 = Staked
      | StatusInActive _ => staking_view (Dapi.env local_dapi) 50 = Unregistered
      end
  end.
Proof.
  split; [vm_compute; reflexivity|].
  apply (provider_status_in_sync payment_view local_dapi 50 local_dapi_reachable).
Defined.

Lemma active_provider_can_leave_witness :
  ∃ s', Dapi.unregister_provider (Signed 2) 50 local_dapi = (Ok tt, s') ∧
    Dapi.Providers s' !! 50 = Some (with_status node50 (StatusInActive UnRegistered)) ∧
    staking_view (Dapi.env s') 50 = Unregistered.
Proof.
  refine (proj1 (active_provider_can_leave payment_view local_dapi 50 node50
    local_dapi_reachable _ _)); vm_compute; reflexivity.
Defined.

Lemma usage_within_quota_witness :
  usage <$> (Dapi.Projects local_dapi !! 7) = Some 1200 ∧
  ∀ p pr, Dapi.Projects local_dapi !! p = Some pr → 0 <= usage pr <= quota pr ∧ quota pr <= u128_max.
Proof.
  split; [vm_compute; reflexivity|].
  apply (usage_within_quota payment_view local_dapi local_dapi_reachable).
Defined.

Definition dapi_left := (Dapi.unregister_provider (Signed 2) 50 local_dapi).2.

Lemma provider_status_moves_forward_witness :
  ∃ st, Dapi.Providers dapi_left !! 50 = Some (with_status node50 st) ∧ moves StatusActive st.
Proof.
  apply (provider_status_moves_forward local_dapi dapi_left 50 node50).
  - apply (dapi_step_call _ _ (unregister_provider_call 50) (Signed 2)); [done|].
    vm_compute; reflexivity.
  - vm_compute; reflexivity.
Defined.

Definition dapi_paid := (Dapi.deposit_project (Signed 3) 7 (2 * MBTL) local_dapi).2.

Lemma project_payment_exact_witness :
  (∃ i l, peek (AccountId := Z) (L := Ledger) i = 2 * MBTL ∧
    Dapi.env dapi_paid = OnProjectPayment i (put_ledger l (Dapi.env local_dapi)) ∧
    free_balance l 3 = free_balance (get_ledger (Dapi.env local_dapi)) 3 - 2 * MBTL ∧
    reserved_balance l 3 = reserved_balance (get_ledger (Dapi.env local_dapi)) 3 ∧
    only_changes 3 (get_ledger (Dapi.env local_dapi)) l) ∧
  ∃ pr', Dapi.Projects dapi_paid = <[7:=pr']> (Dapi.Projects local_dapi) ∧
    match Dapi.Projects local_dapi !! 7 with
    | None => pr' = mkProject 3 (chain_id pr') (2 * MBTL / 10 ^ 15) 0
    | Some pr => pr' = mkProject (consumer pr) (chain_id pr)
                         (Z.min (quota pr + 2 * MBTL / 10 ^ 15) u128_max) (usage pr)
    end.
Proof.
  apply (project_payment_exact local_dapi dapi_paid 3 7 (2 * MBTL)).
  - vm_compute; split; done.
  - right. vm_compute; reflexivity.
Defined.

Lemma prevalidation_matches_dispatch_witness :
  Dapi.validate 2 (Some (submit_project_usage_call 7 10)) local_dapi = Dapi.BadSigner ∧
  Dapi.dispatch (submit_project_usage_call 7 10) (Signed 2) local_dapi =
    (Err (DapiErr DapiError.PermissionDenied), local_dapi).
Proof.
  split; [vm_compute; reflexivity|].
  apply (prevalidation_matches_dispatch (submit_project_usage_call 7 10) 2 local_dapi).
  vm_compute; reflexivity.
Defined.

Lemma registries_round_trip_witness :
  ∃ s1 s2, Dapi.add_regulator Root 9 local_dapi = (Ok tt, s1) ∧
    Dapi.Regulators s1 = {[9]} ∪ Dapi.Regulators local_dapi ∧
    Dapi.remove_regulator Root 9 s1 = (Ok tt, s2) ∧
    Dapi.Regulators s2 = Dapi.Regulators local_dapi.
Proof.
  apply (registries_round_trip local_dapi eth_mainnet 9).
  apply (bool_decide_unpack (9 ∉ Dapi.Regulators local_dapi)). vm_compute. reflexivity.
Defined.

Lemma free_calls_are_guarded_witness :
  (DapiWeights.call_weight (AccountId := Z) (MassbitId := Z) DapiWeights.SubstrateWeight
     (submit_project_usage_call 7 10)).2 = false ∧
  (Dapi.validate 5 (Some (submit_project_usage_call 7 10)) local_dapi = Dapi.ValidTransaction ↔
   5 ∈ Dapi.Regulators local_dapi).
Proof.
  split; [reflexivity|].
  apply (free_calls_are_guarded DapiWeights.SubstrateWeight (submit_project_usage_call 7 10) 5
           local_dapi). reflexivity.
Defined.

End dapi_witnesses.

(** ** The theorems about the validator set at the local chain *)

Section validator_witnesses.
#[local] Existing Instance Local.params.

(** Root does anything but withdraw the candidacy of [who]. *)
Definition stays (who : Z) (c : DemoCall) (origin : Origin Z) : bool :=
  match c, origin with
  | CallValidatorSet leave_intent_call, Signed a => negb (a =? who)
  | _, _ => true
  end.

(** Much later: Bob, Charlie and Dave have not authored for a session. *)
Definition late_state : DemoState :=
  reached Local.contains (stays 6) local_config (local_day ++ [MNumber 50; MReward]).

Lemma late_reachable :
  runtime_reachable no_frame_call Local.contains (admits (stays 6)) late_state.
Proof.
  apply reached_reachable; [|vm_compute; reflexivity].
  split_and!; vm_compute; done.
Qed.

Lemma late_validators : vs_reachable (BlockReward.env late_state).
Proof. apply (runtime_refines_pallets _ _ _ _ late_reachable). Qed.

Definition late := BlockReward.env late_state.
#[local] Opaque late_state.

Definition bond : Z := 1_000 * MBTL.

Lemma candidate_deposits_reserved_witness :
  ValidatorSet.Candidates late =
    [mkCandidateInfo 2 bond; mkCandidateInfo 3 bond; mkCandidateInfo 4 bond] ∧
  NoDup (who <$> ValidatorSet.Candidates late).
Proof.
  split; [vm_compute; reflexivity|].
  apply (candidate_deposits_reserved late late_validators).
Defined.

(** Of the three stale candidates the last one is kept. *)
Lemma session_change_kicks_stale_witness :
  drop_stale (stale late 50) 2 (ValidatorSet.Candidates late) = [mkCandidateInfo 4 bond] ∧
  ∃ s', ValidatorSet.new_session 1 late = (Ok (Some (ValidatorSet.Invulnerables late ++ (who <$>
      drop_stale (stale late (number (ValidatorSet.env late)))
        (Z.of_nat (length (ValidatorSet.Candidates late)) - 1)
        (ValidatorSet.Candidates late)))), s').
Proof.
  split; [vm_compute; reflexivity|].
  destruct (session_change_kicks_stale late 1 late_validators) as (s' & Hs & _).
  exists s'. exact Hs.
Defined.

(** Charlie loses a hundredth of his deposit; nobody gets it. *)
Lemma slash_moves_deposit_witness :
  pb_mul rt_SlashRatio bond = 10 * MBTL ∧
  ∃ s' n, ValidatorSet.try_remove_candidate 3 true late = (Ok n, s') ∧
    ValidatorSet.Candidates s' = [mkCandidateInfo 2 bond; mkCandidateInfo 4 bond] ∧
    reserved_balance (ValidatorSet.state_ledger s') 3 =
      reserved_balance (ValidatorSet.state_ledger late) 3 - bond ∧
    (∀ o, o ≠ 3 → free_balance (Imb := Z) (ValidatorSet.state_ledger s') o =
       free_balance (Imb := Z) (ValidatorSet.state_ledger late) o) ∧
    issued (ValidatorSet.state_ledger s') =
      sat_sub (issued (ValidatorSet.state_ledger late)) (pb_mul rt_SlashRatio bond).
Proof.
  split; [vm_compute; reflexivity|].
  destruct (slash_moves_deposit late [mkCandidateInfo 2 bond] (mkCandidateInfo 3 bond)
    [mkCandidateInfo 4 bond] late_validators)
    as (s' & n & Hr & Hc & _ & Hres & _ & Ho & Hiss).
  - vm_compute; reflexivity.
  - vm_compute. done.
  - exists s', n. split; [exact Hr|]. split; [exact Hc|]. split; [exact Hres|].
    split; [intros o Hne; apply (Ho o Hne)|exact Hiss].
Defined.

Definition bob_joined := (ValidatorSet.register_as_candidate (Signed 6) late).2.

Lemma register_leave_round_trip_witness :
  reserved_balance (ValidatorSet.state_ledger bob_joined) 6 =
    reserved_balance (ValidatorSet.state_ledger late) 6 + bond ∧
  ∃ s2, ValidatorSet.leave_intent (Signed 6) bob_joined = (Ok tt, s2) ∧
    ValidatorSet.Candidates s2 = ValidatorSet.Candidates late.
Proof.
  destruct (register_leave_round_trip late bob_joined 6 late_validators)
    as (_ & Hres & s2 & Hl & Hc & _).
  - vm_compute; reflexivity.
  - vm_compute. done.
  - split; [exact Hres|]. exists s2. split; [exact Hl|exact Hc].
Defined.

Definition paid_ledger : Ledger :=
  match transfer (Imb := Z) 98 4
          (free_balance (Imb := Z) (ValidatorSet.state_ledger late) 98 - ED) KeepAlive
          (ValidatorSet.state_ledger late) with
  | Ok (_, l) => l
  | Err _ => ValidatorSet.state_ledger late
  end.

Lemma author_gets_pot_witness :
  free_balance (Imb := Z) (ValidatorSet.state_ledger late) 98 = ED + 5 * 10 ^ 17 ∧
  ∃ s', ValidatorSet.note_author 4 late = (Ok tt, s') ∧
    free_balance (ValidatorSet.state_ledger s') 98 = ED ∧
    ValidatorSet.LastAuthoredBlock s' !! 4 = Some 50.
Proof.
  split; [vm_compute; reflexivity|].
  destruct (author_gets_pot late 4 paid_ledger) as (s' & Hn & Hp & _ & _ & _ & Hb & _).
  - vm_compute. done.
  - vm_compute. done.
  - vm_compute; reflexivity.
  - exists s'. split; [exact Hn|]. split; [exact Hp|exact Hb].
Defined.

Definition after_session := (ValidatorSet.new_session 1 late).2.

Lemma candidate_count_bounds_witness :
  length (ValidatorSet.Candidates after_session) = 1%nat ∧
  1 <= Z.of_nat (length (ValidatorSet.Candidates after_session)).
Proof.
  split; [vm_compute; reflexivity|].
  refine (proj1 (candidate_count_bounds late after_session late_validators _)).
  eapply (vs_step_session _ _ 1). vm_compute; reflexivity.
Defined.

Lemma outcome {A B} (m : A * B) a : m.1 = a → m = (a, m.2).
Proof. destruct m. by intros <-. Qed.

(** Ferdie registers at block 50; root makes Dave leave, past the filter; at block
    59 a session change kicks Bob and Charlie, and Ferdie is a validator of the
    next session. *)
Definition registered_state : DemoState :=
  (LocalRuntime.dispatch no_frame_call (CallValidatorSet register_as_candidate_call) (Signed 6)
     late_state).2.
Definition moved (m : Move) (s : DemoState) : DemoState := (move Local.contains m s).2.
Definition dave_left : DemoState :=
  moved (MRootAs (Signed 4) (CallValidatorSet leave_intent_call)) registered_state.
Definition block_59 : DemoState := moved (MNumber 59) dave_left.
Definition next_period : DemoState := moved (MSession 8) block_59.

Lemma local_candidate_validates_witness :
  ValidatorSet.Candidates (BlockReward.env registered_state) =
    [mkCandidateInfo 2 bond; mkCandidateInfo 3 bond; mkCandidateInfo 4 bond;
     mkCandidateInfo 6 bond] ∧
  ValidatorSet.Candidates (BlockReward.env next_period) = [mkCandidateInfo 6 bond] ∧
  ∃ validators s3,
    LocalRuntime.new_session 9 next_period = (Ok (Some validators), s3) ∧ 6 ∈ validators ∧
    6 ∈ who <$> candidates s3.
Proof.
  split; [vm_compute; reflexivity|]. split; [vm_compute; reflexivity|].
  refine (proj2 (local_candidate_validates no_frame_call (admits (stays 6)) late_state
    registered_state next_period 6 9 late_reachable _ _ _ _ _ _)).
  - done.
  - apply supply_check. vm_compute. done.
  - done.
  - unfold registered_state. apply outcome. vm_compute. reflexivity.
  - vm_compute. split; discriminate.
  - apply (rtc_l _ _ dave_left); [|apply (rtc_l _ _ block_59);
      [|apply (rtc_l _ _ next_period); [|apply rtc_refl]]];
      (split; [|vm_compute; split; done]).
    + apply (move_step _ _ (MRootAs (Signed 4) (CallValidatorSet leave_intent_call)));
        [|vm_compute; reflexivity].
      unfold dave_left, moved. apply outcome. vm_compute. reflexivity.
    + apply (move_step _ _ (MNumber 59)); [done|vm_compute; reflexivity].
    + apply (move_step _ _ (MSession 8)); [|vm_compute; reflexivity].
      unfold next_period, moved. apply outcome. vm_compute. reflexivity.
Defined.

End validator_witnesses.

(** ** The theorems about the runtime *)

(** The state after a run whose result is known. *)
Lemma run_result {A W} (x : result DispatchError A * W) r : x.1 = r → x = (r, x.2).
Proof. destruct x. simpl. by intros ->. Qed.

(** A state without events is a genesis state. *)
Lemma genesis_of_state {E} (s : BlockReward.State E) :
  is_valid (BlockReward.RewardConfig s) = true → BlockReward.events s = [] →
  BlockReward.genesis_build (BlockReward.RewardConfig s) (BlockReward.env s) = Some s.
Proof. destruct s. unfold BlockReward.genesis_build. simpl. by intros -> ->. Qed.

Section runtime_witnesses.
#[local] Existing Instance Local.params.
#[local] Opaque local_state.

Lemma runtime_refines_pallets_witness :
  length (candidates local_state) = 3%nat ∧
  reachable (staking_of local_state) ∧ dapi_reachable (dapi_of local_state) ∧
  vs_reachable (BlockReward.env local_state).
Proof.
  split; [vm_compute; reflexivity|].
  exact (runtime_refines_pallets no_frame_call Local.contains (admits anything) local_state local_reachable).
Defined.

(** Charlie (3) has staked and stands as a candidate. *)
Lemma shared_reserves_cover_all_witness :
  deposits (candidates local_state) 3 = 1000 * MBTL ∧
  obligations (staking_of local_state) 3 = 30 * MBTL ∧
  deposits (candidates local_state) 3 + obligations (staking_of local_state) 3
    <= reserved_balance (Imb := Z) (ledger_of local_state) 3.
Proof.
  split; [vm_compute; reflexivity|]. split; [vm_compute; reflexivity|].
  apply (shared_reserves_cover_all no_frame_call Local.contains (admits anything) local_state 3 local_reachable).
Defined.

Lemma runtime_providers_in_sync_witness : view (staking_of local_state) 51 = Unknown.
Proof.
  exact (runtime_providers_in_sync no_frame_call Local.contains (admits anything) local_state 51 local_reachable).
Defined.

(** Bob may not leave on this chain: the filter refuses. *)
Lemma runtime_failed_call_changes_nothing_witness :
  dispatch no_frame_call Local.contains (CallValidatorSet leave_intent_call) (Signed 2)
    local_state = (Err CallFiltered, local_state) ∧
  (dispatch no_frame_call Local.contains (CallDapiStaking (delegate_call 51 MBTL)) (Signed 2)
    local_state).2 = local_state.
Proof.
  split; [reflexivity|].
  apply (runtime_failed_call_changes_nothing no_frame_call Local.contains
    (CallDapiStaking (delegate_call 51 MBTL)) (Signed 2) local_state
    (DapiStakingErr DapiStakingError.NotOperatedProvider)).
  - done.
  - apply run_result. vm_compute. reflexivity.
Defined.

Definition paid_state : DemoState :=
  (zoom dapi_of set_dapi_of (Dapi.deposit_project (Signed 3) 7 (2 * MBTL)) local_state).2.

Lemma project_payment_reaches_stakers_witness :
  RewardAccumulator (staking_of paid_state) =
    sat_add u128_max (RewardAccumulator (staking_of local_state)) (2 * MBTL) ∧
  free_balance (Imb := Z) (ledger_of paid_state) 99 =
    free_balance (Imb := Z) (ledger_of local_state) 99 + 2 * MBTL.
Proof.
  destruct (project_payment_reaches_stakers local_state paid_state 3 7 (2 * MBTL))
    as (Ha & Hf & _).
  - vm_compute; split; done.
  - vm_compute. done.
  - vm_compute. done.
  - vm_compute; split; done.
  - right. unfold paid_state. apply run_result. vm_compute. reflexivity.
  - split; [exact Ha|exact Hf].
Defined.

Lemma block_reward_reaches_pots_witness :
  ∃ s' v p, on_timestamp_set local_state = (Ok tt, s') ∧ v + p = 10 ^ 18 ∧
    RewardAccumulator (staking_of s') =
      sat_add u128_max (RewardAccumulator (staking_of local_state)) p ∧
    free_balance (Imb := Z) (ledger_of s') 98 =
      free_balance (Imb := Z) (ledger_of local_state) 98 + v.
Proof.
  destruct (block_reward_reaches_pots local_state)
    as (s' & v & p & Hr & _ & _ & Hsum & _ & Ha & _ & Hv & _).
  - vm_compute; split; done.
  - vm_compute. done.
  - vm_compute. done.
  - vm_compute; split; done.
  - vm_compute; split; done.
  - exists s', v, p. split; [exact Hr|]. split; [exact Hsum|]. split; [exact Ha|exact Hv].
Defined.

Lemma local_reward_reachable : BlockReward.reward_reachable local_state.
Proof.
  exists (BlockReward.RewardConfig local_state), (BlockReward.env local_state), local_state.
  split; [|apply rtc_refl]. apply genesis_of_state; [vm_compute; reflexivity|].
  apply nil_length_inv. vm_compute. reflexivity.
Qed.

Lemma block_reward_conserved_witness :
  is_valid (BlockReward.RewardConfig local_state) = true.
Proof.
  apply (BlockReward.block_reward_conserved local_state local_reward_reachable);
    vm_compute; done.
Defined.

Lemma is_valid_iff_whole_witness :
  is_valid (mkDistributionConfig (pb_from_percent 70) (pb_from_percent 30)) = true ∧
  is_valid (mkDistributionConfig (pb_from_percent 70) (pb_from_percent 40)) = false ∧
  is_valid DistributionConfig_default = true.
Proof.
  split; [reflexivity|]. split; [reflexivity|].
  apply (BlockReward.is_valid_iff_whole DistributionConfig_default).
Defined.

(** The database costs of RocksDB in Substrate: 25 and 100 microseconds. *)
Definition rocks_db : DbWeightOps := {|
  db_reads n := sat_mul u64_max 25000000 n;
  db_writes n := sat_mul u64_max 100000000 n;
  db_reads_writes r w :=
    sat_add u64_max (sat_mul u64_max 25000000 r) (sat_mul u64_max 100000000 w)
|}.

Lemma rocks_db_laws : DbWeightLaws (H := rocks_db) 25000000 100000000.
Proof. by split. Qed.

Lemma validator_set_weights_exact_witness :
  ValidatorSetWeights.new_session (ValidatorSetWeights.SubstrateWeight (H := rocks_db)) 200 3 =
  7415000 * 200 + 25726000 * 3 + 25000000 * (2 * 3) + 100000000 * 200 + 100000000 * 3.
Proof.
  apply (validator_set_weights_exact (DbWeightLaws0 := rocks_db_laws) 200 3);
    vm_compute; split; done.
Defined.

Lemma chain_specs_start_valid_witness :
  ∃ s, genesis_build (MassbitId := Z) (L := Ledger) local_config demo_ledger (λ _, true) = Some s.
Proof.
  destruct (chain_specs_start_valid (MassbitId := Z) (L := Ledger) seed (λ _, tt) (λ _, tt)
    (λ _, None) demo_ledger (λ _, true) (local_development_config seed (λ _, tt) (λ _, tt)))
    as [_ Hlocal]; [reflexivity|].
  apply (Hlocal eq_refl).
Defined.

End runtime_witnesses.

(** ** A delegator on Keiko *)

Section keiko_chain.
#[local] Existing Instance Keiko.params.

Definition KEI : Z := Keiko.KEI.

Definition keiko_config : GenesisConfig Z :=
  pallets (keiko_make_genesis 7 [7] [authority_keys_from_seed seed (λ _, tt) (λ _, tt) "Alice"] []).

(** Charlie delegates to Bob's node, an era passes. *)
Definition keiko_days : list Move := [
  MNumber 1; MBlock 1; MReward;
  MCall Root (CallDapi (add_regulator_call 5));
  MCall (Signed 5) (CallDapi (register_provider_call 50 Node 2 eth_mainnet));
  MCall (Signed 2) (CallDapi (deposit_provider_call 50 (100 * KEI)));
  MCall (Signed 3) (CallDapiStaking (delegate_call 50 (30 * KEI)));
  MReward; MReward; MNumber 7201; MBlock 7201
].

(** On one chain root calls nobody past the filter; on the other one it has made
    Bob a candidate. *)
Definition quiet_state : DemoState := reached Keiko.contains nothing keiko_config keiko_days.

Definition adds_bob (c : DemoCall) (origin : Origin Z) : bool :=
  match c, origin with
  | CallValidatorSet register_as_candidate_call, Signed a => a =? 2
  | _, _ => false
  end.

Definition keiko_state : DemoState :=
  reached Keiko.contains adds_bob keiko_config
    (keiko_days ++ [MRootAs (Signed 2) (CallValidatorSet register_as_candidate_call)]).

Lemma quiet_is_reachable :
  runtime_reachable no_frame_call Keiko.contains (admits nothing) quiet_state.
Proof.
  apply reached_reachable; [|vm_compute; reflexivity].
  split_and!; vm_compute; done.
Qed.

Lemma keiko_is_reachable :
  runtime_reachable no_frame_call Keiko.contains (admits adds_bob) keiko_state.
Proof.
  apply reached_reachable; [|vm_compute; reflexivity].
  split_and!; vm_compute; done.
Qed.
#[local] Opaque quiet_state.
#[local] Opaque keiko_state.

Definition keiko_claimed := (Staking.claim_delegator (Signed 3) 50 (staking_of keiko_state)).2.

Lemma keiko_delegators_earn_nothing_witness :
  ∃ who era, Signed 3 = Signed who ∧
    events keiko_claimed = events (staking_of keiko_state) ++ [Payout who 50 era 0].
Proof.
  apply (keiko_delegators_earn_nothing no_frame_call (admits adds_bob) keiko_state (Signed 3) 50 keiko_claimed
    keiko_is_reachable).
  vm_compute; reflexivity.
Defined.

(** Charlie tries to become a candidate and is refused; Bob, whom root has
    registered, is a validator next to the invulnerables, and where root has
    registered nobody there are only the invulnerables. *)
Lemma keiko_validators_are_invulnerables_witness :
  dispatch no_frame_call Keiko.contains (CallValidatorSet register_as_candidate_call) (Signed 3)
    keiko_state = (Err CallFiltered, keiko_state) ∧
  who <$> candidates keiko_state = [2] ∧
  (∀ a, a ∈ who <$> candidates keiko_state → admits adds_bob
     (CallValidatorSet register_as_candidate_call) (Signed a)) ∧
  ∃ s', new_session 4 quiet_state =
    (Ok (Some (ValidatorSet.Invulnerables (BlockReward.env quiet_state))), s').
Proof.
  split; [reflexivity|]. split; [vm_compute; reflexivity|]. split.
  - apply (keiko_validators_are_invulnerables no_frame_call (admits adds_bob) keiko_state 4
      keiko_is_reachable).
  - destruct (keiko_validators_are_invulnerables no_frame_call (admits nothing) quiet_state 4
      quiet_is_reachable) as (_ & _ & v & s' & Hn & _ & Hq).
    exists s'. destruct Hq as (_ & _ & Hv); [done|]. rewrite Hv in Hn. exact Hn.
Defined.

End keiko_chain.
