(* ===== verification/RuntimeChains.v ===== *)
(** * Chains of blocks, evaluated

    Chains of [RuntimeBlocks] on concrete inputs: the theorems about blocks and
    about the validators' limits are instantiated there. *)

From S2P Require Export RuntimeScenarios RuntimeAuthorities RuntimeBlocks.
Import Runtime.
#[local] Existing Instance demo_deposit.
#[local] Existing Instance staking_config.

Lemma some_of_check {A} (o : option A) d :
  (if o is Some _ then true else false) = true → o = Some (default d o).
Proof. by destruct o. Qed.

(** ** A session with a new candidate on the local chain *)

Section authorities.
#[local] Existing Instance Local.params.

Definition local_start : DemoState := default blank (start local_config).
Definition bob_stands : DemoState :=
  (move Local.contains (MCall (Signed 2) (CallValidatorSet register_as_candidate_call))
     local_start).2.

Lemma local_start_built :
  genesis_build local_config demo_ledger (λ _, true) = Some local_start.
Proof.
  apply some_of_check. vm_compute. reflexivity.
Qed.

Lemma validators_fit_authorities_witness :
  length (candidates bob_stands) = 1%nat ∧
  ∃ validators s', new_session 3 bob_stands = (Ok (Some validators), s') ∧
    Z.of_nat (length validators) <= 250.
Proof.
  split; [vm_compute; reflexivity|].
  destruct (validators_fit_authorities LocalConfig.aura_config no_frame_call Local.contains
    (admits anything) local_config demo_ledger (λ _, true) local_start bob_stands 3)
    as (v & s' & Hn & Hle & _).
  - vm_compute. discriminate.
  - split_and!; vm_compute; done.
  - exact local_start_built.
  - apply rtc_once. split; [|vm_compute; split; discriminate].
    apply (move_step _ _ (MCall (Signed 2) (CallValidatorSet register_as_candidate_call)));
      [unfold bob_stands; apply outcome|]; vm_compute; reflexivity.
  - exists v, s'. split; [exact Hn|exact Hle].
Defined.
End authorities.

(** ** Two eras of three blocks *)

(** The local runtime with short eras. *)
Definition short_params : RuntimeParams := {|
  rt_SessionPeriod := Local.SessionPeriod;
  rt_MaxCandidates := Local.MaxCandidates;
  rt_MinCandidates := Local.MinCandidates;
  rt_MaxInvulnerables := Local.MaxInvulnerables;
  rt_SlashRatio := Local.SlashRatio;
  rt_RewardAmount := Local.RewardAmount;
  rt_RegisterDeposit := Local.RegisterDeposit;
  rt_ProviderRewardsPercentage := Local.ProviderRewardsPercentage;
  rt_MaxNumberOfStakersPerProvider := Local.MaxNumberOfStakersPerProvider;
  rt_MinimumStakingAmount := Local.MinimumStakingAmount;
  rt_MaxUnlockingChunks := Local.MaxUnlockingChunks;
  rt_UnbondingPeriod := Local.UnbondingPeriod;
  rt_MaxEraStakeValues := Local.MaxEraStakeValues;
  rt_DefaultBlocksPerEra := 3;
  rt_MaxBytesInChainId := Local.MaxBytesInChainId
|}.

Section short_chain.
#[local] Existing Instance short_params.

#[local] Instance short_params_laws : RuntimeParamsLaws.
Proof. split; vm_compute; try done; split; done. Qed.

Definition short_authorship : pallet_authorship.Config Z DemoState :=
  pallet_authorship.mkConfig _ _ 5 note_author (λ _ _, mret tt).
Definition short_session : pallet_session.Config Z DemoState :=
  pallet_session.mkConfig _ _ IdentityValidator rt_SessionPeriod 0 new_session
    (λ _, mret tt) (λ _, mret tt).
Definition short_timestamp : pallet_timestamp.Config DemoState :=
  pallet_timestamp.mkConfig _ on_timestamp_set (Local.MILLISECS_PER_BLOCK / 2).

#[local] Instance short_handlers :
  RepositoryHandlers short_authorship short_session short_timestamp.
Proof. by split. Qed.

(** The two runs of a distribution agree; here percentages are numbers. *)
Definition same_config (c c' : DistributionConfig) : bool :=
  Z.eqb (providers_percent c) (providers_percent c') &&
  Z.eqb (validators_percent c) (validators_percent c').

Lemma same_config_eq c c' : same_config c c' = true → c' = c.
Proof.
  destruct c, c'. unfold same_config. simpl.
  by intros [->%Z.eqb_eq ->%Z.eqb_eq]%andb_true_iff.
Qed.

(** The calls of a block, each from an origin. *)
Fixpoint run_calls (l : list (Origin Z * DemoCall)) (s : DemoState) : option DemoState :=
  match l with
  | [] => Some s
  | (o, c) :: l' =>
      match move Local.contains (MCall o c) s with
      | (Ok _, s') =>
          if call_checks o c s' && bool_decide (Era (staking_of s') = Era (staking_of s)) &&
             same_config (BlockReward.RewardConfig s) (BlockReward.RewardConfig s')
          then run_calls l' s' else None
      | (Err _, _) => None
      end
  end.

Record BlockInput : Type := mkBlockInput {
  block_author : option Z;
  block_rotation : option Z;
  block_calls : list (Origin Z * DemoCall)
}.

Definition run_block (n : Z) (b : BlockInput) (s : DemoState) : option DemoState :=
  match initialize_block short_authorship short_session n (block_author b) (block_rotation b) s with
  | (Ok _, s1) =>
      if bool_decide (block_author b ≠ Some 98) &&
         (issued (ledger_of s1) + rt_RewardAmount <=? u128_max)
      then match on_timestamp_set s1 with
           | (Ok _, s2) => run_calls (block_calls b) s2
           | (Err _, _) => None
           end
      else None
  | (Err _, _) => None
  end.

Fixpoint run_chain (m : Z) (l : list BlockInput) (s : DemoState) : option DemoState :=
  match l with
  | [] => Some s
  | b :: l' => run_block (m + 1) b s ≫= run_chain (m + 1) l'
  end.

Abbreviation chain_of :=
  (chain_of short_authorship short_session short_timestamp no_frame_call Local.contains
    (admits anything)).

Lemma run_calls_settled l s s' :
  run_calls l s = Some s' → rtc (settled no_frame_call Local.contains (admits anything)) s s'.
Proof.
  revert s. induction l as [|[o c] l IH]; cbn [run_calls]; intros s Hr; [by simplify_eq|].
  destruct (move Local.contains (MCall o c) s) as [[[]|] s1] eqn:Hm; [|done].
  destruct (_ && _) eqn:Hc in Hr; [|done].
  apply andb_true_iff in Hc as [[Hok Hera%bool_decide_eq_true]%andb_true_iff Hcfg%same_config_eq].
  eapply rtc_l; [|by apply IH]. split; [|done].
  destruct (call_checked _ _ _ Hok) as (? & ? & ?). eapply extrinsic_call; [by left|done..].
Qed.

Lemma run_chain_chain n s m l s1 s' :
  chain_of n s m s1 → run_chain m l s1 = Some s' → chain_of n s (m + Z.of_nat (length l)) s'.
Proof.
  revert m s1. induction l as [|b l IH]; simpl; intros m s1 Hch Hr.
  { simplify_eq. by rewrite Z.add_0_r. }
  apply bind_Some in Hr as (s2 & Hb & Hr). rewrite Nat2Z.inj_succ.
  replace (m + Z.succ (Z.of_nat (length l))) with (m + 1 + Z.of_nat (length l)) by lia.
  apply (IH (m + 1) s2); [|done]. eapply chain_next; [done|]. unfold run_block in Hb.
  destruct (initialize_block _ _ _ _ _ _) as [[[]|] s3] eqn:Hi; [|done].
  destruct (_ && _) eqn:Hc in Hb; [|done].
  apply andb_true_iff in Hc as [Hne%bool_decide_eq_true Hmax%Z.leb_le].
  destruct (on_timestamp_set s3) as [[[]|] s4] eqn:Ht; [|done].
  apply (chain_block_intro _ _ _ _ _ _ _ _ _ (block_author b) (block_rotation b) s3 s4);
    [done|done|exact Hmax|done|]. by apply (run_calls_settled (block_calls b)).
Qed.

(** Eve registers Bob's node in block 1, Bob funds it in block 2, Charlie stakes
    in block 3 and pays for a project in block 5; a session ends in block 6. *)
Definition seven_inputs : list BlockInput := [
  mkBlockInput (Some 1) None
    [(Signed 5, CallDapi (register_provider_call 50 Node 2 eth_mainnet))];
  mkBlockInput (Some 1) None [(Signed 2, CallDapi (deposit_provider_call 50 (100 * MBTL)))];
  mkBlockInput None None [(Signed 3, CallDapiStaking (delegate_call 50 (30 * MBTL)))];
  mkBlockInput (Some 1) None [];
  mkBlockInput (Some 1) None [(Signed 3, CallDapi (register_project_call 7 eth_mainnet (5 * MBTL)))];
  mkBlockInput (Some 1) (Some 0) [];
  mkBlockInput (Some 1) None []
].

Definition short_start : DemoState := default blank (start local_config).
Definition chain_7 : DemoState := default blank (run_chain 0 seven_inputs short_start).

Lemma short_start_built :
  genesis_build local_config demo_ledger (λ _, true) = Some short_start.
Proof. apply some_of_check. vm_compute. reflexivity. Qed.

Lemma chain_7_built : chain_of 0 short_start 7 chain_7.
Proof.
  apply (run_chain_chain 0 short_start 0 seven_inputs short_start); [constructor|].
  apply some_of_check. vm_compute. reflexivity.
Qed.

(** Two eras are closed; the providers' half of three block rewards is in each,
    and the project's payment in the second. *)
Lemma era_collects_block_rewards_witness :
  (em_rewards <$> EraState (staking_of chain_7) !! 2) = Some (15 * 10 ^ 17 + 5 * MBTL) ∧
  ∃ em, EraState (staking_of chain_7) !! 2 = Some em ∧ 15 * 10 ^ 17 <= em_rewards em.
Proof.
  split; [vm_compute; reflexivity|].
  refine (era_collects_block_rewards short_authorship short_session short_timestamp
    no_frame_call Local.contains (admits anything) local_config demo_ledger (λ _, true)
    short_start 7 chain_7 2 _ short_start_built chain_7_built _ _ _ _).
  - split_and!; vm_compute; done.
  - vm_compute. split; discriminate.
  - vm_compute. split; done.
  - done.
  - vm_compute. split; discriminate.
Defined.

End short_chain.
