(* ===== verification/RuntimeLayout.v ===== *)
(** * The layout of the runtimes

    runtime/{keiko,local}/src/lib.rs: [construct_runtime!], which puts the pallets
    into an order, and the types of blocks, extrinsics and accounts, next to the
    opaque ones of node/src/primitives.rs.  The order of the pallets is the order
    of their hooks in a block, and their indices in calls and events. *)

From S2P Require Export RuntimeBlocks NodeMain.

(** ** [construct_runtime!] *)

(** The parts of a pallet; the flag says whether the part is generic ([<T>]). *)
Inductive Part : Type :=
| PalletPart
| CallPart
| StoragePart
| InherentPart
| ConfigPart (generic : bool)
| EventPart (generic : bool).

#[global] Instance Part_eq_dec : EqDecision Part.
Proof. solve_decision. Defined.

Record PalletDecl : Type := mkPalletDecl {
  pallet_name : string;
  pallet_path : string;
  pallet_parts : list Part
}.

Definition has_part (p : Part) (d : PalletDecl) : bool := bool_decide (p ∈ pallet_parts d).

(** The index of a pallet in calls, events and errors: its position. *)
Definition pallet_index (runtime : list PalletDecl) (name : string) : option nat :=
  fst <$> list_find (λ d, pallet_name d = name) runtime.

(** [AllPalletsWithSystem]: the hooks of all pallets, in the order of their
    declaration. *)
Fixpoint run_hooks {W} (hook : string → M DispatchError W unit)
    (runtime : list PalletDecl) : M DispatchError W unit :=
  match runtime with
  | [] => mret tt
  | d :: runtime => hook (pallet_name d);; run_hooks hook runtime
  end.

(** The message of [expect] when the runtime was built without its WASM binary. *)
Definition wasm_binary_missing : string :=
  "Development wasm binary is not available. This means the client is built with `BUILD_DUMMY_WASM_BINARY` flag and it is only usable for production chains. Please rebuild with the flag disabled.".

Module KeikoLayout.
Definition construct_runtime : list PalletDecl := [
  mkPalletDecl "System" "frame_system"
    [PalletPart; CallPart; ConfigPart false; StoragePart; EventPart true];
  mkPalletDecl "Identity" "pallet_identity" [PalletPart; CallPart; StoragePart; EventPart true];
  mkPalletDecl "Timestamp" "pallet_timestamp"
    [PalletPart; CallPart; StoragePart; InherentPart];
  mkPalletDecl "Authorship" "pallet_authorship"
    [PalletPart; CallPart; StoragePart; InherentPart];
  mkPalletDecl "ValidatorSet" "pallet_validator_set"
    [PalletPart; CallPart; StoragePart; ConfigPart true; EventPart true];
  mkPalletDecl "Session" "pallet_session"
    [PalletPart; CallPart; StoragePart; EventPart false; ConfigPart true];
  mkPalletDecl "Aura" "pallet_aura" [PalletPart; ConfigPart true];
  mkPalletDecl "Grandpa" "pallet_grandpa"
    [PalletPart; CallPart; StoragePart; ConfigPart false; EventPart false];
  mkPalletDecl "Balances" "pallet_balances"
    [PalletPart; CallPart; StoragePart; ConfigPart true; EventPart true];
  mkPalletDecl "TransactionPayment" "pallet_transaction_payment" [PalletPart; StoragePart];
  mkPalletDecl "Sudo" "pallet_sudo"
    [PalletPart; CallPart; ConfigPart true; StoragePart; EventPart true];
  mkPalletDecl "Utility" "pallet_utility" [PalletPart; CallPart; EventPart false];
  mkPalletDecl "Dapi" "pallet_dapi"
    [PalletPart; CallPart; StoragePart; ConfigPart true; EventPart true];
  mkPalletDecl "DapiStaking" "pallet_dapi_staking"
    [PalletPart; CallPart; StoragePart; EventPart true];
  mkPalletDecl "BlockReward" "pallet_block_reward"
    [PalletPart; CallPart; StoragePart; ConfigPart false; EventPart true]
].

(** [expect] on the embedded binary: [None] is a build without it, which panics. *)
Definition wasm_binary_unwrap (WASM_BINARY : option Bytes) : result string Bytes :=
  match WASM_BINARY with
  | Some binary => Ok binary
  | None => Err wasm_binary_missing
  end.
End KeikoLayout.

Module LocalLayout.
Definition construct_runtime : list PalletDecl := [
  mkPalletDecl "System" "frame_system"
    [PalletPart; CallPart; ConfigPart false; StoragePart; EventPart true];
  mkPalletDecl "Identity" "pallet_identity" [PalletPart; CallPart; StoragePart; EventPart true];
  mkPalletDecl "Timestamp" "pallet_timestamp"
    [PalletPart; CallPart; StoragePart; InherentPart];
  mkPalletDecl "Authorship" "pallet_authorship"
    [PalletPart; CallPart; StoragePart; InherentPart];
  mkPalletDecl "ValidatorSet" "pallet_validator_set"
    [PalletPart; CallPart; StoragePart; ConfigPart true; EventPart true];
  mkPalletDecl "Session" "pallet_session"
    [PalletPart; CallPart; StoragePart; EventPart false; ConfigPart true];
  mkPalletDecl "Aura" "pallet_aura" [PalletPart; ConfigPart true];
  mkPalletDecl "Grandpa" "pallet_grandpa"
    [PalletPart; CallPart; StoragePart; ConfigPart false; EventPart false];
  mkPalletDecl "Balances" "pallet_balances"
    [PalletPart; CallPart; StoragePart; ConfigPart true; EventPart true];
  mkPalletDecl "TransactionPayment" "pallet_transaction_payment" [PalletPart; StoragePart];
  mkPalletDecl "Sudo" "pallet_sudo"
    [PalletPart; CallPart; ConfigPart true; StoragePart; EventPart true];
  mkPalletDecl "Utility" "pallet_utility" [PalletPart; CallPart; EventPart false];
  mkPalletDecl "Dapi" "pallet_dapi"
    [PalletPart; CallPart; StoragePart; ConfigPart true; EventPart true];
  mkPalletDecl "DapiStaking" "pallet_dapi_staking"
    [PalletPart; CallPart; StoragePart; EventPart true];
  mkPalletDecl "BlockReward" "pallet_block_reward"
    [PalletPart; CallPart; StoragePart; ConfigPart false; EventPart true]
].

(** [expect] on the embedded binary: [None] is a build without it, which panics. *)
Definition wasm_binary_unwrap (WASM_BINARY : option Bytes) : result string Bytes :=
  match WASM_BINARY with
  | Some binary => Ok binary
  | None => Err wasm_binary_missing
  end.
End LocalLayout.

(** The indices of the pallets are the same on both chains. *)
Lemma layouts_agree : KeikoLayout.construct_runtime = LocalLayout.construct_runtime.
Proof. reflexivity. Qed.

(** ** Types

    Type expressions, as far as the runtimes' aliases use them; a type of
    Substrate or an enum of the runtime is its name. *)

Inductive RustType : Type :=
| u32 | u64 | u128 | unit_type
| Named (path : string)
| MultiAddress (account_id account_index : RustType)
| Header (number hash : RustType)
| Block (header extrinsic : RustType)
| SignedBlock (block : RustType)
| BlockId (block : RustType)
| UncheckedExtrinsic (address call signature extra : RustType)
| SignedPayload (call extra : RustType)
| Executive (system block context unsigned_validator pallets : RustType)
| Tuple (names : list string)
| AccountIdLookup (account_id account_index : RustType)
| IdentityLookup (account_id : RustType)
| AccountData (balance : RustType).

(** [Verify::Signer] and [IdentifyAccount::AccountId] of [sp_runtime]. *)
Class SignatureTypes := { Signer : RustType → RustType; IdentifiedAccount : RustType → RustType }.

(** "[MultiSignature] is verified against a [MultiSigner], which is converted into
    an [AccountId32]." *)
Class SignatureTypesLaws `{SignatureTypes} : Prop := {
  multi_signer : Signer (Named "sp_runtime::MultiSignature") = Named "sp_runtime::MultiSigner";
  multi_account : IdentifiedAccount (Named "sp_runtime::MultiSigner") =
                  Named "sp_runtime::AccountId32"
}.

(** The members of [frame_system::Config] that name types. *)
Record SystemTypes : Type := mkSystemTypes {
  system_Index : RustType;
  system_BlockNumber : RustType;
  system_Hash : RustType;
  system_Hashing : RustType;
  system_AccountId : RustType;
  system_Lookup : RustType;
  system_Header : RustType;
  system_AccountData : RustType
}.

(** node/src/primitives.rs *)
Module primitives.
Definition BlockNumber : RustType := u32.
Definition Header : RustType := Header BlockNumber (Named "BlakeTwo256").
Definition Block : RustType := Block Header (Named "sp_runtime::OpaqueExtrinsic").
Definition Balance : RustType := u128.
Definition Nonce : RustType := u32.
Definition AccountId : RustType := Named "sp_runtime::AccountId32".
Definition Signature : RustType := Named "sp_runtime::MultiSignature".
End primitives.

(** The runtimes' types, in the order in which they are used. *)

Module KeikoTypes.
Section types.
Context `{SignatureTypes}.
Definition Balance : RustType := u128.
Definition Signature : RustType := Named "sp_runtime::MultiSignature".
Definition AccountId : RustType := IdentifiedAccount (Signer Signature).
Definition Index : RustType := u32.
Definition Hash : RustType := Named "sp_core::H256".
Definition BlockNumber : RustType := u32.
Definition Address : RustType := MultiAddress AccountId unit_type.
Definition Header : RustType := Header BlockNumber (Named "BlakeTwo256").
Definition SignedExtra : RustType := Tuple [
  "frame_system::CheckSpecVersion<Runtime>";
  "frame_system::CheckTxVersion<Runtime>";
  "frame_system::CheckGenesis<Runtime>";
  "frame_system::CheckEra<Runtime>";
  "frame_system::CheckNonce<Runtime>";
  "frame_system::CheckWeight<Runtime>";
  "pallet_transaction_payment::ChargeTransactionPayment<Runtime>";
  "pallet_dapi::PreValidateRegulatorCalls<Runtime>"
]%string.
Definition UncheckedExtrinsic : RustType :=
  UncheckedExtrinsic Address (Named "Call") Signature SignedExtra.
Definition Block : RustType := Block Header UncheckedExtrinsic.
Definition SignedBlock : RustType := SignedBlock Block.
Definition BlockId : RustType := BlockId Block.
Definition Executive : RustType :=
  Executive (Named "Runtime") Block (Named "frame_system::ChainContext<Runtime>")
    (Named "Runtime") (Named "AllPalletsWithSystem").
Definition SignedPayload : RustType := SignedPayload (Named "Call") SignedExtra.
(** [NodeBlock] of [construct_runtime!] *)
Definition NodeBlock : RustType := RuntimeLayout.Block Header (Named "sp_runtime::OpaqueExtrinsic").
Definition system_types : SystemTypes :=
  mkSystemTypes Index BlockNumber Hash (Named "BlakeTwo256") AccountId
    (AccountIdLookup AccountId unit_type) Header (AccountData Balance).
(** [SigningTypes] and [SendTransactionTypes] *)
Definition Public : RustType := Signer Signature.
Definition signing_Signature : RustType := Signature.
Definition Extrinsic : RustType := UncheckedExtrinsic.
Definition OverarchingCall : RustType := Named "Call".
(** [impl_opaque_keys!]: the keys of a session, in the order of their encoding *)
Definition SessionKeys : list (string * string) := [("aura", "Aura"); ("grandpa", "Grandpa")]%string.
End types.
End KeikoTypes.

Module LocalTypes.
Section types.
Context `{SignatureTypes}.
Definition Balance : RustType := u128.
Definition Signature : RustType := Named "sp_runtime::MultiSignature".
Definition AccountId : RustType := IdentifiedAccount (Signer Signature).
Definition Index : RustType := u32.
Definition Hash : RustType := Named "sp_core::H256".
Definition BlockNumber : RustType := u32.
Definition Address : RustType := MultiAddress AccountId unit_type.
Definition Header : RustType := Header BlockNumber (Named "BlakeTwo256").
Definition SignedExtra : RustType := Tuple [
  "frame_system::CheckSpecVersion<Runtime>";
  "frame_system::CheckTxVersion<Runtime>";
  "frame_system::CheckGenesis<Runtime>";
  "frame_system::CheckEra<Runtime>";
  "frame_system::CheckNonce<Runtime>";
  "frame_system::CheckWeight<Runtime>";
  "pallet_transaction_payment::ChargeTransactionPayment<Runtime>";
  "pallet_dapi::PreValidateRegulatorCalls<Runtime>"
]%string.
Definition UncheckedExtrinsic : RustType :=
  UncheckedExtrinsic Address (Named "Call") Signature SignedExtra.
Definition Block : RustType := Block Header UncheckedExtrinsic.
Definition SignedBlock : RustType := SignedBlock Block.
Definition BlockId : RustType := BlockId Block.
Definition Executive : RustType :=
  Executive (Named "Runtime") Block (Named "frame_system::ChainContext<Runtime>")
    (Named "Runtime") (Named "AllPalletsWithSystem").
Definition SignedPayload : RustType := SignedPayload (Named "Call") SignedExtra.
(** [NodeBlock] of [construct_runtime!] *)
Definition NodeBlock : RustType := RuntimeLayout.Block Header (Named "sp_runtime::OpaqueExtrinsic").
Definition system_types : SystemTypes :=
  mkSystemTypes Index BlockNumber Hash (Named "BlakeTwo256") AccountId
    (AccountIdLookup AccountId unit_type) Header (AccountData Balance).
(** [SigningTypes] and [SendTransactionTypes] *)
Definition Public : RustType := Signer Signature.
Definition signing_Signature : RustType := Signature.
Definition Extrinsic : RustType := UncheckedExtrinsic.
Definition OverarchingCall : RustType := Named "Call".
(** [impl_opaque_keys!]: the keys of a session, in the order of their encoding *)
Definition SessionKeys : list (string * string) := [("aura", "Aura"); ("grandpa", "Grandpa")]%string.
End types.
End LocalTypes.

(** The node's opaque types are the runtimes': the same numbers, balances, nonces,
    accounts and signatures, and their block with the extrinsics opaque. *)
Lemma node_types_agree `{SignatureTypesLaws} :
  (KeikoTypes.Balance, KeikoTypes.Index, KeikoTypes.BlockNumber, KeikoTypes.AccountId,
   KeikoTypes.Signature, KeikoTypes.Header, KeikoTypes.NodeBlock) =
  (primitives.Balance, primitives.Nonce, primitives.BlockNumber, primitives.AccountId,
   primitives.Signature, primitives.Header, primitives.Block) ∧
  (LocalTypes.Balance, LocalTypes.Index, LocalTypes.BlockNumber, LocalTypes.AccountId,
   LocalTypes.Signature, LocalTypes.Header, LocalTypes.NodeBlock) =
  (primitives.Balance, primitives.Nonce, primitives.BlockNumber, primitives.AccountId,
   primitives.Signature, primitives.Header, primitives.Block).
Proof.
  unfold KeikoTypes.AccountId, LocalTypes.AccountId, KeikoTypes.Signature, LocalTypes.Signature.
  by rewrite multi_signer, multi_account.
Qed.

(** ** The hooks of a block, in the order of the declaration *)

Section hooks.
Context {AccountId : Type} `{Countable AccountId}.
Context {MassbitId : Type} `{Countable MassbitId}.
Context {Imb L : Type} `{!Currency AccountId Imb L}.
Context `{!PerbillOps} `{!DbWeightOps} {params : RuntimeParams} `{!PalletAccounts AccountId}.
Abbreviation ChainState :=
  (BlockReward.State (ValidatorSet.State AccountId (@Runtime.Chain AccountId _ _ MassbitId _ _ L))).
Context (authorship : pallet_authorship.Config AccountId ChainState).
Context (session : pallet_session.Config AccountId ChainState).

(** [on_initialize] of a pallet, for the pallets that have one that touches the
    modelled state: the author is noted, the session rotates, the era moves. *)
Definition pallet_hook (n : Z) (author : option AccountId) (rotation : option Z) (name : string) :
    M DispatchError ChainState unit :=
  if (name =? "Authorship")%string then
    from_option (pallet_authorship.note_author authorship) (mret tt) author
  else if (name =? "Session")%string then
    from_option (rotate_session session) (mret tt) rotation
  else if (name =? "DapiStaking")%string then
    w ← Runtime.staking_on_initialize n; mret tt
  else mret tt.

(** The order [RuntimeBlocks.initialize_block] has is the declared one. *)
Lemma initialize_block_order n author rotation s :
  initialize_block authorship session n author rotation s =
  (modify (set_block_number n);;
   run_hooks (pallet_hook n author rotation) KeikoLayout.construct_runtime) s.
Proof.
  unfold initialize_block, open_block. simpl. unfold pallet_hook. simpl.
  unfold mbind, M_bind, mret, M_ret. simpl. set (s1 := set_block_number n s).
  destruct (from_option (pallet_authorship.note_author authorship) _ author s1) as [[[]|e] s2];
    [|done].
  destruct (from_option (rotate_session session) _ rotation s2) as [[[]|e] s3]; [|done].
  by destruct (Runtime.staking_on_initialize n s3) as [[w|e] s4].
Qed.
End hooks.
