(* ===== verification/MockConfig.v ===== *)
(** * The runtimes of the mocks

    The mock.rs of the four pallets: the pallets each test runtime is made of
    ([construct_runtime!]) and what it gives to the pallets of Substrate.  The
    configurations of the repository's own pallets are in [StakingMock],
    [DapiTests], [ValidatorSetTests] and [BlockRewardTests], which evaluate the
    tests in them.  What [()] stands for in a configuration, Substrate's default
    limits of a block and the default version, are parameters. *)

From S2P Require Export RuntimeLayout.
From S2P Require StakingMock DapiTests ValidatorSetTests BlockRewardTests.

(** [frame_support::traits::Everything] *)
Definition Everything {Call} (_ : Call) : bool := true.

(** A handler [()] cannot fail. *)
Definition no_handler {S} : M DispatchError S unit := mret tt.

(** ** pallets/dapi-staking/src/mock.rs *)

Module StakingRuntime.
Definition construct_runtime : list PalletDecl := [
  mkPalletDecl "System" "frame_system"
    [PalletPart; CallPart; ConfigPart false; StoragePart; EventPart true];
  mkPalletDecl "Balances" "pallet_balances"
    [PalletPart; CallPart; StoragePart; ConfigPart true; EventPart true];
  mkPalletDecl "Timestamp" "pallet_timestamp"
    [PalletPart; CallPart; StoragePart; InherentPart];
  mkPalletDecl "DapiStaking" "pallet_dapi_staking"
    [PalletPart; CallPart; StoragePart; EventPart true]
].

Definition AccountId : RustType := u64.
Definition BlockNumber : RustType := u64.
Definition Balance : RustType := u128.

Definition system_types : SystemTypes :=
  mkSystemTypes u64 BlockNumber (Named "sp_core::H256") (Named "BlakeTwo256") AccountId
    (IdentityLookup AccountId) (Named "sp_runtime::testing::Header") (AccountData Balance).

Section config.
Context {Call BlockLength : Type} (default_length : BlockLength).
Context (default_weights : BlockWeightsBuilder) (default_version : NodeCli.RuntimeVersion).
(** [BlockWeights::simple_max]; the limits are declared, but the configuration has
    [type BlockWeights = ()]. *)
Context {Limits : Type} (simple_max : Z → Limits).

Definition BlockHashCount : Z := 250.
Definition BlockWeights : Limits := simple_max 1024.

Definition system_config :
    frame_system.Config Call Z StakingMock.MockStorage BlockLength NodeCli.RuntimeVersion :=
  frame_system.mkConfig _ _ _ _ _ _ Everything default_weights default_length BlockHashCount
    default_version ignores ignores no_number 16.

Definition MaxLocks : Z := 4.

Definition balances_config : pallet_balances.Config Z StakingMock.MockStorage :=
  pallet_balances.mkConfig _ _ (drops (AccountId := Z) (L := Ledger)) StakingMock.EXISTENTIAL_DEPOSIT MaxLocks no_number.

Definition MinimumPeriod : Z := 3.

Definition timestamp_config : pallet_timestamp.Config StakingMock.MockStorage :=
  pallet_timestamp.mkConfig _ no_handler MinimumPeriod.
End config.
End StakingRuntime.

(** ** pallets/dapi/src/mock.rs *)

Module DapiRuntime.
Definition construct_runtime : list PalletDecl := [
  mkPalletDecl "System" "frame_system"
    [PalletPart; CallPart; ConfigPart false; StoragePart; EventPart true];
  mkPalletDecl "Balances" "pallet_balances"
    [PalletPart; CallPart; StoragePart; ConfigPart true; EventPart true];
  mkPalletDecl "Timestamp" "pallet_timestamp"
    [PalletPart; CallPart; StoragePart; InherentPart];
  mkPalletDecl "Dapi" "pallet_dapi"
    [PalletPart; CallPart; StoragePart; ConfigPart true; EventPart true];
  mkPalletDecl "DapiStaking" "pallet_dapi_staking"
    [PalletPart; CallPart; StoragePart; EventPart true]
].

Definition AccountId : RustType := u64.
Definition BlockNumber : RustType := u64.
Definition Balance : RustType := u128.
Definition EraIndex : RustType := u32.
Definition ProjectDepositPeriod : Z := 10.

Definition system_types : SystemTypes :=
  mkSystemTypes u64 BlockNumber (Named "sp_core::H256") (Named "BlakeTwo256") AccountId
    (IdentityLookup AccountId) (Named "sp_runtime::testing::Header") (AccountData Balance).

Section config.
Context {Call BlockLength : Type} (default_length : BlockLength).
Context (default_weights : BlockWeightsBuilder) (default_version : NodeCli.RuntimeVersion).
(** [BlockWeights::simple_max]; the limits are declared, but the configuration has
    [type BlockWeights = ()]. *)
Context {Limits : Type} (simple_max : Z → Limits).

Definition BlockHashCount : Z := 250.
Definition BlockWeights : Limits := simple_max 1024.

Definition system_config :
    frame_system.Config Call Z DapiTests.DapiStorage BlockLength NodeCli.RuntimeVersion :=
  frame_system.mkConfig _ _ _ _ _ _ Everything default_weights default_length BlockHashCount
    default_version ignores ignores no_number 16.

Definition MaxLocks : Z := 4.

Definition balances_config : pallet_balances.Config Z DapiTests.DapiStaking :=
  pallet_balances.mkConfig _ _ (drops (AccountId := Z) (L := Ledger)) DapiTests.EXISTENTIAL_DEPOSIT MaxLocks no_number.

Definition MinimumPeriod : Z := 3.

Definition timestamp_config : pallet_timestamp.Config DapiTests.DapiStorage :=
  pallet_timestamp.mkConfig _ no_handler MinimumPeriod.
End config.
End DapiRuntime.

(** ** pallets/block-reward/src/mock.rs *)

Module RewardRuntime.
Definition construct_runtime : list PalletDecl := [
  mkPalletDecl "System" "frame_system"
    [PalletPart; CallPart; ConfigPart false; StoragePart; EventPart true];
  mkPalletDecl "Balances" "pallet_balances"
    [PalletPart; CallPart; StoragePart; ConfigPart true; EventPart true];
  mkPalletDecl "Timestamp" "pallet_timestamp"
    [PalletPart; CallPart; StoragePart; InherentPart];
  mkPalletDecl "BlockReward" "pallet_block_reward"
    [PalletPart; CallPart; StoragePart; EventPart true]
].

Definition AccountId : RustType := u64.
Definition BlockNumber : RustType := u64.
Definition Balance : RustType := u128.

Definition system_types : SystemTypes :=
  mkSystemTypes u64 BlockNumber (Named "sp_core::H256") (Named "BlakeTwo256") AccountId
    (IdentityLookup AccountId) (Named "sp_runtime::testing::Header") (AccountData Balance).

Section config.
Context {Call BlockLength : Type} (default_length : BlockLength).
Context (default_weights : BlockWeightsBuilder) (default_version : NodeCli.RuntimeVersion).
(** [BlockWeights::simple_max]; the limits are declared, but the configuration has
    [type BlockWeights = ()]. *)
Context {Limits : Type} (simple_max : Z → Limits).

Definition BlockHashCount : Z := 250.
Definition BlockWeights : Limits := simple_max 1024.

Definition system_config :
    frame_system.Config Call Z BlockRewardTests.BrStorage BlockLength NodeCli.RuntimeVersion :=
  frame_system.mkConfig _ _ _ _ _ _ Everything default_weights default_length BlockHashCount
    default_version ignores ignores no_number 16.

Definition MaxLocks : Z := 4.

Definition balances_config : pallet_balances.Config Z Ledger :=
  pallet_balances.mkConfig _ _ (drops (AccountId := Z) (L := Ledger)) BlockRewardTests.EXISTENTIAL_DEPOSIT MaxLocks no_number.

Definition MinimumPeriod : Z := 3.

Definition timestamp_config : pallet_timestamp.Config BlockRewardTests.BrStorage :=
  pallet_timestamp.mkConfig _ no_handler MinimumPeriod.
End config.
End RewardRuntime.

(** ** pallets/validator-set/src/mock.rs *)

Module ValidatorRuntime.
Import ValidatorSetTests.

Definition construct_runtime : list PalletDecl := [
  mkPalletDecl "System" "frame_system"
    [PalletPart; CallPart; ConfigPart false; StoragePart; EventPart true];
  mkPalletDecl "Timestamp" "pallet_timestamp"
    [PalletPart; CallPart; StoragePart; InherentPart];
  mkPalletDecl "Session" "pallet_session"
    [PalletPart; CallPart; StoragePart; EventPart false; ConfigPart true];
  mkPalletDecl "Aura" "pallet_aura" [PalletPart; StoragePart; ConfigPart true];
  mkPalletDecl "Balances" "pallet_balances"
    [PalletPart; CallPart; StoragePart; ConfigPart true; EventPart true];
  mkPalletDecl "ValidatorSet" "validator_set"
    [PalletPart; CallPart; StoragePart; EventPart true];
  mkPalletDecl "Authorship" "pallet_authorship"
    [PalletPart; CallPart; StoragePart; InherentPart]
].

(** [MockSessionKeys] and its conversion *)
Record MockSessionKeys : Type := mkMockSessionKeys { aura : Z }.
Definition from_UintAuthorityId (aura : Z) : MockSessionKeys := mkMockSessionKeys aura.

Definition system_types : SystemTypes :=
  mkSystemTypes u64 u64 (Named "sp_core::H256") (Named "BlakeTwo256") u64
    (IdentityLookup u64) (Named "sp_runtime::testing::Header") (AccountData u64).

(** [TestSessionHandler::on_disabled] *)
Definition on_disabled (_validator_index : Z) (e : Env) : Env := e.

Section config.
Context {Call BlockLength : Type} (default_length : BlockLength).
Context (default_weights : BlockWeightsBuilder) (default_version : NodeCli.RuntimeVersion).
(** [pallet_aura]'s [OnTimestampSet]. *)
Context (aura_on_timestamp_set : M DispatchError VsStorage unit).

Definition BlockHashCount : Z := 250.
Definition SS58Prefix : Z := 42.

Definition system_config :
    frame_system.Config Call Z VsStorage BlockLength NodeCli.RuntimeVersion :=
  frame_system.mkConfig _ _ _ _ _ _ Everything default_weights default_length BlockHashCount
    default_version ignores ignores SS58Prefix 16.

Definition MaxReserves : Z := 50.

Definition balances_config : pallet_balances.Config Z Env :=
  pallet_balances.mkConfig _ _ (drops (AccountId := Z) (L := Ledger)) ExistentialDeposit
    no_number MaxReserves.

Definition authorship_config : pallet_authorship.Config Z VsStorage :=
  pallet_authorship.mkConfig _ _ no_number ValidatorSet.note_author ValidatorSet.note_uncle.

Definition MinimumPeriod : Z := 1.

Definition timestamp_config : pallet_timestamp.Config VsStorage :=
  pallet_timestamp.mkConfig _ aura_on_timestamp_set MinimumPeriod.

(** [MaxAuthorities], declared with the validator set's configuration *)
Definition MaxAuthorities : Z := 100_000.

Definition aura_config : pallet_aura.Config := pallet_aura.mkConfig MaxAuthorities none_disabled.

Definition session_config : pallet_session.Config Z VsStorage :=
  pallet_session.mkConfig _ _ Some Period Offset ValidatorSet.new_session
    ValidatorSet.end_session ValidatorSet.start_session.
End config.

(** The tests' blocks run the hooks in the declared order: the session first,
    then the author. *)
Definition hook (n : Z) (name : string) : M DispatchError VsStorage unit :=
  if (name =? "Session")%string then session_on_initialize n
  else if (name =? "Authorship")%string then authorship_on_initialize n
  else mret tt.

Lemma hook_order n s :
  run_hooks (hook n) construct_runtime s =
  (session_on_initialize n;; authorship_on_initialize n) s.
Proof.
  simpl. unfold hook. simpl. unfold mbind, M_bind, mret, M_ret.
  destruct (session_on_initialize n s) as [[[]|e] s1]; [|done].
  by destruct (authorship_on_initialize n s1) as [[[]|e] s2].
Qed.
End ValidatorRuntime.
